(** * Swarm construction environments: a shallow embedding

    This development embeds the simulation core of the repository
    (rl-training/env.py, class [SwarmConstructionEnv], and
    rl-training/text_conditioned_env.py, class [TextConditioned3DEnv]) and
    proves the properties its specification states about it.

    Conventions.
    - A NumPy array of rank 3 is a list of planes, a plane a list of rows,
      a row a list of cells.  Integer indexing follows NumPy: an index [i]
      of an axis of length [n] is valid when [-n <= i < n], a negative one
      counts from the end, anything else raises [IndexError]; a rank-2
      array indexed with three integers raises [IndexError] as well.
    - Occupancy cells are float32 values; the code only ever stores 0.0 and
      1.0 in them, both exact, so a cell is represented by an integer and
      the tests [> 0] and [== 0] are kept as the code writes them.
    - Agent coordinates are int32; [+= 1] and [-= 1] wrap around.
    - Python exceptions are values of [exn]; a method is a function from the
      object state to a result and the state it leaves behind, so that the
      mutations done before an exception is raised stay visible.
    - The ambient random source is an explicit argument.
    - Scores and rewards are ratios of small integers and decimal constants:
      they are computed in [Q].  The scent field goes through a square root
      and an exponential: it is computed in [R], the exact counterpart of
      the float64 arithmetic of SciPy. *)

From Stdlib Require Import ZArith QArith Qround Reals Lia Lra List String.
From Stdlib Require Lqa.
From stdpp Require Import base option list.

Local Open Scope Z_scope.

(** ** Exceptions and the method monad *)

Inductive exn : Type := IndexError | KeyError | ValueError.

Definition result (A : Type) : Type := (exn + A)%type.

Definition M (S A : Type) : Type := S -> result A * S.

Definition ret {S A} (a : A) : M S A := fun s => (inr a, s).
Definition raise {S A} (e : exn) : M S A := fun s => (inl e, s).
Definition bind {S A B} (m : M S A) (k : A -> M S B) : M S B :=
  fun s => match m s with
           | (inr a, s') => k a s'
           | (inl e, s') => (inl e, s')
           end.
Definition gets {S A} (f : S -> A) : M S A := fun s => (inr (f s), s).
Definition modify {S} (f : S -> S) : M S unit := fun s => (inr tt, f s).
Definition lift {S A} (e : exn) (o : option A) : M S A :=
  match o with Some a => ret a | None => raise e end.

Notation "x <~ m ;; k" := (bind m (fun x => k))
  (at level 90, m at level 60, right associativity).
Notation "m ;;; k" := (bind m (fun _ => k))
  (at level 90, right associativity).

(** [for x in l: body x] *)
Fixpoint for_each {S X} (l : list X) (body : X -> M S unit) : M S unit :=
  match l with
  | [] => ret tt
  | x :: l' => body x ;;; for_each l' body
  end.

(** [for x in l] collecting one value per iteration (a dict or list
    comprehension over [range]). *)
Fixpoint for_collect {S X A} (l : list X) (body : X -> M S A) : M S (list A) :=
  match l with
  | [] => ret []
  | x :: l' => a <~ body x ;; r <~ for_collect l' body ;; ret (a :: r)
  end.

(** [range(lo, hi)] over the integers. *)
Definition zrange (lo hi : Z) : list Z :=
  map (fun k => lo + Z.of_nat k) (seq 0 (Z.to_nat (hi - lo))).

(** ** NumPy arrays *)

Definition norm_index (n : nat) (i : Z) : option nat :=
  if (0 <=? i) && (i <? Z.of_nat n) then Some (Z.to_nat i)
  else if (- Z.of_nat n <=? i) && (i <? 0) then Some (Z.to_nat (i + Z.of_nat n))
  else None.

Abbreviation arr3 A := (list (list (list A))).
Abbreviation arr2 A := (list (list A)).

Definition item {A} (l : list A) (i : Z) : option A :=
  k ← norm_index (length l) i; l !! k.

(** [a[x, y, z]] *)
Definition get3 {A} (a : arr3 A) (x y z : Z) : option A :=
  p ← item a x; r ← item p y; item r z.

(** [a[x, y, z] = v] *)
Definition set3 {A} (a : arr3 A) (x y z : Z) (v : A) : option (arr3 A) :=
  xi ← norm_index (length a) x; p ← a !! xi;
  yi ← norm_index (length p) y; r ← p !! yi;
  zi ← norm_index (length r) z;
  Some (<[xi := <[yi := <[zi := v]> r]> p]> a).

Definition full3 {A} (n : nat) (v : A) : arr3 A :=
  replicate n (replicate n (replicate n v)).
Definition full2 {A} (n : nat) (v : A) : arr2 A :=
  replicate n (replicate n v).

(** [a.fill(v)] keeps the shape. *)
Definition fill3 {A} (v : A) (a : arr3 A) : arr3 A :=
  map (map (map (fun _ => v))) a.

Definition map3 {A B} (f : A -> B) (a : arr3 A) : arr3 B :=
  map (map (map f)) a.

(** [a.flatten()], row-major. *)
Definition flatten3 {A} (a : arr3 A) : list A := concat (concat a).
Definition flatten2 {A} (a : arr2 A) : list A := concat a.

(** [a.shape == (n, n, n)] and [a.shape == (n, n)] *)
Definition shape3 {A} (n : nat) (a : arr3 A) : Prop :=
  length a = n /\
  Forall (fun p => length p = n /\ Forall (fun r => length r = n) p) a.
Definition shape2 {A} (n : nat) (a : arr2 A) : Prop :=
  length a = n /\ Forall (fun r => length r = n) a.

(** The array built by a comprehension over the index cube. *)
Definition tab3 {A} (n : nat) (f : nat -> nat -> nat -> A) : arr3 A :=
  map (fun x => map (fun y => map (fun z => f x y z) (seq 0 n)) (seq 0 n))
      (seq 0 n).

Abbreviation vol := (list (list (list Z))).
Abbreviation rvol := (list (list (list R))).

(** Reading a float64 array at indices known to be in range. *)
Definition at3 (a : rvol) (x y z : nat) : R :=
  default 0%R (p ← a !! x; r ← p !! y; r !! z).

Definition occupied (v : Z) : bool := 0 <? v.

(** [np.sum(p(a))] for an element-wise test [p]. *)
Definition count3 (p : Z -> bool) (a : vol) : Z :=
  Z.of_nat (length (filter (fun v => p v = true) (flatten3 a))).
Definition zsum (l : list Z) : Z := fold_right Z.add 0 l.

(** int32 arithmetic *)
Definition wrap32 (z : Z) : Z := (z + 2147483648) mod 4294967296 - 2147483648.

(** ** The random source *)

(** [np.random.randint(lo, hi)]: [raw] is the number the generator draws;
    an empty interval raises [ValueError]. *)
Definition randint (lo hi raw : Z) : result Z :=
  if lo <? hi then inr (lo + raw mod (hi - lo)) else inl ValueError.

(** [np.zeros(dims)]: a negative dimension, or a byte size that does not
    fit the address space, raises [ValueError]. *)
Definition np_zeros_ok (dims : list Z) (itemsize : Z) : bool :=
  forallb (fun d => 0 <=? d) dims
  && (fold_right Z.mul itemsize dims <? 9223372036854775808).

Definition np_zeros3 {A} (n : Z) (itemsize : Z) (zero : A) : result (arr3 A) :=
  if np_zeros_ok [n; n; n] itemsize then inr (full3 (Z.to_nat n) zero)
  else inl ValueError.

Definition np_zeros2 {A} (n : Z) (itemsize : Z) (zero : A) : result (arr2 A) :=
  if np_zeros_ok [n; n] itemsize then inr (full2 (Z.to_nat n) zero)
  else inl ValueError.

(** Element-wise combination of two arrays of the same shape. *)
Definition zip3 {A B C} (f : A -> B -> C) (a : arr3 A) (b : arr3 B) : arr3 C :=
  zip_with (zip_with (zip_with f)) a b.

(** [np.sum] of a boolean array counts its [True] entries. *)
Definition np_sum_bool (l : list bool) : Z :=
  zsum (map (fun b : bool => if b then 1 else 0) l).

(** ** Float results that may be undefined *)

(** The quotient of two integer counts is a float64; [0 / 0] is [nan] (NumPy
    warns, it does not raise).  The counts at hand never exceed the number of
    cells, and the quotient is only compared with 0.8, 0.85 and 1.0: for
    those the rounded quotient compares as the exact one does. *)
Inductive fval : Type := Fin (q : Q) | NaN.

(** [a / b] for counts [0 <= a <= b]. *)
Definition true_divide (a b : Z) : fval :=
  if b =? 0 then NaN else Fin (inject_Z a / inject_Z b)%Q.

Definition fmap2 (f : Q -> Q -> Q) (x y : fval) : fval :=
  match x, y with Fin a, Fin b => Fin (f a b) | _, _ => NaN end.

(** [x > c]: any comparison with [nan] is false. *)
Definition fgt (x : fval) (c : Q) : bool :=
  match x with Fin q => negb (Qle_bool q c) | NaN => false end.

(** Agent coordinates: one row of the [(num_agents, 3)] int32 array. *)
Record xyz : Type := XYZ { c0 : Z; c1 : Z; c2 : Z }.

Definition bump (axis : nat) (d : Z) (p : xyz) : xyz :=
  match axis with
  | O => XYZ (wrap32 (c0 p + d)) (c1 p) (c2 p)
  | S O => XYZ (c0 p) (wrap32 (c1 p + d)) (c2 p)
  | _ => XYZ (c0 p) (c1 p) (wrap32 (c2 p + d))
  end.

(** Where an agent is spawned: [edge] and [r] are the two numbers drawn. *)
Definition spawn (n : Z) (edge_raw r_raw : Z) : result xyz :=
  match randint 0 4 edge_raw with
  | inl ex => inl ex
  | inr edge =>
    match randint 0 n r_raw with
    | inl ex => inl ex
    | inr r =>
      inr (if edge =? 0 then XYZ 0 0 r
           else if edge =? 1 then XYZ r 0 (n - 1)
           else if edge =? 2 then XYZ (n - 1) 0 r
           else XYZ r 0 0)
    end
  end.

(** A target voxel of the training data: [{'x': .., 'y': .., 'z': ..}]. *)
Record voxel : Type := Voxel { vx : Z; vy : Z; vz : Z }.

(** ** SciPy: Euclidean distance transform and Gaussian filter

    Both functions are library code.  They are written out here from
    SciPy's documented behaviour, over exact reals. *)

(** The indices of the background (zero) cells of an array. *)
Definition background (a : vol) : list (Z * Z * Z) :=
  concat (imap (fun x p =>
    concat (imap (fun y r =>
      concat (imap (fun z (v : Z) =>
        if v =? 0 then [(Z.of_nat x, Z.of_nat y, Z.of_nat z)] else []) r)) p)) a).

Definition sqdist (x y z : Z) (q : Z * Z * Z) : Z :=
  let '(a, b, c) := q in
  (x - a) * (x - a) + (y - b) * (y - b) + (z - c) * (z - c).

(** Squared distance to the nearest background cell.  When the input has no
    background cell at all, SciPy's feature transform leaves every
    feature index at its initial value [(-1, 0, 0)], and the distances
    returned are the distances to that point. *)
Definition nearest_sq (bg : list (Z * Z * Z)) (x y z : Z) : Z :=
  match bg with
  | [] => sqdist x y z (-1, 0, 0)
  | q :: bg' =>
      fold_right (fun q' m => Z.min (sqdist x y z q') m) (sqdist x y z q) bg'
  end.

(** [scipy.ndimage.distance_transform_edt(a)] *)
Definition distance_transform_edt (a : vol) : rvol :=
  let bg := background a in
  tab3 (length a) (fun x y z =>
    sqrt (IZR (nearest_sq bg (Z.of_nat x) (Z.of_nat y) (Z.of_nat z)))).

(** [np.max(a)]; an empty array raises [ValueError]. *)
Definition np_max (a : rvol) : option R :=
  match flatten3 a with
  | [] => None
  | v :: l => Some (fold_left Rmax l v)
  end.

Definition Rsum (l : list R) : R := fold_right Rplus 0%R l.

(** The kernel of [gaussian_filter(_, sigma=0.5)]: radius
    [int(4.0 * 0.5 + 0.5) = 2], taps [exp(-0.5 / 0.25 * k**2)] normalised
    by their sum. *)
Definition taps : list Z := zrange (-2) 3.
Definition phi (k : Z) : R := exp (- 2 * IZR (k * k)).
Definition weight (k : Z) : R := (phi k / Rsum (map phi taps))%R.

(** Border mode 'reflect': [d c b a | a b c d | d c b a]. *)
Definition reflect (n : nat) (i : Z) : nat :=
  let m := i mod (2 * Z.of_nat n) in
  Z.to_nat (if m <? Z.of_nat n then m else 2 * Z.of_nat n - 1 - m).

(** One [correlate1d] pass along each axis. *)
Definition correlate_axis0 (a : rvol) : rvol :=
  let n := length a in
  tab3 n (fun x y z =>
    Rsum (map (fun k => (weight k * at3 a (reflect n (Z.of_nat x + k)) y z)%R) taps)).
Definition correlate_axis1 (a : rvol) : rvol :=
  let n := length a in
  tab3 n (fun x y z =>
    Rsum (map (fun k => (weight k * at3 a x (reflect n (Z.of_nat y + k)) z)%R) taps)).
Definition correlate_axis2 (a : rvol) : rvol :=
  let n := length a in
  tab3 n (fun x y z =>
    Rsum (map (fun k => (weight k * at3 a x y (reflect n (Z.of_nat z + k)))%R) taps)).

(** [scipy.ndimage.gaussian_filter(a, sigma=0.5)]: the axes are filtered
    one after the other. *)
Definition gaussian_filter (a : rvol) : rvol :=
  correlate_axis2 (correlate_axis1 (correlate_axis0 a)).

(** ** text_conditioned_env.py: class TextConditioned3DEnv *)

Module TextConditioned3DEnv.

Record env : Type := Env {
  num_agents : nat;
  grid_size : Z;
  local_size : Z;
  max_steps : Z;
  grid : vol;
  agent_positions : list xyz;
  agent_has_block : list bool;
  target : vol;
  scent_field : rvol;
  current_text : string;
  step_count : Z }.

Definition with_grid (g : vol) (e : env) : env :=
  Env (num_agents e) (grid_size e) (local_size e) (max_steps e) g
      (agent_positions e) (agent_has_block e) (target e) (scent_field e)
      (current_text e) (step_count e).
Definition with_positions (ps : list xyz) (e : env) : env :=
  Env (num_agents e) (grid_size e) (local_size e) (max_steps e) (grid e)
      ps (agent_has_block e) (target e) (scent_field e)
      (current_text e) (step_count e).
Definition with_has_block (hs : list bool) (e : env) : env :=
  Env (num_agents e) (grid_size e) (local_size e) (max_steps e) (grid e)
      (agent_positions e) hs (target e) (scent_field e)
      (current_text e) (step_count e).
Definition with_target (t : vol) (e : env) : env :=
  Env (num_agents e) (grid_size e) (local_size e) (max_steps e) (grid e)
      (agent_positions e) (agent_has_block e) t (scent_field e)
      (current_text e) (step_count e).
Definition with_scent (s : rvol) (e : env) : env :=
  Env (num_agents e) (grid_size e) (local_size e) (max_steps e) (grid e)
      (agent_positions e) (agent_has_block e) (target e) s
      (current_text e) (step_count e).
Definition with_text (t : string) (e : env) : env :=
  Env (num_agents e) (grid_size e) (local_size e) (max_steps e) (grid e)
      (agent_positions e) (agent_has_block e) (target e) (scent_field e)
      t (step_count e).
Definition with_step_count (c : Z) (e : env) : env :=
  Env (num_agents e) (grid_size e) (local_size e) (max_steps e) (grid e)
      (agent_positions e) (agent_has_block e) (target e) (scent_field e)
      (current_text e) c.

(** [self.agent_positions[i]], [self.agent_has_block[i]] and
    [self.grid[x, y, z]], [self.target[x, y, z]]. *)
Definition position_of (i : nat) : M env xyz :=
  fun e => lift IndexError (agent_positions e !! i) e.
Definition has_block_of (i : nat) : M env bool :=
  fun e => lift IndexError (agent_has_block e !! i) e.
Definition grid_at (x y z : Z) : M env Z :=
  fun e => lift IndexError (get3 (grid e) x y z) e.
Definition target_at (x y z : Z) : M env Z :=
  fun e => lift IndexError (get3 (target e) x y z) e.

(** [__init__(num_agents, grid_size, local_obs_size)].  The arrays are
    float32 (4 bytes), int32 (4 bytes) and bool (1 byte). *)
Definition __init__ (num_agents grid_size local_obs_size : Z) : result env :=
  match np_zeros3 grid_size 4 0 with
  | inl ex => inl ex
  | inr zeros =>
    if np_zeros_ok [num_agents; 3] 4 && np_zeros_ok [num_agents] 1 then
      let n := Z.to_nat num_agents in
      inr (Env n grid_size local_obs_size 150
               zeros (replicate n (XYZ 0 0 0)) (replicate n false)
               zeros (map3 IZR zeros) EmptyString 0)
    else inl ValueError
  end.

(** [_generate_scent_field()] *)
Definition _generate_scent_field : M env unit :=
  tgt <~ gets target ;;
  let distance_map := distance_transform_edt (map3 (fun v => 1 - v) tgt) in
  max_dist <~ lift ValueError (np_max distance_map) ;;
  let field :=
    if Rlt_dec 0 max_dist
    then map3 (fun d => (1 - d / max_dist)%R) distance_map
    else map3 IZR tgt in
  modify (with_scent (gaussian_filter field)).

(** [load_training_pair(text, voxels)] *)
Definition load_training_pair (text : string) (voxels : list voxel) : M env unit :=
  modify (with_text text) ;;;
  modify (fun e => with_target (fill3 0 (target e)) e) ;;;
  for_each voxels (fun v =>
    n <~ gets grid_size ;;
    if (0 <=? vx v) && (vx v <? n) && (0 <=? vy v) && (vy v <? n)
       && (0 <=? vz v) && (vz v <? n)
    then
      tgt <~ gets target ;;
      tgt' <~ lift IndexError (set3 tgt (vx v) (vy v) (vz v) 1) ;;
      modify (with_target tgt')
    else ret tt) ;;;
  _generate_scent_field.

(** Truth value of an optional string and of an optional list. *)
Definition truthy_text (t : option string) : bool :=
  match t with Some (String _ _) => true | _ => false end.
Definition truthy_list {A} (l : option (list A)) : bool :=
  match l with Some (_ :: _) => true | _ => false end.

(** The body of the three nested loops of [_get_local_obs]: the cell at
    offset [(dx, dy, dz)] from the agent is copied into both patches when
    it lies inside the grid. *)
Definition copy_cell (pos : xyz) (n half : Z) (g : vol) (sc : rvol)
    (dx dy dz : Z) : M (vol * rvol) unit :=
  let wx := c0 pos + dx in
  let wy := c1 pos + dy in
  let wz := c2 pos + dz in
  if (0 <=? wx) && (wx <? n) && (0 <=? wy) && (wy <? n)
     && (0 <=? wz) && (wz <? n)
  then
    v <~ lift IndexError (get3 g wx wy wz) ;;
    lg <~ gets fst ;;
    lg' <~ lift IndexError (set3 lg (dx + half) (dy + half) (dz + half) v) ;;
    modify (fun l => (lg', snd l)) ;;;
    s <~ lift IndexError (get3 sc wx wy wz) ;;
    ls <~ gets snd ;;
    ls' <~ lift IndexError (set3 ls (dx + half) (dy + half) (dz + half) s) ;;
    modify (fun l => (fst l, ls'))
  else ret tt.

(** [_get_local_obs(agent_id)] *)
Definition _get_local_obs (agent_id : nat) : M env (vol * rvol) :=
  pos <~ position_of agent_id ;;
  size <~ gets local_size ;;
  n <~ gets grid_size ;;
  g <~ gets grid ;;
  sc <~ gets scent_field ;;
  let half := size / 2 in
  local_grid0 <~ (fun e => (np_zeros3 size 8 0, e)) ;;
  local_scent0 <~ (fun e => (np_zeros3 size 8 0%R, e)) ;;
  let fill : M (vol * rvol) unit :=
    for_each (zrange (- half) (half + 1)) (fun dx =>
    for_each (zrange (- half) (half + 1)) (fun dy =>
    for_each (zrange (- half) (half + 1)) (fun dz =>
      copy_cell pos n half g sc dx dy dz))) in
  fun e => (match fill (local_grid0, local_scent0) with
            | (inr _, l) => inr l
            | (inl ex, _) => inl ex
            end, e).

Definition float_of_bool (b : bool) : R := if b then 1%R else 0%R.

(** The part of an agent's observation that follows the normalised
    position: local grid, local scent, holding flag. *)
Definition local_part (l : vol * rvol) (has_block : bool) : list R :=
  map IZR (flatten3 (fst l)) ++ flatten3 (snd l) ++ [float_of_bool has_block].

(** [_get_observations()]: one vector per agent, in agent order. *)
Definition _get_observations : M env (list (list R)) :=
  na <~ gets num_agents ;;
  for_collect (seq 0 na) (fun i =>
    l <~ _get_local_obs i ;;
    pos <~ position_of i ;;
    n <~ gets grid_size ;;
    hb <~ has_block_of i ;;
    ret ([(IZR (c0 pos) / IZR n)%R; (IZR (c1 pos) / IZR n)%R;
          (IZR (c2 pos) / IZR n)%R] ++ local_part l hb)).

(** The spawn loop of [reset]: [for i in range(self.num_agents)]; [rng i]
    are the two numbers drawn for agent [i]. *)
Definition spawn_agents (rng : nat -> Z * Z) (na : nat) : M env unit :=
  for_each (seq 0 na) (fun i =>
    n <~ gets grid_size ;;
    p <~ (fun e => (spawn n (fst (rng i)) (snd (rng i)), e)) ;;
    ps <~ gets agent_positions ;;
    if decide (i < length ps)%nat
    then modify (with_positions (<[i := p]> ps))
    else raise IndexError).

(** [reset(text, voxels)] *)
Definition reset (text : option string) (voxels : option (list voxel))
    (rng : nat -> Z * Z) : M env (list (list R)) :=
  modify (fun e => with_grid (fill3 0 (grid e)) e) ;;;
  modify (with_step_count 0) ;;;
  (if truthy_text text && truthy_list voxels
   then load_training_pair (default EmptyString text) (default [] voxels)
   else ret tt) ;;;
  na <~ gets num_agents ;;
  spawn_agents rng na ;;;
  modify (with_has_block (replicate na true)) ;;;
  _get_observations.

(** [_get_match_score()] *)
Definition _get_match_score (e : env) : fval :=
  if zsum (flatten3 (target e)) =? 0 then Fin 0
  else
    let correct :=
      np_sum_bool (flatten3 (zip3 (fun g t => occupied g && occupied t)
                                  (grid e) (target e))) in
    let total := np_sum_bool (flatten3 (map3 occupied (target e))) in
    true_divide correct total.

(** [_calculate_rewards()]: one reward per agent, in agent order. *)
Definition _calculate_rewards : M env (list fval) :=
  na <~ gets num_agents ;;
  for_collect (seq 0 na) (fun i =>
    pos <~ position_of i ;;
    g <~ grid_at (c0 pos) (c1 pos) (c2 pos) ;;
    t <~ target_at (c0 pos) (c1 pos) (c2 pos) ;;
    let reward := 0%Q in
    let reward := if (0 <? g) && (0 <? t) then (reward + 100)%Q else reward in
    let reward := if (0 <? g) && (t =? 0) then (reward - 2)%Q else reward in
    match_score <~ gets _get_match_score ;;
    let reward := fmap2 Qplus (Fin reward) (fmap2 Qmult match_score (Fin 20)) in
    let reward := fmap2 Qminus reward (Fin (1 # 10)) in
    hb <~ has_block_of i ;;
    ret (if negb hb && (0 <? t) && (g =? 0)
         then fmap2 Qminus reward (Fin 5) else reward)).

(** The body of the agent loop of [step] for agent [i]. *)
Definition act (i : nat) (action : Z) : M env unit :=
  pos <~ position_of i ;;
  n <~ gets grid_size ;;
  let move axis d :=
    modify (fun e => with_positions (alter (bump axis d) i (agent_positions e)) e) in
  if (action =? 0) && (0 <? c0 pos) then move 0%nat (-1)
  else if (action =? 2) && (c0 pos <? n - 1) then move 0%nat 1
  else if (action =? 1) && (c2 pos <? n - 1) then move 2%nat 1
  else if (action =? 3) && (0 <? c2 pos) then move 2%nat (-1)
  else if (action =? 4) && (c1 pos <? n - 1) then
    if c1 pos =? 0 then move 1%nat 1
    else
      below <~ grid_at (c0 pos) (c1 pos - 1) (c2 pos) ;;
      if 0 <? below then move 1%nat 1 else ret tt
  else if (action =? 5) && (0 <? c1 pos) then move 1%nat (-1)
  else if action =? 6 then
    hb <~ has_block_of i ;;
    if hb then
      g <~ gets grid ;;
      g' <~ lift IndexError (set3 g (c0 pos) (c1 pos) (c2 pos) 1) ;;
      modify (with_grid g') ;;;
      modify (fun e => with_has_block (<[i := false]> (agent_has_block e)) e)
    else ret tt
  else if action =? 7 then
    hb <~ has_block_of i ;;
    if hb then ret tt
    else
      here <~ grid_at (c0 pos) (c1 pos) (c2 pos) ;;
      if here =? 0
      then modify (fun e => with_has_block (<[i := true]> (agent_has_block e)) e)
      else ret tt
  else ret tt.

(** The agent loop of [step]: [for i in range(self.num_agents)];
    [actions] lists the values of the dict under the keys ['agent_0'],
    ['agent_1'], ...; a missing key raises [KeyError]. *)
Definition agent_loop (actions : list Z) (na : nat) : M env unit :=
  for_each (seq 0 na) (fun i =>
    action <~ lift KeyError (actions !! i) ;;
    act i action).

(** What [step] returns: the observations, the rewards, the flag stored
    under every key of [dones] (each agent and ['__all__']) and the match
    score stored for every agent in [infos]. *)
Record step_result : Type := StepResult {
  obs : list (list R);
  rewards : list fval;
  done : bool;
  match_score : fval }.

(** [step(actions)] *)
Definition step (actions : list Z) : M env step_result :=
  modify (fun e => with_step_count (step_count e + 1) e) ;;;
  na <~ gets num_agents ;;
  agent_loop actions na ;;;
  rewards <~ _calculate_rewards ;;
  done <~ gets (fun e => max_steps e <=? step_count e) ;;
  match_score <~ gets _get_match_score ;;
  let done := done || fgt match_score (85 # 100) in
  obs <~ _get_observations ;;
  ret (StepResult obs rewards done match_score).

End TextConditioned3DEnv.

(** ** env.py: class SwarmConstructionEnv *)

(** An axis selector of a basic NumPy index: an integer or a slice
    [start:stop]. *)
Inductive selector : Type :=
| Idx (i : Z)
| Slice (start stop : option Z).

(** A slice bound is counted from the end when negative, then clipped to
    the axis. *)
Definition clip_bound (n : nat) (b : Z) : Z :=
  let b' := if b <? 0 then b + Z.of_nat n else b in
  Z.max 0 (Z.min (Z.of_nat n) b').

(** The positions of an axis of length [n] a selector picks. *)
Definition resolve (n : nat) (s : selector) : result (list nat) :=
  match s with
  | Idx i =>
      match norm_index n i with
      | Some k => inr [k]
      | None => inl IndexError
      end
  | Slice start stop =>
      let lo := clip_bound n (default 0 start) in
      let hi := clip_bound n (default (Z.of_nat n) stop) in
      inr (map Z.to_nat (zrange lo hi))
  end.

Definition selected (k : nat) (ks : list nat) : bool :=
  existsb (Nat.eqb k) ks.

(** [a[sx, sy, sz] = v] on an [(n, n, n)] array. *)
Definition assign3 (a : vol) (sx sy sz : selector) (v : Z) : result vol :=
  let n := length a in
  match resolve n sx, resolve n sy, resolve n sz with
  | inr xs, inr ys, inr zs =>
      inr (imap (fun x p =>
             if selected x xs then
               imap (fun y r =>
                 if selected y ys then
                   imap (fun z c => if selected z zs then v else c) r
                 else r) p
             else p) a)
  | inl ex, _, _ => inl ex
  | _, inl ex, _ => inl ex
  | _, _, inl ex => inl ex
  end.

(** An array of rank 2 or 3. *)
Inductive ndarray : Type :=
| Arr2 (a : arr2 Z)
| Arr3 (a : arr3 Z).

(** [a.shape] *)
Definition shape (a : ndarray) : list nat :=
  match a with
  | Arr2 a => [length a; length (default [] (head a))]
  | Arr3 a => [length a; length (default [] (head a));
               length (default [] (head (default [] (head a))))]
  end.

(** [a[x, y, z]] and [a[x, y, z] = v]: three indices into a rank-2 array
    raise [IndexError]. *)
Definition nd_get3 (a : ndarray) (x y z : Z) : option Z :=
  match a with
  | Arr2 _ => None
  | Arr3 a => get3 a x y z
  end.
Definition nd_set3 (a : ndarray) (x y z : Z) (v : Z) : option ndarray :=
  match a with
  | Arr2 _ => None
  | Arr3 a => Arr3 <$> set3 a x y z v
  end.

(** [f(a, t)] element-wise, [a] being broadcast against the rank-3 array
    [t]: a rank-2 array is repeated along the first axis. *)
Definition broadcast3 {C} (f : Z -> Z -> C) (a : ndarray) (t : vol) : arr3 C :=
  match a with
  | Arr2 a => map (fun plane => zip_with (zip_with f) a plane) t
  | Arr3 a => zip3 f a t
  end.

Definition nd_flatten (a : ndarray) : list Z :=
  match a with
  | Arr2 a => flatten2 a
  | Arr3 a => flatten3 a
  end.

Module SwarmConstructionEnv.

Record env : Type := Env {
  num_agents : nat;
  grid_size : Z;
  max_steps : Z;
  grid : ndarray;
  agent_positions : list xyz;
  agent_has_block : list bool;
  target : vol;
  step_count : Z }.

Definition with_grid (g : ndarray) (e : env) : env :=
  Env (num_agents e) (grid_size e) (max_steps e) g
      (agent_positions e) (agent_has_block e) (target e) (step_count e).
Definition with_positions (ps : list xyz) (e : env) : env :=
  Env (num_agents e) (grid_size e) (max_steps e) (grid e)
      ps (agent_has_block e) (target e) (step_count e).
Definition with_has_block (hs : list bool) (e : env) : env :=
  Env (num_agents e) (grid_size e) (max_steps e) (grid e)
      (agent_positions e) hs (target e) (step_count e).
Definition with_target (t : vol) (e : env) : env :=
  Env (num_agents e) (grid_size e) (max_steps e) (grid e)
      (agent_positions e) (agent_has_block e) t (step_count e).
Definition with_step_count (c : Z) (e : env) : env :=
  Env (num_agents e) (grid_size e) (max_steps e) (grid e)
      (agent_positions e) (agent_has_block e) (target e) c.

Definition position_of (i : nat) : M env xyz :=
  fun e => lift IndexError (agent_positions e !! i) e.
Definition has_block_of (i : nat) : M env bool :=
  fun e => lift IndexError (agent_has_block e !! i) e.
Definition grid_at (x y z : Z) : M env Z :=
  fun e => lift IndexError (nd_get3 (grid e) x y z) e.

(** The state of [_make_random_target]: how many numbers were drawn so far
    and the array being filled. *)
Record gen : Type := Gen { cursor : nat; cells : vol }.

Section RandomTarget.
(** The numbers the generator draws, in the order it draws them. *)
Variable rng : nat -> Z.
(** [self.grid_size] *)
Variable n : Z.

Definition draw : M gen Z :=
  fun s => (inr (rng (cursor s)), Gen (S (cursor s)) (cells s)).
Definition np_randint (lo hi : Z) : M gen Z :=
  raw <~ draw ;; fun s => (randint lo hi raw, s).
(** [target[sx, sy, sz] = 1.0] *)
Definition paint (sx sy sz : selector) : M gen unit :=
  fun s => match assign3 (cells s) sx sy sz 1 with
           | inr t => (inr tt, Gen (cursor s) t)
           | inl ex => (inl ex, s)
           end.
Definition upto (hi : Z) : selector := Slice None (Some hi).
Definition span (lo hi : Z) : selector := Slice (Some lo) (Some hi).
Definition whole : selector := Slice None None.

(** The body of [_make_random_target] after the array is allocated;
    [np.random.choice] picks one of the nine shape names, in the order of
    the list: pyramid, tower, wall_3d, cube, staircase, bridge, arch,
    platform, random_3d. *)
Definition random_shape : M gen unit :=
  raw <~ draw ;;
  let shape_type := raw mod 9 in
  let center := n / 2 in
  if shape_type =? 0 then
    for_each (zrange 0 4) (fun y =>
      let size := 4 - y in
      let offset := (n - size) / 2 in
      paint (span offset (offset + size)) (Idx y) (span offset (offset + size)))
  else if shape_type =? 1 then
    height <~ np_randint 3 6 ;;
    x <~ np_randint 2 (n - 2) ;;
    z <~ np_randint 2 (n - 2) ;;
    paint (Idx x) (upto height) (Idx z)
  else if shape_type =? 2 then
    height <~ np_randint 2 5 ;;
    coin <~ draw ;;
    if 0 <? coin mod 2 then
      x <~ np_randint 2 (n - 2) ;;
      paint (Idx x) (upto height) whole
    else
      z <~ np_randint 2 (n - 2) ;;
      paint whole (upto height) (Idx z)
  else if shape_type =? 3 then
    size <~ np_randint 2 4 ;;
    x <~ np_randint 1 (n - size - 1) ;;
    z <~ np_randint 1 (n - size - 1) ;;
    paint (span x (x + size)) (upto size) (span z (z + size))
  else if shape_type =? 4 then
    for_each (zrange 0 (Z.min 5 (n - 2))) (fun i =>
      paint (Idx (i + 1)) (Idx i) (Idx center))
  else if shape_type =? 5 then
    let height := 3 in
    paint (Idx 2) (upto height) (Idx center) ;;;
    paint (Idx 6) (upto height) (Idx center) ;;;
    paint (span 2 7) (Idx (height - 1)) (Idx center)
  else if shape_type =? 6 then
    paint (Idx 2) (upto 3) (Idx center) ;;;
    paint (Idx 5) (upto 3) (Idx center) ;;;
    paint (span 2 6) (Idx 2) (Idx center)
  else if shape_type =? 7 then
    height <~ np_randint 1 4 ;;
    size <~ np_randint 3 5 ;;
    let offset := (n - size) / 2 in
    paint (span offset (offset + size)) (Idx height) (span offset (offset + size))
  else
    num_blocks <~ np_randint 5 16 ;;
    for_each (zrange 0 num_blocks) (fun _ =>
      x <~ np_randint 1 (n - 1) ;;
      y <~ np_randint 0 (Z.min 4 (n - 1)) ;;
      z <~ np_randint 1 (n - 1) ;;
      paint (Idx x) (Idx y) (Idx z)).

(** [_make_random_target()] *)
Definition _make_random_target : result vol :=
  match np_zeros3 n 4 0 with
  | inl ex => inl ex
  | inr zeros =>
      match random_shape (Gen 0 zeros) with
      | (inr _, s) => inr (cells s)
      | (inl ex, _) => inl ex
      end
  end.
End RandomTarget.

(** [_get_observations()]: one vector per agent, in agent order. *)
Definition _get_observations : M env (list (list R)) :=
  na <~ gets num_agents ;;
  for_collect (seq 0 na) (fun i =>
    pos <~ position_of i ;;
    n <~ gets grid_size ;;
    g <~ gets grid ;;
    hb <~ has_block_of i ;;
    t <~ gets target ;;
    ret ([(IZR (c0 pos) / IZR n)%R; (IZR (c1 pos) / IZR n)%R;
          (IZR (c2 pos) / IZR n)%R]
         ++ map IZR (nd_flatten g)
         ++ [if hb then 1%R else 0%R]
         ++ map IZR (flatten3 t))).

(** The spawn loop of [reset]: [for i in range(self.num_agents)]; [rng i]
    are the two numbers drawn for agent [i]. *)
Definition spawn_agents (rng : nat -> Z * Z) (na : nat) : M env unit :=
  for_each (seq 0 na) (fun i =>
    n <~ gets grid_size ;;
    p <~ (fun e => (spawn n (fst (rng i)) (snd (rng i)), e)) ;;
    ps <~ gets agent_positions ;;
    if decide (i < length ps)%nat
    then modify (with_positions (<[i := p]> ps))
    else raise IndexError).

(** [reset()]; [trng] are the numbers drawn by the target generator. *)
Definition reset (rng : nat -> Z * Z) (trng : nat -> Z) : M env (list (list R)) :=
  n <~ gets grid_size ;;
  zeros <~ (fun e => (np_zeros2 n 4 0, e)) ;;
  modify (with_grid (Arr2 zeros)) ;;;
  modify (with_step_count 0) ;;;
  na <~ gets num_agents ;;
  spawn_agents rng na ;;;
  modify (with_has_block (replicate na true)) ;;;
  t <~ (fun e => (_make_random_target trng n, e)) ;;
  modify (with_target t) ;;;
  _get_observations.

(** [__init__(num_agents, grid_size)]; [trng0] feeds the first call of the
    target generator, [rng] and [trng] the call of [reset]. *)
Definition __init__ (num_agents grid_size : Z)
    (trng0 : nat -> Z) (rng : nat -> Z * Z) (trng : nat -> Z) : result env :=
  match np_zeros3 grid_size 4 0 with
  | inl ex => inl ex
  | inr zeros =>
    if np_zeros_ok [num_agents; 3] 4 && np_zeros_ok [num_agents] 1 then
      match _make_random_target trng0 grid_size with
      | inl ex => inl ex
      | inr t =>
        let na := Z.to_nat num_agents in
        let e := Env na grid_size 150 (Arr3 zeros)
                     (replicate na (XYZ 0 0 0)) (replicate na false) t 0 in
        match reset rng trng e with
        | (inr _, e') => inr e'
        | (inl ex, _) => inl ex
        end
      end
    else inl ValueError
  end.

(** The counts of [_calculate_rewards] and of the match score. *)
Definition correct_placements (e : env) : Z :=
  np_sum_bool (flatten3 (broadcast3 (fun g t => occupied g && occupied t)
                                    (grid e) (target e))).
Definition total_target (e : env) : Z :=
  np_sum_bool (flatten3 (map3 occupied (target e))).
Definition wrong_placements (e : env) : Z :=
  np_sum_bool (flatten3 (broadcast3 (fun g t => occupied g && (t =? 0))
                                    (grid e) (target e))).

(** [_calculate_rewards()]: every agent gets the same reward. *)
Definition _calculate_rewards (e : env) : list fval :=
  let base_reward :=
    fmap2 Qminus
      (fmap2 Qmult (true_divide (correct_placements e) (total_target e)) (Fin 10))
      (Fin (inject_Z (wrong_placements e) * (1 # 2))) in
  let time_penalty := Fin (- (1 # 100)) in
  let reward := fmap2 Qplus base_reward time_penalty in
  replicate (num_agents e) reward.

(** The match score computed at the end of [step]. *)
Definition match_score_of (e : env) : fval :=
  true_divide (correct_placements e) (total_target e).

(** The body of the agent loop of [step] for agent [i]. *)
Definition act (i : nat) (action : Z) : M env unit :=
  pos <~ position_of i ;;
  n <~ gets grid_size ;;
  let move axis d :=
    modify (fun e => with_positions (alter (bump axis d) i (agent_positions e)) e) in
  if (action =? 0) && (0 <? c0 pos) then move 0%nat (-1)
  else if (action =? 2) && (c0 pos <? n - 1) then move 0%nat 1
  else if (action =? 1) && (c2 pos <? n - 1) then move 2%nat 1
  else if (action =? 3) && (0 <? c2 pos) then move 2%nat (-1)
  else if (action =? 4) && (c1 pos <? n - 1) then
    if c1 pos =? 0 then move 1%nat 1
    else
      below <~ grid_at (c0 pos) (c1 pos - 1) (c2 pos) ;;
      if 0 <? below then move 1%nat 1 else ret tt
  else if (action =? 5) && (0 <? c1 pos) then move 1%nat (-1)
  else if action =? 6 then
    hb <~ has_block_of i ;;
    if hb then
      g <~ gets grid ;;
      g' <~ lift IndexError (nd_set3 g (c0 pos) (c1 pos) (c2 pos) 1) ;;
      modify (with_grid g') ;;;
      modify (fun e => with_has_block (<[i := false]> (agent_has_block e)) e)
    else ret tt
  else if action =? 7 then
    hb <~ has_block_of i ;;
    if hb then ret tt
    else
      here <~ grid_at (c0 pos) (c1 pos) (c2 pos) ;;
      if here =? 0
      then modify (fun e => with_has_block (<[i := true]> (agent_has_block e)) e)
      else ret tt
  else ret tt.

(** The agent loop of [step]: [for i in range(self.num_agents)];
    [actions] lists the values of the dict under the keys ['agent_0'],
    ['agent_1'], ...; a missing key raises [KeyError]. *)
Definition agent_loop (actions : list Z) (na : nat) : M env unit :=
  for_each (seq 0 na) (fun i =>
    action <~ lift KeyError (actions !! i) ;;
    act i action).

Record step_result : Type := StepResult {
  obs : list (list R);
  rewards : list fval;
  done : bool;
  match_score : fval }.

(** [step(actions)] *)
Definition step (actions : list Z) : M env step_result :=
  modify (fun e => with_step_count (step_count e + 1) e) ;;;
  na <~ gets num_agents ;;
  agent_loop actions na ;;;
  rewards <~ gets _calculate_rewards ;;
  done <~ gets (fun e => max_steps e <=? step_count e) ;;
  match_score <~ gets match_score_of ;;
  let done := done || fgt match_score (8 # 10) in
  obs <~ _get_observations ;;
  ret (StepResult obs rewards done match_score).

End SwarmConstructionEnv.

(** * Specification vocabulary *)

(** An invariant of the state that a method keeps, whether it returns or
    raises. *)
Definition keeps {S A} (I : S -> Prop) (m : M S A) : Prop :=
  forall s, I s -> I (snd (m s)).

(** A method that leaves the state as it found it. *)
Definition pure {S A} (m : M S A) : Prop := forall s, snd (m s) = s.

(** The cell of an array at natural-number indices. *)
Definition cell {A} (a : arr3 A) (x y z : nat) : option A :=
  p ← a !! x; r ← p !! y; r !! z.

(** A property of every cell of an array. *)
Definition all_cells {A} (P : A -> Prop) (a : arr3 A) : Prop :=
  forall x y z v, cell a x y z = Some v -> P v.

(** A position inside the cube [[0, n)^3]. *)
Definition in_cube (n : Z) (p : xyz) : Prop :=
  (0 <= c0 p < n) /\ (0 <= c1 p < n) /\ (0 <= c2 p < n).

(** Occupancy never lost between two arrays. *)
Definition occupancy_kept (a b : vol) : Prop :=
  forall x y z v, cell a x y z = Some v -> 0 < v ->
    exists w, cell b x y z = Some w /\ 0 < w.

(** Every target cell of [t] is occupied in [g]. *)
Definition covered (g t : vol) : Prop :=
  forall x y z v, cell t x y z = Some v -> 0 < v ->
    exists w, cell g x y z = Some w /\ 0 < w.

(** *** The text-conditioned environment *)

(** What the constructor establishes and every method keeps. *)
Record text_wf (e : TextConditioned3DEnv.env) : Prop := TextWf {
  text_wf_size : 0 <= TextConditioned3DEnv.grid_size e < 2147483648;
  text_wf_max : TextConditioned3DEnv.max_steps e = 150;
  text_wf_grid :
    shape3 (Z.to_nat (TextConditioned3DEnv.grid_size e)) (TextConditioned3DEnv.grid e);
  text_wf_target :
    shape3 (Z.to_nat (TextConditioned3DEnv.grid_size e)) (TextConditioned3DEnv.target e);
  text_wf_binary : all_cells (fun v => v = 0 \/ v = 1) (TextConditioned3DEnv.target e);
  text_wf_grid_binary : all_cells (fun v => v = 0 \/ v = 1) (TextConditioned3DEnv.grid e);
  text_wf_scent :
    shape3 (Z.to_nat (TextConditioned3DEnv.grid_size e))
           (TextConditioned3DEnv.scent_field e);
  text_wf_positions :
    length (TextConditioned3DEnv.agent_positions e) = TextConditioned3DEnv.num_agents e;
  text_wf_has_block :
    length (TextConditioned3DEnv.agent_has_block e) = TextConditioned3DEnv.num_agents e }.

Definition text_in_bounds (e : TextConditioned3DEnv.env) : Prop :=
  Forall (in_cube (TextConditioned3DEnv.grid_size e))
         (TextConditioned3DEnv.agent_positions e).

(** The states an environment object can be in: built by the constructor,
    then driven by any calls of [reset] and [step], returning or raising. *)
Inductive text_created : TextConditioned3DEnv.env -> Prop :=
| text_created_init a n l e :
    TextConditioned3DEnv.__init__ a n l = inr e -> text_created e
| text_created_reset e text voxels rng r e' :
    text_created e ->
    TextConditioned3DEnv.reset text voxels rng e = (r, e') -> text_created e'
| text_created_step e actions r e' :
    text_created e ->
    TextConditioned3DEnv.step actions e = (r, e') -> text_created e'.

(** The states of an episode: a call of [reset] has returned, and any
    number of [step] calls followed. *)
Inductive text_reachable : TextConditioned3DEnv.env -> Prop :=
| text_reach_reset e text voxels rng o e' :
    text_created e ->
    TextConditioned3DEnv.reset text voxels rng e = (inr o, e') -> text_reachable e'
| text_reach_step e actions r e' :
    text_reachable e ->
    TextConditioned3DEnv.step actions e = (r, e') -> text_reachable e'.

(** *** The global environment *)

Record swarm_wf (e : SwarmConstructionEnv.env) : Prop := SwarmWf {
  swarm_wf_size : 0 <= SwarmConstructionEnv.grid_size e < 2147483648;
  swarm_wf_max : SwarmConstructionEnv.max_steps e = 150;
  swarm_wf_target :
    shape3 (Z.to_nat (SwarmConstructionEnv.grid_size e)) (SwarmConstructionEnv.target e);
  swarm_wf_positions :
    length (SwarmConstructionEnv.agent_positions e) = SwarmConstructionEnv.num_agents e;
  swarm_wf_has_block :
    length (SwarmConstructionEnv.agent_has_block e) = SwarmConstructionEnv.num_agents e }.

Definition swarm_in_bounds (e : SwarmConstructionEnv.env) : Prop :=
  Forall (in_cube (SwarmConstructionEnv.grid_size e))
         (SwarmConstructionEnv.agent_positions e).

(** The constructor of this class calls [reset] itself, so every object is
    in an episode; later calls of [reset] and [step] may return or raise. *)
Inductive swarm_reachable : SwarmConstructionEnv.env -> Prop :=
| swarm_reach_init a n trng0 rng trng e :
    SwarmConstructionEnv.__init__ a n trng0 rng trng = inr e -> swarm_reachable e
| swarm_reach_reset e rng trng r e' :
    swarm_reachable e ->
    SwarmConstructionEnv.reset rng trng e = (r, e') -> swarm_reachable e'
| swarm_reach_step e actions r e' :
    swarm_reachable e ->
    SwarmConstructionEnv.step actions e = (r, e') -> swarm_reachable e'.


(** After [reset] the grid of the global environment is the rank-2 array of
    zeros. *)
Definition swarm_flat_grid (e : SwarmConstructionEnv.env) : Prop :=
  SwarmConstructionEnv.grid e =
  Arr2 (full2 (Z.to_nat (SwarmConstructionEnv.grid_size e)) 0).

(** What holds of every state of an episode of the global environment. *)
Definition swarm_good (e : SwarmConstructionEnv.env) : Prop :=
  (swarm_wf e /\ swarm_in_bounds e) /\ swarm_flat_grid e.


(** *** Runs and episodes *)

(** The state after a sequence of [step] calls, one action map each. *)
Definition text_run (l : list (list Z)) (e : TextConditioned3DEnv.env) :
    TextConditioned3DEnv.env :=
  fold_left (fun e' actions => snd (TextConditioned3DEnv.step actions e')) l e.
Definition swarm_run (l : list (list Z)) (e : SwarmConstructionEnv.env) :
    SwarmConstructionEnv.env :=
  fold_left (fun e' actions => snd (SwarmConstructionEnv.step actions e')) l e.

(** The cell of a grid of either rank at a list of indices. *)
Definition nd_cell (a : ndarray) (idx : list nat) : option Z :=
  match a, idx with
  | Arr2 a, [y; z] => r ← a !! y; r !! z
  | Arr3 a, [x; y; z] => cell a x y z
  | _, _ => None
  end.

Definition nd_occupancy_kept (a b : ndarray) : Prop :=
  forall idx v, nd_cell a idx = Some v -> 0 < v ->
    exists w, nd_cell b idx = Some w /\ 0 < w.

(** The states in which the training loop calls [step]: [reset] has
    returned, and every [step] since has returned with [done] false
    ([while not done] in train_episode). *)
Inductive text_running : TextConditioned3DEnv.env -> Prop :=
| text_running_reset e text voxels rng o e' :
    text_created e ->
    TextConditioned3DEnv.reset text voxels rng e = (inr o, e') ->
    text_running e'
| text_running_step e actions out e' :
    text_running e ->
    TextConditioned3DEnv.step actions e = (inr out, e') ->
    TextConditioned3DEnv.done out = false ->
    text_running e'.

Inductive swarm_running : SwarmConstructionEnv.env -> Prop :=
| swarm_running_init a n trng0 rng trng e :
    SwarmConstructionEnv.__init__ a n trng0 rng trng = inr e -> swarm_running e
| swarm_running_reset e rng trng o e' :
    swarm_reachable e ->
    SwarmConstructionEnv.reset rng trng e = (inr o, e') -> swarm_running e'
| swarm_running_step e actions out e' :
    swarm_running e ->
    SwarmConstructionEnv.step actions e = (inr out, e') ->
    SwarmConstructionEnv.done out = false ->
    swarm_running e'.

(** *** Concrete environments *)

(** [TextConditioned3DEnv(num_agents=2, grid_size=8, local_obs_size=3)] *)
Definition text_fresh : TextConditioned3DEnv.env :=
  TextConditioned3DEnv.Env 2 8 3 150 (full3 8 0)
    [XYZ 0 0 0; XYZ 0 0 0] [false; false] (full3 8 0)
    (map3 IZR (full3 8 0)) EmptyString 0.

(** The same object after [reset()], the generator drawing zeros. *)
Definition text_started : TextConditioned3DEnv.env :=
  snd (TextConditioned3DEnv.reset None None (fun _ => (0, 0)) text_fresh).

(** [SwarmConstructionEnv(num_agents=2, grid_size=8)] when the generator
    picks the staircase as target and draws zeros otherwise. *)
Definition swarm_started : SwarmConstructionEnv.env :=
  match SwarmConstructionEnv.__init__ 2 8 (fun _ => 4) (fun _ => (0, 0)) (fun _ => 4) with
  | inr e => e
  | inl _ => SwarmConstructionEnv.Env 0 0 150 (Arr2 []) [] [] [] 0
  end.

(** [SwarmConstructionEnv(num_agents=1, grid_size=2)] when the generator
    picks the staircase, whose loop [range(min(5, grid_size - 2))] has no
    iteration on so small a grid. *)
Definition swarm_tiny : SwarmConstructionEnv.env :=
  match SwarmConstructionEnv.__init__ 1 2 (fun _ => 4) (fun _ => (0, 0)) (fun _ => 4) with
  | inr e => e
  | inl _ => SwarmConstructionEnv.Env 0 0 150 (Arr2 []) [] [] [] 0
  end.


(** *** Match score *)

(** The cell a grid of either rank contributes at index [(x, y, z)] when it
    is broadcast against a rank-3 array: a rank-2 grid is indexed by
    [(y, z)]. *)
Definition nd_broadcast_cell (a : ndarray) (x y z : nat) : option Z :=
  match a with
  | Arr2 a => r ← a !! y; r !! z
  | Arr3 a => cell a x y z
  end.

Definition nd_covered (g : ndarray) (t : vol) : Prop :=
  forall x y z v, cell t x y z = Some v -> 0 < v ->
    exists w, nd_broadcast_cell g x y z = Some w /\ 0 < w.

(** [g.shape] is [(n, n)] or [(n, n, n)]. *)
Definition nd_shape (n : nat) (g : ndarray) : Prop :=
  match g with
  | Arr2 a => shape2 n a
  | Arr3 a => shape3 n a
  end.

(** The number of occupied cells of a target. *)
Definition occupied_cells (t : vol) : Z :=
  np_sum_bool (flatten3 (map3 occupied t)).

(** A score that is exactly 1.0. *)
Definition is_one (x : fval) : Prop := exists q, x = Fin q /\ (q == 1)%Q.


(** An occupied target cell is matched by an occupied grid cell. *)
Definition fills (g t : Z) : Prop := 0 < t -> 0 < g.


(** *** Local observations *)

(** Reading an array with zero padding outside the grid. *)
Definition padded_read {A} (zero : A) (a : arr3 A) (n : Z) (x y z : Z) : A :=
  if (0 <=? x) && (x <? n) && (0 <=? y) && (y <? n) && (0 <=? z) && (z <? n)
  then default zero (get3 a x y z) else zero.

(** The cube of side [size] cut out of an array around [pos], its centre
    at index [half]. *)
Definition window {A} (zero : A) (a : arr3 A) (n : Z) (pos : xyz)
    (half : Z) (size : nat) : arr3 A :=
  tab3 size (fun i j k =>
    padded_read zero a n (c0 pos + (Z.of_nat i - half))
                         (c1 pos + (Z.of_nat j - half))
                         (c2 pos + (Z.of_nat k - half))).

(** What one iteration of the copy loop does to one of the two patches. *)
Definition write_cell {A} (src : arr3 A) (pos : xyz) (n half : Z)
    (acc : arr3 A) (d : Z * (Z * Z)) : arr3 A :=
  let '(dx, (dy, dz)) := d in
  let wx := c0 pos + dx in
  let wy := c1 pos + dy in
  let wz := c2 pos + dz in
  if (0 <=? wx) && (wx <? n) && (0 <=? wy) && (wy <? n)
     && (0 <=? wz) && (wz <? n)
  then default acc (v ← get3 src wx wy wz;
                    set3 acc (dx + half) (dy + half) (dz + half) v)
  else acc.


(** Offsets of the copy loop, in the order [(dx, (dy, dz))]: those within
    [half] of the centre, the one that lands on patch index [(a, b, c)], and
    those whose world cell lies inside the grid. *)
Definition in_window (half : Z) (d : Z * (Z * Z)) : Prop :=
  (- half <= fst d <= half) /\ (- half <= fst (snd d) <= half)
  /\ (- half <= snd (snd d) <= half).

Definition offset_of (half : Z) (a b c : nat) : Z * (Z * Z) :=
  (Z.of_nat a - half, (Z.of_nat b - half, Z.of_nat c - half)).

Definition inside (pos : xyz) (n : Z) (d : Z * (Z * Z)) : bool :=
  (0 <=? c0 pos + fst d) && (c0 pos + fst d <? n)
  && (0 <=? c1 pos + fst (snd d)) && (c1 pos + fst (snd d) <? n)
  && (0 <=? c2 pos + snd (snd d)) && (c2 pos + snd (snd d) <? n).


(** *** Loading a target *)

(** What one iteration of the voxel loop of [load_training_pair] does to
    the target array. *)
Definition paint_voxel (n : Z) (t : vol) (v : voxel) : vol :=
  if (0 <=? vx v) && (vx v <? n) && (0 <=? vy v) && (vy v <? n)
     && (0 <=? vz v) && (vz v <? n)
  then default t (set3 t (vx v) (vy v) (vz v) 1) else t.

#[global] Instance voxel_eq_dec : EqDecision voxel.
Proof. solve_decision. Defined.

(** The voxel at natural-number coordinates. *)
Definition voxel_at (x y z : nat) : voxel :=
  Voxel (Z.of_nat x) (Z.of_nat y) (Z.of_nat z).


(** *** Spawning *)

(** A position at ground level on one of the four edges of the grid. *)
Definition on_ground_edge (n : Z) (p : xyz) : Prop :=
  c1 p = 0 /\ (c0 p = 0 \/ c0 p = n - 1 \/ c2 p = 0 \/ c2 p = n - 1).


(** *** What an episode of the global environment can reach *)

(** Every agent holds a block, and none stands above height 1. *)
Definition swarm_all_holding (e : SwarmConstructionEnv.env) : Prop :=
  Forall (fun b => b = true) (SwarmConstructionEnv.agent_has_block e).
Definition swarm_low (e : SwarmConstructionEnv.env) : Prop :=
  Forall (fun p => c1 p <= 1) (SwarmConstructionEnv.agent_positions e).

(** The grid is untouched, the agents are as they were spawned or one step
    above. *)
Definition swarm_idle (e : SwarmConstructionEnv.env) : Prop :=
  swarm_good e /\ swarm_all_holding e /\ swarm_low e.


(** *** Total correctness *)

(** From every state of [P] the method returns, with a value and a state
    related by [Q]. *)
Definition returns {S A} (P : S -> Prop) (m : M S A) (Q : A -> S -> Prop) : Prop :=
  forall s, P s -> exists a s', m s = (inr a, s') /\ Q a s'.

(** A selector that picks position [k] of an axis of length [n]. *)
Definition picks (n : nat) (s : selector) (k : nat) : Prop :=
  exists ks, resolve n s = inr ks /\ selected k ks = true.

(** An array with at least one cell set to 1. *)
Definition has_one (t : vol) : Prop := exists x y z, cell t x y z = Some 1.

(** The target under construction is a binary cube; it is marked once a
    cell has been painted. *)
Definition canvas (n : Z) (s : SwarmConstructionEnv.gen) : Prop :=
  shape3 (Z.to_nat n) (SwarmConstructionEnv.cells s) /\
  all_cells (fun v => v = 0 \/ v = 1) (SwarmConstructionEnv.cells s).
Definition marked (n : Z) (s : SwarmConstructionEnv.gen) : Prop :=
  canvas n s /\ has_one (SwarmConstructionEnv.cells s).


(** ** generate_training_data_anthropic.py: scale_voxels *)

(** [max(0, min(hi, x))] *)
Definition clamp (hi x : Z) : Z := Z.max 0 (Z.min hi x).

Section ScaleVoxels.
(** [scale_coord c] is [int(c * scale_factor)]: the float64 product of a
    coordinate with [to_size / from_size], truncated.  The properties
    below hold whatever the product rounds to. *)
Variable scale_coord : Z -> Z.
(** [to_size] *)
Variable to_size : Z.

(** The key [(x, y, z)] computed for one voxel. *)
Definition scaled_key (v : voxel) : Z * Z * Z :=
  (clamp (to_size - 1) (scale_coord (vx v)),
   clamp (to_size - 1) (scale_coord (vy v)),
   clamp (to_size - 1) (scale_coord (vz v))).

Definition voxel_of_key (k : Z * Z * Z) : voxel :=
  Voxel (fst (fst k)) (snd (fst k)) (snd k).

(** The loop [for v in voxels]; [scaled] is the list being built and
    [seen] the set of keys already appended. *)
Fixpoint scale_loop (voxels : list voxel) (scaled : list voxel)
    (seen : list (Z * Z * Z)) : list voxel :=
  match voxels with
  | [] => scaled
  | v :: vs =>
      let key := scaled_key v in
      if decide (key ∈ seen) then scale_loop vs scaled seen
      else scale_loop vs (scaled ++ [voxel_of_key key]) (key :: seen)
  end.
End ScaleVoxels.

(** [scale_voxels(voxels, from_size, to_size)]; [None] stands for the
    [ZeroDivisionError] of [to_size / from_size]. *)
Definition scale_voxels (scale_coord : Z -> Z) (voxels : list voxel)
    (from_size to_size : Z) : option (list voxel) :=
  if from_size =? to_size then Some voxels
  else if from_size =? 0 then None
  else Some (scale_loop scale_coord to_size voxels [] []).

(** A voxel inside the cube [[0, n)^3]. *)
Definition voxel_in_grid (n : Z) (v : voxel) : Prop :=
  0 <= vx v < n /\ 0 <= vy v < n /\ 0 <= vz v < n.


(** ** train_text_conditioned.py: the rollout of train_episode *)

Module TrainTextConditioned.
Import TextConditioned3DEnv.

Section Rollout.
(** [policy.act(obs_tensor, text, device)]: the action sampled for agent
    [i] at step [t] from its observation.  The network, its weights and
    the sampling are behind this function. *)
Variable policy : nat -> nat -> list R -> Z.

(** The dict [actions] built by the inner loop over the agents; a missing
    observation raises [KeyError]. *)
Definition choose_actions (t : nat) (obs_dict : list (list R)) : M env (list Z) :=
  na <~ gets num_agents ;;
  for_collect (seq 0 na) (fun i =>
    o <~ lift KeyError (obs_dict !! i) ;;
    ret (policy t i o)).

(** [while not done]: one iteration chooses the actions, calls [env.step]
    and reads [dones['__all__']].  [log] collects what [step] returned.
    The loop has no bound of its own; [fuel] bounds the iterations, and
    [None] is returned when it runs out before [done]. *)
Fixpoint episode_loop (fuel t : nat) (obs_dict : list (list R))
    (log : list step_result) : M env (option (list step_result)) :=
  match fuel with
  | O => ret None
  | S fuel' =>
      actions <~ choose_actions t obs_dict ;;
      out <~ step actions ;;
      if done out then ret (Some (log ++ [out]))
      else episode_loop fuel' (S t) (obs out) (log ++ [out])
  end.

(** [train_episode(env, policy, optimizer, text, voxels, device)] up to the
    end of the rollout: [env.reset(text, voxels)], then the loop.  The
    policy-gradient update that follows does not touch the environment. *)
Definition train_episode_rollout (fuel : nat) (text : option string)
    (voxels : option (list voxel)) (rng : nat -> Z * Z)
    : M env (option (list step_result)) :=
  obs_dict <~ reset text voxels rng ;;
  episode_loop fuel 0 obs_dict [].
End Rollout.

End TrainTextConditioned.


(** *** Moves *)

(** The number of cells between two positions, along the axes. *)
Definition cells_apart (p q : xyz) : Z :=
  Z.abs (c0 p - c0 q) + Z.abs (c1 p - c1 q) + Z.abs (c2 p - c2 q).


(** ** train.py: the rollout of train_episode *)

Module Train.
Import SwarmConstructionEnv.

Section Rollout.
(** [policy.act(obs, device)]: the action sampled for agent [i] at step
    [t] from its observation. *)
Variable policy : nat -> nat -> list R -> Z.

Definition choose_actions (t : nat) (obs_dict : list (list R)) : M env (list Z) :=
  na <~ gets num_agents ;;
  for_collect (seq 0 na) (fun i =>
    o <~ lift KeyError (obs_dict !! i) ;;
    ret (policy t i o)).

(** [while not done]; [fuel] bounds the iterations, [None] is returned when
    it runs out before [done]. *)
Fixpoint episode_loop (fuel t : nat) (obs_dict : list (list R))
    (log : list step_result) : M env (option (list step_result)) :=
  match fuel with
  | O => ret None
  | S fuel' =>
      actions <~ choose_actions t obs_dict ;;
      out <~ step actions ;;
      if done out then ret (Some (log ++ [out]))
      else episode_loop fuel' (S t) (obs out) (log ++ [out])
  end.

(** [train_episode(env, policy, optimizer, device)] up to the end of the
    rollout: [env.reset()], then the loop. *)
Definition train_episode_rollout (fuel : nat) (rng : nat -> Z * Z)
    (trng : nat -> Z) : M env (option (list step_result)) :=
  obs_dict <~ reset rng trng ;;
  episode_loop fuel 0 obs_dict [].
End Rollout.

End Train.

(** A method that raises nothing but [ex]. *)
Definition raises_only {S A} (ex : exn) (m : M S A) : Prop :=
  forall s ex' s', m s = (inl ex', s') -> ex' = ex.


(** *** The scent field before smoothing *)

(** The field [_generate_scent_field] hands to the Gaussian filter, for a
    target [tgt] and the largest distance [max_dist]. *)
Definition inverted_distance (tgt : vol) (max_dist : R) : rvol :=
  let distance_map := distance_transform_edt (map3 (fun v => 1 - v) tgt) in
  if Rlt_dec 0 max_dist
  then map3 (fun d => (1 - d / max_dist)%R) distance_map
  else map3 IZR tgt.

(** The fresh object after [load_training_pair("empty", [])]. *)
Definition text_empty_target : TextConditioned3DEnv.env :=
  snd (TextConditioned3DEnv.load_training_pair "empty" [] text_fresh).


(** The object [TextConditioned3DEnv(2, 8, 3)] after a [reset()] that
    spawned both agents at [(1, 0, 0)]. *)
Definition text_started_at_1 : TextConditioned3DEnv.env :=
  snd (TextConditioned3DEnv.reset None None (fun _ => (3, 1)) text_fresh).

(** A one-voxel target at the agents' cell, at the origin and shifted by
    [(1, 0, 0)] together with the agents. *)
Definition text_dot_origin : TextConditioned3DEnv.env :=
  snd (TextConditioned3DEnv.load_training_pair "dot" [Voxel 0 0 0] text_started).
Definition text_dot_shifted : TextConditioned3DEnv.env :=
  snd (TextConditioned3DEnv.load_training_pair "dot" [Voxel 1 0 0]
         text_started_at_1).

(** The zero-padded surroundings of two agents, at [p1] in [e1] and at
    [p2] in [e2], agree within the observation window. *)
Definition windows_agree (e1 e2 : TextConditioned3DEnv.env) (p1 p2 : xyz)
    (half : Z) : Prop :=
  forall dx dy dz,
    - half <= dx <= half -> - half <= dy <= half -> - half <= dz <= half ->
    padded_read 0 (TextConditioned3DEnv.grid e1) (TextConditioned3DEnv.grid_size e1)
                (c0 p1 + dx) (c1 p1 + dy) (c2 p1 + dz)
    = padded_read 0 (TextConditioned3DEnv.grid e2) (TextConditioned3DEnv.grid_size e2)
                  (c0 p2 + dx) (c1 p2 + dy) (c2 p2 + dz) /\
    padded_read 0%R (TextConditioned3DEnv.scent_field e1)
                (TextConditioned3DEnv.grid_size e1)
                (c0 p1 + dx) (c1 p1 + dy) (c2 p1 + dz)
    = padded_read 0%R (TextConditioned3DEnv.scent_field e2)
                  (TextConditioned3DEnv.grid_size e2)
                  (c0 p2 + dx) (c1 p2 + dy) (c2 p2 + dz).


(** *** Smoothing, tap by tap *)

(** The index [k] cells after index [x]. *)
Definition shifted (x : nat) (k : Z) : nat := Z.to_nat (Z.of_nat x + k).

(** The share of the three inner taps of the kernel in a filtered value. *)
Definition inner_taps (u : Z -> R) : R :=
  (weight (-1) * u (-1)%Z + weight 0 * u 0%Z + weight 1 * u 1%Z)%R.

(** The cells of the block [[0, 5)^3] but its centre [(2, 2, 2)], and the
    cell [(6, 6, 6)] on its own. *)
Definition hollow_block : list voxel :=
  filter (fun v => negb ((vx v =? 2) && (vy v =? 2) && (vz v =? 2)))
    (flat_map (fun x => flat_map (fun y => map (fun z => Voxel x y z)
                                             (zrange 0 5)) (zrange 0 5))
              (zrange 0 5)).
Definition hollow_voxels : list voxel := hollow_block ++ [Voxel 6 6 6].

(** [TextConditioned3DEnv(2, 8, 3)] after
    [load_training_pair("hollow", hollow_voxels)]. *)
Definition text_hollow : TextConditioned3DEnv.env :=
  snd (TextConditioned3DEnv.load_training_pair "hollow" hollow_voxels text_fresh).


(* PROPERTIES *)
(** * Reasoning about methods *)

Section Kit.
Context {S : Type}.
Implicit Types I : S -> Prop.

Lemma keeps_ret {A} I (a : A) : keeps I (ret a).
Proof. by intros s Hs. Qed.

Lemma keeps_raise {A} I ex : keeps I (@raise S A ex).
Proof. by intros s Hs. Qed.

Lemma keeps_gets {A} I (f : S -> A) : keeps I (gets f).
Proof. by intros s Hs. Qed.

Lemma keeps_lift {A} I ex (o : option A) : keeps I (@lift S A ex o).
Proof. destruct o; [apply keeps_ret | apply keeps_raise]. Qed.

Lemma keeps_modify I (f : S -> S) : (forall s, I s -> I (f s)) -> keeps I (modify f).
Proof. intros Hf s Hs. by apply Hf. Qed.

Lemma keeps_bind {A B} I (m : M S A) (k : A -> M S B) :
  keeps I m -> (forall a, keeps I (k a)) -> keeps I (bind m k).
Proof.
  intros Hm Hk s Hs. unfold bind. specialize (Hm s Hs).
  destruct (m s) as [[ex|a] s']; simpl in *; [done|]. by apply Hk.
Qed.

Lemma keeps_for_each {X} I (l : list X) (body : X -> M S unit) :
  (forall x, x ∈ l -> keeps I (body x)) -> keeps I (for_each l body).
Proof.
  induction l as [|x l IH]; intros Hb; simpl; [apply keeps_ret|].
  apply keeps_bind; [apply Hb; left | intros _; apply IH].
  intros y Hy. apply Hb. by right.
Qed.

Lemma keeps_for_collect {X A} I (l : list X) (body : X -> M S A) :
  (forall x, x ∈ l -> keeps I (body x)) -> keeps I (for_collect l body).
Proof.
  induction l as [|x l IH]; intros Hb; simpl; [apply keeps_ret|].
  apply keeps_bind; [apply Hb; left|]. intros a.
  apply keeps_bind; [apply IH; intros y Hy; apply Hb; by right|].
  intros r. apply keeps_ret.
Qed.

Lemma keeps_pure {A} I (m : M S A) : pure m -> keeps I m.
Proof. intros Hm s Hs. by rewrite Hm. Qed.

Lemma pure_ret {A} (a : A) : pure (@ret S A a).
Proof. done. Qed.

Lemma pure_gets {A} (f : S -> A) : pure (gets f).
Proof. done. Qed.

Lemma pure_lift {A} ex (o : option A) : pure (@lift S A ex o).
Proof. by destruct o. Qed.

Lemma pure_bind {A B} (m : M S A) (k : A -> M S B) :
  pure m -> (forall a, pure (k a)) -> pure (bind m k).
Proof.
  intros Hm Hk s. unfold bind. specialize (Hm s).
  destruct (m s) as [[ex|a] s']; simpl in *; [done|].
  subst s'. apply Hk.
Qed.

Lemma pure_for_collect {X A} (l : list X) (body : X -> M S A) :
  (forall x, pure (body x)) -> pure (for_collect l body).
Proof.
  intros Hb. induction l as [|x l IH]; simpl; [apply pure_ret|].
  apply pure_bind; [apply Hb|]. intros a.
  apply pure_bind; [apply IH|]. intros r. apply pure_ret.
Qed.

(** The state after [m ;;; k] when [k] is pure. *)
Lemma snd_bind_pure {A B} (m : M S A) (k : A -> M S B) s :
  (forall a, pure (k a)) -> snd (bind m k s) = snd (m s).
Proof.
  intros Hk. unfold bind. destruct (m s) as [[ex|a] s']; simpl; [done|].
  apply Hk.
Qed.
End Kit.

(** * Arrays *)

Lemma norm_index_lt n i k : norm_index n i = Some k -> (k < n)%nat.
Proof.
  unfold norm_index. intros H.
  repeat case_match; simplify_eq; lia.
Qed.

Lemma norm_index_in_range n i :
  0 <= i < Z.of_nat n -> norm_index n i = Some (Z.to_nat i).
Proof.
  intros H. unfold norm_index.
  destruct (0 <=? i) eqn:E1; [|lia].
  destruct (i <? Z.of_nat n) eqn:E2; [done|lia].
Qed.

Lemma get3_cell {A} (a : arr3 A) n x y z :
  shape3 n a -> 0 <= x < Z.of_nat n -> 0 <= y < Z.of_nat n -> 0 <= z < Z.of_nat n ->
  get3 a x y z = cell a (Z.to_nat x) (Z.to_nat y) (Z.to_nat z).
Proof.
  intros [Hl Hp] Hx Hy Hz. unfold get3, cell, item.
  rewrite Hl, (norm_index_in_range n x) by done. simpl.
  destruct (a !! Z.to_nat x) as [p|] eqn:Ep; simpl; [|done].
  rewrite Forall_lookup in Hp. destruct (Hp _ _ Ep) as [Hlp Hr].
  rewrite Hlp, (norm_index_in_range n y) by done. simpl.
  destruct (p !! Z.to_nat y) as [r|] eqn:Er; simpl; [|done].
  rewrite Forall_lookup in Hr. rewrite (Hr _ _ Er).
  by rewrite (norm_index_in_range n z).
Qed.

Lemma cell_is_Some {A} (a : arr3 A) n x y z :
  shape3 n a -> (x < n)%nat -> (y < n)%nat -> (z < n)%nat ->
  is_Some (cell a x y z).
Proof.
  intros [Hl Hp] Hx Hy Hz. unfold cell.
  destruct (lookup_lt_is_Some_2 a x) as [p Ep]; [lia|].
  rewrite Ep. simpl. rewrite Forall_lookup in Hp.
  destruct (Hp _ _ Ep) as [Hlp Hr].
  destruct (lookup_lt_is_Some_2 p y) as [r Er]; [lia|].
  rewrite Er. simpl. rewrite Forall_lookup in Hr.
  apply lookup_lt_is_Some_2. rewrite (Hr _ _ Er). lia.
Qed.

(** What [a[x, y, z] = v] does when it does not raise. *)
Lemma set3_spec {A} (a a' : arr3 A) x y z v :
  set3 a x y z v = Some a' ->
  exists i j k,
    is_Some (cell a i j k) /\
    (forall i' j' k',
       cell a' i' j' k' =
       if decide (i' = i /\ j' = j /\ k' = k) then Some v else cell a i' j' k').
Proof.
  unfold set3. intros H.
  destruct (norm_index (length a) x) as [i|] eqn:Ei; simpl in H; [|done].
  destruct (a !! i) as [p|] eqn:Ep; simpl in H; [|done].
  destruct (norm_index (length p) y) as [j|] eqn:Ej; simpl in H; [|done].
  destruct (p !! j) as [r|] eqn:Er; simpl in H; [|done].
  destruct (norm_index (length r) z) as [k|] eqn:Ek; simpl in H; [|done].
  injection H as <-. exists i, j, k.
  apply norm_index_lt in Ei, Ej, Ek. split.
  { unfold cell. rewrite Ep. simpl. rewrite Er. simpl.
    by apply lookup_lt_is_Some_2. }
  intros i' j' k'. unfold cell.
  destruct (decide (i' = i)) as [->|Hi].
  - rewrite list_lookup_insert_eq by done. simpl. rewrite Ep. simpl.
    destruct (decide (j' = j)) as [->|Hj].
    + rewrite list_lookup_insert_eq by done. simpl. rewrite Er. simpl.
      destruct (decide (k' = k)) as [->|Hk].
      * rewrite list_lookup_insert_eq by done.
        by rewrite decide_True.
      * rewrite list_lookup_insert_ne by done.
        rewrite decide_False; [done | intros (?&?&?); done].
    + rewrite list_lookup_insert_ne by done.
      rewrite decide_False; [done | intros (?&?&?); done].
  - rewrite list_lookup_insert_ne by done.
    rewrite decide_False; [done | intros (?&?&?); done].
Qed.

(** Where it writes, identified from the integer indices. *)
Lemma set3_target_cell {A} (a a' : arr3 A) n x y z v :
  shape3 n a -> 0 <= x < Z.of_nat n -> 0 <= y < Z.of_nat n -> 0 <= z < Z.of_nat n ->
  set3 a x y z v = Some a' ->
  forall i' j' k',
    cell a' i' j' k' =
    if decide (i' = Z.to_nat x /\ j' = Z.to_nat y /\ k' = Z.to_nat z)
    then Some v else cell a i' j' k'.
Proof.
  intros [Hl Hp] Hx Hy Hz H. unfold set3 in H.
  rewrite Hl, (norm_index_in_range n x) in H by done. simpl in H.
  destruct (a !! Z.to_nat x) as [p|] eqn:Ep; simpl in H; [|done].
  rewrite Forall_lookup in Hp. destruct (Hp _ _ Ep) as [Hlp Hr].
  rewrite Hlp, (norm_index_in_range n y) in H by done. simpl in H.
  destruct (p !! Z.to_nat y) as [r|] eqn:Er; simpl in H; [|done].
  rewrite Forall_lookup in Hr.
  rewrite (Hr _ _ Er), (norm_index_in_range n z) in H by done. simpl in H.
  injection H as <-. intros i' j' k'. unfold cell.
  assert (Z.to_nat x < length a)%nat by lia.
  assert (Z.to_nat y < length p)%nat by lia.
  assert (Z.to_nat z < length r)%nat by (rewrite (Hr _ _ Er); lia).
  destruct (decide (i' = Z.to_nat x)) as [->|Hi].
  - rewrite list_lookup_insert_eq by done. simpl. rewrite Ep. simpl.
    destruct (decide (j' = Z.to_nat y)) as [->|Hj].
    + rewrite list_lookup_insert_eq by done. simpl. rewrite Er. simpl.
      destruct (decide (k' = Z.to_nat z)) as [->|Hk].
      * rewrite list_lookup_insert_eq by done.
        by rewrite decide_True.
      * rewrite list_lookup_insert_ne by done.
        rewrite decide_False; [done | intros (?&?&?); done].
    + rewrite list_lookup_insert_ne by done.
      rewrite decide_False; [done | intros (?&?&?); done].
  - rewrite list_lookup_insert_ne by done.
    rewrite decide_False; [done | intros (?&?&?); done].
Qed.

Lemma set3_is_Some {A} (a : arr3 A) n x y z v :
  shape3 n a -> 0 <= x < Z.of_nat n -> 0 <= y < Z.of_nat n -> 0 <= z < Z.of_nat n ->
  is_Some (set3 a x y z v).
Proof.
  intros [Hl Hp] Hx Hy Hz. unfold set3.
  rewrite Hl, (norm_index_in_range n x) by done. simpl.
  destruct (lookup_lt_is_Some_2 a (Z.to_nat x)) as [p Ep]; [lia|].
  rewrite Ep. simpl. rewrite Forall_lookup in Hp.
  destruct (Hp _ _ Ep) as [Hlp Hr].
  rewrite Hlp, (norm_index_in_range n y) by done. simpl.
  destruct (lookup_lt_is_Some_2 p (Z.to_nat y)) as [r Er]; [lia|].
  rewrite Er. simpl. rewrite Forall_lookup in Hr.
  rewrite (Hr _ _ Er), (norm_index_in_range n z) by done. simpl. done.
Qed.

Lemma set3_shape {A} (a a' : arr3 A) n x y z v :
  shape3 n a -> set3 a x y z v = Some a' -> shape3 n a'.
Proof.
  intros [Hl Hp] H. unfold set3 in H.
  destruct (norm_index (length a) x) as [i|] eqn:Ei; simpl in H; [|done].
  destruct (a !! i) as [p|] eqn:Ep; simpl in H; [|done].
  destruct (norm_index (length p) y) as [j|] eqn:Ej; simpl in H; [|done].
  destruct (p !! j) as [r|] eqn:Er; simpl in H; [|done].
  destruct (norm_index (length r) z) as [k|] eqn:Ek; simpl in H; [|done].
  injection H as <-. split; [by rewrite length_insert|].
  rewrite Forall_lookup in Hp. destruct (Hp _ _ Ep) as [Hlp Hr].
  rewrite Forall_lookup in Hr.
  apply Forall_insert; [by apply Forall_lookup|].
  split; [by rewrite length_insert|].
  apply Forall_insert; [by apply Forall_lookup|].
  rewrite length_insert. by apply (Hr _ _ Er).
Qed.

Lemma full3_shape {A} n (v : A) : shape3 n (full3 n v).
Proof.
  split; [apply length_replicate|].
  apply Forall_replicate. split; [apply length_replicate|].
  apply Forall_replicate. apply length_replicate.
Qed.

Lemma full2_shape {A} n (v : A) : shape2 n (full2 n v).
Proof.
  split; [apply length_replicate|].
  apply Forall_replicate. apply length_replicate.
Qed.

Lemma cell_tab3 {A} n (f : nat -> nat -> nat -> A) x y z :
  (x < n)%nat -> (y < n)%nat -> (z < n)%nat ->
  cell (tab3 n f) x y z = Some (f x y z).
Proof.
  intros Hx Hy Hz. unfold cell, tab3.
  rewrite list_lookup_fmap, lookup_seq_lt by done. simpl.
  rewrite list_lookup_fmap, lookup_seq_lt by done. simpl.
  rewrite list_lookup_fmap, lookup_seq_lt by done. done.
Qed.

Lemma tab3_shape {A} n (f : nat -> nat -> nat -> A) : shape3 n (tab3 n f).
Proof.
  unfold tab3. split; [by rewrite length_map, length_seq|].
  apply Forall_map, Forall_forall. intros x _. simpl.
  split; [by rewrite length_map, length_seq|].
  apply Forall_map, Forall_forall. intros y _. simpl.
  by rewrite length_map, length_seq.
Qed.

Lemma map3_shape {A B} (f : A -> B) n a : shape3 n a -> shape3 n (map3 f a).
Proof.
  intros [Hl Hp]. unfold map3. split; [by rewrite length_map|].
  apply Forall_map. eapply Forall_impl; [exact Hp|].
  intros p [Hlp Hr]. split; [by rewrite length_map|].
  apply Forall_map. eapply Forall_impl; [exact Hr|].
  intros r Hlr. by rewrite length_map.
Qed.

Lemma fill3_shape {A} (v : A) n a : shape3 n a -> shape3 n (fill3 v a).
Proof. apply map3_shape. Qed.

Lemma wrap32_small z : -2147483648 <= z < 2147483648 -> wrap32 z = z.
Proof. intros H. unfold wrap32. rewrite Z.mod_small; lia. Qed.

Lemma in_cube_bump n axis d p :
  n <= 2147483648 -> in_cube n p ->
  (match axis with
   | O => 0 <= c0 p + d < n
   | S O => 0 <= c1 p + d < n
   | _ => 0 <= c2 p + d < n
   end) ->
  in_cube n (bump axis d p).
Proof.
  intros Hn (H0 & H1 & H2) Hd. unfold in_cube, bump.
  destruct axis as [|[|axis]]; simpl; rewrite wrap32_small by lia; lia.
Qed.


Lemma all_cells_Forall {A} (P : A -> Prop) (a : arr3 A) :
  all_cells P a <-> Forall (Forall (Forall P)) a.
Proof.
  unfold all_cells, cell. split.
  - intros H. apply Forall_lookup. intros x p Ep.
    apply Forall_lookup. intros y r Er.
    apply Forall_lookup. intros z v Ev.
    apply (H x y z). rewrite Ep. simpl. rewrite Er. simpl. done.
  - intros H x y z v Hc.
    destruct (a !! x) as [p|] eqn:Ep; simpl in Hc; [|done].
    destruct (p !! y) as [r|] eqn:Er; simpl in Hc; [|done].
    rewrite Forall_lookup in H. specialize (H _ _ Ep).
    rewrite Forall_lookup in H. specialize (H _ _ Er).
    rewrite Forall_lookup in H. by apply (H z).
Qed.

Lemma all_cells_set3 {A} (P : A -> Prop) (a a' : arr3 A) x y z v :
  all_cells P a -> P v -> set3 a x y z v = Some a' -> all_cells P a'.
Proof.
  intros Ha Hv Hs. destruct (set3_spec _ _ _ _ _ _ Hs) as (i & j & k & _ & Hc).
  intros x' y' z' w Hw. rewrite Hc in Hw.
  case_decide; [by simplify_eq|]. by eapply Ha.
Qed.

Lemma cell_map3 {A B} (f : A -> B) (a : arr3 A) x y z :
  cell (map3 f a) x y z = f <$> cell a x y z.
Proof.
  unfold cell, map3. rewrite list_lookup_fmap.
  destruct (a !! x) as [p|]; simpl; [|done].
  rewrite list_lookup_fmap. destruct (p !! y) as [r|]; simpl; [|done].
  by rewrite list_lookup_fmap.
Qed.

Lemma all_cells_fill3 {A} (P : A -> Prop) (a : arr3 A) v :
  P v -> all_cells P (fill3 v a).
Proof.
  intros Hv x y z w Hw. unfold fill3 in Hw. 
  change (map (map (map (fun _ : A => v))) a) with (map3 (fun _ : A => v) a) in Hw.
  rewrite cell_map3 in Hw.
  destruct (cell a x y z); by simplify_eq/=.
Qed.

Lemma cell_full3 {A} n (v : A) x y z :
  (x < n)%nat -> (y < n)%nat -> (z < n)%nat -> cell (full3 n v) x y z = Some v.
Proof.
  intros Hx Hy Hz. unfold cell, full3.
  rewrite lookup_replicate_2 by done. simpl.
  rewrite lookup_replicate_2 by done. simpl.
  by rewrite lookup_replicate_2.
Qed.

Lemma all_cells_full3 {A} (P : A -> Prop) n (v : A) : P v -> all_cells P (full3 n v).
Proof.
  intros Hv x y z w Hw. unfold cell, full3 in Hw.
  destruct (replicate n (replicate n (replicate n v)) !! x) as [p|] eqn:Ep;
    simpl in Hw; [|done].
  apply lookup_replicate in Ep as [-> _].
  destruct (replicate n (replicate n v) !! y) as [r|] eqn:Er; simpl in Hw; [|done].
  apply lookup_replicate in Er as [-> _].
  apply lookup_replicate in Hw as [-> _]. done.
Qed.

Lemma keeps_bind_gets {S A B} (I : S -> Prop) (f : S -> A) (k : A -> M S B) :
  (forall s, I s -> I (snd (k (f s) s))) -> keeps I (bind (gets f) k).
Proof. intros Hk s Hs. unfold bind, gets. by apply Hk. Qed.

Lemma bind_returns {S A B} (m : M S A) (k : A -> M S B) s b s' :
  bind m k s = (inr b, s') ->
  exists a s1, m s = (inr a, s1) /\ k a s1 = (inr b, s').
Proof.
  unfold bind. destruct (m s) as [[ex|a] s1]; intros H; [done|].
  by exists a, s1.
Qed.

Lemma spawn_in_cube n a b p : spawn n a b = inr p -> in_cube n p.
Proof.
  unfold spawn, randint. simpl.
  destruct (0 <? n) eqn:Hn; [|done]. apply Z.ltb_lt in Hn.
  intros H. injection H as <-.
  pose proof (Z.mod_pos_bound b (n - 0) ltac:(lia)).
  unfold in_cube. repeat case_match; simpl; lia.
Qed.


Lemma length_tab3 {A} n (f : nat -> nat -> nat -> A) : length (tab3 n f) = n.
Proof. unfold tab3. by rewrite length_map, length_seq. Qed.

Lemma length_distance_transform_edt a :
  length (distance_transform_edt a) = length a.
Proof. unfold distance_transform_edt. apply length_tab3. Qed.

Lemma gaussian_filter_shape n a : length a = n -> shape3 n (gaussian_filter a).
Proof.
  intros <-. unfold gaussian_filter, correlate_axis2, correlate_axis1.
  rewrite length_tab3. unfold correlate_axis0. rewrite length_tab3.
  apply tab3_shape.
Qed.

(** * The text-conditioned environment *)

Module TextFacts.
Import TextConditioned3DEnv.

Ltac unfold_m :=
  unfold position_of, has_block_of, grid_at, target_at, lift,
         bind, gets, modify, ret, raise in *.
Ltac run_m := unfold_m; repeat (case_match; simplify_eq/=).
Ltac guards :=
  repeat match goal with
         | H : _ && _ = true |- _ => apply andb_true_iff in H as [? ?]
         | H : (_ <? _) = true |- _ => apply Z.ltb_lt in H
         | H : (_ <=? _) = true |- _ => apply Z.leb_le in H
         | H : (_ =? _) = true |- _ => apply Z.eqb_eq in H
         | H : (_ <? _) = false |- _ => apply Z.ltb_ge in H
         | H : (_ =? _) = false |- _ => apply Z.eqb_neq in H
         end.

Lemma text_act_keeps_wf i action : keeps text_wf (act i action).
Proof.
  intros e He. unfold act. run_m; try done.
  all: destruct He as [Hs Hm Hg Ht Hb Hgb Hsc Hp Hh].
  all: constructor; simpl; try done;
    try (by rewrite length_alter); try (by rewrite length_insert).
  - eapply set3_shape; [exact Hg | eassumption].
  - eapply all_cells_set3; [exact Hgb | by right | eassumption].
Qed.

Lemma text_act_keeps_in_bounds i action :
  keeps (fun e => text_wf e /\ text_in_bounds e) (act i action).
Proof.
  intros e [He Hin]. split; [by apply text_act_keeps_wf|].
  destruct He as [Hs _ _ _ _ _ _ _ _]. revert Hin.
  unfold text_in_bounds, act. run_m; try done; intros Hin.
  all: apply Forall_alter; [done|].
  all: intros p Hp Hc; simplify_eq; guards.
  all: apply in_cube_bump; [lia|done|simpl; destruct Hc as (?&?&?); lia].
Qed.

Lemma act_keeps_fields i action e :
  let e' := snd (act i action e) in
  num_agents e' = num_agents e /\ grid_size e' = grid_size e /\
  local_size e' = local_size e /\ max_steps e' = max_steps e /\
  target e' = target e /\ scent_field e' = scent_field e /\
  step_count e' = step_count e.
Proof. unfold act. run_m; done. Qed.

Lemma pure_get_local_obs i : pure (_get_local_obs i).
Proof.
  intros e. unfold _get_local_obs. unfold_m.
  repeat (case_match; simplify_eq/=); done.
Qed.

Lemma text_pure_get_observations : pure _get_observations.
Proof.
  unfold _get_observations. apply pure_bind; [apply pure_gets|]. intros na.
  apply pure_for_collect. intros i.
  apply pure_bind; [apply pure_get_local_obs|]. intros l.
  apply pure_bind; [intros e; apply pure_lift|]. intros pos.
  apply pure_bind; [apply pure_gets|]. intros n.
  apply pure_bind; [intros e; apply pure_lift|]. intros hb.
  apply pure_ret.
Qed.

Lemma pure_calculate_rewards : pure _calculate_rewards.
Proof.
  unfold _calculate_rewards. apply pure_bind; [apply pure_gets|]. intros na.
  apply pure_for_collect. intros i.
  apply pure_bind; [intros e; apply pure_lift|]. intros pos.
  apply pure_bind; [intros e; apply pure_lift|]. intros g.
  apply pure_bind; [intros e; apply pure_lift|]. intros t.
  apply pure_bind; [apply pure_gets|]. intros ms.
  apply pure_bind; [intros e; apply pure_lift|]. intros hb.
  apply pure_ret.
Qed.

(** The state [step] leaves behind is the one the agent loop leaves. *)
Lemma text_step_state actions e :
  snd (step actions e) =
  snd (agent_loop actions (num_agents e) (with_step_count (step_count e + 1) e)).
Proof.
  unfold step.
  unfold bind at 1. unfold modify at 1. simpl.
  unfold bind at 1. unfold gets at 1. simpl.
  apply snd_bind_pure. intros _.
  apply pure_bind; [apply pure_calculate_rewards|]. intros rw.
  apply pure_bind; [apply pure_gets|]. intros d.
  apply pure_bind; [apply pure_gets|]. intros ms.
  apply pure_bind; [apply text_pure_get_observations|]. intros o.
  apply pure_ret.
Qed.

Lemma text_agent_loop_keeps (I : env -> Prop) actions na :
  (forall i a, keeps I (act i a)) -> keeps I (agent_loop actions na).
Proof.
  intros Ha. apply keeps_for_each. intros i _.
  apply keeps_bind; [apply keeps_lift|]. intros a. apply Ha.
Qed.

Lemma text_step_keeps (I : env -> Prop) actions :
  (forall e, I e -> I (with_step_count (step_count e + 1) e)) ->
  (forall i a, keeps I (act i a)) ->
  keeps I (step actions).
Proof.
  intros Hc Ha e He. rewrite text_step_state.
  apply text_agent_loop_keeps; [done|]. by apply Hc.
Qed.

Lemma step_keeps_wf actions : keeps text_wf (step actions).
Proof.
  apply text_step_keeps; [|apply text_act_keeps_wf].
  intros e [? ? ? ? ? ? ? ? ?]. by constructor.
Qed.

Lemma step_keeps_in_bounds actions :
  keeps (fun e => text_wf e /\ text_in_bounds e) (step actions).
Proof.
  apply text_step_keeps; [|apply text_act_keeps_in_bounds].
  intros e [[? ? ? ? ? ? ? ? ?] ?]. split; [by constructor|done].
Qed.

Lemma generate_scent_field_keeps_wf : keeps text_wf _generate_scent_field.
Proof.
  intros e [? ? ? Ht ? ? ? ? ?]. unfold _generate_scent_field. unfold_m.
  destruct (np_max _); simpl; [|by constructor].
  constructor; simpl; try done.
  destruct Ht as [Hl _]. apply gaussian_filter_shape.
  case_match; unfold map3; rewrite ?length_map.
  - by rewrite length_distance_transform_edt, length_map.
  - done.
Qed.

Lemma load_training_pair_keeps_wf text voxels :
  keeps text_wf (load_training_pair text voxels).
Proof.
  unfold load_training_pair.
  apply keeps_bind; [apply keeps_modify; by intros e [? ? ? ? ? ? ? ? ?]|]. intros _.
  apply keeps_bind.
  { apply keeps_modify. intros e [? ? ? ? ? ? ? ? ?]. constructor; simpl; try done.
    - by apply fill3_shape.
    - apply all_cells_fill3. by left. }
  intros _. apply keeps_bind; [|intros _; apply generate_scent_field_keeps_wf].
  apply keeps_for_each. intros v _ e He. run_m; try done.
  destruct He as [? ? ? ? ? ? ? ? ?]. constructor; simpl; try done.
  - eapply set3_shape; [|eassumption]. done.
  - eapply all_cells_set3; [| |eassumption]; [done|by right].
Qed.

Lemma spawn_agents_keeps_wf rng na k :
  keeps (fun e => text_wf e /\ num_agents e = k) (spawn_agents rng na).
Proof.
  apply keeps_for_each. intros i _ e [He Hk]. run_m; try done.
  split; [|done].
  destruct He as [? ? ? ? ? ? ? ? ?]. constructor; simpl; try done.
  by rewrite length_insert.
Qed.

Lemma reset_keeps_wf text voxels rng : keeps text_wf (reset text voxels rng).
Proof.
  unfold reset.
  apply keeps_bind.
  { apply keeps_modify. intros e [? ? ? ? ? ? ? ? ?]. constructor; simpl; try done.
    - by apply fill3_shape.
    - apply all_cells_fill3. by left. }
  intros _. apply keeps_bind; [apply keeps_modify; by intros e [? ? ? ? ? ? ? ? ?]|].
  intros _. apply keeps_bind.
  { destruct (_ && _); [apply load_training_pair_keeps_wf | apply keeps_ret]. }
  intros _. apply keeps_bind_gets. intros e He.
  assert (Hk : keeps (fun e' => text_wf e' /\ num_agents e' = num_agents e)
                 (spawn_agents rng (num_agents e) ;;;
                  modify (with_has_block (replicate (num_agents e) true)) ;;;
                  _get_observations)).
  { apply keeps_bind; [apply spawn_agents_keeps_wf|]. intros _.
    apply keeps_bind; [|intros _; apply keeps_pure, text_pure_get_observations].
    apply keeps_modify. intros e1 [[? ? ? ? ? ? ? ? ?] Hn]. split; [|done].
    constructor; simpl; try done. by rewrite length_replicate. }
  by apply Hk.
Qed.

Lemma init_wf a n l e : __init__ a n l = inr e -> text_wf e.
Proof.
  unfold __init__, np_zeros3, np_zeros_ok. simpl.
  destruct (0 <=? n) eqn:Hn; simpl; [|done]. apply Z.leb_le in Hn.
  destruct (n * (n * (n * 4)) <? 9223372036854775808) eqn:Hb; simpl; [|done].
  apply Z.ltb_lt in Hb.
  destruct (_ && _); [|done]. intros H. injection H as <-.
  constructor; simpl.
  - split; [done|]. nia.
  - done.
  - apply full3_shape.
  - apply full3_shape.
  - apply all_cells_full3. by left.
  - apply all_cells_full3. by left.
  - apply map3_shape, full3_shape.
  - apply length_replicate.
  - apply length_replicate.
Qed.

Lemma created_wf e : text_created e -> text_wf e.
Proof.
  induction 1 as [a n l e H|e text voxels rng r e' _ IH H|e actions r e' _ IH H].
  - by eapply init_wf.
  - apply (reset_keeps_wf text voxels rng) in IH. by rewrite H in IH.
  - apply (step_keeps_wf actions) in IH. by rewrite H in IH.
Qed.

(** After the spawn loop has run to its end, the agents it went through
    stand inside the cube and the others are where they were. *)
Lemma spawn_agents_places rng l e e' :
  for_each l (fun i =>
    n <~ gets grid_size ;;
    p <~ (fun e => (spawn n (fst (rng i)) (snd (rng i)), e)) ;;
    ps <~ gets agent_positions ;;
    if decide (i < length ps)%nat
    then modify (with_positions (<[i := p]> ps))
    else raise IndexError) e = (inr tt, e') ->
  grid_size e' = grid_size e /\ num_agents e' = num_agents e /\
  length (agent_positions e') = length (agent_positions e) /\
  forall i p, agent_positions e' !! i = Some p ->
    (i ∈ l -> in_cube (grid_size e) p) /\
    (i ∉ l -> agent_positions e !! i = Some p).
Proof.
  revert e. induction l as [|x l IH]; intros e H; simpl in H.
  { unfold ret in H. simplify_eq. split; [done|]. split; [done|]. split; [done|].
    intros i p Hp. split; [by intros ?%elem_of_nil|done]. }
  apply bind_returns in H as ([] & e1 & Hx & Hl).
  apply IH in Hl as (Hn & Hna & Hlen & Hl). clear IH.
  unfold_m. simpl in Hx.
  destruct (spawn _ _ _) as [ex|q] eqn:Hq; [done|].
  destruct (decide _) as [Hlt|]; [|done]. simplify_eq. simpl in *.
  split; [done|]. split; [done|]. split; [by rewrite Hlen, length_insert|].
  intros i p Hp. destruct (Hl i p Hp) as [Hin Hout]. split.
  - intros [->|Hi]%elem_of_cons.
    + destruct (decide (x ∈ l)) as [Hxl|Hxl]; [by apply Hin|].
      specialize (Hout Hxl). rewrite list_lookup_insert_eq in Hout by done.
      simplify_eq. by eapply spawn_in_cube.
    + by apply Hin.
  - intros Hi. apply not_elem_of_cons in Hi as [Hix Hil].
    specialize (Hout Hil). by rewrite list_lookup_insert_ne in Hout.
Qed.

Lemma reset_in_bounds text voxels rng e o e' :
  text_wf e -> reset text voxels rng e = (inr o, e') -> text_in_bounds e'.
Proof.
  intros He H. pose proof (reset_keeps_wf text voxels rng e He) as Hwf.
  rewrite H in Hwf. simpl in Hwf.
  unfold reset in H.
  apply bind_returns in H as ([] & e1 & _ & H).
  apply bind_returns in H as ([] & e2 & _ & H).
  apply bind_returns in H as ([] & e3 & _ & H).
  apply bind_returns in H as (na & e4 & Hna & H).
  unfold gets in Hna. simplify_eq.
  apply bind_returns in H as ([] & e5 & Hsp & H).
  apply bind_returns in H as ([] & e6 & Hhb & H).
  unfold modify in Hhb. simplify_eq.
  pose proof (text_pure_get_observations (with_has_block (replicate (num_agents e4) true) e5)) as Hp.
  rewrite H in Hp. simpl in Hp. subst e'.
  apply spawn_agents_places in Hsp as (Hn & Hna & Hlen & Hpl).
  unfold text_in_bounds. simpl. rewrite Hn.
  apply Forall_lookup. intros i p Hi. apply (Hpl i p Hi).
  apply elem_of_seq. split; [lia|]. simpl.
  apply lookup_lt_Some in Hi.
  destruct Hwf as [_ _ _ _ _ _ _ Hlp _]. simpl in Hlp. lia.
Qed.

Lemma reachable_wf_in_bounds e : text_reachable e -> text_wf e /\ text_in_bounds e.
Proof.
  induction 1 as [e text voxels rng o e' Hc H|e actions r e' _ IH H].
  - apply created_wf in Hc. split.
    + apply (reset_keeps_wf text voxels rng) in Hc. by rewrite H in Hc.
    + by eapply reset_in_bounds.
  - apply (step_keeps_in_bounds actions) in IH. by rewrite H in IH.
Qed.


End TextFacts.

(** * The global environment *)

Module SwarmFacts.
Import SwarmConstructionEnv.

Ltac unfold_m :=
  unfold position_of, has_block_of, grid_at, lift,
         bind, gets, modify, ret, raise in *.
Ltac run_m := unfold_m; repeat (case_match; simplify_eq/=).
Ltac guards :=
  repeat match goal with
         | H : _ && _ = true |- _ => apply andb_true_iff in H as [? ?]
         | H : (_ <? _) = true |- _ => apply Z.ltb_lt in H
         | H : (_ <=? _) = true |- _ => apply Z.leb_le in H
         | H : (_ =? _) = true |- _ => apply Z.eqb_eq in H
         | H : (_ <? _) = false |- _ => apply Z.ltb_ge in H
         | H : (_ =? _) = false |- _ => apply Z.eqb_neq in H
         end.

Lemma swarm_act_keeps_wf i action : keeps swarm_wf (act i action).
Proof.
  intros e He. unfold act. run_m; try done.
  all: destruct He as [Hs Hm Ht Hp Hh].
  all: constructor; simpl; try done;
    try (by rewrite length_alter); try (by rewrite length_insert).
Qed.

Lemma swarm_act_keeps_in_bounds i action :
  keeps (fun e => swarm_wf e /\ swarm_in_bounds e) (act i action).
Proof.
  intros e [He Hin]. split; [by apply swarm_act_keeps_wf|].
  destruct He as [Hs _ _ _ _]. revert Hin.
  unfold swarm_in_bounds, act. run_m; try done; intros Hin.
  all: apply Forall_alter; [done|].
  all: intros p Hp Hc; simplify_eq; guards.
  all: apply in_cube_bump; [lia|done|simpl; destruct Hc as (?&?&?); lia].
Qed.

(** No action writes into a rank-2 grid. *)
Lemma act_keeps_flat_grid i action : keeps swarm_flat_grid (act i action).
Proof.
  intros e He. unfold swarm_flat_grid in *. unfold act. run_m; try done.
  rewrite He in *. done.
Qed.

Lemma swarm_pure_get_observations : pure _get_observations.
Proof.
  unfold _get_observations. apply pure_bind; [apply pure_gets|]. intros na.
  apply pure_for_collect. intros i.
  apply pure_bind; [intros e; apply pure_lift|]. intros pos.
  apply pure_bind; [apply pure_gets|]. intros n.
  apply pure_bind; [apply pure_gets|]. intros g.
  apply pure_bind; [intros e; apply pure_lift|]. intros hb.
  apply pure_bind; [apply pure_gets|]. intros t.
  apply pure_ret.
Qed.

Lemma swarm_step_state actions e :
  snd (step actions e) =
  snd (agent_loop actions (num_agents e) (with_step_count (step_count e + 1) e)).
Proof.
  unfold step.
  unfold bind at 1. unfold modify at 1. simpl.
  unfold bind at 1. unfold gets at 1. simpl.
  apply snd_bind_pure. intros _.
  apply pure_bind; [apply pure_gets|]. intros rw.
  apply pure_bind; [apply pure_gets|]. intros d.
  apply pure_bind; [apply pure_gets|]. intros ms.
  apply pure_bind; [apply swarm_pure_get_observations|]. intros o.
  apply pure_ret.
Qed.

Lemma swarm_agent_loop_keeps (I : env -> Prop) actions na :
  (forall i a, keeps I (act i a)) -> keeps I (agent_loop actions na).
Proof.
  intros Ha. apply keeps_for_each. intros i _.
  apply keeps_bind; [apply keeps_lift|]. intros a. apply Ha.
Qed.

Lemma swarm_step_keeps (I : env -> Prop) actions :
  (forall e, I e -> I (with_step_count (step_count e + 1) e)) ->
  (forall i a, keeps I (act i a)) ->
  keeps I (step actions).
Proof.
  intros Hc Ha e He. rewrite swarm_step_state.
  apply swarm_agent_loop_keeps; [done|]. by apply Hc.
Qed.

Lemma step_keeps_good actions : keeps swarm_good (step actions).
Proof.
  apply swarm_step_keeps.
  - intros e [[[? ? ? ? ?] ?] ?]. split; [split; [by constructor|done]|done].
  - intros i a e [H1 H2]. split.
    + by apply swarm_act_keeps_in_bounds.
    + by apply act_keeps_flat_grid.
Qed.

Lemma imap_shape_row (f : nat -> Z -> Z) (r : list Z) n :
  length r = n -> length (imap f r) = n.
Proof. intros. by rewrite length_imap. Qed.

Lemma assign3_shape a sx sy sz v a' n :
  shape3 n a -> assign3 a sx sy sz v = inr a' -> shape3 n a'.
Proof.
  intros [Hl Hp] H. unfold assign3 in H.
  destruct (resolve _ sx) as [?|xs]; [by repeat case_match|].
  destruct (resolve _ sy) as [?|ys]; [by repeat case_match|].
  destruct (resolve _ sz) as [?|zs]; [done|].
  injection H as <-. split; [by rewrite length_imap|].
  apply Forall_lookup. intros x p Hx.
  rewrite list_lookup_imap in Hx.
  destruct (a !! x) as [p0|] eqn:Ep; simpl in Hx; [|done].
  rewrite Forall_lookup in Hp. destruct (Hp _ _ Ep) as [Hlp Hr].
  injection Hx as <-. destruct (selected x xs); [|done].
  split; [by rewrite length_imap|].
  apply Forall_lookup. intros y r Hy.
  rewrite list_lookup_imap in Hy.
  destruct (p0 !! y) as [r0|] eqn:Er; simpl in Hy; [|done].
  rewrite Forall_lookup in Hr. specialize (Hr _ _ Er).
  injection Hy as <-. destruct (selected y ys); [|done].
  by rewrite length_imap.
Qed.

Section Generator.
Variable rng : nat -> Z.
Variable n : Z.
Variable k : nat.

Let I (s : gen) : Prop := shape3 k (cells s).

Lemma draw_keeps : keeps I (draw rng).
Proof. by intros s Hs. Qed.

Lemma np_randint_keeps lo hi : keeps I (np_randint rng lo hi).
Proof.
  intros s Hs. unfold np_randint, bind, draw. simpl. exact Hs.
Qed.

Lemma paint_keeps sx sy sz : keeps I (paint sx sy sz).
Proof.
  intros s Hs. unfold paint.
  destruct (assign3 _ _ _ _ _) eqn:E; simpl; [done|].
  by eapply assign3_shape.
Qed.

Lemma random_shape_keeps : keeps I (random_shape rng n).
Proof.
  unfold random_shape.
  repeat first
    [ apply draw_keeps | apply np_randint_keeps | apply paint_keeps
    | apply keeps_ret
    | apply keeps_bind; [|intros ?]
    | apply keeps_for_each; intros ? _
    | case_match ].
Qed.
End Generator.

Lemma make_random_target_shape rng n t :
  _make_random_target rng n = inr t -> shape3 (Z.to_nat n) t.
Proof.
  unfold _make_random_target, np_zeros3.
  destruct (np_zeros_ok _ _); [|done].
  pose proof (random_shape_keeps rng n (Z.to_nat n)
                (Gen 0 (full3 (Z.to_nat n) 0)) (full3_shape _ _)) as H.
  destruct (random_shape _ _ _) as [[?|?] s]; [done|].
  intros H'. by injection H' as <-.
Qed.

Lemma keeps_bind_const {S A B} (I : S -> Prop) (r : result A) (k : A -> M S B) :
  (forall a, r = inr a -> keeps I (k a)) -> keeps I (bind (fun s => (r, s)) k).
Proof.
  intros Hk s Hs. unfold bind. destruct r as [ex|a]; [done|]. by apply Hk.
Qed.

(** [reset] (re-)establishes the invariant: from a state whose grid is
    already flat, whatever happens; from any other well-formed state,
    as soon as the grid has been allocated. *)
Lemma reset_good rng trng e :
  swarm_wf e -> swarm_in_bounds e ->
  swarm_flat_grid e \/ (exists o, fst (reset rng trng e) = inr o) ->
  swarm_good (snd (reset rng trng e)).
Proof.
  intros Hwf Hin Hor.
  destruct (reset rng trng e) as [r e'] eqn:Hr. simpl in *.
  unfold reset in Hr.
  unfold bind at 1 in Hr. unfold gets at 1 in Hr.
  unfold bind at 1 in Hr.
  destruct (np_zeros2 (grid_size e) 4 0) as [ex|zeros] eqn:Hz.
  { simplify_eq. destruct Hor as [Hf|[o Ho]]; [|done]. by split. }
  assert (zeros = full2 (Z.to_nat (grid_size e)) 0) as ->.
  { unfold np_zeros2 in Hz. destruct (np_zeros_ok _ _); by simplify_eq. }
  unfold bind at 1 in Hr. unfold modify at 1 in Hr.
  set (J := fun e' => swarm_good e' /\ grid_size e' = grid_size e
                      /\ num_agents e' = num_agents e).
  match type of Hr with ?m ?s = _ => enough (keeps J m) as Hk end.
  { match type of Hr with ?m ?s = _ => specialize (Hk s) end.
    rewrite Hr in Hk. apply Hk. destruct Hwf as [? ? ? ? ?].
    split; [|done]. split; [split; [by constructor|done]|done]. }
  clear Hr.
  apply keeps_bind.
  { apply keeps_modify. intros e1 ([[[? ? ? ? ?] ?] ?] & Hs & Hn).
    split; [|done]. split; [split; [by constructor|done]|done]. }
  intros _. apply keeps_bind_gets. intros e1 (He1 & Hs1 & Hn1).
  match goal with |- J (snd (?m e1)) => enough (keeps J m) as Hk end.
  { by apply Hk. }
  apply keeps_bind.
  { apply keeps_for_each. intros i _ e2 ([[He2 Hin2] Hf] & Hs & Hn).
    run_m; try done. split; [|done]. split; [split|done].
    - destruct He2 as [? ? ? ? ?]. constructor; simpl; try done.
      by rewrite length_insert.
    - unfold swarm_in_bounds in *. simpl.
      apply Forall_insert; [done|]. by eapply spawn_in_cube. }
  intros _. apply keeps_bind.
  { apply keeps_modify. intros e2 ([[[? ? ? ? ?] ?] ?] & Hs & Hn).
    split; [|done]. split; [split; [constructor; simpl; try done|done]|done].
    rewrite length_replicate. congruence. }
  intros _. apply keeps_bind_const. intros t Ht.
  apply make_random_target_shape in Ht.
  apply keeps_bind; [|intros _; apply keeps_pure, swarm_pure_get_observations].
  apply keeps_modify. intros e2 ([[[? ? ? ? ?] ?] ?] & Hs & Hn).
  split; [|done]. split; [split; [constructor; simpl; try done|done]|done].
  by rewrite Hs.
Qed.

Lemma reset_keeps_good rng trng : keeps swarm_good (reset rng trng).
Proof. intros e [[Hwf Hin] Hf]. apply reset_good; auto. Qed.

Lemma init_good a n trng0 rng trng e :
  __init__ a n trng0 rng trng = inr e -> swarm_good e.
Proof.
  unfold __init__, np_zeros3.
  destruct (np_zeros_ok [n; n; n] 4) eqn:Hok; [|done].
  destruct (_ && _); [|done].
  destruct (_make_random_target trng0 n) as [ex|t0] eqn:Ht0; [done|].
  match goal with |- context [reset rng trng ?x] => set (e0 := x) end.
  destruct (reset rng trng e0) as [[ex|o] e1] eqn:Hr; [done|].
  intros H. injection H as <-.
  unfold np_zeros_ok in Hok. simpl in Hok.
  apply andb_true_iff in Hok as [Hn Hb].
  apply andb_true_iff in Hn as [Hn _]. apply Z.leb_le in Hn.
  apply Z.ltb_lt in Hb.
  apply make_random_target_shape in Ht0.
  assert (Hwf : swarm_wf e0).
  { constructor; simpl; try done.
    - split; [done|]. nia.
    - apply length_replicate.
    - apply length_replicate. }
  assert (Hin : swarm_in_bounds e0).
  { unfold swarm_in_bounds. simpl.
    destruct (Z.to_nat a) as [|k] eqn:Ha; [constructor|].
    destruct (decide (n = 0)) as [->|Hn0].
    - exfalso. subst e0. try rewrite Ha in Hr.
      unfold reset, spawn_agents in Hr. simpl in Hr. done.
    - apply Forall_replicate. unfold in_cube. simpl. lia. }
  pose proof (reset_good rng trng e0 Hwf Hin) as Hg.
  rewrite Hr in Hg. apply Hg. right. by exists o.
Qed.

Lemma reachable_good e : swarm_reachable e -> swarm_good e.
Proof.
  induction 1 as [a n trng0 rng trng e H|e rng trng r e' _ IH H
                 |e actions r e' _ IH H].
  - by eapply init_good.
  - apply (reset_keeps_good rng trng) in IH. by rewrite H in IH.
  - apply (step_keeps_good actions) in IH. by rewrite H in IH.
Qed.
End SwarmFacts.

(** * Concrete environments are reachable *)

Lemma text_fresh_init : TextConditioned3DEnv.__init__ 2 8 3 = inr text_fresh.
Proof. reflexivity. Qed.

Lemma text_started_returns :
  exists o, TextConditioned3DEnv.reset None None (fun _ => (0, 0)) text_fresh
            = (inr o, text_started).
Proof. unfold text_started. vm_compute. eexists. reflexivity. Qed.

Lemma text_started_reachable : text_reachable text_started.
Proof.
  destruct text_started_returns as [o Ho].
  eapply text_reach_reset; [|exact Ho].
  eapply text_created_init. exact text_fresh_init.
Qed.

Lemma swarm_started_init :
  SwarmConstructionEnv.__init__ 2 8 (fun _ => 4) (fun _ => (0, 0)) (fun _ => 4)
  = inr swarm_started.
Proof. vm_compute. reflexivity. Qed.

Lemma swarm_started_reachable : swarm_reachable swarm_started.
Proof. eapply swarm_reach_init. exact swarm_started_init. Qed.

(** * C1: positions stay in bounds *)

(** C1. In every reachable state of either environment all agent positions
    lie in [[0, grid_size)^3], and they still do after any further call of
    [step], whatever the action map and whether the call returns or
    raises. *)
Theorem positions_stay_in_bounds :
  (forall e, text_reachable e ->
     text_in_bounds e /\
     forall actions, text_in_bounds (snd (TextConditioned3DEnv.step actions e)))
  /\
  (forall e, swarm_reachable e ->
     swarm_in_bounds e /\
     forall actions, swarm_in_bounds (snd (SwarmConstructionEnv.step actions e))).
Proof.
  split.
  - intros e He. split.
    + by apply TextFacts.reachable_wf_in_bounds.
    + intros actions.
      apply (TextFacts.reachable_wf_in_bounds
               (snd (TextConditioned3DEnv.step actions e))).
      eapply text_reach_step; [exact He|]. apply surjective_pairing.
  - intros e He. split.
    + by apply SwarmFacts.reachable_good.
    + intros actions.
      apply (SwarmFacts.reachable_good
               (snd (SwarmConstructionEnv.step actions e))).
      eapply swarm_reach_step; [exact He|]. apply surjective_pairing.
Qed.

Lemma positions_stay_in_bounds_witness :
  (text_in_bounds text_started /\
   text_in_bounds (snd (TextConditioned3DEnv.step [0; 4] text_started)))
  /\
  (swarm_in_bounds swarm_started /\
   swarm_in_bounds (snd (SwarmConstructionEnv.step [6; 2] swarm_started))).
Proof.
  split.
  - split.
    + exact (proj1 (proj1 positions_stay_in_bounds text_started
                      text_started_reachable)).
    + exact (proj2 (proj1 positions_stay_in_bounds text_started
                      text_started_reachable) [0; 4]).
  - split.
    + exact (proj1 (proj2 positions_stay_in_bounds swarm_started
                      swarm_started_reachable)).
    + exact (proj2 (proj2 positions_stay_in_bounds swarm_started
                      swarm_started_reachable) [6; 2]).
Defined.

(** * C10: occupancy is never lost *)

Lemma occupancy_kept_refl a : occupancy_kept a a.
Proof. intros x y z v Hv Hp. by exists v. Qed.

Lemma occupancy_kept_set3 a0 a a' x y z :
  occupancy_kept a0 a -> set3 a x y z 1 = Some a' -> occupancy_kept a0 a'.
Proof.
  intros Hk Hs. destruct (set3_spec _ _ _ _ _ _ Hs) as (i & j & k & _ & Hc).
  intros x' y' z' v Hv Hp. rewrite Hc.
  case_decide; [by exists 1|]. by eapply Hk.
Qed.

Lemma nd_occupancy_kept_refl a : nd_occupancy_kept a a.
Proof. intros idx v Hv Hp. by exists v. Qed.

Lemma nd_occupancy_kept_set3 a0 a a' x y z :
  nd_occupancy_kept a0 a -> nd_set3 a x y z 1 = Some a' -> nd_occupancy_kept a0 a'.
Proof.
  intros Hk Hs. destruct a as [a|a]; simpl in Hs; [done|].
  destruct (set3 a x y z 1) as [b|] eqn:Hb; simpl in Hs; [|done].
  injection Hs as <-.
  destruct (set3_spec _ _ _ _ _ _ Hb) as (i & j & k & _ & Hc).
  intros idx v Hv Hp. destruct (Hk idx v Hv Hp) as (w & Hw & Hwp).
  destruct idx as [|x' [|y' [|z' [|]]]]; simpl in Hw; try done.
  simpl. rewrite Hc. case_decide; [by exists 1|]. by exists w.
Qed.

Lemma text_act_grid_monotone i action g0 :
  keeps (fun e => occupancy_kept g0 (TextConditioned3DEnv.grid e))
        (TextConditioned3DEnv.act i action).
Proof.
  intros e He. unfold TextConditioned3DEnv.act. TextFacts.run_m; try done.
  by eapply occupancy_kept_set3.
Qed.

Lemma text_step_grid_monotone actions g0 :
  keeps (fun e => occupancy_kept g0 (TextConditioned3DEnv.grid e))
        (TextConditioned3DEnv.step actions).
Proof.
  apply TextFacts.text_step_keeps; [done|]. intros i a. apply text_act_grid_monotone.
Qed.

Lemma swarm_act_grid_monotone i action g0 :
  keeps (fun e => nd_occupancy_kept g0 (SwarmConstructionEnv.grid e))
        (SwarmConstructionEnv.act i action).
Proof.
  intros e He. unfold SwarmConstructionEnv.act. SwarmFacts.run_m; try done.
  by eapply nd_occupancy_kept_set3.
Qed.

Lemma swarm_step_grid_monotone actions g0 :
  keeps (fun e => nd_occupancy_kept g0 (SwarmConstructionEnv.grid e))
        (SwarmConstructionEnv.step actions).
Proof.
  apply SwarmFacts.swarm_step_keeps; [done|]. intros i a. apply swarm_act_grid_monotone.
Qed.

(** C10. Across any sequence of [step] calls of one episode, a grid cell
    that is occupied stays occupied, in both environments: no action of any
    agent clears a cell. *)
Theorem occupancy_is_monotone :
  (forall e l,
     occupancy_kept (TextConditioned3DEnv.grid e)
                    (TextConditioned3DEnv.grid (text_run l e)))
  /\
  (forall e l,
     nd_occupancy_kept (SwarmConstructionEnv.grid e)
                       (SwarmConstructionEnv.grid (swarm_run l e))).
Proof.
  split.
  - intros e l.
    generalize (occupancy_kept_refl (TextConditioned3DEnv.grid e)).
    generalize (TextConditioned3DEnv.grid e) at 1 3. intros g0.
    revert e. induction l as [|a l IH]; intros e He; simpl; [done|].
    apply IH. by apply text_step_grid_monotone.
  - intros e l.
    generalize (nd_occupancy_kept_refl (SwarmConstructionEnv.grid e)).
    generalize (SwarmConstructionEnv.grid e) at 1 3. intros g0.
    revert e. induction l as [|a l IH]; intros e He; simpl; [done|].
    apply IH. by apply swarm_step_grid_monotone.
Qed.

(** * C5: place and pickup *)

Section TextPlacePickup.
Import TextConditioned3DEnv.
Variable e : env.
Variable i : nat.
Variable p : xyz.
Hypothesis Hwf : text_wf e.
Hypothesis Hpos : agent_positions e !! i = Some p.
Hypothesis Hin : in_cube (grid_size e) p.

Let x := Z.to_nat (c0 p).
Let y := Z.to_nat (c1 p).
Let z := Z.to_nat (c2 p).

Lemma text_here_defined : exists v, get3 (grid e) (c0 p) (c1 p) (c2 p) = Some v
                                    /\ cell (grid e) x y z = Some v.
Proof.
  destruct Hwf as [Hs _ Hg _ _ _ _ _ _]. destruct Hin as (H0 & H1 & H2).
  rewrite (get3_cell _ (Z.to_nat (grid_size e))) by (done || lia).
  destruct (cell_is_Some (grid e) (Z.to_nat (grid_size e)) x y z) as [v Hv];
    [done|subst x y z; lia..|].
  by exists v.
Qed.

(** Place while holding: the cell under the agent becomes occupied, every
    other cell is as before, the flag is cleared, nothing else changes. *)
Lemma text_place_holding :
  agent_has_block e !! i = Some true ->
  exists g',
    act i 6 e = (inr tt, with_has_block (<[i := false]> (agent_has_block e))
                           (with_grid g' e)) /\
    cell g' x y z = Some 1 /\
    (forall x' y' z', (x', y', z') <> (x, y, z) ->
       cell g' x' y' z' = cell (grid e) x' y' z') /\
    <[i := false]> (agent_has_block e) !! i = Some false.
Proof.
  intros Hh. destruct Hwf as [Hs _ Hg _ _ _ _ _ Hlh]. destruct Hin as (H0 & H1 & H2).
  destruct (set3_is_Some (grid e) (Z.to_nat (grid_size e))
              (c0 p) (c1 p) (c2 p) 1) as [g' Hg']; [done|lia..|].
  exists g'. split; [|split; [|split]].
  - unfold act. TextFacts.unfold_m. rewrite Hpos. simpl.
    rewrite Hh, Hg'. done.
  - rewrite (set3_target_cell (grid e) g' _ (c0 p) (c1 p) (c2 p) 1 Hg); [|lia..|done].
    by rewrite decide_True.
  - intros x' y' z' Hne.
    rewrite (set3_target_cell (grid e) g' _ (c0 p) (c1 p) (c2 p) 1 Hg); [|lia..|done].
    rewrite decide_False; [done|]. intros (-> & -> & ->). done.
  - apply list_lookup_insert_eq. by eapply lookup_lt_Some.
Qed.

(** Place while not holding: nothing happens. *)
Lemma text_place_empty_handed :
  agent_has_block e !! i = Some false -> act i 6 e = (inr tt, e).
Proof.
  intros Hh. unfold act. TextFacts.unfold_m. rewrite Hpos. simpl.
  by rewrite Hh.
Qed.

(** Pickup while not holding, on an unoccupied cell: the flag is set and
    the grid is untouched. *)
Lemma text_pickup_free_cell :
  agent_has_block e !! i = Some false ->
  cell (grid e) x y z = Some 0 ->
  act i 7 e = (inr tt, with_has_block (<[i := true]> (agent_has_block e)) e) /\
  <[i := true]> (agent_has_block e) !! i = Some true.
Proof.
  intros Hh Hc. destruct text_here_defined as (v & Hv & Hv').
  assert (v = 0) as -> by congruence. split.
  - unfold act. TextFacts.unfold_m. rewrite Hpos. simpl.
    by rewrite Hh, Hv.
  - apply list_lookup_insert_eq. by eapply lookup_lt_Some.
Qed.

(** Pickup otherwise (holding already, or the cell occupied): nothing
    happens. *)
Lemma text_pickup_otherwise :
  (agent_has_block e !! i = Some true \/
   agent_has_block e !! i = Some false /\
   exists v, cell (grid e) x y z = Some v /\ 0 < v) ->
  act i 7 e = (inr tt, e).
Proof.
  intros [Hh|(Hh & v & Hc & Hv)].
  - unfold act. TextFacts.unfold_m. rewrite Hpos. simpl. by rewrite Hh.
  - destruct text_here_defined as (w & Hw & Hw').
    assert (w = v) as -> by congruence.
    unfold act. TextFacts.unfold_m. rewrite Hpos. simpl.
    rewrite Hh, Hw. destruct (v =? 0) eqn:E; [lia|done].
Qed.
End TextPlacePickup.

(** In the global environment the grid is of rank 2 after [reset]: placing
    a block while holding one raises [IndexError] and changes nothing. *)
Lemma swarm_place_raises_when_holding e i p :
  swarm_reachable e ->
  SwarmConstructionEnv.agent_positions e !! i = Some p ->
  SwarmConstructionEnv.agent_has_block e !! i = Some true ->
  SwarmConstructionEnv.act i 6 e = (inl IndexError, e).
Proof.
  intros He Hp Hh. apply SwarmFacts.reachable_good in He as [_ Hf].
  unfold SwarmConstructionEnv.act. SwarmFacts.unfold_m.
  rewrite Hp. simpl. rewrite Hh. rewrite Hf. done.
Qed.

(** C5, at the failing input: with
    [env = SwarmConstructionEnv(num_agents=2, grid_size=8)], agent 0 holds a
    block and executes place-block (action 6); [step] raises [IndexError],
    the grid is unchanged and the agent still holds its block. *)
Theorem swarm_place_block_raises :
  SwarmConstructionEnv.agent_has_block swarm_started !! 0%nat = Some true /\
  fst (SwarmConstructionEnv.step [6; 0] swarm_started) = inl IndexError /\
  SwarmConstructionEnv.grid (snd (SwarmConstructionEnv.step [6; 0] swarm_started))
  = SwarmConstructionEnv.grid swarm_started /\
  SwarmConstructionEnv.agent_has_block
    (snd (SwarmConstructionEnv.step [6; 0] swarm_started)) !! 0%nat = Some true.
Proof. vm_compute. repeat split; reflexivity. Qed.

(** * C3: shapes after reset *)

(** In the text-conditioned environment grid and target are [(n, n, n)]
    arrays after every call of [reset]. *)
Lemma text_reset_shapes e text voxels rng :
  text_created e ->
  let e' := snd (TextConditioned3DEnv.reset text voxels rng e) in
  let n := Z.to_nat (TextConditioned3DEnv.grid_size e') in
  shape3 n (TextConditioned3DEnv.grid e') /\ shape3 n (TextConditioned3DEnv.target e').
Proof.
  intros He. apply TextFacts.created_wf in He.
  apply (TextFacts.reset_keeps_wf text voxels rng) in He.
  by destruct He as [? ? ? ? ? ? ? ? ?].
Qed.

(** In the global environment the grid is an [(n, n)] array in every state
    of an episode, while the target is an [(n, n, n)] array. *)
Lemma swarm_reset_shapes e :
  swarm_reachable e ->
  let n := Z.to_nat (SwarmConstructionEnv.grid_size e) in
  (exists rows, SwarmConstructionEnv.grid e = Arr2 rows /\ shape2 n rows) /\
  shape3 n (SwarmConstructionEnv.target e).
Proof.
  intros He. apply SwarmFacts.reachable_good in He as [[Hwf _] Hf]. split.
  - eexists. split; [exact Hf|]. apply full2_shape.
  - by destruct Hwf.
Qed.

(** C3, at the failing input: after
    [SwarmConstructionEnv(num_agents=2, grid_size=8)], whose constructor
    ends with [reset()], the grid has shape [(8, 8)] and the target has
    shape [(8, 8, 8)]. *)
Theorem swarm_reset_shape_mismatch :
  shape (SwarmConstructionEnv.grid swarm_started) = [8; 8]%nat /\
  shape (Arr3 (SwarmConstructionEnv.target swarm_started)) = [8; 8; 8]%nat.
Proof. vm_compute. split; reflexivity. Qed.

(** * C4: step counter and termination *)

Lemma fgt_spec x c : fgt x c = true <-> exists q, x = Fin q /\ (c < q)%Q.
Proof.
  destruct x as [q|]; simpl.
  - rewrite negb_true_iff. split.
    + intros H. exists q. split; [done|].
      apply Qnot_le_lt. intros Hle. apply Qle_bool_iff in Hle. congruence.
    + intros (q' & Hq & Hlt). injection Hq as <-.
      destruct (Qle_bool q c) eqn:E; [|done].
      apply Qle_bool_iff in E. exfalso. by apply (Qlt_not_le c q).
  - split; [done|]. by intros (q & Hq & _).
Qed.

Module TextEpisode.
Import TextConditioned3DEnv.

Lemma text_act_keeps_count i action k :
  keeps (fun e => step_count e = k /\ max_steps e = 150) (act i action).
Proof.
  intros e [Hc Hm]. destruct (TextFacts.act_keeps_fields i action e)
    as (_ & _ & _ & Hm' & _ & _ & Hc'). split; congruence.
Qed.

(** [step] adds one to the counter, whether it returns or raises. *)
Lemma text_step_increments actions e :
  max_steps e = 150 ->
  step_count (snd (step actions e)) = step_count e + 1 /\
  max_steps (snd (step actions e)) = 150.
Proof.
  intros Hm. rewrite TextFacts.text_step_state.
  apply (TextFacts.text_agent_loop_keeps
           (fun e' => step_count e' = step_count e + 1 /\ max_steps e' = 150)).
  - intros i a. apply text_act_keeps_count.
  - done.
Qed.

(** What a returning [step] reports, in terms of the state it leaves. *)
Lemma text_step_returns actions e out e' :
  step actions e = (inr out, e') ->
  (exists rw, _calculate_rewards e' = (inr rw, e') /\ rewards out = rw) /\
  match_score out = _get_match_score e' /\
  done out = (max_steps e' <=? step_count e') || fgt (_get_match_score e') (85 # 100).
Proof.
  intros H. unfold step in H.
  apply bind_returns in H as ([] & e1 & _ & H).
  apply bind_returns in H as (na & e2 & Hna & H).
  unfold gets in Hna. injection Hna as <- <-.
  apply bind_returns in H as ([] & e3 & _ & H).
  apply bind_returns in H as (rw & e4 & Hrw & H).
  pose proof (TextFacts.pure_calculate_rewards e3) as Hp.
  rewrite Hrw in Hp. simpl in Hp. subst e4.
  apply bind_returns in H as (d & e5 & Hd & H).
  unfold gets in Hd. injection Hd as <- <-.
  apply bind_returns in H as (ms & e6 & Hms & H).
  unfold gets in Hms. injection Hms as <- <-.
  apply bind_returns in H as (o & e7 & Ho & H).
  pose proof (TextFacts.text_pure_get_observations e3) as Hp.
  rewrite Ho in Hp. simpl in Hp. subst e7.
  unfold ret in H. injection H as <- <-. simpl. split; [by exists rw|done].
Qed.

Lemma load_training_pair_keeps_count text voxels k :
  keeps (fun e => step_count e = k) (load_training_pair text voxels).
Proof.
  unfold load_training_pair.
  apply keeps_bind; [by apply keeps_modify|]. intros _.
  apply keeps_bind; [by apply keeps_modify|]. intros _.
  apply keeps_bind.
  - apply keeps_for_each. intros v _ e He. TextFacts.run_m; done.
  - intros _ e He. unfold _generate_scent_field. TextFacts.unfold_m.
    by destruct (np_max _).
Qed.

Lemma text_reset_zeroes_count text voxels rng e :
  step_count (snd (reset text voxels rng e)) = 0.
Proof.
  unfold reset. unfold bind at 1. unfold modify at 1.
  unfold bind at 1. unfold modify at 1.
  match goal with |- step_count (snd (?m ?s)) = 0 =>
    enough (keeps (fun e' => step_count e' = 0) m) as Hk by (by apply Hk) end.
  apply keeps_bind.
  { destruct (_ && _); [apply load_training_pair_keeps_count|apply keeps_ret]. }
  intros _. apply keeps_bind; [apply keeps_gets|]. intros na.
  apply keeps_bind.
  { apply keeps_for_each. intros i _ e' He'. TextFacts.run_m; done. }
  intros _. apply keeps_bind; [by apply keeps_modify|]. intros _.
  apply keeps_pure, TextFacts.text_pure_get_observations.
Qed.

Lemma text_running_invariant e :
  text_running e -> text_wf e /\ 0 <= step_count e < 150.
Proof.
  induction 1 as [e text voxels rng o e' Hc H|e actions out e' _ [IHw IH] H Hd].
  - apply TextFacts.created_wf in Hc.
    pose proof (TextFacts.reset_keeps_wf text voxels rng e Hc) as Hw.
    pose proof (text_reset_zeroes_count text voxels rng e) as H0.
    rewrite H in Hw, H0. simpl in *. split; [done|lia].
  - pose proof (TextFacts.step_keeps_wf actions e IHw) as Hw.
    destruct (text_step_increments actions e) as [Hi Hm]; [by destruct IHw|].
    destruct (text_step_returns _ _ _ _ H) as (_ & _ & Hdone).
    rewrite H in Hw, Hi, Hm. simpl in *. split; [done|].
    rewrite Hd in Hdone. symmetry in Hdone.
    apply orb_false_iff in Hdone as [Hlt _]. apply Z.leb_gt in Hlt. lia.
Qed.
End TextEpisode.

Module SwarmEpisode.
Import SwarmConstructionEnv.

Lemma swarm_act_keeps_count i action k :
  keeps (fun e => step_count e = k /\ max_steps e = 150) (act i action).
Proof. intros e [Hc Hm]. unfold act. SwarmFacts.run_m; done. Qed.

Lemma swarm_step_increments actions e :
  max_steps e = 150 ->
  step_count (snd (step actions e)) = step_count e + 1 /\
  max_steps (snd (step actions e)) = 150.
Proof.
  intros Hm. rewrite SwarmFacts.swarm_step_state.
  apply (SwarmFacts.swarm_agent_loop_keeps
           (fun e' => step_count e' = step_count e + 1 /\ max_steps e' = 150)).
  - intros i a. apply swarm_act_keeps_count.
  - done.
Qed.

Lemma swarm_step_returns actions e out e' :
  step actions e = (inr out, e') ->
  rewards out = _calculate_rewards e' /\
  match_score out = match_score_of e' /\
  done out = (max_steps e' <=? step_count e') || fgt (match_score_of e') (8 # 10).
Proof.
  intros H. unfold step in H.
  apply bind_returns in H as ([] & e1 & _ & H).
  apply bind_returns in H as (na & e2 & Hna & H).
  unfold gets in Hna. injection Hna as <- <-.
  apply bind_returns in H as ([] & e3 & _ & H).
  apply bind_returns in H as (rw & e4 & Hrw & H).
  unfold gets in Hrw. injection Hrw as <- <-.
  apply bind_returns in H as (d & e5 & Hd & H).
  unfold gets in Hd. injection Hd as <- <-.
  apply bind_returns in H as (ms & e6 & Hms & H).
  unfold gets in Hms. injection Hms as <- <-.
  apply bind_returns in H as (o & e7 & Ho & H).
  pose proof (SwarmFacts.swarm_pure_get_observations e3) as Hp.
  rewrite Ho in Hp. simpl in Hp. subst e7.
  unfold ret in H. injection H as <- <-. simpl. done.
Qed.

Lemma swarm_reset_zeroes_count rng trng e o e' :
  reset rng trng e = (inr o, e') -> step_count e' = 0.
Proof.
  intros H. unfold reset in H.
  apply bind_returns in H as (n & e1 & Hn & H).
  unfold gets in Hn. injection Hn as <- <-.
  apply bind_returns in H as (zeros & e2 & Hz & H). injection Hz as Hz <-.
  apply bind_returns in H as ([] & e3 & He3 & H).
  unfold modify in He3. injection He3 as <-.
  apply bind_returns in H as ([] & e4 & He4 & H).
  unfold modify in He4. injection He4 as <-.
  match type of H with ?m ?s = _ =>
    assert (keeps (fun e' => step_count e' = 0) m) as Hk end.
  { apply keeps_bind; [apply keeps_gets|]. intros na.
    apply keeps_bind.
    { apply keeps_for_each. intros i _ e1 He1. SwarmFacts.run_m; done. }
    intros _. apply keeps_bind; [by apply keeps_modify|]. intros _.
    apply SwarmFacts.keeps_bind_const. intros t _.
    apply keeps_bind; [by apply keeps_modify|]. intros _.
    apply keeps_pure, SwarmFacts.swarm_pure_get_observations. }
  match type of H with ?m ?s = _ => specialize (Hk s) end.
  rewrite H in Hk. by apply Hk.
Qed.

Lemma init_zeroes_count a n trng0 rng trng e :
  __init__ a n trng0 rng trng = inr e -> step_count e = 0.
Proof.
  unfold __init__. intros H.
  destruct (np_zeros3 _ _ _); [done|]. destruct (_ && _); [|done].
  destruct (_make_random_target _ _); [done|].
  destruct (reset _ _ _) as [[?|o] e1] eqn:Hr; [done|].
  injection H as <-. by eapply swarm_reset_zeroes_count.
Qed.

Lemma swarm_running_invariant e :
  swarm_running e -> swarm_good e /\ 0 <= step_count e < 150.
Proof.
  induction 1 as [a n trng0 rng trng e H|e rng trng o e' Hc H
                 |e actions out e' _ [IHw IH] H Hd].
  - split; [by eapply SwarmFacts.init_good|].
    apply init_zeroes_count in H. lia.
  - apply SwarmFacts.reachable_good in Hc.
    pose proof (SwarmFacts.reset_keeps_good rng trng e Hc) as Hw.
    rewrite H in Hw. split; [done|].
    apply swarm_reset_zeroes_count in H. lia.
  - pose proof (SwarmFacts.step_keeps_good actions e IHw) as Hw.
    destruct (swarm_step_increments actions e) as [Hi Hm]; [by destruct IHw as [[[] ?] ?]|].
    destruct (swarm_step_returns _ _ _ _ H) as (_ & _ & Hdone).
    rewrite H in Hw, Hi, Hm. simpl in *. split; [done|].
    rewrite Hd in Hdone. symmetry in Hdone.
    apply orb_false_iff in Hdone as [Hlt _]. apply Z.leb_gt in Hlt. lia.
Qed.
End SwarmEpisode.

Lemma text_started_running : text_running text_started.
Proof.
  destruct text_started_returns as [o Ho].
  eapply text_running_reset; [|exact Ho].
  eapply text_created_init. exact text_fresh_init.
Qed.

Lemma swarm_started_running : swarm_running swarm_started.
Proof. eapply swarm_running_init. exact swarm_started_init. Qed.



(** * C2: the match score *)

Lemma zsum_app l1 l2 : zsum (l1 ++ l2) = zsum l1 + zsum l2.
Proof. induction l1 as [|x l1 IH]; simpl; [done|]. rewrite IH. lia. Qed.

Lemma np_sum_bool_app l1 l2 :
  np_sum_bool (l1 ++ l2) = np_sum_bool l1 + np_sum_bool l2.
Proof. unfold np_sum_bool. by rewrite map_app, zsum_app. Qed.

Lemma np_sum_bool_concat ls :
  np_sum_bool (concat ls) = zsum (map np_sum_bool ls).
Proof.
  induction ls as [|l ls IH]; simpl; [done|].
  by rewrite np_sum_bool_app, IH.
Qed.

Lemma np_sum_bool_concat2 (X : list (list (list bool))) :
  np_sum_bool (concat (concat X))
  = zsum (map (fun p => np_sum_bool (concat p)) X).
Proof.
  induction X as [|p X IH]; simpl; [done|].
  by rewrite concat_app, np_sum_bool_app, IH.
Qed.

Lemma np_sum_bool_nonneg l : 0 <= np_sum_bool l.
Proof.
  unfold np_sum_bool. induction l as [|[] l IH]; simpl; lia.
Qed.

(** Sums of two families compared term by term. *)
Lemma zsum_zip_le_eq {A B} (c : A -> B -> Z) (t : B -> Z) (P : A -> B -> Prop)
    (la : list A) (lb : list B) :
  Forall2 (fun a b => 0 <= c a b <= t b /\ (c a b = t b <-> P a b)) la lb ->
  0 <= zsum (zip_with c la lb) <= zsum (map t lb) /\
  (zsum (zip_with c la lb) = zsum (map t lb) <-> Forall2 P la lb).
Proof.
  induction 1 as [|a b la lb [Hle Heq] _ [IHle IHeq]]; simpl.
  { split; [lia|]. split; [constructor|done]. }
  split; [lia|]. split.
  - intros Hs. constructor; [apply Heq|apply IHeq]; lia.
  - intros Hf. apply Forall2_cons in Hf as [Hp Hf].
    apply Heq in Hp. apply IHeq in Hf. lia.
Qed.

Lemma zsum_map_le_eq {B} (c t : B -> Z) (P : B -> Prop) (lb : list B) :
  Forall (fun b => 0 <= c b <= t b /\ (c b = t b <-> P b)) lb ->
  0 <= zsum (map c lb) <= zsum (map t lb) /\
  (zsum (map c lb) = zsum (map t lb) <-> Forall P lb).
Proof.
  induction 1 as [|b lb [Hle Heq] _ [IHle IHeq]]; simpl.
  { split; [lia|]. split; [constructor|done]. }
  split; [lia|]. split.
  - intros Hs. constructor; [apply Heq|apply IHeq]; lia.
  - intros Hf. apply Forall_cons in Hf as [Hp Hf].
    apply Heq in Hp. apply IHeq in Hf. lia.
Qed.

Lemma np_sum_bool_zip_with {A B} (f : A -> B -> bool) la lb :
  np_sum_bool (zip_with f la lb)
  = zsum (zip_with (fun a b => if f a b then 1 else 0) la lb).
Proof.
  unfold np_sum_bool. revert lb.
  induction la as [|a la IH]; intros [|b lb]; simpl; try done.
  by rewrite IH.
Qed.

Lemma np_sum_bool_map {A} (f : A -> bool) l :
  np_sum_bool (map f l) = zsum (map (fun a => if f a then 1 else 0) l).
Proof. unfold np_sum_bool. by rewrite map_map. Qed.

(** One row. *)
Lemma row_score (g t : list Z) :
  length g = length t ->
  0 <= np_sum_bool (zip_with (fun g t => occupied g && occupied t) g t)
    <= np_sum_bool (map occupied t) /\
  (np_sum_bool (zip_with (fun g t => occupied g && occupied t) g t)
   = np_sum_bool (map occupied t) <-> Forall2 fills g t).
Proof.
  intros Hl. rewrite np_sum_bool_zip_with, np_sum_bool_map.
  apply zsum_zip_le_eq. apply Forall2_same_length_lookup. split; [done|].
  intros i gv tv _ _. unfold occupied, fills.
  destruct (0 <? gv) eqn:Eg, (0 <? tv) eqn:Et; simpl; lia.
Qed.

(** One plane. *)
Lemma plane_score n (g t : list (list Z)) :
  shape2 n g -> shape2 n t ->
  0 <= np_sum_bool (concat (zip_with (zip_with (fun g t => occupied g && occupied t)) g t))
    <= np_sum_bool (concat (map (map occupied) t)) /\
  (np_sum_bool (concat (zip_with (zip_with (fun g t => occupied g && occupied t)) g t))
   = np_sum_bool (concat (map (map occupied) t)) <-> Forall2 (Forall2 fills) g t).
Proof.
  intros [Hlg Hg] [Hlt Ht].
  rewrite !np_sum_bool_concat, map_map.
  assert (map np_sum_bool (zip_with (zip_with (fun g t => occupied g && occupied t)) g t)
          = zip_with (fun g t => np_sum_bool
                        (zip_with (fun g t => occupied g && occupied t) g t)) g t) as ->.
  { clear. revert t. induction g as [|a g IH]; intros [|b t]; simpl; try done.
    by rewrite IH. }
  apply (zsum_zip_le_eq _ (fun r => np_sum_bool (map occupied r)) (Forall2 fills)).
  apply Forall2_same_length_lookup. split; [congruence|].
  intros i gr tr Hgr Htr. apply row_score.
  rewrite Forall_lookup in Hg, Ht. rewrite (Hg _ _ Hgr), (Ht _ _ Htr). done.
Qed.

(** The whole volume against a rank-3 grid. *)
Lemma volume_score n (g t : vol) :
  shape3 n g -> shape3 n t ->
  0 <= np_sum_bool (flatten3 (zip3 (fun g t => occupied g && occupied t) g t))
    <= occupied_cells t /\
  (np_sum_bool (flatten3 (zip3 (fun g t => occupied g && occupied t) g t))
   = occupied_cells t <-> Forall2 (Forall2 (Forall2 fills)) g t).
Proof.
  intros [Hlg Hg] [Hlt Ht]. unfold occupied_cells, flatten3, zip3, map3.
  rewrite !np_sum_bool_concat2, map_map.
  set (both := fun g t : Z => occupied g && occupied t).
  assert (map (fun x => np_sum_bool (concat x))
              (zip_with (zip_with (zip_with both)) g t)
          = zip_with (fun g t => np_sum_bool (concat (zip_with (zip_with both) g t)))
                     g t) as ->.
  { clear. revert t. induction g as [|a g IH]; intros [|b t]; simpl; try done.
    by rewrite IH. }
  apply (zsum_zip_le_eq _ (fun p => np_sum_bool (concat (map (map occupied) p)))
           (Forall2 (Forall2 fills))).
  apply Forall2_same_length_lookup. split; [congruence|].
  intros i gp tp Hgp Htp. apply (plane_score n).
  - rewrite Forall_lookup in Hg. by apply (Hg _ _ Hgp).
  - rewrite Forall_lookup in Ht. by apply (Ht _ _ Htp).
Qed.

Lemma covered_Forall2 n (g t : vol) :
  shape3 n g -> shape3 n t ->
  covered g t <-> Forall2 (Forall2 (Forall2 fills)) g t.
Proof.
  intros [Hlg Hg] [Hlt Ht]. rewrite Forall_lookup in Hg, Ht. split.
  - intros Hc. apply Forall2_same_length_lookup. split; [congruence|].
    intros x gp tp Hgp Htp. destruct (Hg _ _ Hgp) as [Hlgp Hgr].
    destruct (Ht _ _ Htp) as [Hltp Htr]. rewrite Forall_lookup in Hgr, Htr.
    apply Forall2_same_length_lookup. split; [congruence|].
    intros y gr tr Hgr' Htr'.
    apply Forall2_same_length_lookup.
    split; [rewrite (Hgr _ _ Hgr'), (Htr _ _ Htr'); done|].
    intros z gv tv Hgv Htv Hpos.
    destruct (Hc x y z tv) as (w & Hw & Hwp); [|done|].
    { unfold cell. rewrite Htp. simpl. rewrite Htr'. done. }
    unfold cell in Hw. rewrite Hgp in Hw. simpl in Hw. rewrite Hgr' in Hw.
    simpl in Hw. congruence.
  - intros Hf x y z v Hv Hpos. unfold cell in *.
    destruct (t !! x) as [tp|] eqn:Etp; simpl in Hv; [|done].
    destruct (tp !! y) as [tr|] eqn:Etr; simpl in Hv; [|done].
    destruct (Forall2_lookup_r _ _ _ _ _ Hf Etp) as (gp & Egp & Hfp).
    destruct (Forall2_lookup_r _ _ _ _ _ Hfp Etr) as (gr & Egr & Hfr).
    destruct (Forall2_lookup_r _ _ _ _ _ Hfr Hv) as (gv & Egv & Hfv).
    exists gv. rewrite Egp. simpl. rewrite Egr. simpl. split; [done|].
    by apply Hfv.
Qed.

Lemma nd_covered_rank2 n (a : list (list Z)) (t : vol) :
  shape2 n a -> shape3 n t ->
  nd_covered (Arr2 a) t <-> Forall (fun plane => Forall2 (Forall2 fills) a plane) t.
Proof.
  intros [Hla Ha] [Hlt Ht]. rewrite Forall_lookup in Ha.
  rewrite Forall_lookup in Ht. split.
  - intros Hc. apply Forall_lookup. intros x tp Htp.
    destruct (Ht _ _ Htp) as [Hltp Htr]. rewrite Forall_lookup in Htr.
    apply Forall2_same_length_lookup. split; [congruence|].
    intros y gr tr Hgr' Htr'.
    apply Forall2_same_length_lookup.
    split; [rewrite (Ha _ _ Hgr'), (Htr _ _ Htr'); done|].
    intros z gv tv Hgv Htv Hpos.
    destruct (Hc x y z tv) as (w & Hw & Hwp); [|done|].
    { unfold cell. rewrite Htp. simpl. rewrite Htr'. done. }
    simpl in Hw. rewrite Hgr' in Hw. simpl in Hw. congruence.
  - intros Hf x y z v Hv Hpos. unfold cell in Hv. simpl.
    destruct (t !! x) as [tp|] eqn:Etp; simpl in Hv; [|done].
    destruct (tp !! y) as [tr|] eqn:Etr; simpl in Hv; [|done].
    rewrite Forall_lookup in Hf. specialize (Hf _ _ Etp).
    destruct (Forall2_lookup_r _ _ _ _ _ Hf Etr) as (gr & Egr & Hfr).
    destruct (Forall2_lookup_r _ _ _ _ _ Hfr Hv) as (gv & Egv & Hfv).
    exists gv. rewrite Egr. simpl. split; [done|]. by apply Hfv.
Qed.

(** The whole volume against a rank-2 grid, broadcast. *)
Lemma broadcast_score n (a : list (list Z)) (t : vol) :
  shape2 n a -> shape3 n t ->
  0 <= np_sum_bool (flatten3 (broadcast3 (fun g t => occupied g && occupied t)
                                          (Arr2 a) t))
    <= occupied_cells t /\
  (np_sum_bool (flatten3 (broadcast3 (fun g t => occupied g && occupied t)
                                     (Arr2 a) t))
   = occupied_cells t <-> Forall (fun plane => Forall2 (Forall2 fills) a plane) t).
Proof.
  intros Ha [Hlt Ht]. unfold occupied_cells, flatten3, broadcast3, map3.
  rewrite !np_sum_bool_concat2, !map_map.
  apply (zsum_map_le_eq _ (fun p => np_sum_bool (concat (map (map occupied) p)))
           (fun plane => Forall2 (Forall2 fills) a plane)).
  apply Forall_lookup. intros x tp Htp. apply (plane_score n); [done|].
  rewrite Forall_lookup in Ht. by apply (Ht _ _ Htp).
Qed.

Lemma ratio_bounds c t :
  0 <= c <= t -> 0 < t ->
  (0 <= inject_Z c / inject_Z t <= 1)%Q /\
  ((inject_Z c / inject_Z t == 1)%Q <-> c = t) /\
  ((inject_Z c / inject_Z t == 0)%Q <-> c = 0).
Proof.
  intros Hc Ht. destruct t as [|p|p]; try lia.
  unfold Qdiv, Qinv, Qmult, Qle, Qeq, inject_Z. simpl. lia.
Qed.

(** Of a binary array, the sum of the cells is the number of occupied
    cells. *)
Lemma zsum_binary (l : list Z) :
  Forall (fun v => v = 0 \/ v = 1) l -> zsum l = np_sum_bool (map occupied l).
Proof.
  unfold np_sum_bool. induction 1 as [|v l [->| ->] _ IH]; simpl; [done|..];
    rewrite IH; done.
Qed.

Lemma flatten3_map3 {A B} (f : A -> B) (a : arr3 A) :
  flatten3 (map3 f a) = map f (flatten3 a).
Proof.
  unfold flatten3, map3. by rewrite !concat_map.
Qed.

Lemma Forall_flatten3 {A} (P : A -> Prop) (a : arr3 A) :
  all_cells P a -> Forall P (flatten3 a).
Proof.
  intros H. apply all_cells_Forall in H. unfold flatten3.
  apply Forall_concat, Forall_concat. done.
Qed.

Lemma occupied_cells_binary (t : vol) :
  all_cells (fun v => v = 0 \/ v = 1) t -> zsum (flatten3 t) = occupied_cells t.
Proof.
  intros H. unfold occupied_cells. rewrite flatten3_map3.
  apply zsum_binary. by apply Forall_flatten3.
Qed.

(** No cell is occupied exactly when the count is zero. *)
Lemma occupied_cells_zero (t : vol) :
  occupied_cells t = 0 <-> all_cells (fun v => ~ 0 < v) t.
Proof.
  unfold occupied_cells. rewrite flatten3_map3, all_cells_Forall.
  unfold flatten3. rewrite <- !Forall_concat.
  generalize (concat (concat t)). intros l. unfold np_sum_bool, occupied.
  induction l as [|v l IH]; simpl; [by split|].
  pose proof (np_sum_bool_nonneg (map (fun v => 0 <? v) l)) as Hn.
  unfold np_sum_bool in Hn. rewrite Forall_cons, <- IH.
  destruct (0 <? v) eqn:E; lia.
Qed.

Lemma text_started_wf : text_wf text_started.
Proof. apply TextFacts.reachable_wf_in_bounds, text_started_reachable. Qed.

Lemma swarm_started_good : swarm_good swarm_started.
Proof. apply SwarmFacts.reachable_good, swarm_started_reachable. Qed.

(** Where the score is a number.  With grid and target of the same cubic
    shape and a binary target, the score of the text-conditioned
    environment is a number in [[0, 1]]; it is 0.0 when the target has no
    occupied cell (the guard of [_get_match_score]); when the target has
    one, it is 1.0 exactly when every occupied target cell is occupied in
    the grid.  With a grid of shape [(n, n)] or [(n, n, n)] and a target of
    shape [(n, n, n)] with at least one occupied cell, the score of the
    global environment is a number in [[0, 1]], and it is 1.0 exactly when
    every occupied target cell is occupied in the (broadcast) grid.  The
    global environment on a target without occupied cells is the subject
    of the theorem below. *)
Lemma match_score_range_and_completion :
  (forall e n,
     shape3 n (TextConditioned3DEnv.grid e) ->
     shape3 n (TextConditioned3DEnv.target e) ->
     all_cells (fun v => v = 0 \/ v = 1) (TextConditioned3DEnv.target e) ->
     exists q,
       TextConditioned3DEnv._get_match_score e = Fin q /\
       (0 <= q <= 1)%Q /\
       (occupied_cells (TextConditioned3DEnv.target e) = 0 -> q = 0%Q) /\
       (0 < occupied_cells (TextConditioned3DEnv.target e) ->
        ((q == 1)%Q <-> covered (TextConditioned3DEnv.grid e)
                                (TextConditioned3DEnv.target e))))
  /\
  (forall e n,
     nd_shape n (SwarmConstructionEnv.grid e) ->
     shape3 n (SwarmConstructionEnv.target e) ->
     0 < occupied_cells (SwarmConstructionEnv.target e) ->
     exists q,
       SwarmConstructionEnv.match_score_of e = Fin q /\
       (0 <= q <= 1)%Q /\
       ((q == 1)%Q <-> nd_covered (SwarmConstructionEnv.grid e)
                                  (SwarmConstructionEnv.target e))).
Proof.
  split.
  - intros e n Hg Ht Hb. unfold TextConditioned3DEnv._get_match_score.
    rewrite (occupied_cells_binary _ Hb).
    fold (occupied_cells (TextConditioned3DEnv.target e)).
    destruct (volume_score n _ _ Hg Ht) as [Hle Heq].
    pose proof (np_sum_bool_nonneg
                  (flatten3 (map3 occupied (TextConditioned3DEnv.target e)))) as Hn.
    fold (occupied_cells (TextConditioned3DEnv.target e)) in Hn.
    destruct (occupied_cells (TextConditioned3DEnv.target e) =? 0) eqn:E.
    + apply Z.eqb_eq in E. exists 0%Q. split; [done|]. split; [done|].
      split; [done|]. lia.
    + apply Z.eqb_neq in E. unfold true_divide. rewrite (proj2 (Z.eqb_neq _ _) E).
      eexists. split; [done|].
      assert (Hpos : 0 < occupied_cells (TextConditioned3DEnv.target e)) by lia.
      destruct (ratio_bounds _ _ Hle Hpos) as (Hr & H1 & H0).
      split; [done|]. split; [lia|]. intros _.
      rewrite H1, Heq. symmetry. by apply (covered_Forall2 n).
  - intros e n Hg Ht Hpos. unfold SwarmConstructionEnv.match_score_of.
    unfold SwarmConstructionEnv.total_target.
    fold (occupied_cells (SwarmConstructionEnv.target e)).
    unfold true_divide.
    assert ((occupied_cells (SwarmConstructionEnv.target e) =? 0) = false) as ->
      by (apply Z.eqb_neq; lia).
    eexists. split; [done|].
    unfold SwarmConstructionEnv.correct_placements.
    destruct (SwarmConstructionEnv.grid e) as [a|a]; simpl in Hg.
    + destruct (broadcast_score n _ _ Hg Ht) as [Hle Heq].
      destruct (ratio_bounds _ _ Hle Hpos) as (Hr & H1 & H0).
      split; [done|]. rewrite H1, Heq. symmetry. by apply (nd_covered_rank2 n).
    + destruct (volume_score n _ _ Hg Ht) as [Hle Heq].
      destruct (ratio_bounds _ _ Hle Hpos) as (Hr & H1 & H0).
      split; [done|]. rewrite H1. simpl in Heq. rewrite Heq. symmetry.
      by apply (covered_Forall2 n).
Qed.

(** The global environment has no guard for the empty target: the score is
    then [0 / 0]. *)
Lemma swarm_empty_target_score_is_nan e :
  occupied_cells (SwarmConstructionEnv.target e) = 0 ->
  SwarmConstructionEnv.match_score_of e = NaN.
Proof.
  intros H. unfold SwarmConstructionEnv.match_score_of, true_divide.
  unfold SwarmConstructionEnv.total_target.
  fold (occupied_cells (SwarmConstructionEnv.target e)). by rewrite H.
Qed.

Lemma swarm_tiny_init :
  SwarmConstructionEnv.__init__ 1 2 (fun _ => 4) (fun _ => (0, 0)) (fun _ => 4)
  = inr swarm_tiny.
Proof. vm_compute. reflexivity. Qed.

(** C2, at the failing input: the object
    [env = SwarmConstructionEnv(num_agents=1, grid_size=2)] for which the
    generator drew the staircase has a target without occupied cells;
    [env.step({'agent_0': 0})] returns, and the match score it reports is
    [0 / 0 = nan], not 0.0 and not a number of [[0, 1]]; the reward is nan
    as well, and the episode goes on. *)
Theorem swarm_nan_score_is_reachable :
  swarm_reachable swarm_tiny /\
  occupied_cells (SwarmConstructionEnv.target swarm_tiny) = 0 /\
  match fst (SwarmConstructionEnv.step [0] swarm_tiny) with
  | inr out =>
      SwarmConstructionEnv.match_score out = NaN /\
      SwarmConstructionEnv.rewards out = [NaN] /\
      SwarmConstructionEnv.done out = false
  | inl _ => False
  end.
Proof.
  split; [eapply swarm_reach_init; exact swarm_tiny_init|].
  vm_compute. repeat split; reflexivity.
Qed.

(** * Local observations *)

Lemma elem_of_zrange lo hi d : d ∈ zrange lo hi <-> lo <= d < hi.
Proof.
  unfold zrange. rewrite list_elem_of_fmap. split.
  - intros (k & -> & Hk). apply elem_of_seq in Hk. lia.
  - intros H. exists (Z.to_nat (d - lo)). split; [lia|].
    apply elem_of_seq. lia.
Qed.

Lemma for_each_app {S X} (l1 l2 : list X) (f : X -> M S unit) s :
  for_each (l1 ++ l2) f s = (for_each l1 f ;;; for_each l2 f) s.
Proof.
  revert s. induction l1 as [|x l1 IH]; intros s; simpl.
  - reflexivity.
  - unfold bind in *. destruct (f x s) as [[ex|[]] s1]; [done|].
    by rewrite IH.
Qed.

Lemma for_each_map {S X Y} (g : X -> Y) (l : list X) (f : Y -> M S unit) s :
  for_each (map g l) f s = for_each l (fun x => f (g x)) s.
Proof.
  revert s. induction l as [|x l IH]; intros s; simpl; [done|].
  unfold bind. destruct (f (g x) s) as [[ex|[]] s1]; [done|]. apply IH.
Qed.

Lemma for_each_ext {S X} (l : list X) (f g : X -> M S unit) s :
  (forall x s, f x s = g x s) -> for_each l f s = for_each l g s.
Proof.
  intros H. revert s. induction l as [|x l IH]; intros s; simpl; [done|].
  unfold bind. rewrite H. destruct (g x s) as [[ex|[]] s1]; [done|]. apply IH.
Qed.

(** Two nested loops are one loop over the pairs. *)
Lemma for_each_prod {S X Y} (lx : list X) (ly : list Y) (f : X -> Y -> M S unit) s :
  for_each lx (fun x => for_each ly (f x)) s
  = for_each (list_prod lx ly) (fun p => f (fst p) (snd p)) s.
Proof.
  revert s. induction lx as [|x lx IH]; intros s; simpl; [done|].
  rewrite for_each_app. unfold bind.
  rewrite for_each_map. simpl.
  destruct (for_each ly (f x) s) as [[ex|[]] s1]; [done|]. apply IH.
Qed.

Lemma cell_lt {A} (a : arr3 A) n x y z v :
  shape3 n a -> cell a x y z = Some v -> (x < n)%nat /\ (y < n)%nat /\ (z < n)%nat.
Proof.
  intros [Hl Hp] H. unfold cell in H.
  destruct (a !! x) as [p|] eqn:Ep; simpl in H; [|done].
  destruct (p !! y) as [r|] eqn:Er; simpl in H; [|done].
  rewrite Forall_lookup in Hp. destruct (Hp _ _ Ep) as [Hlp Hr].
  rewrite Forall_lookup in Hr. specialize (Hr _ _ Er).
  apply lookup_lt_Some in Ep, Er, H. lia.
Qed.

(** Arrays of one shape with the same cells are equal. *)
Lemma arr3_ext {A} n (a b : arr3 A) :
  shape3 n a -> shape3 n b ->
  (forall x y z, (x < n)%nat -> (y < n)%nat -> (z < n)%nat ->
     cell a x y z = cell b x y z) ->
  a = b.
Proof.
  intros [Hla Ha] [Hlb Hb] H.
  rewrite Forall_lookup in Ha. rewrite Forall_lookup in Hb.
  apply list_eq_same_length with n; [done..|].
  intros x pa pb Hx Hpa Hpb.
  destruct (Ha _ _ Hpa) as [Hlpa Hra]. destruct (Hb _ _ Hpb) as [Hlpb Hrb].
  rewrite Forall_lookup in Hra. rewrite Forall_lookup in Hrb.
  apply list_eq_same_length with n; [done..|].
  intros y ra rb Hy Hra' Hrb'.
  apply list_eq_same_length with n; [by apply (Hrb _ _ Hrb')|by apply (Hra _ _ Hra')|].
  intros z va vb Hz Hva Hvb.
  specialize (H x y z Hx Hy Hz). unfold cell in H.
  rewrite Hpa, Hpb in H. simpl in H. rewrite Hra', Hrb' in H. simpl in H.
  congruence.
Qed.

Section Patch.
Context {A : Type} (zero : A) (src : arr3 A) (pos : xyz) (n half : Z) (N L : nat).
Hypothesis Hn : n = Z.of_nat N.
Hypothesis Hsrc : shape3 N src.
Hypothesis Hh : 0 <= half.
Hypothesis HL : Z.of_nat L = 2 * half + 1.

Let write := write_cell src pos n half.
Let far (d : Z * (Z * Z)) :=
  get3 src (c0 pos + fst d) (c1 pos + fst (snd d)) (c2 pos + snd (snd d)).

Lemma inside_read d : inside pos n d = true -> is_Some (far d).
Proof using Hn Hsrc.
  clear Hh HL. unfold inside, far. intros H.
  repeat (apply andb_true_iff in H as [H ?]).
  rewrite (get3_cell _ N) by (done || lia).
  apply (cell_is_Some _ N); (done || lia).
Qed.

Lemma write_cell_shape acc d : shape3 L acc -> shape3 L (write acc d).
Proof using Type.
  intros Hacc. unfold write, write_cell. destruct d as [dx [dy dz]].
  case_match; [|done].
  destruct (get3 src _ _ _) as [v|]; simpl; [|done].
  destruct (set3 acc _ _ _ v) as [acc'|] eqn:E; simpl; [|done].
  by eapply set3_shape.
Qed.

Lemma write_cell_cell acc d a b c :
  shape3 L acc -> in_window half d ->
  (a < L)%nat -> (b < L)%nat -> (c < L)%nat ->
  cell (write acc d) a b c =
  if decide (d = offset_of half a b c)
  then (if inside pos n d then far d else cell acc a b c)
  else cell acc a b c.
Proof using Hn Hsrc Hh HL.
  intros Hacc Hd Ha Hb Hc. unfold write, far, write_cell.
  destruct d as [dx [dy dz]]. destruct Hd as (Hx & Hy & Hz). simpl in *.
  destruct (inside pos n (dx, (dy, dz))) eqn:Hin.
  - destruct (inside_read _ Hin) as [v Hv]. unfold far in Hv. simpl in Hv.
    unfold inside in Hin. simpl in Hin. rewrite Hin, Hv. simpl.
    destruct (set3_is_Some acc L (dx + half) (dy + half) (dz + half) v)
      as [acc' Hs]; [done|lia..|].
    rewrite Hs. simpl.
    rewrite (set3_target_cell acc acc' L (dx + half) (dy + half) (dz + half) v);
      [|done|lia..|done].
    unfold offset_of.
    destruct (decide (a = Z.to_nat (dx + half) /\ b = Z.to_nat (dy + half)
                      /\ c = Z.to_nat (dz + half))) as [(-> & -> & ->)|Hne].
    + rewrite decide_True; [done|]. f_equal; [lia|]. f_equal; lia.
    + rewrite decide_False; [done|]. intros Heq. apply Hne.
      injection Heq as -> -> ->. lia.
  - unfold inside in Hin. simpl in Hin. rewrite Hin. by destruct (decide _).
Qed.

Lemma fold_write_shape ds acc :
  shape3 L acc -> shape3 L (fold_left write ds acc).
Proof using Type.
  revert acc. induction ds as [|d ds IH]; intros acc Hacc; simpl; [done|].
  apply IH. by apply write_cell_shape.
Qed.

Lemma fold_write_cell ds acc a b c :
  shape3 L acc -> Forall (in_window half) ds ->
  (a < L)%nat -> (b < L)%nat -> (c < L)%nat ->
  cell (fold_left write ds acc) a b c =
  if decide (offset_of half a b c ∈ ds)
  then (if inside pos n (offset_of half a b c)
        then far (offset_of half a b c) else cell acc a b c)
  else cell acc a b c.
Proof using Hn Hsrc Hh HL.
  revert acc. induction ds as [|d ds IH]; intros acc Hacc Hds Ha Hb Hc;
    cbn [fold_left].
  { rewrite decide_False; [done|]. apply not_elem_of_nil. }
  apply Forall_cons in Hds as [Hd Hds].
  rewrite IH by (done || by apply write_cell_shape).
  rewrite write_cell_cell by done. clear IH.
  repeat case_decide; subst;
    repeat match goal with
           | H : _ ∈ _ :: _ |- _ => apply elem_of_cons in H
           | H : ¬ (_ ∈ _ :: _) |- _ => apply not_elem_of_cons in H as [? ?]
           end;
    try done; try (by destruct (inside _ _ _)); try (intuition congruence).
Qed.

Let ring : list Z := zrange (- half) (half + 1).

Lemma ring_in_window : Forall (in_window half) (list_prod ring (list_prod ring ring)).
Proof using Type.
  clear Hn Hsrc Hh HL. apply Forall_forall. intros [dx [dy dz]] Hd.
  apply list_elem_of_In, in_prod_iff in Hd as [Hx Hd].
  apply in_prod_iff in Hd as [Hy Hz].
  apply list_elem_of_In, elem_of_zrange in Hx, Hy, Hz.
  unfold in_window. simpl. lia.
Qed.

Lemma ring_complete a b c :
  (a < L)%nat -> (b < L)%nat -> (c < L)%nat ->
  offset_of half a b c ∈ list_prod ring (list_prod ring ring).
Proof using Hh HL.
  clear Hn Hsrc. intros Ha Hb Hc. unfold offset_of.
  apply list_elem_of_In, in_prod_iff. split; [|apply in_prod_iff; split].
  all: apply list_elem_of_In, elem_of_zrange; lia.
Qed.

(** Starting from zeros, the copy loop builds the window. *)
Lemma fold_write_window :
  fold_left write (list_prod ring (list_prod ring ring)) (full3 L zero)
  = window zero src n pos half L.
Proof using Hn Hsrc Hh HL.
  apply (arr3_ext L).
  - apply fold_write_shape, full3_shape.
  - apply tab3_shape.
  - intros a b c Ha Hb Hc.
    rewrite fold_write_cell; [|apply full3_shape|apply ring_in_window|done..].
    rewrite decide_True by (by apply ring_complete).
    unfold window. rewrite cell_tab3 by done.
    unfold padded_read.
    destruct (inside pos n (offset_of half a b c)) eqn:E.
    + destruct (inside_read _ E) as [v Hv]. rewrite Hv.
      unfold far in Hv. unfold inside in E. simpl in Hv, E.
      by rewrite E, Hv.
    + unfold inside in E. simpl in E. rewrite E. by apply cell_full3.
Qed.
End Patch.

Module TextLocal.
Import TextConditioned3DEnv.

Section CopyLoop.
Variables (pos : xyz) (n half : Z) (g : vol) (sc : rvol) (N L : nat).
Hypothesis Hn : n = Z.of_nat N.
Hypothesis Hg : shape3 N g.
Hypothesis Hsc : shape3 N sc.
Hypothesis Hh : 0 <= half.
Hypothesis HL : Z.of_nat L = 2 * half + 1.

Lemma copy_cell_run d s :
  shape3 L (fst s) -> shape3 L (snd s) -> in_window half d ->
  copy_cell pos n half g sc (fst d) (fst (snd d)) (snd (snd d)) s
  = (inr tt, (write_cell g pos n half (fst s) d,
              write_cell sc pos n half (snd s) d)).
Proof using Hn Hg Hsc Hh HL.
  intros Hs1 Hs2 Hd. destruct d as [dx [dy dz]], s as [lg ls].
  destruct Hd as (Hx & Hy & Hz). simpl in *.
  unfold copy_cell, write_cell.
  destruct (inside pos n (dx, (dy, dz))) eqn:Hin.
  - destruct (inside_read g pos n N Hn Hg _ Hin) as [v Hv].
    destruct (inside_read sc pos n N Hn Hsc _ Hin) as [w Hw].
    unfold inside in Hin. simpl in Hin, Hv, Hw. rewrite Hin.
    destruct (set3_is_Some lg L (dx + half) (dy + half) (dz + half) v)
      as [lg' Hlg]; [done|lia..|].
    destruct (set3_is_Some ls L (dx + half) (dy + half) (dz + half) w)
      as [ls' Hls]; [done|lia..|].
    unfold bind, lift, gets, modify, ret. rewrite Hv. simpl.
    rewrite Hlg. simpl. rewrite Hw. simpl. rewrite Hls. done.
  - unfold inside in Hin. simpl in Hin. by rewrite Hin.
Qed.

Lemma copy_loop_run ds s :
  shape3 L (fst s) -> shape3 L (snd s) -> Forall (in_window half) ds ->
  for_each ds (fun d => copy_cell pos n half g sc (fst d) (fst (snd d)) (snd (snd d))) s
  = (inr tt, (fold_left (write_cell g pos n half) ds (fst s),
              fold_left (write_cell sc pos n half) ds (snd s))).
Proof using Hn Hg Hsc Hh HL.
  revert s. induction ds as [|d ds IH]; intros s Hs1 Hs2 Hds; simpl.
  { by destruct s. }
  apply Forall_cons in Hds as [Hd Hds].
  unfold bind. rewrite copy_cell_run by done.
  rewrite IH; [done|simpl..|done].
  - by apply (write_cell_shape g pos n half L).
  - by apply (write_cell_shape sc pos n half L).
Qed.
End CopyLoop.

(** With an odd window, [_get_local_obs] returns the two windows cut out of
    the grid and of the scent field around the agent, zero-padded outside
    the grid. *)
Lemma get_local_obs_spec e i pos half :
  text_wf e ->
  agent_positions e !! i = Some pos ->
  local_size e = 2 * half + 1 -> 0 <= half < 1000 ->
  _get_local_obs i e
  = (inr (window 0 (grid e) (grid_size e) pos half (Z.to_nat (local_size e)),
          window 0%R (scent_field e) (grid_size e) pos half
                 (Z.to_nat (local_size e))), e).
Proof.
  intros [Hs _ Hg _ _ _ Hsc _ _] Hp Hl Hh.
  assert (Hok : np_zeros_ok [local_size e; local_size e; local_size e] 8 = true).
  { unfold np_zeros_ok. simpl. rewrite Hl.
    apply andb_true_iff. split.
    - destruct (0 <=? 2 * half + 1) eqn:E; [done|lia].
    - apply Z.ltb_lt. 
      assert ((2 * half + 1) * 8 <= 16008) by lia.
      assert ((2 * half + 1) * ((2 * half + 1) * 8) <= 2001 * 16008) by nia.
      assert ((2 * half + 1) * ((2 * half + 1) * ((2 * half + 1) * 8))
              <= 2001 * (2001 * 16008)) by nia.
      lia. }
  unfold _get_local_obs. cbv beta delta [bind position_of gets].
  rewrite Hp. cbv beta iota delta [lift ret np_zeros3]. rewrite Hok.
  assert (Hhalf : local_size e / 2 = half).
  { rewrite Hl. symmetry. apply (Z.div_unique _ _ _ 1); lia. }
  rewrite Hhalf.
  set (ring := zrange (- half) (half + 1)).
  set (C := copy_cell pos (grid_size e) half (grid e) (scent_field e)).
  set (s0 := (full3 (Z.to_nat (local_size e)) 0, full3 (Z.to_nat (local_size e)) 0%R)).
  assert (for_each ring (fun dx => for_each ring (fun dy => for_each ring
                           (fun dz => C dx dy dz))) s0
          = for_each (list_prod ring (list_prod ring ring))
              (fun d => C (fst d) (fst (snd d)) (snd (snd d))) s0) as ->.
  { transitivity (for_each ring (fun dx => for_each (list_prod ring ring)
                                   (fun p => C dx (fst p) (snd p))) s0).
    - apply for_each_ext. intros dx s.
      apply (for_each_prod ring ring (fun dy dz => C dx dy dz)).
    - apply (for_each_prod ring (list_prod ring ring)
               (fun dx p => C dx (fst p) (snd p))). }
  subst C s0 ring.
  rewrite (copy_loop_run pos (grid_size e) half (grid e) (scent_field e)
             (Z.to_nat (grid_size e)) (Z.to_nat (local_size e)));
    [|lia|done|done|lia|lia|apply full3_shape|apply full3_shape|].
  - simpl.
    rewrite (fold_write_window 0 (grid e) pos (grid_size e) half
               (Z.to_nat (grid_size e)) (Z.to_nat (local_size e)))
      by (done || lia).
    rewrite (fold_write_window 0%R (scent_field e) pos (grid_size e) half
               (Z.to_nat (grid_size e)) (Z.to_nat (local_size e)))
      by (done || lia).
    done.
  - apply ring_in_window.
Qed.
End TextLocal.

(** * C9: reset without a target *)

Lemma for_collect_returns {S X A} (l : list X) (body : X -> M S A) s :
  (forall x, x ∈ l -> exists a, body x s = (inr a, s)) ->
  exists r, for_collect l body s = (inr r, s).
Proof.
  induction l as [|x l IH]; intros H; simpl.
  { by exists []. }
  destruct (H x) as [a Ha]; [by left|].
  destruct IH as [r Hr]; [intros y Hy; apply H; by right|].
  exists (a :: r). unfold bind. rewrite Ha, Hr. done.
Qed.

Module TextReset.
Import TextConditioned3DEnv.

Lemma get_observations_returns e half :
  text_wf e -> local_size e = 2 * half + 1 -> 0 <= half < 1000 ->
  exists o, _get_observations e = (inr o, e).
Proof.
  intros He Hl Hh. unfold _get_observations.
  unfold bind at 1. unfold gets at 1.
  apply for_collect_returns. intros i Hi. apply elem_of_seq in Hi.
  destruct He as [? ? ? ? ? ? ? Hlp Hlh].
  destruct (lookup_lt_is_Some_2 (agent_positions e) i) as [pos Hpos]; [lia|].
  destruct (lookup_lt_is_Some_2 (agent_has_block e) i) as [hb Hhb]; [lia|].
  eexists. unfold bind at 1.
  rewrite (TextLocal.get_local_obs_spec e i pos half) by (done || by constructor).
  unfold bind, position_of, has_block_of, gets, lift, ret.
  rewrite Hpos, Hhb. done.
Qed.

(** The spawn loop returns when the grid is not empty; it touches the
    positions only. *)
Lemma spawn_loop_returns rng l e :
  0 < grid_size e -> Forall (fun i => (i < length (agent_positions e))%nat) l ->
  exists ps,
    length ps = length (agent_positions e) /\
    for_each l (fun i =>
      n <~ gets grid_size ;;
      p <~ (fun e => (spawn n (fst (rng i)) (snd (rng i)), e)) ;;
      ps <~ gets agent_positions ;;
      if decide (i < length ps)%nat
      then modify (with_positions (<[i := p]> ps))
      else raise IndexError) e = (inr tt, with_positions ps e).
Proof.
  intros Hn. revert e Hn. induction l as [|i l IH]; intros e Hn Hl; simpl.
  { exists (agent_positions e). split; [done|]. by destruct e. }
  apply Forall_cons in Hl as [Hi Hl].
  unfold bind at 1. unfold bind at 1. unfold gets at 1.
  unfold bind at 1.
  destruct (spawn (grid_size e) (rng i).1 (rng i).2) as [ex|p] eqn:Hp.
  { unfold spawn, randint in Hp. simpl in Hp.
    destruct (0 <? grid_size e) eqn:E; [done|lia]. }
  unfold bind at 1. unfold gets at 1.
  rewrite decide_True by done. unfold modify at 1.
  destruct (IH (with_positions (<[i:=p]> (agent_positions e)) e)) as (ps & Hlen & Hps).
  { done. }
  { simpl. by rewrite length_insert. }
  simpl in Hlen. rewrite length_insert in Hlen.
  exists ps. split; [done|].
  rewrite Hps. by destruct e.
Qed.

Lemma reset_without_target_returns e text voxels rng half :
  text_wf e -> 0 < grid_size e ->
  local_size e = 2 * half + 1 -> 0 <= half < 1000 ->
  truthy_text text && truthy_list voxels = false ->
  exists o ps,
    length ps = num_agents e /\
    reset text voxels rng e
    = (inr o, with_has_block (replicate (num_agents e) true)
                (with_positions ps
                   (with_step_count 0 (with_grid (fill3 0 (grid e)) e)))).
Proof.
  intros He Hn Hl Hh Hno. unfold reset. rewrite Hno.
  unfold bind at 1. unfold modify at 1.
  unfold bind at 1. unfold modify at 1.
  unfold bind at 1. unfold ret at 1.
  unfold bind at 1. unfold gets at 1. cbn [num_agents with_step_count with_grid].
  set (e1 := with_step_count 0 (with_grid (fill3 0 (grid e)) e)).
  assert (He1 : text_wf e1).
  { destruct He as [? ? ? ? ? ? ? ? ?]. constructor; simpl; try done.
    - by apply fill3_shape.
    - apply all_cells_fill3. by left. }
  destruct (spawn_loop_returns rng (seq 0 (num_agents e)) e1) as (ps & Hlen & Hps).
  { done. }
  { apply Forall_forall. intros i Hi. apply elem_of_seq in Hi.
    destruct He1 as [_ _ _ _ _ _ _ Hlp _]. rewrite Hlp. simpl. lia. }
  unfold spawn_agents. unfold bind at 1. rewrite Hps.
  unfold bind at 1. unfold modify at 1.
  set (e2 := with_has_block _ _).
  destruct (get_observations_returns e2 half) as [o Ho].
  { destruct He1 as [? ? ? ? ? ? ? Hlp ?]. constructor; simpl; try done.
    - rewrite Hlen. exact Hlp.
    - apply length_replicate. }
  { done. } { done. }
  exists o, ps. split.
  - rewrite Hlen. by destruct He1.
  - rewrite Ho. done.
Qed.
End TextReset.

Lemma text_fresh_wf : text_wf text_fresh.
Proof. eapply TextFacts.init_wf. exact text_fresh_init. Qed.

(** C9 as stated fails: on a freshly built environment (the class has no
    fallback target generator), [reset()] without text and voxels does not
    raise. *)
Lemma reset_without_target_does_not_raise :
  ~ (exists ex,
       fst (TextConditioned3DEnv.reset None None (fun _ => (0, 0)) text_fresh)
       = inl ex).
Proof.
  intros [ex Hex]. destruct text_started_returns as [o Ho].
  rewrite Ho in Hex. discriminate Hex.
Qed.

(** C9, amended.  On a well-formed environment with a non-empty grid and an
    odd observation window, [reset] called without target information
    (text or voxel list absent or empty) returns the observations: it
    raises nothing, empties the grid, zeroes the step counter, hands every
    agent a block, and keeps the target, the scent field and the text of
    the previous episode as they are. *)
Theorem reset_without_target_keeps_stale_target :
  forall e text voxels rng half,
    text_wf e -> 0 < TextConditioned3DEnv.grid_size e ->
    TextConditioned3DEnv.local_size e = 2 * half + 1 -> 0 <= half < 1000 ->
    TextConditioned3DEnv.truthy_text text
      && TextConditioned3DEnv.truthy_list voxels = false ->
    let r := TextConditioned3DEnv.reset text voxels rng e in
    (exists o, fst r = inr o) /\
    TextConditioned3DEnv.target (snd r) = TextConditioned3DEnv.target e /\
    TextConditioned3DEnv.scent_field (snd r) = TextConditioned3DEnv.scent_field e /\
    TextConditioned3DEnv.current_text (snd r) = TextConditioned3DEnv.current_text e /\
    TextConditioned3DEnv.grid (snd r) = fill3 0 (TextConditioned3DEnv.grid e) /\
    TextConditioned3DEnv.step_count (snd r) = 0 /\
    TextConditioned3DEnv.agent_has_block (snd r)
    = replicate (TextConditioned3DEnv.num_agents e) true.
Proof.
  intros e text voxels rng half He Hn Hl Hh Hno r.
  destruct (TextReset.reset_without_target_returns e text voxels rng half)
    as (o & ps & Hlen & Hr); [done..|].
  subst r. rewrite Hr. simpl. split; [by exists o|done].
Qed.

Lemma reset_without_target_keeps_stale_target_witness :
  (exists o, fst (TextConditioned3DEnv.reset (Some "tower"%string) (Some [])
                    (fun _ => (2, 5)) text_started) = inr o) /\
  TextConditioned3DEnv.target
    (snd (TextConditioned3DEnv.reset (Some "tower"%string) (Some [])
            (fun _ => (2, 5)) text_started))
  = TextConditioned3DEnv.target text_started.
Proof.
  assert (Hn : 0 < TextConditioned3DEnv.grid_size text_started)
    by (vm_compute; reflexivity).
  assert (Hl : TextConditioned3DEnv.local_size text_started = 2 * 1 + 1)
    by (vm_compute; reflexivity).
  assert (Hh : 0 <= 1 < 1000) by lia.
  pose proof (reset_without_target_keeps_stale_target text_started
                (Some "tower"%string) (Some []) (fun _ => (2, 5)) 1
                text_started_wf Hn Hl Hh eq_refl) as H.
  cbv zeta in H. destruct H as (H1 & H2 & _).
  split; [exact H1|exact H2].
Defined.

(** * Further properties of the text-conditioned environment *)

(** A loop whose body returns in every state of an invariant returns. *)
Lemma for_each_returns {S X} (I : S -> Prop) (l : list X)
    (body : X -> M S unit) s :
  I s ->
  (forall x s, x ∈ l -> I s -> exists s', body x s = (inr tt, s') /\ I s') ->
  exists s', for_each l body s = (inr tt, s') /\ I s'.
Proof.
  revert s. induction l as [|x l IH]; intros s Hs Hb; simpl.
  { by exists s. }
  destruct (Hb x s) as (s1 & H1 & HI1); [by left|done|].
  destruct (IH s1) as (s2 & H2 & HI2);
    [done|intros y t Hy; apply Hb; by right|].
  exists s2. unfold bind. rewrite H1. done.
Qed.

Lemma for_collect_length {S X A} (l : list X) (body : X -> M S A) s r s' :
  for_collect l body s = (inr r, s') -> length r = length l.
Proof.
  revert s r s'. induction l as [|x l IH]; intros s r s' H; simpl in H.
  { unfold ret in H. by simplify_eq. }
  unfold bind in H. destruct (body x s) as [[ex|a] s1]; [done|].
  destruct (for_collect l body s1) as [[ex|r1] s2] eqn:E; [done|].
  unfold ret in H. simplify_eq. simpl. f_equal. by eapply IH.
Qed.

Module TextTotal.
Import TextConditioned3DEnv.

(** Reading the grid at a position of the cube succeeds. *)
Lemma grid_read_defined e x y z :
  text_wf e -> 0 <= x < grid_size e -> 0 <= y < grid_size e ->
  0 <= z < grid_size e ->
  exists v, get3 (grid e) x y z = Some v.
Proof.
  intros [Hs _ Hg _ _ _ _ _ _] Hx Hy Hz.
  rewrite (get3_cell _ (Z.to_nat (grid_size e))) by (done || lia).
  destruct (cell_is_Some (grid e) (Z.to_nat (grid_size e))
              (Z.to_nat x) (Z.to_nat y) (Z.to_nat z)) as [v Hv]; [done|lia..|].
  by exists v.
Qed.

Lemma target_read_defined e x y z :
  text_wf e -> 0 <= x < grid_size e -> 0 <= y < grid_size e ->
  0 <= z < grid_size e ->
  exists v, get3 (target e) x y z = Some v.
Proof.
  intros [Hs _ _ Ht _ _ _ _ _] Hx Hy Hz.
  rewrite (get3_cell _ (Z.to_nat (grid_size e))) by (done || lia).
  destruct (cell_is_Some (target e) (Z.to_nat (grid_size e))
              (Z.to_nat x) (Z.to_nat y) (Z.to_nat z)) as [v Hv]; [done|lia..|].
  by exists v.
Qed.

(** In a well-formed state with every agent inside the grid, the action of
    an existing agent never raises. *)
Lemma act_returns i action e :
  text_wf e -> text_in_bounds e -> (i < num_agents e)%nat ->
  exists e', act i action e = (inr tt, e').
Proof.
  intros He Hin Hi.
  pose proof He as [Hs _ Hg _ _ _ _ Hlp Hlh].
  destruct (lookup_lt_is_Some_2 (agent_positions e) i) as [pos Hpos]; [lia|].
  destruct (lookup_lt_is_Some_2 (agent_has_block e) i) as [hb Hhb]; [lia|].
  assert (Hc : in_cube (grid_size e) pos).
  { unfold text_in_bounds in Hin. rewrite Forall_lookup in Hin. by eapply Hin. }
  destruct Hc as (H0 & H1 & H2).
  destruct (grid_read_defined e (c0 pos) (c1 pos) (c2 pos)) as [here Hhere];
    [done..|].
  destruct (set3_is_Some (grid e) (Z.to_nat (grid_size e))
              (c0 pos) (c1 pos) (c2 pos) 1) as [g' Hg']; [done|lia..|].
  unfold act, position_of, has_block_of, grid_at.
  unfold bind at 1. rewrite Hpos. unfold lift at 1, ret at 1.
  unfold bind at 1, gets at 1.
  repeat case_match; TextFacts.guards;
    try (unfold modify, ret; by eexists).
  - destruct (grid_read_defined e (c0 pos) (c1 pos - 1) (c2 pos)) as [b Hb];
      [done|done|lia|done|].
    unfold bind, lift, ret, modify. rewrite Hb. case_match; by eexists.
  - unfold bind, lift, ret, modify, gets. rewrite Hhb.
    destruct hb; [|by eexists]. rewrite Hg'. by eexists.
  - unfold bind, lift, ret, modify, gets. rewrite Hhb.
    destruct hb; [by eexists|]. rewrite Hhere. case_match; by eexists.
Qed.

Lemma agent_loop_returns actions na e :
  text_wf e -> text_in_bounds e ->
  (na <= num_agents e)%nat -> (na <= length actions)%nat ->
  exists e', agent_loop actions na e = (inr tt, e') /\
             (text_wf e' /\ text_in_bounds e') /\ num_agents e' = num_agents e.
Proof.
  intros He Hin Hna Hla. unfold agent_loop.
  destruct (for_each_returns
              (fun s => (text_wf s /\ text_in_bounds s) /\ num_agents s = num_agents e)
              (seq 0 na)
              (fun i => action <~ lift KeyError (actions !! i) ;; act i action) e)
    as (e' & Hr & HI); [done| |by exists e'].
  intros i s Hi [[Hs Hb] Hn]. apply elem_of_seq in Hi.
  destruct (lookup_lt_is_Some_2 actions i) as [a Ha]; [lia|].
  destruct (act_returns i a s) as [s' Hs']; [done|done|lia|].
  exists s'. unfold bind, lift, ret. rewrite Ha. split; [done|].
  pose proof (TextFacts.text_act_keeps_in_bounds i a s (conj Hs Hb)) as Hk.
  pose proof (TextFacts.act_keeps_fields i a s) as Hf.
  rewrite Hs' in Hk, Hf. simpl in Hk, Hf. split; [done|].
  destruct Hf as (-> & _). done.
Qed.

Lemma calculate_rewards_returns e :
  text_wf e -> text_in_bounds e ->
  exists rw, _calculate_rewards e = (inr rw, e) /\ length rw = num_agents e.
Proof.
  intros He Hin. unfold _calculate_rewards.
  unfold bind at 1. unfold gets at 1.
  destruct (for_collect_returns (seq 0 (num_agents e))
    (fun i =>
       pos <~ position_of i ;;
       g <~ grid_at (c0 pos) (c1 pos) (c2 pos) ;;
       t <~ target_at (c0 pos) (c1 pos) (c2 pos) ;;
       let reward := 0%Q in
       let reward := if (0 <? g) && (0 <? t) then (reward + 100)%Q else reward in
       let reward := if (0 <? g) && (t =? 0) then (reward - 2)%Q else reward in
       match_score <~ gets _get_match_score ;;
       let reward := fmap2 Qplus (Fin reward) (fmap2 Qmult match_score (Fin 20)) in
       let reward := fmap2 Qminus reward (Fin (1 # 10)) in
       hb <~ has_block_of i ;;
       ret (if negb hb && (0 <? t) && (g =? 0)
            then fmap2 Qminus reward (Fin 5) else reward)) e) as [rw Hrw].
  - intros i Hi. apply elem_of_seq in Hi.
    pose proof He as [_ _ _ _ _ _ _ Hlp Hlh].
    destruct (lookup_lt_is_Some_2 (agent_positions e) i) as [pos Hpos]; [lia|].
    destruct (lookup_lt_is_Some_2 (agent_has_block e) i) as [hb Hhb]; [lia|].
    assert (Hc : in_cube (grid_size e) pos).
    { unfold text_in_bounds in Hin. rewrite Forall_lookup in Hin. by eapply Hin. }
    destruct Hc as (H0 & H1 & H2).
    destruct (grid_read_defined e (c0 pos) (c1 pos) (c2 pos)) as [g Hg]; [done..|].
    destruct (target_read_defined e (c0 pos) (c1 pos) (c2 pos)) as [t Ht]; [done..|].
    eexists. unfold bind, position_of, grid_at, target_at, has_block_of,
      lift, ret, gets.
    rewrite Hpos, Hg, Ht, Hhb. done.
  - exists rw. split; [done|].
    apply for_collect_length in Hrw. by rewrite length_seq in Hrw.
Qed.

Lemma step_returns_when_complete actions e half :
  text_wf e -> text_in_bounds e ->
  local_size e = 2 * half + 1 -> 0 <= half < 1000 ->
  (num_agents e <= length actions)%nat ->
  exists out e',
    step actions e = (inr out, e') /\
    length (obs out) = num_agents e /\ length (rewards out) = num_agents e.
Proof.
  intros He Hin Hl Hh Hla. unfold step.
  unfold bind at 1, modify at 1. unfold bind at 1, gets at 1.
  cbn [num_agents with_step_count].
  set (e1 := with_step_count (step_count e + 1) e).
  assert (He1 : text_wf e1) by (destruct He; by constructor).
  destruct (agent_loop_returns actions (num_agents e) e1)
    as (e2 & Hr & [He2 Hin2] & Hn2); [done|done|done|done|].
  unfold bind at 1. rewrite Hr.
  destruct (calculate_rewards_returns e2) as (rw & Hrw & Hlrw); [done..|].
  unfold bind at 1. rewrite Hrw.
  unfold bind at 1, gets at 1. unfold bind at 1, gets at 1.
  pose proof (TextFacts.text_agent_loop_keeps
                (fun s => local_size s = local_size e1) actions (num_agents e)) as Hk.
  assert (Hl2 : local_size e2 = local_size e).
  { specialize (Hk (fun i a s Hs =>
      eq_trans (proj1 (proj2 (proj2 (TextFacts.act_keeps_fields i a s)))) Hs) e1 eq_refl).
    rewrite Hr in Hk. exact Hk. }
  destruct (TextReset.get_observations_returns e2 half) as [o Ho];
    [done|by rewrite Hl2|done|].
  pose proof Ho as Hlo. unfold _get_observations in Hlo.
  unfold bind at 1, gets at 1 in Hlo. apply for_collect_length in Hlo.
  rewrite length_seq in Hlo.
  unfold bind at 1. rewrite Ho. unfold ret.
  eexists _, e2. split; [done|]. simpl. split; [by rewrite Hlo|by rewrite Hlrw].
Qed.

End TextTotal.

(** X1.  [TextConditioned3DEnv.step] never raises in an episode: in every
    state reached after a returned [reset], with an odd observation window
    and an action for every agent, [step] returns, with one observation
    vector and one reward per agent. *)
Theorem text_step_never_raises e actions half :
  text_reachable e ->
  TextConditioned3DEnv.local_size e = 2 * half + 1 -> 0 <= half < 1000 ->
  (TextConditioned3DEnv.num_agents e <= length actions)%nat ->
  exists out,
    fst (TextConditioned3DEnv.step actions e) = inr out /\
    length (TextConditioned3DEnv.obs out) = TextConditioned3DEnv.num_agents e /\
    length (TextConditioned3DEnv.rewards out) = TextConditioned3DEnv.num_agents e.
Proof.
  intros Hr Hl Hh Hla.
  destruct (TextFacts.reachable_wf_in_bounds e Hr) as [He Hin].
  destruct (TextTotal.step_returns_when_complete actions e half)
    as (out & e' & Hs & Ho & Hw); [done..|].
  exists out. by rewrite Hs.
Qed.

Lemma text_started_local_size : TextConditioned3DEnv.local_size text_started = 3.
Proof. vm_compute. reflexivity. Qed.

Lemma text_started_num_agents : TextConditioned3DEnv.num_agents text_started = 2%nat.
Proof. vm_compute. reflexivity. Qed.

Lemma text_step_never_raises_witness :
  exists out,
    fst (TextConditioned3DEnv.step [0; 4] text_started) = inr out /\
    length (TextConditioned3DEnv.obs out)
    = TextConditioned3DEnv.num_agents text_started /\
    length (TextConditioned3DEnv.rewards out)
    = TextConditioned3DEnv.num_agents text_started.
Proof.
  apply (text_step_never_raises text_started [0; 4] 1).
  - exact text_started_reachable.
  - exact text_started_local_size.
  - lia.
  - rewrite text_started_num_agents. simpl. lia.
Defined.

(** X2.  A missing action key.  When the action map has entries for the
    first [k] agents only, [step] raises [KeyError]; by then the step
    counter has been incremented and the first [k] agents have acted, and
    the state is left that way. *)
Theorem text_step_missing_action e actions :
  text_reachable e ->
  (length actions < TextConditioned3DEnv.num_agents e)%nat ->
  fst (TextConditioned3DEnv.step actions e) = inl KeyError /\
  TextConditioned3DEnv.step_count (snd (TextConditioned3DEnv.step actions e))
  = TextConditioned3DEnv.step_count e + 1 /\
  snd (TextConditioned3DEnv.step actions e)
  = snd (TextConditioned3DEnv.agent_loop actions (length actions)
           (TextConditioned3DEnv.with_step_count
              (TextConditioned3DEnv.step_count e + 1) e)).
Proof.
  intros Hr Hlt.
  destruct (TextFacts.reachable_wf_in_bounds e Hr) as [He Hin].
  set (e1 := TextConditioned3DEnv.with_step_count
               (TextConditioned3DEnv.step_count e + 1) e).
  assert (He1 : text_wf e1) by (destruct He; by constructor).
  destruct (TextTotal.agent_loop_returns actions (length actions) e1)
    as (e2 & Hr2 & _ & _); [done|done|simpl; lia|done|].
  assert (Hloop : TextConditioned3DEnv.agent_loop actions
                    (TextConditioned3DEnv.num_agents e) e1 = (inl KeyError, e2)).
  { unfold TextConditioned3DEnv.agent_loop in *.
    replace (TextConditioned3DEnv.num_agents e)
      with (length actions + S (TextConditioned3DEnv.num_agents e
                                - S (length actions)))%nat by lia.
    rewrite seq_app, for_each_app. unfold bind at 1. rewrite Hr2.
    simpl. unfold bind at 1.
    rewrite (lookup_ge_None_2 actions (length actions)) by lia.
    done. }
  assert (Hstep : TextConditioned3DEnv.step actions e = (inl KeyError, e2)).
  { unfold TextConditioned3DEnv.step.
    unfold bind at 1, modify at 1. unfold bind at 1, gets at 1.
    cbn [TextConditioned3DEnv.num_agents TextConditioned3DEnv.with_step_count].
    fold e1. unfold bind at 1. by rewrite Hloop. }
  rewrite Hstep. fold e1. rewrite Hr2. simpl. split; [done|]. split; [|done].
  pose proof (TextEpisode.text_step_increments actions e) as Hinc.
  rewrite Hstep in Hinc. simpl in Hinc. apply Hinc. by destruct He.
Qed.

Lemma text_step_missing_action_witness :
  fst (TextConditioned3DEnv.step [2] text_started) = inl KeyError /\
  TextConditioned3DEnv.step_count (snd (TextConditioned3DEnv.step [2] text_started))
  = TextConditioned3DEnv.step_count text_started + 1 /\
  snd (TextConditioned3DEnv.step [2] text_started)
  = snd (TextConditioned3DEnv.agent_loop [2] (length [2])
           (TextConditioned3DEnv.with_step_count
              (TextConditioned3DEnv.step_count text_started + 1) text_started)).
Proof.
  apply (text_step_missing_action text_started [2]).
  - exact text_started_reachable.
  - rewrite text_started_num_agents. simpl. lia.
Defined.

(** A loop whose body leaves the state alone leaves the state alone. *)
Lemma for_each_noop {S X} (l : list X) (body : X -> M S unit) s :
  (forall x, x ∈ l -> body x s = (inr tt, s)) ->
  for_each l body s = (inr tt, s).
Proof.
  induction l as [|x l IH]; intros H; simpl; [done|].
  unfold bind. rewrite (H x) by (by left).
  apply IH. intros y Hy. apply H. by right.
Qed.

(** What holds of the values a collecting loop returns. *)
Lemma for_collect_Forall {S X A} (I : S -> Prop) (P : A -> Prop)
    (l : list X) (body : X -> M S A) s r s' :
  (forall x s a s', x ∈ l -> I s -> body x s = (inr a, s') -> P a /\ I s') ->
  I s -> for_collect l body s = (inr r, s') -> Forall P r.
Proof.
  revert s r s'. induction l as [|x l IH]; intros s r s' Hb Hs H; simpl in H.
  { unfold ret in H. simplify_eq. constructor. }
  unfold bind in H. destruct (body x s) as [[ex|a] s1] eqn:E1; [done|].
  destruct (for_collect l body s1) as [[ex|r1] s2] eqn:E2; [done|].
  unfold ret in H. simplify_eq.
  destruct (Hb x s a s1) as [Ha Hs1]; [by left|done|done|].
  constructor; [done|].
  eapply (IH s1); [|done|done]. intros y t b t' Hy. apply Hb. by right.
Qed.

(** An action code outside [0..7] matches no branch of [step]. *)
Lemma text_unknown_action i a e :
  (i < length (TextConditioned3DEnv.agent_positions e))%nat ->
  a < 0 \/ 7 < a ->
  TextConditioned3DEnv.act i a e = (inr tt, e).
Proof.
  intros Hi Ha.
  destruct (lookup_lt_is_Some_2 _ i Hi) as [pos Hpos].
  unfold TextConditioned3DEnv.act, TextConditioned3DEnv.position_of.
  unfold bind at 1. rewrite Hpos. unfold lift at 1, ret at 1.
  unfold bind at 1, gets at 1.
  repeat (case_match; [TextFacts.guards; lia|]). done.
Qed.

Lemma swarm_unknown_action i a e :
  (i < length (SwarmConstructionEnv.agent_positions e))%nat ->
  a < 0 \/ 7 < a ->
  SwarmConstructionEnv.act i a e = (inr tt, e).
Proof.
  intros Hi Ha.
  destruct (lookup_lt_is_Some_2 _ i Hi) as [pos Hpos].
  unfold SwarmConstructionEnv.act, SwarmConstructionEnv.position_of.
  unfold bind at 1. rewrite Hpos. unfold lift at 1, ret at 1.
  unfold bind at 1, gets at 1.
  repeat (case_match; [TextFacts.guards; lia|]). done.
Qed.

(** X3.  Action codes outside [0..7] are ignored: a call of [step] in which
    every agent submits such a code changes nothing but the step counter,
    in both environments. *)
Theorem unknown_actions_only_advance_counter :
  (forall e actions,
     text_wf e ->
     (TextConditioned3DEnv.num_agents e <= length actions)%nat ->
     Forall (fun a => a < 0 \/ 7 < a) actions ->
     snd (TextConditioned3DEnv.step actions e)
     = TextConditioned3DEnv.with_step_count
         (TextConditioned3DEnv.step_count e + 1) e) /\
  (forall e actions,
     swarm_wf e ->
     (SwarmConstructionEnv.num_agents e <= length actions)%nat ->
     Forall (fun a => a < 0 \/ 7 < a) actions ->
     snd (SwarmConstructionEnv.step actions e)
     = SwarmConstructionEnv.with_step_count
         (SwarmConstructionEnv.step_count e + 1) e).
Proof.
  split.
  - intros e actions He Hla Ha. rewrite TextFacts.text_step_state.
    unfold TextConditioned3DEnv.agent_loop. rewrite for_each_noop; [done|].
    intros i Hi. apply elem_of_seq in Hi.
    destruct (lookup_lt_is_Some_2 actions i) as [a Hai]; [lia|].
    unfold bind, lift, ret. rewrite Hai.
    apply text_unknown_action.
    + destruct He as [_ _ _ _ _ _ _ Hlp _]. simpl. lia.
    + rewrite Forall_lookup in Ha. by eapply Ha.
  - intros e actions He Hla Ha. rewrite SwarmFacts.swarm_step_state.
    unfold SwarmConstructionEnv.agent_loop. rewrite for_each_noop; [done|].
    intros i Hi. apply elem_of_seq in Hi.
    destruct (lookup_lt_is_Some_2 actions i) as [a Hai]; [lia|].
    unfold bind, lift, ret. rewrite Hai.
    apply swarm_unknown_action.
    + destruct He as [_ _ _ Hlp _]. simpl. lia.
    + rewrite Forall_lookup in Ha. by eapply Ha.
Qed.

Lemma swarm_started_num_agents :
  SwarmConstructionEnv.num_agents swarm_started = 2%nat.
Proof. vm_compute. reflexivity. Qed.

Lemma unknown_actions_only_advance_counter_witness :
  snd (TextConditioned3DEnv.step [8; -1] text_started)
  = TextConditioned3DEnv.with_step_count
      (TextConditioned3DEnv.step_count text_started + 1) text_started /\
  snd (SwarmConstructionEnv.step [8; -1] swarm_started)
  = SwarmConstructionEnv.with_step_count
      (SwarmConstructionEnv.step_count swarm_started + 1) swarm_started.
Proof.
  split.
  - apply (proj1 unknown_actions_only_advance_counter text_started [8; -1]).
    + exact text_started_wf.
    + rewrite text_started_num_agents. simpl. lia.
    + repeat constructor; lia.
  - apply (proj2 unknown_actions_only_advance_counter swarm_started [8; -1]).
    + exact (proj1 (proj1 swarm_started_good)).
    + rewrite swarm_started_num_agents. simpl. lia.
    + repeat constructor; lia.
Defined.

(** ** The match score along an episode *)

Section ScoreMonotone.
Let hit (g t : Z) : bool := occupied g && occupied t.

Lemma row_hits_monotone (g' g : list Z) :
  Forall2 fills g' g ->
  forall t, np_sum_bool (zip_with hit g t) <= np_sum_bool (zip_with hit g' t).
Proof.
  induction 1 as [|a' a g' g Ha _ IH]; intros t; [done|].
  destruct t as [|b t]; [done|]. simpl. unfold np_sum_bool in *. simpl.
  specialize (IH t).
  assert ((if hit a b then 1 else 0) <= (if hit a' b then 1 else 0)); [|lia].
  unfold hit, occupied, fills in *.
  destruct (0 <? a) eqn:E1, (0 <? a') eqn:E2, (0 <? b) eqn:E3; simpl; try lia.
Qed.

Lemma plane_hits_monotone (g' g : list (list Z)) :
  Forall2 (Forall2 fills) g' g ->
  forall t, np_sum_bool (concat (zip_with (zip_with hit) g t))
            <= np_sum_bool (concat (zip_with (zip_with hit) g' t)).
Proof.
  induction 1 as [|a' a g' g Ha _ IH]; intros t; [done|].
  destruct t as [|b t]; [done|]. simpl. rewrite !np_sum_bool_app.
  specialize (IH t). pose proof (row_hits_monotone a' a Ha b). lia.
Qed.

Lemma volume_hits_monotone (g' g : vol) :
  Forall2 (Forall2 (Forall2 fills)) g' g ->
  forall t, np_sum_bool (flatten3 (zip3 hit g t))
            <= np_sum_bool (flatten3 (zip3 hit g' t)).
Proof.
  unfold flatten3, zip3.
  induction 1 as [|a' a g' g Ha _ IH]; intros t; [done|].
  destruct t as [|b t]; [done|]. simpl. rewrite !concat_app, !np_sum_bool_app.
  specialize (IH t). pose proof (plane_hits_monotone a' a Ha b). lia.
Qed.
End ScoreMonotone.

Lemma occupancy_kept_covered (a b : vol) : occupancy_kept a b <-> covered b a.
Proof. done. Qed.

(** The match score of the text-conditioned environment is a number of
    [[0, 1]]. *)
Lemma text_match_score_fin e :
  text_wf e ->
  exists q, TextConditioned3DEnv._get_match_score e = Fin q /\ (0 <= q <= 1)%Q.
Proof.
  intros [_ _ Hg Ht Hb _ _ _ _]. unfold TextConditioned3DEnv._get_match_score.
  rewrite (occupied_cells_binary _ Hb).
  fold (occupied_cells (TextConditioned3DEnv.target e)).
  destruct (volume_score _ _ _ Hg Ht) as [Hle _].
  destruct (occupied_cells (TextConditioned3DEnv.target e) =? 0) eqn:E.
  - exists 0%Q. done.
  - unfold true_divide. rewrite E. apply Z.eqb_neq in E.
    eexists. split; [done|].
    apply (ratio_bounds _ _ Hle). lia.
Qed.

Lemma text_step_keeps_target actions e :
  TextConditioned3DEnv.target (snd (TextConditioned3DEnv.step actions e))
  = TextConditioned3DEnv.target e.
Proof.
  apply (TextFacts.text_step_keeps
           (fun s => TextConditioned3DEnv.target s = TextConditioned3DEnv.target e));
    [done| |done].
  intros i a s Hs.
  pose proof (TextFacts.act_keeps_fields i a s) as Hf. simpl in Hf.
  destruct Hf as (_ & _ & _ & _ & -> & _). done.
Qed.

Lemma text_step_score_monotone actions e :
  text_wf e ->
  exists q q',
    TextConditioned3DEnv._get_match_score e = Fin q /\
    TextConditioned3DEnv._get_match_score
      (snd (TextConditioned3DEnv.step actions e)) = Fin q' /\
    (q <= q')%Q.
Proof.
  intros He.
  pose proof (TextFacts.step_keeps_wf actions e He) as He'.
  pose proof (text_step_grid_monotone actions (TextConditioned3DEnv.grid e) e
                (occupancy_kept_refl _)) as Hk.
  pose proof (text_step_keeps_target actions e) as Ht.
  set (e' := snd (TextConditioned3DEnv.step actions e)) in *.
  pose proof He as [Hs _ Hg Htg Hb _ _ _ _].
  pose proof He' as [Hs' _ Hg' _ _ _ _ _ _].
  assert (Hn : TextConditioned3DEnv.grid_size e' = TextConditioned3DEnv.grid_size e).
  { pose proof He' as [_ _ _ Htg' _ _ _ _ _]. rewrite Ht in Htg'.
    destruct Htg as [L1 _], Htg' as [L2 _]. lia. }
  rewrite Hn in Hg'.
  apply occupancy_kept_covered in Hk.
  apply (covered_Forall2 _ _ _ Hg' Hg) in Hk.
  pose proof (volume_hits_monotone _ _ Hk (TextConditioned3DEnv.target e)) as Hm.
  unfold TextConditioned3DEnv._get_match_score. rewrite Ht.
  rewrite (occupied_cells_binary _ Hb).
  fold (occupied_cells (TextConditioned3DEnv.target e)).
  destruct (occupied_cells (TextConditioned3DEnv.target e) =? 0) eqn:E.
  { exists 0%Q, 0%Q. done. }
  unfold true_divide. rewrite E. apply Z.eqb_neq in E.
  eexists _, _. split; [done|]. split; [done|].
  pose proof (np_sum_bool_nonneg
                (flatten3 (map3 occupied (TextConditioned3DEnv.target e)))) as Hnn.
  fold (occupied_cells (TextConditioned3DEnv.target e)) in Hnn.
  unfold Qdiv. apply Qmult_le_compat_r.
  - rewrite <- Zle_Qle. exact Hm.
  - apply Qinv_le_0_compat. replace 0%Q with (inject_Z 0) by done.
    rewrite <- Zle_Qle. lia.
Qed.

(** X4.  The match score never decreases during an episode of the
    text-conditioned environment: after any sequence of [step] calls,
    returning or raising, it is at least what it was before. *)
Theorem text_match_score_never_decreases e l :
  text_wf e ->
  exists q q',
    TextConditioned3DEnv._get_match_score e = Fin q /\
    TextConditioned3DEnv._get_match_score (text_run l e) = Fin q' /\
    (q <= q')%Q.
Proof.
  revert e. induction l as [|a l IH]; intros e He.
  - destruct (text_match_score_fin e He) as (q & Hq & _).
    exists q, q. split; [done|]. split; [done|]. apply Qle_refl.
  - destruct (text_step_score_monotone a e He) as (q & q1 & Hq & Hq1 & Hle).
    destruct (IH (snd (TextConditioned3DEnv.step a e))) as (q1' & q2 & Hq1' & Hq2 & Hle').
    { by apply TextFacts.step_keeps_wf. }
    rewrite Hq1 in Hq1'. injection Hq1' as <-.
    exists q, q2. split; [done|]. split; [exact Hq2|].
    eapply Qle_trans; eassumption.
Qed.

Lemma text_match_score_never_decreases_witness :
  exists q q',
    TextConditioned3DEnv._get_match_score text_started = Fin q /\
    TextConditioned3DEnv._get_match_score
      (text_run [[6; 0]; [1; 6]] text_started) = Fin q' /\
    (q <= q')%Q.
Proof.
  apply (text_match_score_never_decreases text_started [[6; 0]; [1; 6]]).
  exact text_started_wf.
Defined.

(** ** Rewards of the text-conditioned environment *)

(** The reward of one agent, for a match score [q] of [[0, 1]]. *)
Lemma text_reward_range (g t : Z) (hb : bool) (q : Q) :
  (0 <= q <= 1)%Q ->
  let reward := 0%Q in
  let reward := if (0 <? g) && (0 <? t) then (reward + 100)%Q else reward in
  let reward := if (0 <? g) && (t =? 0) then (reward - 2)%Q else reward in
  let reward := fmap2 Qplus (Fin reward) (fmap2 Qmult (Fin q) (Fin 20)) in
  let reward := fmap2 Qminus reward (Fin (1 # 10)) in
  exists r,
    (if negb hb && (0 <? t) && (g =? 0)
     then fmap2 Qminus reward (Fin 5) else reward) = Fin r /\
    (- (51 # 10) <= r <= 1199 # 10)%Q.
Proof.
  intros [Hq0 Hq1]. simpl.
  assert (H20 : (0 <= q * 20 <= 20)%Q).
  { split.
    - apply Qmult_le_0_compat; [done|]. by compute.
    - replace 20%Q with (1 * 20)%Q at 2 by done.
      apply Qmult_le_compat_r; [done|]. by compute. }
  destruct H20 as [Ha Hb]. revert Ha Hb. generalize (q * 20)%Q. intros s Ha Hb.
  destruct (0 <? g) eqn:Eg, (0 <? t) eqn:Et, (t =? 0) eqn:Et0,
           (g =? 0) eqn:Eg0, hb; simpl;
    TextFacts.guards; try lia; eexists; (split; [reflexivity|]).
  all: Lqa.lra.
Qed.

Lemma text_calculate_rewards_bounded e rw e' :
  text_wf e ->
  TextConditioned3DEnv._calculate_rewards e = (inr rw, e') ->
  Forall (fun r => exists q, r = Fin q /\ (- (51 # 10) <= q <= 1199 # 10)%Q) rw.
Proof.
  intros He H. unfold TextConditioned3DEnv._calculate_rewards in H.
  unfold bind at 1, gets at 1 in H.
  eapply (for_collect_Forall text_wf) in H; [exact H| |exact He].
  intros i s a s' _ Hs Hb.
  unfold bind, TextConditioned3DEnv.position_of, TextConditioned3DEnv.grid_at,
    TextConditioned3DEnv.target_at, TextConditioned3DEnv.has_block_of,
    lift, ret, gets, raise in Hb.
  destruct (TextConditioned3DEnv.agent_positions s !! i) as [pos|]; [|done].
  destruct (get3 (TextConditioned3DEnv.grid s) (c0 pos) (c1 pos) (c2 pos))
    as [g|]; [|done].
  destruct (get3 (TextConditioned3DEnv.target s) (c0 pos) (c1 pos) (c2 pos))
    as [t|]; [|done].
  destruct (TextConditioned3DEnv.agent_has_block s !! i) as [hb|]; [|done].
  injection Hb as <- <-. split; [|done].
  destruct (text_match_score_fin s Hs) as (q & -> & Hq).
  by apply text_reward_range.
Qed.

(** X5.  Rewards of the text-conditioned environment are bounded: every
    reward [step] returns is a number between -5.1 (time penalty and idle
    penalty, nothing built) and 119.9 (standing on a correct block of a
    completed structure), never [nan]. *)
Theorem text_rewards_are_bounded e actions out :
  text_wf e ->
  fst (TextConditioned3DEnv.step actions e) = inr out ->
  Forall (fun r => exists q, r = Fin q /\ (- (51 # 10) <= q <= 1199 # 10)%Q)
         (TextConditioned3DEnv.rewards out).
Proof.
  intros He Hout.
  pose proof (TextFacts.step_keeps_wf actions e He) as He'.
  destruct (TextConditioned3DEnv.step actions e) as [r e'] eqn:Hs.
  simpl in Hout, He'. subst r.
  destruct (TextEpisode.text_step_returns actions e out e' Hs)
    as ((rw & Hrw & <-) & _).
  by eapply text_calculate_rewards_bounded.
Qed.

Lemma text_rewards_are_bounded_witness :
  exists out,
    fst (TextConditioned3DEnv.step [6; 4] text_started) = inr out /\
    Forall (fun r => exists q, r = Fin q /\ (- (51 # 10) <= q <= 1199 # 10)%Q)
           (TextConditioned3DEnv.rewards out).
Proof.
  destruct (TextTotal.step_returns_when_complete [6; 4] text_started 1)
    as (out & e' & Hs & _).
  - exact text_started_wf.
  - exact (proj2 (TextFacts.reachable_wf_in_bounds _ text_started_reachable)).
  - exact text_started_local_size.
  - lia.
  - rewrite text_started_num_agents. simpl. lia.
  - exists out. assert (Hout : fst (TextConditioned3DEnv.step [6; 4] text_started) = inr out)
      by (by rewrite Hs).
    split; [exact Hout|].
    exact (text_rewards_are_bounded text_started [6; 4] out text_started_wf Hout).
Defined.

(** ** Loading a target *)

Lemma length_concat_const {A} (n m : nat) (l : list (list A)) :
  length l = m -> Forall (fun r => length r = n) l ->
  length (concat l) = (m * n)%nat.
Proof.
  intros <- H. induction H as [|r l Hr _ IH]; simpl; [done|].
  rewrite length_app, IH, Hr. done.
Qed.

Lemma length_flatten3 {A} (n : nat) (a : arr3 A) :
  shape3 n a -> length (flatten3 a) = (n * n * n)%nat.
Proof.
  intros [Hl Hp]. unfold flatten3.
  apply length_concat_const.
  - apply length_concat_const; [done|].
    eapply Forall_impl; [exact Hp|]. by intros p [? _].
  - apply Forall_concat. eapply Forall_impl; [exact Hp|]. by intros p [_ ?].
Qed.

Lemma np_max_defined (n : nat) (a : rvol) :
  shape3 n a -> (0 < n)%nat -> is_Some (np_max a).
Proof.
  intros Ha Hn. unfold np_max.
  pose proof (length_flatten3 n a Ha) as Hl.
  destruct (flatten3 a); [simpl in Hl; nia|done].
Qed.

Lemma paint_voxel_shape n t v k :
  shape3 k t -> shape3 k (paint_voxel n t v).
Proof.
  intros Ht. unfold paint_voxel. case_match; [|done].
  destruct (set3 t (vx v) (vy v) (vz v) 1) as [t'|] eqn:E; [|done].
  simpl. by eapply set3_shape.
Qed.

Lemma paint_voxel_binary n t v :
  all_cells (fun c => c = 0 \/ c = 1) t ->
  all_cells (fun c => c = 0 \/ c = 1) (paint_voxel n t v).
Proof.
  intros Ht. unfold paint_voxel. case_match; [|done].
  destruct (set3 t (vx v) (vy v) (vz v) 1) as [t'|] eqn:E; [|done].
  simpl. eapply all_cells_set3; [exact Ht|by right|exact E].
Qed.

Lemma paint_voxel_cell n t v x y z :
  0 <= n -> shape3 (Z.to_nat n) t ->
  (x < Z.to_nat n)%nat -> (y < Z.to_nat n)%nat -> (z < Z.to_nat n)%nat ->
  cell (paint_voxel n t v) x y z
  = if decide (v = voxel_at x y z) then Some 1 else cell t x y z.
Proof.
  intros Hn Ht Hx Hy Hz. unfold paint_voxel, voxel_at.
  destruct v as [a b c]. simpl. case_match eqn:G.
  - TextFacts.guards.
    destruct (set3_is_Some t (Z.to_nat n) a b c 1) as [t' Ht']; [done|lia..|].
    rewrite Ht'. simpl.
    rewrite (set3_target_cell t t' (Z.to_nat n) a b c 1) by (done || lia).
    destruct (decide (Voxel a b c = Voxel (Z.of_nat x) (Z.of_nat y) (Z.of_nat z)))
      as [E|E].
    + injection E as -> -> ->. rewrite decide_True; [done|]. lia.
    + rewrite decide_False; [done|]. intros (-> & -> & ->).
      apply E. f_equal; lia.
  - rewrite decide_False; [done|]. intros Heq. simplify_eq.
    assert ((0 <=? Z.of_nat x) && (Z.of_nat x <? n) && (0 <=? Z.of_nat y)
            && (Z.of_nat y <? n) && (0 <=? Z.of_nat z) && (Z.of_nat z <? n) = true);
      [|congruence].
    repeat (apply andb_true_iff; split); lia.
Qed.

Lemma fold_paint_shape n vs t k :
  shape3 k t -> shape3 k (fold_left (paint_voxel n) vs t).
Proof.
  revert t. induction vs as [|v vs IH]; intros t Ht; simpl; [done|].
  apply IH. by apply paint_voxel_shape.
Qed.

Lemma fold_paint_binary n vs t :
  all_cells (fun c => c = 0 \/ c = 1) t ->
  all_cells (fun c => c = 0 \/ c = 1) (fold_left (paint_voxel n) vs t).
Proof.
  revert t. induction vs as [|v vs IH]; intros t Ht; simpl; [done|].
  apply IH. by apply paint_voxel_binary.
Qed.

Lemma fold_paint_cell n vs t x y z :
  0 <= n -> shape3 (Z.to_nat n) t ->
  (x < Z.to_nat n)%nat -> (y < Z.to_nat n)%nat -> (z < Z.to_nat n)%nat ->
  cell (fold_left (paint_voxel n) vs t) x y z = Some 1
  <-> cell t x y z = Some 1 \/ voxel_at x y z ∈ vs.
Proof.
  intros Hn Ht Hx Hy Hz. revert t Ht.
  induction vs as [|v vs IH]; intros t Ht; simpl.
  { split; [by left|]. intros [H|H]; [done|]. by apply elem_of_nil in H. }
  rewrite IH by (by apply paint_voxel_shape).
  rewrite paint_voxel_cell by done.
  rewrite elem_of_cons. case_decide as E.
  - subst v. split; [intros _; right; by left|by left].
  - split; [intros [H|H]; [by left|right; by right]|].
    intros [H|[H|H]]; [by left|done|by right].
Qed.

Module TextLoad.
Import TextConditioned3DEnv.

(** The voxel loop of [load_training_pair] never raises; it touches the
    target only. *)
Lemma voxel_loop_run n voxels e :
  grid_size e = n -> 0 <= n -> shape3 (Z.to_nat n) (target e) ->
  for_each voxels (fun v =>
    n <~ gets grid_size ;;
    if (0 <=? vx v) && (vx v <? n) && (0 <=? vy v) && (vy v <? n)
       && (0 <=? vz v) && (vz v <? n)
    then
      tgt <~ gets target ;;
      tgt' <~ lift IndexError (set3 tgt (vx v) (vy v) (vz v) 1) ;;
      modify (with_target tgt')
    else ret tt) e
  = (inr tt, with_target (fold_left (paint_voxel n) voxels (target e)) e).
Proof.
  intros Hgs Hn. revert e Hgs.
  induction voxels as [|v vs IH]; intros e Hgs Ht; simpl.
  { unfold ret. by destruct e. }
  unfold bind at 1. unfold bind at 1, gets at 1. rewrite Hgs.
  unfold paint_voxel at 2.
  destruct ((0 <=? vx v) && (vx v <? n) && (0 <=? vy v) && (vy v <? n)
            && (0 <=? vz v) && (vz v <? n)) eqn:G.
  - TextFacts.guards.
    destruct (set3_is_Some (target e) (Z.to_nat n) (vx v) (vy v) (vz v) 1)
      as [t' Ht']; [done|lia..|].
    unfold bind at 1, gets at 1. unfold bind at 1. rewrite Ht'.
    unfold lift at 1, ret at 1, modify at 1. simpl.
    rewrite IH; [by destruct e|done|].
    simpl. by eapply set3_shape.
  - unfold ret at 1. by apply IH.
Qed.

(** [load_training_pair] on a non-empty grid returns, and the state it
    leaves is the old one with the text, the painted target and a new
    scent field. *)
Lemma load_training_pair_run text voxels e :
  text_wf e -> 0 < grid_size e ->
  exists sc,
    load_training_pair text voxels e
    = (inr tt,
       with_scent sc
         (with_target (fold_left (paint_voxel (grid_size e)) voxels
                                 (fill3 0 (target e)))
            (with_text text e))).
Proof.
  intros He Hn. pose proof He as [Hs _ _ Ht _ _ _ _ _].
  unfold load_training_pair.
  unfold bind at 1, modify at 1. unfold bind at 1, modify at 1.
  unfold bind at 1.
  rewrite (voxel_loop_run (grid_size e)); [|done|lia|by apply fill3_shape].
  cbn [target with_target with_text].
  set (t := fold_left _ _ _).
  assert (Hsh : shape3 (Z.to_nat (grid_size e)) t).
  { apply fold_paint_shape. by apply fill3_shape. }
  unfold _generate_scent_field.
  unfold bind at 1, gets at 1. cbn [target with_target].
  destruct (np_max_defined (Z.to_nat (grid_size e))
              (distance_transform_edt (map3 (fun v => 1 - v) t))) as [m Hm].
  { unfold distance_transform_edt. cbv zeta.
    replace (length (map3 (fun v => 1 - v) t)) with (Z.to_nat (grid_size e));
      [apply tab3_shape|].
    unfold map3. rewrite length_map. by destruct Hsh as [-> _]. }
  { lia. }
  unfold bind at 1. rewrite Hm. unfold lift at 1, ret at 1, modify at 1.
  eexists. f_equal.
Qed.

End TextLoad.

(** X6.  [load_training_pair] on a well-formed environment with a non-empty
    grid returns; afterwards the target is a binary array in which a cell
    is 1 exactly when its coordinates occur in the voxel list (voxels
    outside the grid are dropped, repeated ones count once), the text is
    stored, and the grid, the agents and the step counter are untouched. *)
Theorem load_training_pair_paints_voxels e text voxels :
  text_wf e -> 0 < TextConditioned3DEnv.grid_size e ->
  let r := TextConditioned3DEnv.load_training_pair text voxels e in
  let n := Z.to_nat (TextConditioned3DEnv.grid_size e) in
  fst r = inr tt /\
  (forall x y z, (x < n)%nat -> (y < n)%nat -> (z < n)%nat ->
     (cell (TextConditioned3DEnv.target (snd r)) x y z = Some 1
      <-> voxel_at x y z ∈ voxels) /\
     (cell (TextConditioned3DEnv.target (snd r)) x y z = Some 0
      <-> voxel_at x y z ∉ voxels)) /\
  TextConditioned3DEnv.current_text (snd r) = text /\
  TextConditioned3DEnv.grid (snd r) = TextConditioned3DEnv.grid e /\
  TextConditioned3DEnv.agent_positions (snd r)
  = TextConditioned3DEnv.agent_positions e /\
  TextConditioned3DEnv.agent_has_block (snd r)
  = TextConditioned3DEnv.agent_has_block e /\
  TextConditioned3DEnv.step_count (snd r) = TextConditioned3DEnv.step_count e.
Proof.
  intros He Hn r n.
  destruct (TextLoad.load_training_pair_run text voxels e He Hn) as [sc Hr].
  subst r. rewrite Hr. simpl. split; [done|]. split; [|done].
  intros x y z Hx Hy Hz.
  pose proof He as [_ _ _ Ht _ _ _ _ _].
  assert (H1 : cell (fold_left (paint_voxel (TextConditioned3DEnv.grid_size e))
                       voxels (fill3 0 (TextConditioned3DEnv.target e))) x y z
               = Some 1 <-> voxel_at x y z ∈ voxels).
  { rewrite fold_paint_cell; [|lia|by apply fill3_shape|done..].
    split; [|by right]. intros [H|H]; [|done].
    exfalso. revert H. unfold fill3.
    pose proof (all_cells_fill3 (fun v => v = 0) (TextConditioned3DEnv.target e) 0
                  eq_refl x y z 1) as Hz0.
    intros H. by apply Hz0 in H. }
  split; [exact H1|].
  destruct (cell_is_Some (fold_left (paint_voxel (TextConditioned3DEnv.grid_size e))
                            voxels (fill3 0 (TextConditioned3DEnv.target e)))
              n x y z) as [c Hc]; [|done..|].
  { apply fold_paint_shape. by apply fill3_shape. }
  pose proof (fold_paint_binary (TextConditioned3DEnv.grid_size e) voxels
                (fill3 0 (TextConditioned3DEnv.target e))
                (all_cells_fill3 _ _ 0 (or_introl eq_refl)) x y z c Hc) as Hb.
  rewrite Hc in H1 |- *. destruct Hb as [-> | ->].
  - split; [intros _ Hin; by apply H1 in Hin|done].
  - split; [done|]. intros Hnot. exfalso. apply Hnot, H1. done.
Qed.

Lemma text_fresh_grid_size : TextConditioned3DEnv.grid_size text_fresh = 8.
Proof. reflexivity. Qed.

Lemma load_training_pair_paints_voxels_witness :
  fst (TextConditioned3DEnv.load_training_pair "tower"
         [Voxel 2 0 2; Voxel 2 1 2; Voxel 9 0 0] text_fresh) = inr tt /\
  TextConditioned3DEnv.current_text
    (snd (TextConditioned3DEnv.load_training_pair "tower"
            [Voxel 2 0 2; Voxel 2 1 2; Voxel 9 0 0] text_fresh)) = "tower"%string.
Proof.
  assert (Hn : 0 < TextConditioned3DEnv.grid_size text_fresh)
    by (rewrite text_fresh_grid_size; lia).
  pose proof (load_training_pair_paints_voxels text_fresh "tower"
                [Voxel 2 0 2; Voxel 2 1 2; Voxel 9 0 0] text_fresh_wf Hn) as H.
  cbv zeta in H. destruct H as (H1 & _ & H2 & _).
  split; [exact H1|exact H2].
Defined.

(** ** Where [reset] puts the agents *)

Lemma spawn_on_ground_edge n a b p : spawn n a b = inr p -> on_ground_edge n p.
Proof.
  unfold spawn, randint. simpl.
  destruct (0 <? n) eqn:Hn; [|done].
  intros H. injection H as <-.
  unfold on_ground_edge. repeat case_match; simpl; lia.
Qed.

Lemma text_spawn_loop_all (Q : xyz -> Prop) rng l e e' :
  (forall a b p, spawn (TextConditioned3DEnv.grid_size e) a b = inr p -> Q p) ->
  for_each l (fun i =>
    n <~ gets TextConditioned3DEnv.grid_size ;;
    p <~ (fun e => (spawn n (fst (rng i)) (snd (rng i)), e)) ;;
    ps <~ gets TextConditioned3DEnv.agent_positions ;;
    if decide (i < length ps)%nat
    then modify (TextConditioned3DEnv.with_positions (<[i := p]> ps))
    else raise IndexError) e = (inr tt, e') ->
  forall i p, TextConditioned3DEnv.agent_positions e' !! i = Some p ->
    (i ∈ l -> Q p) /\
    (i ∉ l -> TextConditioned3DEnv.agent_positions e !! i = Some p).
Proof.
  revert e. induction l as [|x l IH]; intros e HQ H; simpl in H.
  { unfold ret in H. simplify_eq.
    intros i p Hp. split; [by intros ?%elem_of_nil|done]. }
  apply bind_returns in H as ([] & e1 & Hx & Hl).
  unfold bind, gets, modify, raise in Hx.
  destruct (spawn _ _ _) as [ex|q] eqn:Hq; [done|].
  destruct (decide _) as [Hlt|]; [|done]. simplify_eq.
  pose proof (fun H => IH _ H Hl) as Hl'. simpl in Hl'. specialize (Hl' HQ).
  clear Hl. intros i p Hp. pose proof Hl' as Hl. destruct (Hl i p Hp) as [Hin Hout]. split.
  - intros [->|Hi]%elem_of_cons.
    + destruct (decide (x ∈ l)) as [Hxl|Hxl]; [by apply Hin|].
      specialize (Hout Hxl). rewrite list_lookup_insert_eq in Hout by done.
      simplify_eq. by eapply HQ.
    + by apply Hin.
  - intros Hi. apply not_elem_of_cons in Hi as [Hix Hil].
    specialize (Hout Hil). by rewrite list_lookup_insert_ne in Hout.
Qed.

Lemma swarm_spawn_loop_all (Q : xyz -> Prop) rng l e e' :
  (forall a b p, spawn (SwarmConstructionEnv.grid_size e) a b = inr p -> Q p) ->
  for_each l (fun i =>
    n <~ gets SwarmConstructionEnv.grid_size ;;
    p <~ (fun e => (spawn n (fst (rng i)) (snd (rng i)), e)) ;;
    ps <~ gets SwarmConstructionEnv.agent_positions ;;
    if decide (i < length ps)%nat
    then modify (SwarmConstructionEnv.with_positions (<[i := p]> ps))
    else raise IndexError) e = (inr tt, e') ->
  (SwarmConstructionEnv.grid_size e' = SwarmConstructionEnv.grid_size e /\
   SwarmConstructionEnv.num_agents e' = SwarmConstructionEnv.num_agents e /\
   length (SwarmConstructionEnv.agent_positions e')
   = length (SwarmConstructionEnv.agent_positions e)) /\
  forall i p, SwarmConstructionEnv.agent_positions e' !! i = Some p ->
    (i ∈ l -> Q p) /\
    (i ∉ l -> SwarmConstructionEnv.agent_positions e !! i = Some p).
Proof.
  revert e. induction l as [|x l IH]; intros e HQ H; simpl in H.
  { unfold ret in H. simplify_eq. split; [done|].
    intros i p Hp. split; [by intros ?%elem_of_nil|done]. }
  apply bind_returns in H as ([] & e1 & Hx & Hl).
  unfold bind, gets, modify, raise in Hx.
  destruct (spawn _ _ _) as [ex|q] eqn:Hq; [done|].
  destruct (decide _) as [Hlt|]; [|done]. simplify_eq.
  pose proof (fun H => IH _ H Hl) as Hl'. simpl in Hl'. specialize (Hl' HQ). clear Hl.
  destruct Hl' as [(Hn & Hna & Hlen) Hl]. rewrite length_insert in Hlen.
  split; [done|].
  intros i p Hp. destruct (Hl i p Hp) as [Hin Hout]. split.
  - intros [->|Hi]%elem_of_cons.
    + destruct (decide (x ∈ l)) as [Hxl|Hxl]; [by apply Hin|].
      specialize (Hout Hxl). rewrite list_lookup_insert_eq in Hout by done.
      simplify_eq. by eapply HQ.
    + by apply Hin.
  - intros Hi. apply not_elem_of_cons in Hi as [Hix Hil].
    specialize (Hout Hil). by rewrite list_lookup_insert_ne in Hout.
Qed.

Lemma text_reset_places (Q : Z -> xyz -> Prop) text voxels rng e o e' :
  (forall n a b p, spawn n a b = inr p -> Q n p) ->
  text_wf e ->
  TextConditioned3DEnv.reset text voxels rng e = (inr o, e') ->
  Forall (Q (TextConditioned3DEnv.grid_size e'))
         (TextConditioned3DEnv.agent_positions e') /\
  TextConditioned3DEnv.agent_has_block e'
  = replicate (TextConditioned3DEnv.num_agents e') true.
Proof.
  intros HQ He H.
  pose proof (TextFacts.reset_keeps_wf text voxels rng e He) as Hwf.
  rewrite H in Hwf. simpl in Hwf.
  unfold TextConditioned3DEnv.reset in H.
  apply bind_returns in H as ([] & e1 & _ & H).
  apply bind_returns in H as ([] & e2 & _ & H).
  apply bind_returns in H as ([] & e3 & _ & H).
  apply bind_returns in H as (na & e4 & Hna & H).
  unfold gets in Hna. simplify_eq.
  apply bind_returns in H as ([] & e5 & Hsp & H).
  apply bind_returns in H as ([] & e6 & Hhb & H).
  unfold modify in Hhb. simplify_eq.
  pose proof (TextFacts.text_pure_get_observations
                (TextConditioned3DEnv.with_has_block
                   (replicate (TextConditioned3DEnv.num_agents e4) true) e5)) as Hp.
  rewrite H in Hp. simpl in Hp. subst e'.
  pose proof Hsp as Hsp'.
  apply TextFacts.spawn_agents_places in Hsp' as (Hn & Hna & Hlen & _).
  pose proof (text_spawn_loop_all (Q (TextConditioned3DEnv.grid_size e4)) rng
                (seq 0 (TextConditioned3DEnv.num_agents e4)) e4 e5
                (fun a b p => HQ _ a b p) Hsp) as Hall.
  clear Hsp. rename Hall into Hsp.
  simpl. rewrite Hn, Hna. split; [|done].
  apply Forall_lookup. intros i p Hi. apply (Hsp i p Hi).
  apply elem_of_seq. split; [lia|]. simpl.
  apply lookup_lt_Some in Hi.
  destruct Hwf as [_ _ _ _ _ _ _ Hlp _]. simpl in Hlp. lia.
Qed.

Lemma swarm_reset_places (Q : Z -> xyz -> Prop) rng trng e o e' :
  (forall n a b p, spawn n a b = inr p -> Q n p) ->
  swarm_wf e ->
  SwarmConstructionEnv.reset rng trng e = (inr o, e') ->
  Forall (Q (SwarmConstructionEnv.grid_size e'))
         (SwarmConstructionEnv.agent_positions e') /\
  SwarmConstructionEnv.agent_has_block e'
  = replicate (SwarmConstructionEnv.num_agents e') true.
Proof.
  intros HQ He H.
  unfold SwarmConstructionEnv.reset in H.
  apply bind_returns in H as (n & e1 & Hn & H).
  unfold gets in Hn. simplify_eq.
  apply bind_returns in H as (zeros & e2 & Hz & H).
  destruct (np_zeros2 _ _ _) as [ex|z] eqn:Ez; [done|]. simplify_eq.
  apply bind_returns in H as ([] & e3 & Hg & H).
  unfold modify in Hg. simplify_eq.
  apply bind_returns in H as ([] & e4 & Hc & H).
  unfold modify in Hc. simplify_eq.
  apply bind_returns in H as (na & e5 & Hna & H).
  unfold gets in Hna. simplify_eq.
  apply bind_returns in H as ([] & e6 & Hsp & H).
  apply bind_returns in H as ([] & e7 & Hhb & H).
  unfold modify in Hhb. simplify_eq.
  apply bind_returns in H as (t & e8 & Ht & H).
  destruct (SwarmConstructionEnv._make_random_target _ _) as [ex|t'] eqn:Et; [done|].
  simplify_eq.
  apply bind_returns in H as ([] & e9 & Hm & H).
  unfold modify in Hm. simplify_eq.
  match type of H with ?m ?s = _ =>
    pose proof (SwarmFacts.swarm_pure_get_observations s) as Hp end.
  rewrite H in Hp. simpl in Hp. subst e'.
  match type of Hsp with SwarmConstructionEnv.spawn_agents _ ?na ?s = (_, ?s') =>
    pose proof (swarm_spawn_loop_all (Q (SwarmConstructionEnv.grid_size s)) rng
                  (seq 0 na) s s' (fun a b p => HQ _ a b p) Hsp) as Hall end.
  clear Hsp. rename Hall into Hsp.
  destruct Hsp as [(Hn & Hna & Hlen) Hsp]. simpl in *.
  rewrite Hn, Hna. split; [|done].
  apply Forall_lookup. intros i p Hi. apply (Hsp i p Hi).
  apply elem_of_seq. split; [lia|]. simpl.
  apply lookup_lt_Some in Hi.
  destruct He as [_ _ _ Hlp _]. lia.
Qed.

(** X7.  Where an episode starts.  After a call of [reset] that returns,
    every agent stands at ground level ([y = 0]) on one of the four edges
    of the grid and holds a block, in both environments. *)
Theorem reset_spawns_on_ground_edges :
  (forall e text voxels rng o e',
     text_wf e ->
     TextConditioned3DEnv.reset text voxels rng e = (inr o, e') ->
     Forall (on_ground_edge (TextConditioned3DEnv.grid_size e'))
            (TextConditioned3DEnv.agent_positions e') /\
     TextConditioned3DEnv.agent_has_block e'
     = replicate (TextConditioned3DEnv.num_agents e') true) /\
  (forall e rng trng o e',
     swarm_wf e ->
     SwarmConstructionEnv.reset rng trng e = (inr o, e') ->
     Forall (on_ground_edge (SwarmConstructionEnv.grid_size e'))
            (SwarmConstructionEnv.agent_positions e') /\
     SwarmConstructionEnv.agent_has_block e'
     = replicate (SwarmConstructionEnv.num_agents e') true).
Proof.
  split.
  - intros e text voxels rng o e' He H.
    eapply (text_reset_places on_ground_edge); [|exact He|exact H].
    intros n a b p. apply spawn_on_ground_edge.
  - intros e rng trng o e' He H.
    eapply (swarm_reset_places on_ground_edge); [|exact He|exact H].
    intros n a b p. apply spawn_on_ground_edge.
Qed.

Lemma swarm_started_reset_returns :
  exists o e',
    SwarmConstructionEnv.reset (fun _ => (1, 3)) (fun _ => 1) swarm_started
    = (inr o, e').
Proof. vm_compute. eexists _, _. reflexivity. Qed.

Lemma reset_spawns_on_ground_edges_witness :
  Forall (on_ground_edge (TextConditioned3DEnv.grid_size text_started))
         (TextConditioned3DEnv.agent_positions text_started) /\
  exists o e',
    SwarmConstructionEnv.reset (fun _ => (1, 3)) (fun _ => 1) swarm_started
    = (inr o, e') /\
    Forall (on_ground_edge (SwarmConstructionEnv.grid_size e'))
           (SwarmConstructionEnv.agent_positions e').
Proof.
  split.
  - destruct text_started_returns as [o Ho].
    exact (proj1 (proj1 reset_spawns_on_ground_edges
                    text_fresh None None (fun _ => (0, 0)) o text_started
                    text_fresh_wf Ho)).
  - destruct swarm_started_reset_returns as (o & e' & Ho).
    exists o, e'. split; [exact Ho|].
    exact (proj1 (proj2 reset_spawns_on_ground_edges
                    swarm_started (fun _ => (1, 3)) (fun _ => 1) o e'
                    (proj1 (proj1 swarm_started_good)) Ho)).
Defined.

(** ** [reset] with a target *)

Lemma text_reset_with_target_run e text voxels rng half :
  text_wf e -> 0 < TextConditioned3DEnv.grid_size e ->
  TextConditioned3DEnv.local_size e = 2 * half + 1 -> 0 <= half < 1000 ->
  TextConditioned3DEnv.truthy_text (Some text)
  && TextConditioned3DEnv.truthy_list (Some voxels) = true ->
  exists o ps sc,
    length ps = TextConditioned3DEnv.num_agents e /\
    TextConditioned3DEnv.reset (Some text) (Some voxels) rng e
    = (inr o,
       TextConditioned3DEnv.with_has_block
         (replicate (TextConditioned3DEnv.num_agents e) true)
         (TextConditioned3DEnv.with_positions ps
            (TextConditioned3DEnv.with_scent sc
               (TextConditioned3DEnv.with_target
                  (fold_left (paint_voxel (TextConditioned3DEnv.grid_size e)) voxels
                             (fill3 0 (TextConditioned3DEnv.target e)))
                  (TextConditioned3DEnv.with_text text
                     (TextConditioned3DEnv.with_step_count 0
                        (TextConditioned3DEnv.with_grid
                           (fill3 0 (TextConditioned3DEnv.grid e)) e))))))).
Proof.
  intros He Hn Hl Hh Hyes. unfold TextConditioned3DEnv.reset. rewrite Hyes.
  unfold bind at 1. unfold modify at 1.
  unfold bind at 1. unfold modify at 1.
  set (e1 := TextConditioned3DEnv.with_step_count 0
               (TextConditioned3DEnv.with_grid
                  (fill3 0 (TextConditioned3DEnv.grid e)) e)).
  assert (He1 : text_wf e1).
  { destruct He as [? ? ? ? ? ? ? ? ?]. constructor; simpl; try done.
    - by apply fill3_shape.
    - apply all_cells_fill3. by left. }
  destruct (TextLoad.load_training_pair_run text voxels e1 He1 Hn) as [sc Hload].
  pose proof (TextFacts.load_training_pair_keeps_wf text voxels e1 He1) as He2.
  simpl default. unfold bind at 1. rewrite Hload in He2 |- *. simpl in He2.
  cbn [TextConditioned3DEnv.target TextConditioned3DEnv.grid_size e1
       TextConditioned3DEnv.with_step_count TextConditioned3DEnv.with_grid] in *.
  set (e2 := TextConditioned3DEnv.with_scent sc _) in *.
  unfold bind at 1. unfold gets at 1.
  destruct (TextReset.spawn_loop_returns rng
              (seq 0 (TextConditioned3DEnv.num_agents e2)) e2) as (ps & Hlen & Hps).
  { done. }
  { apply Forall_forall. intros i Hi. apply elem_of_seq in Hi.
    destruct He2 as [_ _ _ _ _ _ _ Hlp _]. rewrite Hlp. lia. }
  unfold TextConditioned3DEnv.spawn_agents. unfold bind at 1. rewrite Hps.
  unfold bind at 1. unfold modify at 1.
  set (e3 := TextConditioned3DEnv.with_has_block _ _).
  destruct (TextReset.get_observations_returns e3 half) as [o Ho].
  { destruct He2 as [? ? ? ? ? ? ? Hlp ?]. constructor; simpl; try done.
    - rewrite Hlen. exact Hlp.
    - apply length_replicate. }
  { done. } { done. }
  exists o, ps, sc. split.
  - rewrite Hlen. by destruct He2.
  - rewrite Ho. done.
Qed.

(** X8.  [reset] with a target.  On a well-formed environment with a
    non-empty grid and an odd observation window, [reset] called with a
    non-empty text and a non-empty voxel list returns the observations;
    it empties the grid, zeroes the step counter, stores the text, and
    replaces the target: a cell is 1 exactly when its coordinates occur in
    the voxel list. *)
Theorem reset_with_target_loads_it e text voxels rng half :
  text_wf e -> 0 < TextConditioned3DEnv.grid_size e ->
  TextConditioned3DEnv.local_size e = 2 * half + 1 -> 0 <= half < 1000 ->
  text <> EmptyString -> voxels <> [] ->
  let r := TextConditioned3DEnv.reset (Some text) (Some voxels) rng e in
  let n := Z.to_nat (TextConditioned3DEnv.grid_size e) in
  (exists o, fst r = inr o) /\
  (forall x y z, (x < n)%nat -> (y < n)%nat -> (z < n)%nat ->
     cell (TextConditioned3DEnv.target (snd r)) x y z
     = Some (if decide (voxel_at x y z ∈ voxels) then 1 else 0)) /\
  TextConditioned3DEnv.current_text (snd r) = text /\
  TextConditioned3DEnv.grid (snd r) = fill3 0 (TextConditioned3DEnv.grid e) /\
  TextConditioned3DEnv.step_count (snd r) = 0.
Proof.
  intros He Hn Hl Hh Htext Hvox r n.
  destruct (text_reset_with_target_run e text voxels rng half)
    as (o & ps & sc & Hlen & Hr); [done..| |].
  { destruct text; [done|]. destruct voxels; done. }
  subst r. rewrite Hr. simpl. split; [by exists o|]. split; [|done].
  intros x y z Hx Hy Hz.
  pose proof He as [_ _ _ Ht _ _ _ _ _].
  set (t := fold_left _ _ _).
  assert (H1 : cell t x y z = Some 1 <-> voxel_at x y z ∈ voxels).
  { subst t. rewrite fold_paint_cell; [|lia|by apply fill3_shape|done..].
    split; [|by right]. intros [H|H]; [|done]. exfalso.
    by apply (all_cells_fill3 (fun v => v = 0) (TextConditioned3DEnv.target e) 0
                eq_refl x y z 1) in H. }
  destruct (cell_is_Some t n x y z) as [c Hc]; [|done..|].
  { apply fold_paint_shape. by apply fill3_shape. }
  pose proof (fold_paint_binary (TextConditioned3DEnv.grid_size e) voxels
                (fill3 0 (TextConditioned3DEnv.target e))
                (all_cells_fill3 _ _ 0 (or_introl eq_refl)) x y z c Hc) as Hb.
  rewrite Hc in H1 |- *. case_decide as Hin.
  - f_equal. by apply H1 in Hin; simplify_eq.
  - destruct Hb as [-> | ->]; [done|]. exfalso. by apply Hin, H1.
Qed.

Lemma reset_with_target_loads_it_witness :
  (exists o, fst (TextConditioned3DEnv.reset (Some "tower"%string)
                    (Some [Voxel 2 0 2; Voxel 2 1 2; Voxel 9 0 0])
                    (fun _ => (1, 3)) text_fresh) = inr o) /\
  TextConditioned3DEnv.current_text
    (snd (TextConditioned3DEnv.reset (Some "tower"%string)
            (Some [Voxel 2 0 2; Voxel 2 1 2; Voxel 9 0 0])
            (fun _ => (1, 3)) text_fresh)) = "tower"%string.
Proof.
  assert (Hn : 0 < TextConditioned3DEnv.grid_size text_fresh)
    by (rewrite text_fresh_grid_size; lia).
  assert (Hl : TextConditioned3DEnv.local_size text_fresh = 2 * 1 + 1)
    by reflexivity.
  assert (Hh : 0 <= 1 < 1000) by lia.
  assert (Ht : "tower"%string <> EmptyString) by discriminate.
  assert (Hv : [Voxel 2 0 2; Voxel 2 1 2; Voxel 9 0 0] <> []) by discriminate.
  pose proof (reset_with_target_loads_it text_fresh "tower"
                [Voxel 2 0 2; Voxel 2 1 2; Voxel 9 0 0] (fun _ => (1, 3)) 1
                text_fresh_wf Hn Hl Hh Ht Hv) as H.
  cbv zeta in H. destruct H as (H1 & _ & H2 & _).
  split; [exact H1|exact H2].
Defined.

(** ** What an agent observes *)

Lemma window_shape {A} (zero : A) a n pos half L :
  shape3 L (window zero a n pos half L).
Proof. apply tab3_shape. Qed.

Lemma window_cell {A} (zero : A) a n pos half L x y z :
  (x < L)%nat -> (y < L)%nat -> (z < L)%nat ->
  cell (window zero a n pos half L) x y z
  = Some (padded_read zero a n (c0 pos + (Z.of_nat x - half))
                               (c1 pos + (Z.of_nat y - half))
                               (c2 pos + (Z.of_nat z - half))).
Proof. intros. unfold window. by rewrite cell_tab3. Qed.

Lemma padded_read_inside {A} (zero : A) a n x y z :
  0 <= n -> shape3 (Z.to_nat n) a ->
  0 <= x < n -> 0 <= y < n -> 0 <= z < n ->
  Some (padded_read zero a n x y z)
  = cell a (Z.to_nat x) (Z.to_nat y) (Z.to_nat z).
Proof.
  intros Hn Ha Hx Hy Hz. unfold padded_read.
  assert ((0 <=? x) && (x <? n) && (0 <=? y) && (y <? n)
          && (0 <=? z) && (z <? n) = true) as ->.
  { repeat (apply andb_true_iff; split); lia. }
  rewrite (get3_cell a (Z.to_nat n)) by (done || lia).
  destruct (cell_is_Some a (Z.to_nat n) (Z.to_nat x) (Z.to_nat y) (Z.to_nat z))
    as [v Hv]; [done|lia..|].
  by rewrite Hv.
Qed.

Lemma padded_read_outside {A} (zero : A) a n x y z :
  ~ (0 <= x < n /\ 0 <= y < n /\ 0 <= z < n) ->
  padded_read zero a n x y z = zero.
Proof.
  intros Hout. unfold padded_read. case_match eqn:G; [|done].
  TextFacts.guards. exfalso. apply Hout. lia.
Qed.

(** X9.  [_get_local_obs] with an odd window never raises and reads only
    the neighbourhood of the agent: it returns two [(L, L, L)] patches whose
    entry [(a, b, c)] is the grid cell, respectively the scent value, at
    the agent's position shifted by [(a, b, c) - half] when that cell lies
    inside the grid, and 0 when it lies outside. *)
Theorem local_obs_is_zero_padded_window e i pos half :
  text_wf e ->
  TextConditioned3DEnv.agent_positions e !! i = Some pos ->
  TextConditioned3DEnv.local_size e = 2 * half + 1 -> 0 <= half < 1000 ->
  let L := Z.to_nat (TextConditioned3DEnv.local_size e) in
  let n := TextConditioned3DEnv.grid_size e in
  exists lg ls,
    TextConditioned3DEnv._get_local_obs i e = (inr (lg, ls), e) /\
    shape3 L lg /\ shape3 L ls /\
    forall a b c, (a < L)%nat -> (b < L)%nat -> (c < L)%nat ->
      let w := XYZ (c0 pos + (Z.of_nat a - half)) (c1 pos + (Z.of_nat b - half))
                   (c2 pos + (Z.of_nat c - half)) in
      (in_cube n w ->
         cell lg a b c
         = cell (TextConditioned3DEnv.grid e)
                (Z.to_nat (c0 w)) (Z.to_nat (c1 w)) (Z.to_nat (c2 w)) /\
         cell ls a b c
         = cell (TextConditioned3DEnv.scent_field e)
                (Z.to_nat (c0 w)) (Z.to_nat (c1 w)) (Z.to_nat (c2 w))) /\
      (~ in_cube n w -> cell lg a b c = Some 0 /\ cell ls a b c = Some 0%R).
Proof.
  intros He Hp Hl Hh L n.
  rewrite (TextLocal.get_local_obs_spec e i pos half) by done.
  eexists _, _. split; [done|].
  split; [apply window_shape|]. split; [apply window_shape|].
  intros a b c Ha Hb Hc w. fold L. fold n.
  rewrite !window_cell by done.
  pose proof He as [Hs _ Hg _ _ _ Hsc _ _]. fold n in Hs, Hg, Hsc.
  split.
  - intros (H0 & H1 & H2). simpl in H0, H1, H2. simpl.
    split; apply padded_read_inside; (done || lia).
  - intros Hout. rewrite !padded_read_outside; [done|exact Hout|exact Hout].
Qed.

Lemma local_obs_is_zero_padded_window_witness :
  exists lg ls,
    TextConditioned3DEnv._get_local_obs 0 text_started
    = (inr (lg, ls), text_started) /\
    shape3 (Z.to_nat (TextConditioned3DEnv.local_size text_started)) lg /\
    shape3 (Z.to_nat (TextConditioned3DEnv.local_size text_started)) ls.
Proof.
  assert (Hp : TextConditioned3DEnv.agent_positions text_started !! 0%nat
               = Some (XYZ 0 0 0)) by (vm_compute; reflexivity).
  assert (Hl : TextConditioned3DEnv.local_size text_started = 2 * 1 + 1)
    by exact text_started_local_size.
  assert (Hh : 0 <= 1 < 1000) by lia.
  pose proof (local_obs_is_zero_padded_window text_started 0 (XYZ 0 0 0) 1
                text_started_wf Hp Hl Hh) as H.
  cbv zeta in H. destruct H as (lg & ls & H1 & H2 & H3 & _).
  exists lg, ls. split; [exact H1|]. split; [exact H2|exact H3].
Defined.

(** X10.  Local observations are position- and size-independent.  Two
    agents, possibly in environments of different grid sizes, whose
    zero-padded surroundings agree within the observation window receive
    the same local observation. *)
Theorem local_obs_depends_on_neighbourhood_only e1 e2 i1 i2 p1 p2 half :
  text_wf e1 -> text_wf e2 ->
  TextConditioned3DEnv.agent_positions e1 !! i1 = Some p1 ->
  TextConditioned3DEnv.agent_positions e2 !! i2 = Some p2 ->
  TextConditioned3DEnv.local_size e1 = 2 * half + 1 ->
  TextConditioned3DEnv.local_size e2 = 2 * half + 1 ->
  0 <= half < 1000 ->
  (forall dx dy dz,
     - half <= dx <= half -> - half <= dy <= half -> - half <= dz <= half ->
     padded_read 0 (TextConditioned3DEnv.grid e1) (TextConditioned3DEnv.grid_size e1)
                 (c0 p1 + dx) (c1 p1 + dy) (c2 p1 + dz)
     = padded_read 0 (TextConditioned3DEnv.grid e2) (TextConditioned3DEnv.grid_size e2)
                   (c0 p2 + dx) (c1 p2 + dy) (c2 p2 + dz) /\
     padded_read 0%R (TextConditioned3DEnv.scent_field e1)
                 (TextConditioned3DEnv.grid_size e1)
                 (c0 p1 + dx) (c1 p1 + dy) (c2 p1 + dz)
     = padded_read 0%R (TextConditioned3DEnv.scent_field e2)
                   (TextConditioned3DEnv.grid_size e2)
                   (c0 p2 + dx) (c1 p2 + dy) (c2 p2 + dz)) ->
  fst (TextConditioned3DEnv._get_local_obs i1 e1)
  = fst (TextConditioned3DEnv._get_local_obs i2 e2).
Proof.
  intros He1 He2 Hp1 Hp2 Hl1 Hl2 Hh Hsame.
  rewrite (TextLocal.get_local_obs_spec e1 i1 p1 half) by done.
  rewrite (TextLocal.get_local_obs_spec e2 i2 p2 half) by done.
  simpl. rewrite Hl1, Hl2. f_equal. f_equal.
  - apply (arr3_ext (Z.to_nat (2 * half + 1))); [apply window_shape..|].
    intros x y z Hx Hy Hz. rewrite !window_cell by done. f_equal.
    apply Hsame; lia.
  - apply (arr3_ext (Z.to_nat (2 * half + 1))); [apply window_shape..|].
    intros x y z Hx Hy Hz. rewrite !window_cell by done. f_equal.
    apply Hsame; lia.
Qed.

Lemma local_obs_depends_on_neighbourhood_only_witness :
  fst (TextConditioned3DEnv._get_local_obs 0 text_started)
  = fst (TextConditioned3DEnv._get_local_obs 1 text_started).
Proof.
  assert (Hp0 : TextConditioned3DEnv.agent_positions text_started !! 0%nat
                = Some (XYZ 0 0 0)) by (vm_compute; reflexivity).
  assert (Hp1 : TextConditioned3DEnv.agent_positions text_started !! 1%nat
                = Some (XYZ 0 0 0)) by (vm_compute; reflexivity).
  assert (Hh : 0 <= 1 < 1000) by lia.
  apply (local_obs_depends_on_neighbourhood_only text_started text_started
           0 1 (XYZ 0 0 0) (XYZ 0 0 0) 1 text_started_wf text_started_wf
           Hp0 Hp1 text_started_local_size text_started_local_size Hh).
  intros dx dy dz _ _ _. split; reflexivity.
Defined.

(** The observation vectors of the text-conditioned environment. *)
Lemma text_observation_lengths e half o e' :
  text_wf e ->
  TextConditioned3DEnv.local_size e = 2 * half + 1 -> 0 <= half < 1000 ->
  TextConditioned3DEnv._get_observations e = (inr o, e') ->
  let L := Z.to_nat (TextConditioned3DEnv.local_size e) in
  length o = TextConditioned3DEnv.num_agents e /\
  Forall (fun v => length v = (3 + L * L * L + L * L * L + 1)%nat) o.
Proof.
  intros He Hl Hh H L. unfold TextConditioned3DEnv._get_observations in H.
  unfold bind at 1, gets at 1 in H. split.
  { apply for_collect_length in H. by rewrite length_seq in H. }
  eapply (for_collect_Forall (fun s => s = e)) in H; [exact H| |done].
  intros i s a s' _ -> Hb.
  unfold bind at 1 in Hb.
  destruct (TextConditioned3DEnv.agent_positions e !! i) as [pos|] eqn:Hpos.
  2:{ exfalso. revert Hb. unfold TextConditioned3DEnv._get_local_obs.
      unfold bind at 1, TextConditioned3DEnv.position_of.
      rewrite Hpos. done. }
  rewrite (TextLocal.get_local_obs_spec e i pos half) in Hb by done.
  unfold bind, TextConditioned3DEnv.position_of, TextConditioned3DEnv.has_block_of,
    lift, ret, gets, raise in Hb.
  rewrite Hpos in Hb.
  destruct (TextConditioned3DEnv.agent_has_block e !! i) as [hb|]; [|done].
  injection Hb as <- <-. split; [|done].
  unfold TextConditioned3DEnv.local_part. cbn [fst snd length app].
  rewrite !length_app, length_map.
  rewrite !(length_flatten3 L) by apply window_shape.
  simpl. lia.
Qed.

(** X11.  The observation vector.  Every vector [step] returns in the
    text-conditioned environment has [3 + L^3 + L^3 + 1] entries for an
    observation window of side [L] (58 for the default [L = 3]), and there
    is one vector per agent. *)
Theorem text_observation_has_58_features e actions out half :
  text_wf e ->
  TextConditioned3DEnv.local_size e = 2 * half + 1 -> 0 <= half < 1000 ->
  fst (TextConditioned3DEnv.step actions e) = inr out ->
  let L := Z.to_nat (TextConditioned3DEnv.local_size e) in
  length (TextConditioned3DEnv.obs out) = TextConditioned3DEnv.num_agents e /\
  Forall (fun v => length v = (3 + L * L * L + L * L * L + 1)%nat)
         (TextConditioned3DEnv.obs out) /\
  (TextConditioned3DEnv.local_size e = 3 ->
   Forall (fun v => length v = 58%nat) (TextConditioned3DEnv.obs out)).
Proof.
  intros He Hl Hh Hout L.
  pose proof (TextFacts.step_keeps_wf actions e He) as He'.
  destruct (TextConditioned3DEnv.step actions e) as [r e'] eqn:Hs.
  simpl in Hout, He'. subst r.
  assert (Hf : TextConditioned3DEnv.local_size e' = TextConditioned3DEnv.local_size e
               /\ TextConditioned3DEnv.num_agents e' = TextConditioned3DEnv.num_agents e).
  { pose proof (TextFacts.text_step_keeps
                  (fun s => TextConditioned3DEnv.local_size s
                            = TextConditioned3DEnv.local_size e /\
                            TextConditioned3DEnv.num_agents s
                            = TextConditioned3DEnv.num_agents e) actions) as Hk.
    specialize (Hk (fun s Hs => Hs)).
    assert (Ha : forall i a, keeps (fun s => TextConditioned3DEnv.local_size s
                                     = TextConditioned3DEnv.local_size e /\
                                     TextConditioned3DEnv.num_agents s
                                     = TextConditioned3DEnv.num_agents e)
                               (TextConditioned3DEnv.act i a)).
    { intros i a s [H1 H2].
      pose proof (TextFacts.act_keeps_fields i a s) as Hfl. simpl in Hfl.
      destruct Hfl as (-> & _ & -> & _). done. }
    specialize (Hk Ha e (conj eq_refl eq_refl)). by rewrite Hs in Hk. }
  destruct Hf as [Hl' Hn'].
  unfold TextConditioned3DEnv.step in Hs.
  apply bind_returns in Hs as ([] & e1 & _ & Hs).
  apply bind_returns in Hs as (na & e2 & _ & Hs).
  apply bind_returns in Hs as ([] & e3 & _ & Hs).
  apply bind_returns in Hs as (rw & e4 & Hrw & Hs).
  apply bind_returns in Hs as (d & e5 & Hd & Hs).
  apply bind_returns in Hs as (ms & e6 & Hms & Hs).
  apply bind_returns in Hs as (o & e7 & Ho & Hs).
  unfold gets in Hd, Hms. unfold ret in Hs. simplify_eq.
  pose proof (TextFacts.pure_calculate_rewards e3) as Hp.
  rewrite Hrw in Hp. simpl in Hp. subst e6.
  pose proof (TextFacts.text_pure_get_observations e3) as Hp.
  rewrite Ho in Hp. simpl in Hp. subst e'.
  destruct (text_observation_lengths e3 half o e3) as [H1 H2];
    [done|by rewrite Hl'|done|done|].
  simpl. rewrite Hl', Hn' in *. split; [done|]. split; [done|].
  intros H3. rewrite H3 in H2. exact H2.
Qed.

Lemma text_observation_has_58_features_witness :
  exists out,
    fst (TextConditioned3DEnv.step [6; 4] text_started) = inr out /\
    Forall (fun v => length v = 58%nat) (TextConditioned3DEnv.obs out).
Proof.
  destruct (TextTotal.step_returns_when_complete [6; 4] text_started 1)
    as (out & e' & Hs & _).
  - exact text_started_wf.
  - exact (proj2 (TextFacts.reachable_wf_in_bounds _ text_started_reachable)).
  - exact text_started_local_size.
  - lia.
  - rewrite text_started_num_agents. simpl. lia.
  - exists out.
    assert (Hout : fst (TextConditioned3DEnv.step [6; 4] text_started) = inr out)
      by (by rewrite Hs).
    assert (Hh : 0 <= 1 < 1000) by lia.
    split; [exact Hout|].
    exact (proj2 (proj2 (text_observation_has_58_features text_started [6; 4] out 1
                           text_started_wf text_started_local_size Hh Hout))
             text_started_local_size).
Defined.

(** * The global environment never builds anything *)

Module SwarmIdle.
Import SwarmConstructionEnv.

Lemma act_keeps_idle i action : keeps swarm_idle (act i action).
Proof.
  intros e (Hg & Hh & Hl). split; [|split].
  - destruct Hg as [H1 H2]. split.
    + by apply SwarmFacts.swarm_act_keeps_in_bounds.
    + by apply SwarmFacts.act_keeps_flat_grid.
  - destruct Hg as [_ Hf]. unfold swarm_flat_grid in Hf.
    unfold swarm_all_holding in *. unfold act. SwarmFacts.run_m; try done.
    all: try (rewrite Hf in *; done).
  - destruct Hg as [[Hwf Hin] Hf]. unfold swarm_flat_grid in Hf.
    unfold swarm_low in *. revert Hl.
    unfold act. SwarmFacts.run_m; try done; intros Hl.
    all: try (rewrite Hf in *; done).
    all: apply Forall_alter; [done|].
    all: intros p Hp Hc; simplify_eq; SwarmFacts.guards; simpl; try done.
    all: unfold swarm_in_bounds in Hin; rewrite Forall_lookup in Hin.
    all: try (rewrite wrap32_small; lia).
    all: specialize (Hin _ _ Hp); destruct Hin as (?&?&?).
    all: destruct Hwf as [? _ _ _ _].
    all: rewrite wrap32_small; lia.
Qed.

Lemma step_keeps_idle actions : keeps swarm_idle (step actions).
Proof.
  apply SwarmFacts.swarm_step_keeps.
  - intros e ([[[? ? ? ? ?] ?] ?] & ? & ?).
    split; [split; [split; [by constructor|done]|done]|done].
  - intros i a. apply act_keeps_idle.
Qed.

Lemma spawn_ground n a b p : spawn n a b = inr p -> c1 p = 0.
Proof. intros H. by apply spawn_on_ground_edge in H as [? _]. Qed.

Lemma reset_keeps_rest rng trng :
  keeps (fun e => swarm_all_holding e /\ swarm_low e) (reset rng trng).
Proof.
  unfold reset.
  apply keeps_bind; [apply keeps_gets|]. intros n.
  apply SwarmFacts.keeps_bind_const. intros zeros _.
  apply keeps_bind; [by apply keeps_modify|]. intros _.
  apply keeps_bind; [by apply keeps_modify|]. intros _.
  apply keeps_bind; [apply keeps_gets|]. intros na.
  apply keeps_bind.
  { apply keeps_for_each. intros i _ e [Hh Hl].
    SwarmFacts.run_m; try done. split; [done|].
    unfold swarm_low in *. simpl.
    apply Forall_insert; [done|]. apply spawn_ground in H. lia. }
  intros _. apply keeps_bind.
  { apply keeps_modify. intros e [Hh Hl]. split; [|done].
    unfold swarm_all_holding. simpl. by apply Forall_replicate. }
  intros _. apply SwarmFacts.keeps_bind_const. intros t _.
  apply keeps_bind; [by apply keeps_modify|]. intros _.
  apply keeps_pure, SwarmFacts.swarm_pure_get_observations.
Qed.

Lemma reset_keeps_idle rng trng : keeps swarm_idle (reset rng trng).
Proof.
  intros e (Hg & Hr). split.
  - by apply SwarmFacts.reset_keeps_good.
  - by apply reset_keeps_rest.
Qed.

(** The constructor ends with a call of [reset] that returned. *)
Lemma init_from_reset a n trng0 rng trng e :
  __init__ a n trng0 rng trng = inr e ->
  exists e0 o, swarm_wf e0 /\ reset rng trng e0 = (inr o, e).
Proof.
  unfold __init__, np_zeros3.
  destruct (np_zeros_ok [n; n; n] 4) eqn:Hok; [|done].
  destruct (_ && _); [|done].
  destruct (_make_random_target trng0 n) as [ex|t0] eqn:Ht0; [done|].
  match goal with |- context [reset rng trng ?x] => set (e0 := x) end.
  destruct (reset rng trng e0) as [[ex|o] e1] eqn:Hr; [done|].
  intros H. injection H as <-.
  unfold np_zeros_ok in Hok. simpl in Hok.
  apply andb_true_iff in Hok as [Hn Hb].
  apply andb_true_iff in Hn as [Hn _]. apply Z.leb_le in Hn.
  apply Z.ltb_lt in Hb.
  apply SwarmFacts.make_random_target_shape in Ht0.
  exists e0, o. split; [|done].
  constructor; simpl; try done.
  - split; [done|]. nia.
  - apply length_replicate.
  - apply length_replicate.
Qed.

Lemma reachable_idle e : swarm_reachable e -> swarm_idle e.
Proof.
  induction 1 as [a n trng0 rng trng e H|e rng trng r e' _ IH H
                 |e actions r e' _ IH H].
  - split; [by eapply SwarmFacts.init_good|].
    apply init_from_reset in H as (e0 & o & He0 & Hr).
    destruct (swarm_reset_places (fun _ p => c1 p = 0) rng trng e0 o e)
      as [Hp Hh]; [apply spawn_ground|done|done|].
    split.
    + unfold swarm_all_holding. rewrite Hh. by apply Forall_replicate.
    + unfold swarm_low. eapply Forall_impl; [exact Hp|]. simpl. lia.
  - apply (reset_keeps_idle rng trng) in IH. by rewrite H in IH.
  - apply (step_keeps_idle actions) in IH. by rewrite H in IH.
Qed.

End SwarmIdle.

(** X12.  Nothing is ever built in the global environment.  In every state
    an object of [SwarmConstructionEnv] can reach, the grid is the
    all-zero [(n, n)] array [reset] installed, every agent still holds its
    block, and no agent stands above height 1. *)
Theorem swarm_never_builds e :
  swarm_reachable e ->
  SwarmConstructionEnv.grid e
  = Arr2 (full2 (Z.to_nat (SwarmConstructionEnv.grid_size e)) 0) /\
  Forall (fun b => b = true) (SwarmConstructionEnv.agent_has_block e) /\
  Forall (fun p => 0 <= c1 p <= 1) (SwarmConstructionEnv.agent_positions e).
Proof.
  intros Hr. apply SwarmIdle.reachable_idle in Hr as ([[_ Hin] Hf] & Hh & Hl).
  split; [exact Hf|]. split; [exact Hh|].
  unfold swarm_low, swarm_in_bounds in *.
  rewrite Forall_lookup in Hin, Hl |- *. intros i p Hp.
  specialize (Hin i p Hp). specialize (Hl i p Hp).
  destruct Hin as (_ & ? & _). lia.
Qed.

Lemma swarm_never_builds_witness :
  SwarmConstructionEnv.grid (swarm_run [[4; 2]; [1; 7]] swarm_started)
  = Arr2 (full2 (Z.to_nat (SwarmConstructionEnv.grid_size
                             (swarm_run [[4; 2]; [1; 7]] swarm_started))) 0).
Proof.
  apply (swarm_never_builds (swarm_run [[4; 2]; [1; 7]] swarm_started)).
  unfold swarm_run. cbn [fold_left].
  eapply swarm_reach_step; [eapply swarm_reach_step; [exact swarm_started_reachable|]|];
    apply surjective_pairing.
Defined.

(** X13.  Climbing raises.  In a reachable state of the global
    environment, an agent that stands at height 1 (below the top layer)
    and moves up makes [step]'s agent loop raise [IndexError]: the check
    for a supporting block indexes the rank-2 grid with three indices.
    The state is left as it was. *)
Theorem swarm_climbing_raises e i p :
  swarm_reachable e ->
  SwarmConstructionEnv.agent_positions e !! i = Some p ->
  c1 p = 1 -> 2 < SwarmConstructionEnv.grid_size e ->
  SwarmConstructionEnv.act i 4 e = (inl IndexError, e).
Proof.
  intros Hr Hp H1 Hn. apply SwarmFacts.reachable_good in Hr as [_ Hf].
  unfold SwarmConstructionEnv.act, SwarmConstructionEnv.position_of,
    SwarmConstructionEnv.grid_at.
  unfold bind at 1. rewrite Hp. unfold lift at 1, ret at 1.
  unfold bind at 1, gets at 1. simpl.
  rewrite H1. simpl.
  destruct (1 <? SwarmConstructionEnv.grid_size e - 1) eqn:E; [|lia].
  unfold bind, lift, raise. rewrite Hf. done.
Qed.

Lemma swarm_climbing_raises_witness :
  SwarmConstructionEnv.act 0 4 (swarm_run [[4; 2]] swarm_started)
  = (inl IndexError, swarm_run [[4; 2]] swarm_started).
Proof.
  apply (swarm_climbing_raises (swarm_run [[4; 2]] swarm_started) 0
           (XYZ 0 1 0)).
  - unfold swarm_run. cbn [fold_left].
    eapply swarm_reach_step; [exact swarm_started_reachable|].
    apply surjective_pairing.
  - vm_compute. reflexivity.
  - reflexivity.
  - vm_compute. reflexivity.
Defined.

(** ** Scores and rewards of the global environment *)

Lemma np_sum_bool_all_false l :
  Forall (fun b => b = false) l -> np_sum_bool l = 0.
Proof.
  induction 1 as [|b l -> _ IH]; [done|].
  unfold np_sum_bool in *. simpl. lia.
Qed.

Lemma Forall_zip_with_l {A B C} (P : C -> Prop) (f : A -> B -> C) la lb :
  Forall (fun a => forall b, P (f a b)) la -> Forall P (zip_with f la lb).
Proof.
  intros H. revert lb. induction H as [|a la Ha _ IH]; intros [|b lb]; simpl;
    try constructor; auto.
Qed.

(** Against an all-zero rank-2 grid no cell counts, whatever the test. *)
Lemma broadcast_zero_grid (f : Z -> Z -> bool) n (t : vol) :
  (forall v, f 0 v = false) ->
  np_sum_bool (flatten3 (broadcast3 f (Arr2 (full2 n 0)) t)) = 0.
Proof.
  intros Hf. apply np_sum_bool_all_false. unfold flatten3. simpl.
  apply Forall_concat, Forall_concat.
  apply Forall_map, Forall_forall. intros plane _.
  apply Forall_zip_with_l. unfold full2.
  apply Forall_replicate. intros row.
  apply Forall_zip_with_l. apply Forall_replicate. exact Hf.
Qed.

Lemma swarm_idle_counts e :
  swarm_flat_grid e ->
  SwarmConstructionEnv.correct_placements e = 0 /\
  SwarmConstructionEnv.wrong_placements e = 0.
Proof.
  intros Hf. unfold SwarmConstructionEnv.correct_placements,
    SwarmConstructionEnv.wrong_placements. rewrite Hf.
  split; by apply broadcast_zero_grid.
Qed.

(** X14.  An episode of the global environment ends by the step limit
    only.  Whenever [step] returns in a reachable state, the match score
    it reports is 0 (or [nan], when the target is empty), every reward is
    -0.01 (or [nan]), and [done] is true exactly when the step counter has
    reached 150. *)
Theorem swarm_episode_ends_by_step_limit_only e actions out :
  swarm_reachable e ->
  fst (SwarmConstructionEnv.step actions e) = inr out ->
  SwarmConstructionEnv.done out
  = (150 <=? SwarmConstructionEnv.step_count
               (snd (SwarmConstructionEnv.step actions e))) /\
  (SwarmConstructionEnv.match_score out = NaN \/
   exists q, SwarmConstructionEnv.match_score out = Fin q /\ (q == 0)%Q) /\
  Forall (fun r => r = NaN \/ exists q, r = Fin q /\ (q == - (1 # 100))%Q)
         (SwarmConstructionEnv.rewards out).
Proof.
  intros Hr Hout.
  assert (Hr' : swarm_reachable (snd (SwarmConstructionEnv.step actions e))).
  { eapply swarm_reach_step; [exact Hr|]. apply surjective_pairing. }
  destruct (SwarmConstructionEnv.step actions e) as [r e'] eqn:Hs.
  simpl in Hout, Hr' |- *. subst r.
  destruct (SwarmEpisode.swarm_step_returns actions e out e' Hs)
    as (Hrw & Hms & Hd).
  apply SwarmFacts.reachable_good in Hr' as [[Hwf _] Hf].
  destruct (swarm_idle_counts e' Hf) as [Hc Hw].
  rewrite Hrw, Hms, Hd.
  unfold SwarmConstructionEnv._calculate_rewards,
    SwarmConstructionEnv.match_score_of. rewrite Hc, Hw.
  destruct Hwf as [_ -> _ _ _].
  unfold true_divide.
  destruct (SwarmConstructionEnv.total_target e' =? 0) eqn:E; simpl.
  - split; [by rewrite orb_false_r|]. split; [by left|].
    apply Forall_replicate. by left.
  - split; [|split].
    + rewrite orb_false_r. done.
    + right. eexists. split; [done|]. unfold Qdiv. apply Qmult_0_l.
    + apply Forall_replicate. right. eexists. split; [done|].
      unfold Qdiv. rewrite Qmult_0_l. done.
Qed.

Lemma swarm_started_step_returns :
  exists out, fst (SwarmConstructionEnv.step [2; 4] swarm_started) = inr out.
Proof. vm_compute. eexists. reflexivity. Qed.

Lemma swarm_episode_ends_by_step_limit_only_witness :
  exists out,
    fst (SwarmConstructionEnv.step [2; 4] swarm_started) = inr out /\
    SwarmConstructionEnv.done out
    = (150 <=? SwarmConstructionEnv.step_count
                 (snd (SwarmConstructionEnv.step [2; 4] swarm_started))).
Proof.
  destruct swarm_started_step_returns as [out Hout].
  exists out. split; [exact Hout|].
  exact (proj1 (swarm_episode_ends_by_step_limit_only swarm_started [2; 4] out
                  swarm_started_reachable Hout)).
Defined.

(** ** The observation vector of the global environment *)

Lemma length_flatten2 {A} (n : nat) (a : arr2 A) :
  shape2 n a -> length (flatten2 a) = (n * n)%nat.
Proof. intros [Hl Hr]. unfold flatten2. by apply length_concat_const. Qed.

Lemma swarm_observation_lengths e o e' :
  swarm_good e ->
  SwarmConstructionEnv._get_observations e = (inr o, e') ->
  let n := Z.to_nat (SwarmConstructionEnv.grid_size e) in
  length o = SwarmConstructionEnv.num_agents e /\
  Forall (fun v => length v = (3 + n * n + 1 + n * n * n)%nat) o.
Proof.
  intros [[Hwf _] Hf] H n. unfold SwarmConstructionEnv._get_observations in H.
  unfold bind at 1, gets at 1 in H. split.
  { apply for_collect_length in H. by rewrite length_seq in H. }
  eapply (for_collect_Forall (fun s => s = e)) in H; [exact H| |done].
  intros i s a s' _ -> Hb.
  unfold bind, SwarmConstructionEnv.position_of, SwarmConstructionEnv.has_block_of,
    lift, ret, gets, raise in Hb.
  destruct (SwarmConstructionEnv.agent_positions e !! i) as [pos|]; [|done].
  destruct (SwarmConstructionEnv.agent_has_block e !! i) as [hb|]; [|done].
  injection Hb as <- <-. split; [|done].
  unfold swarm_flat_grid in Hf. rewrite Hf.
  cbn [length app nd_flatten]. rewrite !length_app, !length_map.
  rewrite (length_flatten2 n) by apply full2_shape.
  destruct Hwf as [_ _ Ht _ _]. cbn [length]. rewrite length_map.
  rewrite (length_flatten3 n) by exact Ht.
  simpl. lia.
Qed.

(** X15.  The observation vector of the global environment.  Every vector
    [step] returns in a reachable state has [3 + n^2 + 1 + n^3] entries
    for a grid of side [n]: the grid part is the flattened [(n, n)] array.
    For the default [n = 8] that is 580 entries. *)
Theorem swarm_observation_has_580_features e actions out :
  swarm_reachable e ->
  fst (SwarmConstructionEnv.step actions e) = inr out ->
  let n := Z.to_nat (SwarmConstructionEnv.grid_size e) in
  length (SwarmConstructionEnv.obs out) = SwarmConstructionEnv.num_agents e /\
  Forall (fun v => length v = (3 + n * n + 1 + n * n * n)%nat)
         (SwarmConstructionEnv.obs out) /\
  (SwarmConstructionEnv.grid_size e = 8 ->
   Forall (fun v => length v = 580%nat) (SwarmConstructionEnv.obs out)).
Proof.
  intros Hr Hout n.
  assert (Hr' : swarm_reachable (snd (SwarmConstructionEnv.step actions e))).
  { eapply swarm_reach_step; [exact Hr|]. apply surjective_pairing. }
  assert (Hf : SwarmConstructionEnv.grid_size (snd (SwarmConstructionEnv.step actions e))
               = SwarmConstructionEnv.grid_size e /\
               SwarmConstructionEnv.num_agents (snd (SwarmConstructionEnv.step actions e))
               = SwarmConstructionEnv.num_agents e).
  { apply (SwarmFacts.swarm_step_keeps
             (fun s => SwarmConstructionEnv.grid_size s
                       = SwarmConstructionEnv.grid_size e /\
                       SwarmConstructionEnv.num_agents s
                       = SwarmConstructionEnv.num_agents e)); [done| |done].
    intros i a s [H1 H2]. unfold SwarmConstructionEnv.act.
    SwarmFacts.run_m; done. }
  destruct (SwarmConstructionEnv.step actions e) as [r e'] eqn:Hs.
  simpl in Hout, Hr', Hf. subst r. destruct Hf as [Hn Hna].
  apply SwarmFacts.reachable_good in Hr'.
  unfold SwarmConstructionEnv.step in Hs.
  apply bind_returns in Hs as ([] & e1 & _ & Hs).
  apply bind_returns in Hs as (na & e2 & _ & Hs).
  apply bind_returns in Hs as ([] & e3 & _ & Hs).
  apply bind_returns in Hs as (rw & e4 & Hrw & Hs).
  apply bind_returns in Hs as (d & e5 & Hd & Hs).
  apply bind_returns in Hs as (ms & e6 & Hms & Hs).
  apply bind_returns in Hs as (o & e7 & Ho & Hs).
  unfold gets in Hrw, Hd, Hms. unfold ret in Hs. simplify_eq.
  pose proof (SwarmFacts.swarm_pure_get_observations e6) as Hp.
  rewrite Ho in Hp. simpl in Hp. subst e'.
  destruct (swarm_observation_lengths e6 o e6 Hr' Ho) as [H1 H2].
  simpl. rewrite Hn, Hna in *. split; [done|]. split; [done|].
  intros H8. subst n. rewrite H8 in H2. exact H2.
Qed.

Lemma swarm_observation_has_580_features_witness :
  exists out,
    fst (SwarmConstructionEnv.step [2; 4] swarm_started) = inr out /\
    Forall (fun v => length v = 580%nat) (SwarmConstructionEnv.obs out).
Proof.
  destruct swarm_started_step_returns as [out Hout].
  exists out. split; [exact Hout|].
  apply (proj2 (proj2 (swarm_observation_has_580_features swarm_started [2; 4] out
                         swarm_started_reachable Hout))).
  vm_compute. reflexivity.
Defined.

(** * The target generator *)

Section Returns.
Context {S : Type}.

Lemma returns_ret {A} (P : S -> Prop) (a : A) (Q : A -> S -> Prop) :
  (forall s, P s -> Q a s) -> returns P (ret a) Q.
Proof. intros H s Hs. exists a, s. split; [done|]. by apply H. Qed.

Lemma returns_bind {A B} (P : S -> Prop) (m : M S A) (R : A -> S -> Prop)
    (k : A -> M S B) (Q : B -> S -> Prop) :
  returns P m R -> (forall a, returns (R a) (k a) Q) -> returns P (bind m k) Q.
Proof.
  intros Hm Hk s Hs. destruct (Hm s Hs) as (a & s1 & E1 & H1).
  destruct (Hk a s1 H1) as (b & s2 & E2 & H2).
  exists b, s2. unfold bind. rewrite E1. done.
Qed.

Lemma returns_weaken {A} (P P' : S -> Prop) (m : M S A) (Q Q' : A -> S -> Prop) :
  returns P' m Q' -> (forall s, P s -> P' s) -> (forall a s, Q' a s -> Q a s) ->
  returns P m Q.
Proof.
  intros Hm HP HQ s Hs. destruct (Hm s (HP s Hs)) as (a & s' & E & H).
  exists a, s'. split; [done|]. by apply HQ.
Qed.

Lemma returns_for_each {X} (I : S -> Prop) (l : list X) (body : X -> M S unit) :
  (forall x, x ∈ l -> returns I (body x) (fun _ => I)) ->
  returns I (for_each l body) (fun _ => I).
Proof.
  induction l as [|x l IH]; intros Hb; simpl.
  { by apply returns_ret. }
  eapply returns_bind; [apply Hb; by left|]. intros []; cbv beta.
  apply IH. intros y Hy. apply Hb. by right.
Qed.

(** A loop that runs at least once and whose body establishes [J]. *)
Lemma returns_for_each_cons {X} (I J : S -> Prop) (l : list X)
    (body : X -> M S unit) :
  l <> [] -> (forall s, J s -> I s) ->
  (forall x, x ∈ l -> returns I (body x) (fun _ => J)) ->
  returns I (for_each l body) (fun _ => J).
Proof.
  intros Hl HJ Hb. destruct l as [|x l]; [done|]. simpl.
  eapply returns_bind; [apply Hb; by left|]. intros []; cbv beta.
  apply returns_for_each. intros y Hy.
  eapply returns_weaken; [apply Hb; by right|exact HJ|done].
Qed.
End Returns.

(** ** Selectors *)

Lemma selected_elem k ks : selected k ks = true <-> k ∈ ks.
Proof.
  unfold selected. rewrite existsb_exists. split.
  - intros (x & Hx & E). apply Nat.eqb_eq in E. subst. by apply list_elem_of_In.
  - intros H. exists k. split; [by apply list_elem_of_In|apply Nat.eqb_refl].
Qed.

Lemma picks_idx n i :
  0 <= i < Z.of_nat n -> picks n (Idx i) (Z.to_nat i).
Proof.
  intros Hi. exists [Z.to_nat i]. simpl.
  rewrite norm_index_in_range by done. split; [done|].
  by rewrite Nat.eqb_refl.
Qed.

Lemma picks_slice n a b k :
  clip_bound n (default 0 a) <= Z.of_nat k < clip_bound n (default (Z.of_nat n) b) ->
  picks n (Slice a b) k.
Proof.
  intros Hk. eexists. split; [reflexivity|].
  apply selected_elem, list_elem_of_fmap.
  exists (Z.of_nat k). split; [by rewrite Nat2Z.id|].
  by apply elem_of_zrange.
Qed.

Lemma picks_lt n s k : picks n s k -> (k < n)%nat.
Proof.
  intros (ks & Hr & Hk). apply selected_elem in Hk.
  destruct s as [i|a b]; simpl in Hr.
  - destruct (norm_index n i) as [j|] eqn:E; [|done]. simplify_eq.
    apply list_elem_of_singleton in Hk as ->. by eapply norm_index_lt.
  - simplify_eq. apply list_elem_of_fmap in Hk as (z & -> & Hz).
    apply elem_of_zrange in Hz. unfold clip_bound in Hz. lia.
Qed.

(** ** Painting *)

Lemma assign3_cell a sx sy sz v a' xs ys zs x y z :
  assign3 a sx sy sz v = inr a' ->
  resolve (length a) sx = inr xs -> resolve (length a) sy = inr ys ->
  resolve (length a) sz = inr zs ->
  cell a' x y z
  = if selected x xs && selected y ys && selected z zs
    then (fun _ => v) <$> cell a x y z else cell a x y z.
Proof.
  intros H Hx Hy Hz. unfold assign3 in H. rewrite Hx, Hy, Hz in H.
  injection H as <-. unfold cell.
  rewrite list_lookup_imap.
  destruct (a !! x) as [p|]; simpl; [|by repeat case_match].
  destruct (selected x xs); simpl; [|done].
  rewrite list_lookup_imap.
  destruct (p !! y) as [r|]; simpl; [|by repeat case_match].
  destruct (selected y ys); simpl; [|done].
  rewrite list_lookup_imap.
  destruct (r !! z) as [c|]; simpl; [|by repeat case_match].
  by destruct (selected z zs).
Qed.

Lemma paint_marks n sx sy sz x y z :
  picks (Z.to_nat n) sx x -> picks (Z.to_nat n) sy y -> picks (Z.to_nat n) sz z ->
  returns (canvas n) (SwarmConstructionEnv.paint sx sy sz) (fun _ => marked n).
Proof.
  intros Hx Hy Hz s [Hs Hb].
  pose proof (picks_lt _ _ _ Hx) as Lx.
  pose proof (picks_lt _ _ _ Hy) as Ly.
  pose proof (picks_lt _ _ _ Hz) as Lz.
  destruct Hx as (xs & Rx & Sx), Hy as (ys & Ry & Sy), Hz as (zs & Rz & Sz).
  pose proof Hs as [Hlen _]. rewrite <- Hlen in Rx, Ry, Rz.
  unfold SwarmConstructionEnv.paint.
  destruct (assign3 (SwarmConstructionEnv.cells s) sx sy sz 1) as [ex|t] eqn:E.
  { exfalso. unfold assign3 in E. by rewrite Rx, Ry, Rz in E. }
  exists tt. eexists. split; [done|]. simpl.
  pose proof (fun i j k => assign3_cell _ _ _ _ _ _ _ _ _ i j k E Rx Ry Rz) as Hc.
  split; [split|].
  - by eapply SwarmFacts.assign3_shape.
  - intros i j k v Hv. rewrite Hc in Hv.
    destruct (cell (SwarmConstructionEnv.cells s) i j k) as [w|] eqn:Ew;
      [|by case_match].
    case_match; simpl in Hv; simplify_eq; [by right|by eapply Hb].
  - exists x, y, z. rewrite Hc, Sx, Sy, Sz. simpl.
    destruct (cell_is_Some (SwarmConstructionEnv.cells s) (Z.to_nat n) x y z)
      as [w Hw]; [done..|].
    by rewrite Hw.
Qed.

Section Draws.
Variable rng : nat -> Z.
Variable P : SwarmConstructionEnv.gen -> Prop.
(** The property does not depend on how many numbers were drawn. *)
Hypothesis P_cursor :
  forall s c, P s -> P (SwarmConstructionEnv.Gen c (SwarmConstructionEnv.cells s)).

Lemma draw_returns :
  returns P (SwarmConstructionEnv.draw rng) (fun _ => P).
Proof.
  intros s Hs. eexists _, _. split; [reflexivity|]. by apply P_cursor.
Qed.

Lemma np_randint_returns lo hi :
  lo < hi ->
  returns P (SwarmConstructionEnv.np_randint rng lo hi)
          (fun v s => P s /\ lo <= v < hi).
Proof.
  intros Hlt s Hs. unfold SwarmConstructionEnv.np_randint, bind,
    SwarmConstructionEnv.draw, randint.
  destruct (lo <? hi) eqn:E; [|lia].
  eexists _, _. split; [reflexivity|]. split; [by apply P_cursor|].
  pose proof (Z.mod_pos_bound (rng (SwarmConstructionEnv.cursor s)) (hi - lo)
                ltac:(lia)). lia.
Qed.
End Draws.

Lemma canvas_cursor n s c :
  canvas n s -> canvas n (SwarmConstructionEnv.Gen c (SwarmConstructionEnv.cells s)).
Proof. done. Qed.

Lemma returns_assume {S A} (P : S -> Prop) (phi : Prop) (m : M S A)
    (Q : A -> S -> Prop) :
  (phi -> returns P m Q) -> returns (fun s => P s /\ phi) m Q.
Proof. intros H s [Hs Hphi]. by apply H. Qed.

Lemma zrange_nonempty lo hi : lo < hi -> zrange lo hi <> [].
Proof.
  intros Hlt Hnil. assert (Hin : lo ∈ zrange lo hi) by (apply elem_of_zrange; lia).
  rewrite Hnil in Hin. by apply elem_of_nil in Hin.
Qed.

Lemma picks_upto N h :
  0 < h -> (0 < N)%nat -> picks N (SwarmConstructionEnv.upto h) 0.
Proof.
  intros Hh HN. apply picks_slice. unfold clip_bound. simpl.
  destruct (h <? 0) eqn:E; lia.
Qed.

Lemma picks_span N lo hi :
  0 <= lo < hi -> lo < Z.of_nat N ->
  picks N (SwarmConstructionEnv.span lo hi) (Z.to_nat lo).
Proof.
  intros Hl HN. apply picks_slice. unfold clip_bound. simpl.
  destruct (lo <? 0) eqn:E1; [lia|]. destruct (hi <? 0) eqn:E2; lia.
Qed.

Lemma picks_whole N : (0 < N)%nat -> picks N SwarmConstructionEnv.whole 0.
Proof.
  intros HN. apply picks_slice. unfold clip_bound. simpl.
  destruct (Z.of_nat N <? 0) eqn:E; lia.
Qed.

Section Shapes.
Variable rng : nat -> Z.
Variable n : Z.
Hypothesis Hn : 7 <= n.

Lemma paint_marks_again sx sy sz x y z :
  picks (Z.to_nat n) sx x -> picks (Z.to_nat n) sy y -> picks (Z.to_nat n) sz z ->
  returns (marked n) (SwarmConstructionEnv.paint sx sy sz) (fun _ => marked n).
Proof.
  intros Hx Hy Hz.
  eapply returns_weaken; [by apply (paint_marks n sx sy sz x y z)| |done].
  by intros s [Hs _].
Qed.

Ltac half t :=
  pose proof (Z.div_mod t 2 ltac:(lia));
  pose proof (Z.mod_pos_bound t 2 ltac:(lia)).
Ltac rint :=
  eapply returns_bind;
    [apply (np_randint_returns rng (canvas n) (canvas_cursor n)); lia
    |intros ?v; apply returns_assume; intros ?Hv].
Ltac idx := apply picks_idx; lia.

(** For a grid of side 7 or more, every branch of the generator returns
    and paints at least one cell. *)
Lemma random_shape_marks :
  returns (canvas n) (SwarmConstructionEnv.random_shape rng n) (fun _ => marked n).
Proof using Hn.
  unfold SwarmConstructionEnv.random_shape.
  eapply returns_bind;
    [apply (draw_returns rng (canvas n) (canvas_cursor n))|].
  intros raw. cbv zeta. half n.
  repeat case_match.
  - (* pyramid *)
    apply returns_for_each_cons;
      [by apply zrange_nonempty|by intros s [Hs _]|].
    intros y Hy. apply elem_of_zrange in Hy. half (n - (4 - y)).
    apply (paint_marks n _ _ _ (Z.to_nat ((n - (4 - y)) / 2)) (Z.to_nat y)
             (Z.to_nat ((n - (4 - y)) / 2))).
    + apply picks_span; lia.
    + idx.
    + apply picks_span; lia.
  - (* tower *)
    rint. rint. rint.
    apply (paint_marks n _ _ _ (Z.to_nat v0) 0%nat (Z.to_nat v1)).
    + idx.
    + apply picks_upto; lia.
    + idx.
  - (* wall_3d *)
    rint.
    eapply returns_bind;
      [apply (draw_returns rng (canvas n) (canvas_cursor n))|].
    intros coin. case_match.
    + rint.
      apply (paint_marks n _ _ _ (Z.to_nat v0) 0%nat 0%nat);
        [idx|apply picks_upto; lia|apply picks_whole; lia].
    + rint.
      apply (paint_marks n _ _ _ 0%nat 0%nat (Z.to_nat v0));
        [apply picks_whole; lia|apply picks_upto; lia|idx].
  - (* cube *)
    rint. rint. rint.
    apply (paint_marks n _ _ _ (Z.to_nat v0) 0%nat (Z.to_nat v1)).
    + apply picks_span; lia.
    + apply picks_upto; lia.
    + apply picks_span; lia.
  - (* staircase *)
    apply returns_for_each_cons;
      [apply zrange_nonempty; lia|by intros s [Hs _]|].
    intros i Hi. apply elem_of_zrange in Hi.
    apply (paint_marks n _ _ _ (Z.to_nat (i + 1)) (Z.to_nat i) (Z.to_nat (n / 2)));
      idx.
  - (* bridge *)
    eapply returns_bind;
      [apply (paint_marks n _ _ _ 2%nat 0%nat (Z.to_nat (n / 2)));
       [idx|apply picks_upto; lia|idx]|].
    intros []. cbv beta.
    eapply returns_bind;
      [apply (paint_marks_again _ _ _ 6%nat 0%nat (Z.to_nat (n / 2)));
       [idx|apply picks_upto; lia|idx]|].
    intros []. cbv beta.
    apply (paint_marks_again _ _ _ 2%nat 2%nat (Z.to_nat (n / 2)));
      [apply (picks_span _ 2 7); lia|idx|idx].
  - (* arch *)
    eapply returns_bind;
      [apply (paint_marks n _ _ _ 2%nat 0%nat (Z.to_nat (n / 2)));
       [idx|apply picks_upto; lia|idx]|].
    intros []. cbv beta.
    eapply returns_bind;
      [apply (paint_marks_again _ _ _ 5%nat 0%nat (Z.to_nat (n / 2)));
       [idx|apply picks_upto; lia|idx]|].
    intros []. cbv beta.
    apply (paint_marks_again _ _ _ 2%nat 2%nat (Z.to_nat (n / 2)));
      [apply (picks_span _ 2 6); lia|idx|idx].
  - (* platform *)
    rint. rint. half (n - v0).
    apply (paint_marks n _ _ _ (Z.to_nat ((n - v0) / 2)) (Z.to_nat v)
             (Z.to_nat ((n - v0) / 2))).
    + apply picks_span; lia.
    + idx.
    + apply picks_span; lia.
  - (* random_3d *)
    rint.
    apply returns_for_each_cons;
      [apply zrange_nonempty; lia|by intros s [Hs _]|].
    intros j _. rint. rint. rint.
    apply (paint_marks n _ _ _ (Z.to_nat v0) (Z.to_nat v1) (Z.to_nat v2)); idx.
Qed.
End Shapes.

Lemma has_one_occupied t : has_one t -> 0 < occupied_cells t.
Proof.
  intros (x & y & z & Hc).
  pose proof (np_sum_bool_nonneg (flatten3 (map3 occupied t))) as Hn.
  fold (occupied_cells t) in Hn.
  destruct (decide (occupied_cells t = 0)) as [E|E]; [|lia].
  apply occupied_cells_zero in E. specialize (E x y z 1 Hc). simpl in E. lia.
Qed.

Lemma np_zeros_ok_cube n itemsize :
  0 <= n <= 1000000 -> 0 < itemsize <= 8 ->
  np_zeros_ok [n; n; n] itemsize = true.
Proof.
  intros Hn Hi. unfold np_zeros_ok. simpl.
  apply andb_true_iff. split.
  - destruct (0 <=? n) eqn:E; [done|lia].
  - apply Z.ltb_lt.
    assert (H1 : 0 <= n * itemsize <= 1000000 * 8).
    { split; [apply Z.mul_nonneg_nonneg; lia|].
      apply Z.mul_le_mono_nonneg; lia. }
    assert (H2 : 0 <= n * (n * itemsize) <= 1000000 * (1000000 * 8)).
    { split; [apply Z.mul_nonneg_nonneg; lia|].
      apply Z.mul_le_mono_nonneg; lia. }
    assert (H3 : n * (n * (n * itemsize)) <= 1000000 * (1000000 * (1000000 * 8))).
    { apply Z.mul_le_mono_nonneg; lia. }
    lia.
Qed.

Lemma random_target_returns rng n :
  7 <= n <= 1000000 ->
  exists t,
    SwarmConstructionEnv._make_random_target rng n = inr t /\
    shape3 (Z.to_nat n) t /\
    all_cells (fun v => v = 0 \/ v = 1) t /\
    0 < occupied_cells t.
Proof.
  intros Hn. unfold SwarmConstructionEnv._make_random_target, np_zeros3.
  rewrite np_zeros_ok_cube by lia.
  destruct (random_shape_marks rng n ltac:(lia)
              (SwarmConstructionEnv.Gen 0 (full3 (Z.to_nat n) 0)))
    as ([] & s & Hr & [[Hs Hb] H1]).
  { split; [apply full3_shape|]. apply all_cells_full3. by left. }
  rewrite Hr. exists (SwarmConstructionEnv.cells s).
  split; [done|]. split; [done|]. split; [done|]. by apply has_one_occupied.
Qed.

(** X16.  The target generator.  For a grid of side 7 or more (the default
    is 8), [_make_random_target] returns whatever numbers the random
    source draws: no branch indexes outside the array or draws from an
    empty interval.  The target is a binary [(n, n, n)] array with at
    least one occupied cell. *)
Theorem make_random_target_is_total rng n :
  7 <= n <= 1000000 ->
  exists t,
    SwarmConstructionEnv._make_random_target rng n = inr t /\
    shape3 (Z.to_nat n) t /\
    all_cells (fun v => v = 0 \/ v = 1) t /\
    0 < occupied_cells t.
Proof.
  intros Hn. unfold SwarmConstructionEnv._make_random_target, np_zeros3.
  rewrite np_zeros_ok_cube by lia.
  destruct (random_shape_marks rng n ltac:(lia)
              (SwarmConstructionEnv.Gen 0 (full3 (Z.to_nat n) 0)))
    as ([] & s & Hr & [[Hs Hb] H1]).
  { split; [apply full3_shape|]. apply all_cells_full3. by left. }
  rewrite Hr. exists (SwarmConstructionEnv.cells s).
  split; [done|]. split; [done|]. split; [done|]. by apply has_one_occupied.
Qed.

Lemma make_random_target_is_total_witness :
  exists t,
    SwarmConstructionEnv._make_random_target (fun k => Z.of_nat k + 8) 8 = inr t /\
    0 < occupied_cells t.
Proof.
  assert (H8 : 7 <= 8 <= 1000000) by lia.
  destruct (make_random_target_is_total (fun k => Z.of_nat k + 8) 8 H8)
    as (t & Ht & _ & _ & Hpos).
  exists t. split; [exact Ht|exact Hpos].
Defined.

(** * Constructing and resetting the global environment *)

Module SwarmTotal.
Import SwarmConstructionEnv.

Lemma swarm_spawn_loop_returns rng l e :
  0 < grid_size e -> Forall (fun i => (i < length (agent_positions e))%nat) l ->
  exists ps,
    length ps = length (agent_positions e) /\
    for_each l (fun i =>
      n <~ gets grid_size ;;
      p <~ (fun e => (spawn n (fst (rng i)) (snd (rng i)), e)) ;;
      ps <~ gets agent_positions ;;
      if decide (i < length ps)%nat
      then modify (with_positions (<[i := p]> ps))
      else raise IndexError) e = (inr tt, with_positions ps e).
Proof.
  intros Hn. revert e Hn. induction l as [|i l IH]; intros e Hn Hl; simpl.
  { exists (agent_positions e). split; [done|]. by destruct e. }
  apply Forall_cons in Hl as [Hi Hl].
  unfold bind at 1. unfold bind at 1. unfold gets at 1.
  unfold bind at 1.
  destruct (spawn (grid_size e) (rng i).1 (rng i).2) as [ex|p] eqn:Hp.
  { unfold spawn, randint in Hp. simpl in Hp.
    destruct (0 <? grid_size e) eqn:E; [done|lia]. }
  unfold bind at 1. unfold gets at 1.
  rewrite decide_True by done. unfold modify at 1.
  destruct (IH (with_positions (<[i:=p]> (agent_positions e)) e)) as (ps & Hlen & Hps).
  { done. }
  { simpl. by rewrite length_insert. }
  simpl in Hlen. rewrite length_insert in Hlen.
  exists ps. split; [done|].
  rewrite Hps. by destruct e.
Qed.

Lemma swarm_get_observations_returns e :
  length (agent_positions e) = num_agents e ->
  length (agent_has_block e) = num_agents e ->
  exists o, _get_observations e = (inr o, e).
Proof.
  intros Hlp Hlh. unfold _get_observations.
  unfold bind at 1. unfold gets at 1.
  apply for_collect_returns. intros i Hi. apply elem_of_seq in Hi.
  destruct (lookup_lt_is_Some_2 (agent_positions e) i) as [pos Hpos]; [lia|].
  destruct (lookup_lt_is_Some_2 (agent_has_block e) i) as [hb Hhb]; [lia|].
  eexists. unfold bind, position_of, has_block_of, gets, lift, ret.
  rewrite Hpos, Hhb. done.
Qed.

Lemma np_zeros_ok_square n :
  0 <= n <= 1000000 -> np_zeros_ok [n; n] 4 = true.
Proof.
  intros Hn. unfold np_zeros_ok. simpl.
  apply andb_true_iff. split.
  - destruct (0 <=? n) eqn:E; [done|lia].
  - apply Z.ltb_lt.
    assert (H1 : 0 <= n * 4 <= 1000000 * 4) by lia.
    assert (H2 : n * (n * 4) <= 1000000 * (1000000 * 4)).
    { apply Z.mul_le_mono_nonneg; lia. }
    lia.
Qed.

(** On a grid of side 7 or more [reset] returns, and this is the state it
    leaves. *)
Lemma reset_run rng trng e :
  length (agent_positions e) = num_agents e ->
  7 <= grid_size e <= 1000000 ->
  exists o ps t,
    length ps = num_agents e /\
    _make_random_target trng (grid_size e) = inr t /\
    reset rng trng e
    = (inr o,
       with_target t
         (with_has_block (replicate (num_agents e) true)
            (with_positions ps
               (with_step_count 0
                  (with_grid (Arr2 (full2 (Z.to_nat (grid_size e)) 0)) e))))).
Proof.
  intros Hlp Hn. unfold reset.
  unfold bind at 1, gets at 1. unfold bind at 1.
  unfold np_zeros2. rewrite np_zeros_ok_square by lia.
  unfold bind at 1, modify at 1. unfold bind at 1, modify at 1.
  unfold bind at 1, gets at 1.
  cbn [num_agents with_step_count with_grid].
  set (e1 := with_step_count 0 _).
  destruct (swarm_spawn_loop_returns rng (seq 0 (num_agents e)) e1) as (ps & Hlen & Hps).
  { simpl. lia. }
  { apply Forall_forall. intros i Hi. apply elem_of_seq in Hi. simpl. lia. }
  unfold spawn_agents. unfold bind at 1. rewrite Hps.
  unfold bind at 1, modify at 1. unfold bind at 1.
  cbn [grid_size with_has_block with_positions e1 with_step_count with_grid].
  destruct (random_target_returns trng (grid_size e) Hn) as (t & Ht & _).
  rewrite Ht. unfold bind at 1, modify at 1.
  set (e2 := with_target t _).
  destruct (swarm_get_observations_returns e2) as [o Ho].
  { simpl. rewrite Hlen. simpl. exact Hlp. }
  { simpl. apply length_replicate. }
  exists o, ps, t. split; [by rewrite Hlen|]. split; [done|].
  rewrite Ho. done.
Qed.

End SwarmTotal.

(** X17.  [SwarmConstructionEnv.reset] on a grid of side 7 or more returns
    in every reachable state, whatever the random source draws; it leaves
    the step counter at 0, a rank-2 grid of zeros and a fresh non-empty
    target. *)
Theorem swarm_reset_is_total e rng trng :
  swarm_reachable e ->
  7 <= SwarmConstructionEnv.grid_size e <= 1000000 ->
  let r := SwarmConstructionEnv.reset rng trng e in
  (exists o, fst r = inr o) /\
  SwarmConstructionEnv.step_count (snd r) = 0 /\
  SwarmConstructionEnv.grid (snd r)
  = Arr2 (full2 (Z.to_nat (SwarmConstructionEnv.grid_size e)) 0) /\
  SwarmConstructionEnv._make_random_target trng (SwarmConstructionEnv.grid_size e)
  = inr (SwarmConstructionEnv.target (snd r)) /\
  0 < occupied_cells (SwarmConstructionEnv.target (snd r)).
Proof.
  intros Hr Hn r.
  apply SwarmFacts.reachable_good in Hr as [[[_ _ _ Hlp _] _] _].
  destruct (SwarmTotal.reset_run rng trng e Hlp Hn) as (o & ps & t & Hlen & Ht & Hrun).
  subst r. rewrite Hrun. simpl.
  split; [by exists o|]. split; [done|]. split; [done|]. split; [done|].
  destruct (random_target_returns trng _ Hn) as (t' & Ht' & _ & _ & Hpos).
  rewrite Ht in Ht'. by injection Ht' as <-.
Qed.

Lemma swarm_started_grid_size : SwarmConstructionEnv.grid_size swarm_started = 8.
Proof. vm_compute. reflexivity. Qed.

Lemma swarm_reset_is_total_witness :
  (exists o, fst (SwarmConstructionEnv.reset (fun _ => (3, 5)) (fun _ => 7)
                    swarm_started) = inr o) /\
  SwarmConstructionEnv.step_count
    (snd (SwarmConstructionEnv.reset (fun _ => (3, 5)) (fun _ => 7)
            swarm_started)) = 0.
Proof.
  assert (Hn : 7 <= SwarmConstructionEnv.grid_size swarm_started <= 1000000)
    by (rewrite swarm_started_grid_size; lia).
  pose proof (swarm_reset_is_total swarm_started (fun _ => (3, 5)) (fun _ => 7)
                swarm_started_reachable Hn) as H.
  cbv zeta in H. destruct H as (H1 & H2 & _).
  split; [exact H1|exact H2].
Defined.

(** X18.  The constructor of the global environment.
    [SwarmConstructionEnv(num_agents, grid_size)] returns an object for
    every grid of side 7 or more and every non-negative number of agents,
    whatever the random source draws. *)
Theorem swarm_init_is_total a n trng0 rng trng :
  0 <= a <= 1000000 -> 7 <= n <= 1000000 ->
  exists e,
    SwarmConstructionEnv.__init__ a n trng0 rng trng = inr e /\
    SwarmConstructionEnv.num_agents e = Z.to_nat a /\
    SwarmConstructionEnv.grid_size e = n /\
    SwarmConstructionEnv.step_count e = 0 /\
    0 < occupied_cells (SwarmConstructionEnv.target e).
Proof.
  intros Ha Hn. unfold SwarmConstructionEnv.__init__, np_zeros3.
  rewrite np_zeros_ok_cube by lia.
  assert (np_zeros_ok [a; 3] 4 && np_zeros_ok [a] 1 = true) as ->.
  { unfold np_zeros_ok. simpl.
    destruct (0 <=? a) eqn:E; [|lia]. simpl.
    apply andb_true_iff. split; apply Z.ltb_lt; lia. }
  destruct (random_target_returns trng0 n Hn) as (t0 & -> & _).
  match goal with |- context [SwarmConstructionEnv.reset rng trng ?x] =>
    set (e0 := x) end.
  destruct (SwarmTotal.reset_run rng trng e0) as (o & ps & t & Hlen & Ht & Hrun).
  { simpl. apply length_replicate. }
  { done. }
  rewrite Hrun. eexists. split; [done|]. simpl.
  split; [done|]. split; [done|]. split; [done|].
  destruct (random_target_returns trng n Hn) as (t' & Ht' & _ & _ & Hpos).
  simpl in Ht. rewrite Ht in Ht'. by injection Ht' as <-.
Qed.

Lemma swarm_init_is_total_witness :
  exists e,
    SwarmConstructionEnv.__init__ 3 8 (fun _ => 1) (fun _ => (2, 6)) (fun _ => 8)
    = inr e /\
    SwarmConstructionEnv.num_agents e = 3%nat.
Proof.
  assert (Ha : 0 <= 3 <= 1000000) by lia.
  assert (Hn : 7 <= 8 <= 1000000) by lia.
  destruct (swarm_init_is_total 3 8 (fun _ => 1) (fun _ => (2, 6)) (fun _ => 8)
              Ha Hn) as (e & He & Hna & _).
  exists e. split; [exact He|exact Hna].
Defined.

(** ** The target of the global environment is never empty *)

Module SwarmTarget.
Import SwarmConstructionEnv.

Lemma reset_keeps_size rng trng k :
  keeps (fun s => grid_size s = k) (reset rng trng).
Proof.
  unfold reset.
  apply keeps_bind; [apply keeps_gets|]. intros n.
  apply SwarmFacts.keeps_bind_const. intros zeros _.
  apply keeps_bind; [by apply keeps_modify|]. intros _.
  apply keeps_bind; [by apply keeps_modify|]. intros _.
  apply keeps_bind; [apply keeps_gets|]. intros na.
  apply keeps_bind.
  { apply keeps_for_each. intros i _ e He. SwarmFacts.run_m; done. }
  intros _. apply keeps_bind; [by apply keeps_modify|].
  intros _. apply SwarmFacts.keeps_bind_const. intros t _.
  apply keeps_bind; [by apply keeps_modify|]. intros _.
  apply keeps_pure, SwarmFacts.swarm_pure_get_observations.
Qed.

Lemma step_keeps_target_size actions k t :
  keeps (fun s => grid_size s = k /\ target s = t) (step actions).
Proof.
  apply SwarmFacts.swarm_step_keeps; [done|].
  intros i a s [H1 H2]. unfold act. SwarmFacts.run_m; done.
Qed.

Lemma reachable_target_occupied e :
  swarm_reachable e -> 7 <= grid_size e <= 1000000 ->
  0 < occupied_cells (target e).
Proof.
  induction 1 as [a n trng0 rng trng e H|e rng trng r e' Hr IH H
                 |e actions r e' _ IH H]; intros Hn.
  - apply SwarmIdle.init_from_reset in H as (e0 & o & [_ _ _ Hlp _] & Hr).
    pose proof (reset_keeps_size rng trng (grid_size e0) e0 eq_refl) as Hk.
    rewrite Hr in Hk. simpl in Hk. rewrite Hk in Hn.
    destruct (SwarmTotal.reset_run rng trng e0 Hlp Hn)
      as (o' & ps & t & _ & Ht & Hrun).
    rewrite Hr in Hrun. injection Hrun as _ ->. simpl.
    destruct (random_target_returns trng _ Hn) as (t' & Ht' & _ & _ & Hpos).
    rewrite Ht in Ht'. by injection Ht' as <-.
  - pose proof (reset_keeps_size rng trng (grid_size e) e eq_refl) as Hk.
    rewrite H in Hk. simpl in Hk. rewrite Hk in Hn.
    apply SwarmFacts.reachable_good in Hr as [[[_ _ _ Hlp _] _] _].
    destruct (SwarmTotal.reset_run rng trng e Hlp Hn)
      as (o' & ps & t & _ & Ht & Hrun).
    rewrite H in Hrun. injection Hrun as _ ->. simpl.
    destruct (random_target_returns trng _ Hn) as (t' & Ht' & _ & _ & Hpos).
    rewrite Ht in Ht'. by injection Ht' as <-.
  - pose proof (step_keeps_target_size actions (grid_size e) (target e) e
                  (conj eq_refl eq_refl)) as Hk.
    rewrite H in Hk. simpl in Hk. destruct Hk as [Hk1 Hk2].
    rewrite Hk2. apply IH. by rewrite <- Hk1.
Qed.

End SwarmTarget.

(** X19.  No [nan] on the default grid.  In the global environment with a
    grid of side 7 or more, the target of every reachable state has an
    occupied cell, so the quotient behind the match score is defined:
    every [step] that returns reports the match score 0 and the reward
    -0.01 for every agent. *)
Theorem swarm_score_is_zero_on_default_grid e actions out :
  swarm_reachable e ->
  7 <= SwarmConstructionEnv.grid_size e <= 1000000 ->
  fst (SwarmConstructionEnv.step actions e) = inr out ->
  0 < occupied_cells (SwarmConstructionEnv.target e) /\
  (exists q, SwarmConstructionEnv.match_score out = Fin q /\ (q == 0)%Q) /\
  Forall (fun r => exists q, r = Fin q /\ (q == - (1 # 100))%Q)
         (SwarmConstructionEnv.rewards out).
Proof.
  intros Hr Hn Hout.
  pose proof (SwarmTarget.reachable_target_occupied e Hr Hn) as Hpos.
  split; [exact Hpos|].
  assert (Hr' : swarm_reachable (snd (SwarmConstructionEnv.step actions e))).
  { eapply swarm_reach_step; [exact Hr|]. apply surjective_pairing. }
  pose proof (SwarmTarget.step_keeps_target_size actions
                (SwarmConstructionEnv.grid_size e) (SwarmConstructionEnv.target e) e
                (conj eq_refl eq_refl)) as [_ Hk].
  destruct (SwarmConstructionEnv.step actions e) as [r e'] eqn:Hs.
  simpl in Hout, Hr', Hk. subst r.
  destruct (SwarmEpisode.swarm_step_returns actions e out e' Hs)
    as (Hrw & Hms & _).
  apply SwarmFacts.reachable_good in Hr' as [_ Hf].
  destruct (swarm_idle_counts e' Hf) as [Hc Hw].
  rewrite Hrw, Hms.
  unfold SwarmConstructionEnv._calculate_rewards,
    SwarmConstructionEnv.match_score_of. rewrite Hc, Hw.
  unfold SwarmConstructionEnv.total_target. rewrite Hk.
  fold (occupied_cells (SwarmConstructionEnv.target e)).
  unfold true_divide.
  destruct (occupied_cells (SwarmConstructionEnv.target e) =? 0) eqn:E; [lia|].
  simpl. split.
  - eexists. split; [done|]. unfold Qdiv. apply Qmult_0_l.
  - apply Forall_replicate. eexists. split; [done|].
    unfold Qdiv. rewrite Qmult_0_l. done.
Qed.

Lemma swarm_score_is_zero_on_default_grid_witness :
  exists out,
    fst (SwarmConstructionEnv.step [2; 4] swarm_started) = inr out /\
    exists q, SwarmConstructionEnv.match_score out = Fin q /\ (q == 0)%Q.
Proof.
  destruct swarm_started_step_returns as [out Hout].
  assert (Hn : 7 <= SwarmConstructionEnv.grid_size swarm_started <= 1000000)
    by (rewrite swarm_started_grid_size; lia).
  exists out. split; [exact Hout|].
  exact (proj1 (proj2 (swarm_score_is_zero_on_default_grid swarm_started [2; 4] out
                         swarm_started_reachable Hn Hout))).
Defined.

(** * Scaling the training data *)

Section ScaleFacts.
Variable scale_coord : Z -> Z.
Variable to_size : Z.

Let key := scaled_key scale_coord to_size.
Let loop := scale_loop scale_coord to_size.

Lemma voxel_of_key_inj k1 k2 : voxel_of_key k1 = voxel_of_key k2 -> k1 = k2.
Proof.
  destruct k1 as [[a b] c], k2 as [[a' b'] c']. unfold voxel_of_key. simpl.
  by intros [= -> -> ->].
Qed.

(** The loop keeps [seen] the set of keys of [scaled]; it appends exactly
    the keys not seen before. *)
Lemma scale_loop_spec voxels scaled seen :
  scaled = map voxel_of_key (reverse seen) -> NoDup seen ->
  exists seen',
    loop voxels scaled seen = map voxel_of_key (reverse seen') /\
    NoDup seen' /\
    (forall k, k ∈ seen' <-> k ∈ seen \/ exists v, v ∈ voxels /\ k = key v) /\
    (length seen' <= length seen + length voxels)%nat.
Proof using Type.
  subst loop key. revert scaled seen.
  induction voxels as [|v vs IH]; intros scaled seen Hs Hnd; simpl.
  { exists seen. split; [done|]. split; [done|]. split; [|lia].
    intros k. split; [by left|]. intros [H|(v & Hv & _)]; [done|].
    by apply elem_of_nil in Hv. }
  case_decide as Hin.
  - destruct (IH scaled seen Hs Hnd) as (seen' & Hl & Hnd' & Hk & Hlen).
    exists seen'. split; [done|]. split; [done|]. split; [|lia].
    intros k. rewrite Hk. split.
    + intros [H|(w & Hw & ->)]; [by left|]. right. exists w. split; [by right|done].
    + intros [H|(w & Hw & ->)]; [by left|].
      apply elem_of_cons in Hw as [->|Hw]; [by left|]. right. by exists w.
  - destruct (IH (scaled ++ [voxel_of_key (scaled_key scale_coord to_size v)])
                (scaled_key scale_coord to_size v :: seen))
      as (seen' & Hl & Hnd' & Hk & Hlen).
    { rewrite reverse_cons, map_app, Hs. done. }
    { by constructor. }
    exists seen'. split; [done|]. split; [done|]. split; [|simpl in Hlen; lia].
    intros k. rewrite Hk, elem_of_cons. split.
    + intros [[->|H]|(w & Hw & ->)].
      * right. exists v. split; [by left|done].
      * by left.
      * right. exists w. split; [by right|done].
    + intros [H|(w & Hw & ->)]; [left; by right|].
      apply elem_of_cons in Hw as [->|Hw]; [left; by left|]. right. by exists w.
Qed.

Lemma clamp_range hi x : 0 <= hi -> 0 <= clamp hi x <= hi.
Proof. unfold clamp. lia. Qed.
End ScaleFacts.

(** X20.  [scale_voxels] between grids of different sizes (the source size
    not 0, the target size at least 1) returns a list of voxels that all
    lie inside the target grid, without repetition, no longer than the
    input; it holds exactly the clamped scaled images of the input voxels.
    Between grids of the same size the input is returned as it is, neither
    clamped nor deduplicated. *)
Theorem scale_voxels_fits_the_grid scale_coord voxels from_size to_size :
  from_size <> 0 -> 1 <= to_size ->
  (from_size = to_size ->
   scale_voxels scale_coord voxels from_size to_size = Some voxels) /\
  (from_size <> to_size ->
   exists out,
     scale_voxels scale_coord voxels from_size to_size = Some out /\
     Forall (voxel_in_grid to_size) out /\
     NoDup out /\
     (length out <= length voxels)%nat /\
     forall w, w ∈ out <->
       exists v, v ∈ voxels /\ w = voxel_of_key (scaled_key scale_coord to_size v)).
Proof.
  intros Hf Ht. unfold scale_voxels. split.
  - intros ->. by rewrite Z.eqb_refl.
  - intros Hne.
    destruct (from_size =? to_size) eqn:E1; [apply Z.eqb_eq in E1; done|].
    destruct (from_size =? 0) eqn:E2; [apply Z.eqb_eq in E2; done|].
    destruct (scale_loop_spec scale_coord to_size voxels [] [])
      as (seen & Hl & Hnd & Hk & Hlen); [done|constructor|].
    eexists. split; [done|]. rewrite Hl.
    assert (Hmem : forall w, w ∈ map voxel_of_key (reverse seen) <->
              exists v, v ∈ voxels /\
                w = voxel_of_key (scaled_key scale_coord to_size v)).
    { intros w. rewrite list_elem_of_fmap. split.
      - intros (k & -> & Hin). rewrite elem_of_reverse in Hin.
        apply Hk in Hin as [Hin|(v & Hv & ->)]; [by apply elem_of_nil in Hin|].
        by exists v.
      - intros (v & Hv & ->). eexists. split; [done|].
        rewrite elem_of_reverse. apply Hk. right. by exists v. }
    split; [|split; [|split; [|exact Hmem]]].
    + apply Forall_forall. intros w Hw. apply Hmem in Hw as (v & _ & ->).
      unfold voxel_in_grid, voxel_of_key, scaled_key. simpl.
      pose proof (clamp_range (to_size - 1) (scale_coord (vx v)) ltac:(lia)).
      pose proof (clamp_range (to_size - 1) (scale_coord (vy v)) ltac:(lia)).
      pose proof (clamp_range (to_size - 1) (scale_coord (vz v)) ltac:(lia)).
      lia.
    + apply NoDup_fmap_2; [intros k1 k2; apply voxel_of_key_inj|].
      by rewrite reverse_Permutation.
    + rewrite length_map, length_reverse. simpl in Hlen. lia.
Qed.

Lemma scale_voxels_fits_the_grid_witness :
  exists out,
    scale_voxels (fun c => Z.quot c 2)
      [Voxel 4 0 4; Voxel 5 1 5; Voxel 15 15 15] 16 8 = Some out /\
    Forall (voxel_in_grid 8) out /\ NoDup out.
Proof.
  assert (H16 : 16 <> 0) by discriminate.
  assert (H8 : 1 <= 8) by lia.
  assert (Hne : 16 <> 8) by discriminate.
  destruct (proj2 (scale_voxels_fits_the_grid (fun c => Z.quot c 2)
                     [Voxel 4 0 4; Voxel 5 1 5; Voxel 15 15 15] 16 8 H16 H8) Hne)
    as (out & Ho & Hin & Hnd & _).
  exists out. split; [exact Ho|]. split; [exact Hin|exact Hnd].
Defined.

(** ** Counting the cells of a loaded target *)

Lemma zsum_map_insert {A} (f : A -> Z) (l : list A) i a b :
  l !! i = Some a ->
  zsum (map f (<[i := b]> l)) = zsum (map f l) - f a + f b.
Proof.
  revert i. induction l as [|c l IH]; intros [|i] H; simpl in *; try done.
  - simplify_eq. unfold zsum. simpl. lia.
  - specialize (IH i H). unfold zsum in *. simpl. lia.
Qed.

(** The number of occupied cells, layer by layer. *)
Lemma occupied_cells_layers (t : vol) :
  occupied_cells t
  = zsum (map (fun p => zsum (map (fun r => np_sum_bool (map occupied r)) p)) t).
Proof.
  unfold occupied_cells, flatten3, map3.
  rewrite np_sum_bool_concat2, map_map. f_equal.
  apply map_ext. intros p. by rewrite np_sum_bool_concat, map_map.
Qed.

(** Writing one cell changes the count by the difference of the two
    occupancies. *)
Lemma set3_count (a a' : vol) x y z v :
  set3 a x y z v = Some a' ->
  exists old,
    get3 a x y z = Some old /\
    occupied_cells a'
    = occupied_cells a - (if occupied old then 1 else 0)
      + (if occupied v then 1 else 0).
Proof.
  unfold set3, get3, item. intros H.
  destruct (norm_index (length a) x) as [xi|]; [|done]. simpl in *.
  destruct (a !! xi) as [p|] eqn:Ep; [|done]. simpl in *.
  destruct (norm_index (length p) y) as [yi|]; [|done]. simpl in *.
  destruct (p !! yi) as [r|] eqn:Er; [|done]. simpl in *.
  destruct (norm_index (length r) z) as [zi|] eqn:Ez; [|done]. simpl in *.
  injection H as <-.
  pose proof (norm_index_lt _ _ _ Ez) as Hz.
  destruct (lookup_lt_is_Some_2 r zi Hz) as [old Hold].
  exists old. split; [done|].
  rewrite !occupied_cells_layers.
  rewrite (zsum_map_insert _ a xi p) by done.
  rewrite (zsum_map_insert _ p yi r) by done.
  unfold np_sum_bool. rewrite !map_map.
  rewrite (zsum_map_insert _ r zi old) by done.
  lia.
Qed.

Lemma occupied_cells_fill3_zero (t : vol) : occupied_cells (fill3 0 t) = 0.
Proof.
  apply occupied_cells_zero. apply all_cells_fill3. lia.
Qed.

Lemma paint_voxel_count n t v :
  0 <= n -> shape3 (Z.to_nat n) t -> voxel_in_grid n v ->
  cell t (Z.to_nat (vx v)) (Z.to_nat (vy v)) (Z.to_nat (vz v)) = Some 0 ->
  occupied_cells (paint_voxel n t v) = occupied_cells t + 1.
Proof.
  intros Hn Ht (Hx & Hy & Hz) Hc. unfold paint_voxel.
  assert ((0 <=? vx v) && (vx v <? n) && (0 <=? vy v) && (vy v <? n)
          && (0 <=? vz v) && (vz v <? n) = true) as ->.
  { repeat (apply andb_true_iff; split); lia. }
  destruct (set3_is_Some t (Z.to_nat n) (vx v) (vy v) (vz v) 1) as [t' Ht'];
    [done|lia..|].
  rewrite Ht'. simpl.
  destruct (set3_count _ _ _ _ _ _ Ht') as (old & Hold & ->).
  rewrite (get3_cell t (Z.to_nat n)) in Hold by (done || lia).
  rewrite Hc in Hold. injection Hold as <-. simpl. lia.
Qed.

Lemma fold_paint_count n vs t :
  0 <= n -> shape3 (Z.to_nat n) t ->
  NoDup vs -> Forall (voxel_in_grid n) vs ->
  (forall v, v ∈ vs ->
     cell t (Z.to_nat (vx v)) (Z.to_nat (vy v)) (Z.to_nat (vz v)) = Some 0) ->
  occupied_cells (fold_left (paint_voxel n) vs t)
  = occupied_cells t + Z.of_nat (length vs).
Proof.
  intros Hn. revert t.
  induction vs as [|v vs IH]; intros t Ht Hnd Hin Hz; simpl; [lia|].
  apply NoDup_cons in Hnd as [Hv Hnd]. apply Forall_cons in Hin as [Hvin Hin].
  rewrite IH; [|by apply paint_voxel_shape|done|done|].
  - rewrite paint_voxel_count; [lia|done..|]. apply Hz. by left.
  - intros w Hw.
    assert (Hwin : voxel_in_grid n w).
    { rewrite Forall_forall in Hin. by apply Hin. }
    destruct Hwin as (Hx & Hy & Hzz).
    rewrite paint_voxel_cell by (done || lia).
    rewrite decide_False; [apply Hz; by right|].
    intros ->. apply Hv. unfold voxel_at.
    rewrite !Z2Nat.id by lia. by destruct w.
Qed.

(** X21.  No scaled voxel is lost.  When the voxels of a training pair
    are scaled from a grid of another size to the grid size of the
    environment and then loaded, every one of them becomes a target cell:
    the number of occupied target cells is the length of the scaled list
    (the [voxel_count] stored with the pair).  Between grids of the same
    size [scale_voxels] returns its input as it is, and the count is the
    length when the input has no repeated voxel and lies inside the
    grid. *)
Theorem scaled_voxels_all_land_in_target e text scale_coord voxels from_size :
  text_wf e -> 0 < TextConditioned3DEnv.grid_size e ->
  from_size <> 0 ->
  from_size <> TextConditioned3DEnv.grid_size e \/
  (NoDup voxels /\
   Forall (voxel_in_grid (TextConditioned3DEnv.grid_size e)) voxels) ->
  exists out,
    scale_voxels scale_coord voxels from_size (TextConditioned3DEnv.grid_size e)
    = Some out /\
    fst (TextConditioned3DEnv.load_training_pair text out e) = inr tt /\
    occupied_cells
      (TextConditioned3DEnv.target
         (snd (TextConditioned3DEnv.load_training_pair text out e)))
    = Z.of_nat (length out).
Proof.
  intros He Hn Hf Hcase.
  assert (Hout : exists out,
             scale_voxels scale_coord voxels from_size
               (TextConditioned3DEnv.grid_size e) = Some out /\
             NoDup out /\
             Forall (voxel_in_grid (TextConditioned3DEnv.grid_size e)) out).
  { unfold scale_voxels.
    destruct (from_size =? TextConditioned3DEnv.grid_size e) eqn:E1.
    { apply Z.eqb_eq in E1. destruct Hcase as [Hne|[Hnd Hin]]; [done|].
      by exists voxels. }
    destruct (from_size =? 0) eqn:E2; [apply Z.eqb_eq in E2; done|].
    eexists. split; [done|].
    set (out := scale_loop _ _ _ _ _).
    destruct (scale_loop_spec scale_coord (TextConditioned3DEnv.grid_size e)
                voxels [] []) as (seen & Hl & Hnd & Hk & _); [done|constructor|].
    fold out in Hl. split.
    - rewrite Hl. apply NoDup_fmap_2; [intros k1 k2; apply voxel_of_key_inj|].
      by rewrite reverse_Permutation.
    - rewrite Hl. apply Forall_forall. intros w Hw.
      apply list_elem_of_fmap in Hw as (k & -> & Hkin).
      rewrite elem_of_reverse in Hkin.
      apply Hk in Hkin as [Hkin|(v & _ & ->)]; [by apply elem_of_nil in Hkin|].
      unfold voxel_in_grid, voxel_of_key, scaled_key. simpl.
      pose proof (clamp_range (TextConditioned3DEnv.grid_size e - 1)
                    (scale_coord (vx v)) ltac:(lia)).
      pose proof (clamp_range (TextConditioned3DEnv.grid_size e - 1)
                    (scale_coord (vy v)) ltac:(lia)).
      pose proof (clamp_range (TextConditioned3DEnv.grid_size e - 1)
                    (scale_coord (vz v)) ltac:(lia)).
      lia. }
  destruct Hout as (out & Hs & Hnd' & Hin). exists out. split; [exact Hs|].
  destruct (TextLoad.load_training_pair_run text out e He Hn) as [sc Hr].
  rewrite Hr. simpl. split; [done|].
  pose proof He as [_ _ _ Ht _ _ _ _ _].
  rewrite fold_paint_count; [|lia|by apply fill3_shape|done|done|].
  - rewrite occupied_cells_fill3_zero. lia.
  - intros v Hv. rewrite Forall_forall in Hin. destruct (Hin v Hv) as (Hx & Hy & Hz).
    destruct (cell_is_Some (fill3 0 (TextConditioned3DEnv.target e))
                (Z.to_nat (TextConditioned3DEnv.grid_size e))
                (Z.to_nat (vx v)) (Z.to_nat (vy v)) (Z.to_nat (vz v)))
      as [c Hc]; [by apply fill3_shape|lia..|].
    rewrite Hc. f_equal.
    exact (all_cells_fill3 (fun c => c = 0) (TextConditioned3DEnv.target e) 0
             eq_refl _ _ _ c Hc).
Qed.

Lemma scaled_voxels_all_land_in_target_witness :
  exists out,
    scale_voxels (fun c => Z.quot c 2)
      [Voxel 4 0 4; Voxel 5 1 5; Voxel 15 15 15] 16
      (TextConditioned3DEnv.grid_size text_fresh) = Some out /\
    fst (TextConditioned3DEnv.load_training_pair "tower" out text_fresh) = inr tt /\
    occupied_cells
      (TextConditioned3DEnv.target
         (snd (TextConditioned3DEnv.load_training_pair "tower" out text_fresh)))
    = Z.of_nat (length out).
Proof.
  assert (Hn : 0 < TextConditioned3DEnv.grid_size text_fresh)
    by (rewrite text_fresh_grid_size; lia).
  assert (H16 : 16 <> 0) by discriminate.
  assert (Hne : 16 <> TextConditioned3DEnv.grid_size text_fresh)
    by (rewrite text_fresh_grid_size; discriminate).
  exact (scaled_voxels_all_land_in_target text_fresh "tower" (fun c => Z.quot c 2)
           [Voxel 4 0 4; Voxel 5 1 5; Voxel 15 15 15] 16
           text_fresh_wf Hn H16 (or_introl Hne)).
Defined.

(** * The training rollout *)

Module RolloutFacts.
Import TextConditioned3DEnv TrainTextConditioned.

Lemma step_keeps_sizes actions l k :
  keeps (fun s => local_size s = l /\ num_agents s = k) (step actions).
Proof.
  apply TextFacts.text_step_keeps; [done|].
  intros i a s [H1 H2].
  pose proof (TextFacts.act_keeps_fields i a s) as Hf. simpl in Hf.
  destruct Hf as (-> & _ & -> & _). done.
Qed.

Lemma reset_keeps_sizes text voxels rng l k :
  keeps (fun s => local_size s = l /\ num_agents s = k) (reset text voxels rng).
Proof.
  unfold reset.
  apply keeps_bind; [by apply keeps_modify|]. intros _.
  apply keeps_bind; [by apply keeps_modify|]. intros _.
  apply keeps_bind.
  { case_match; [|apply keeps_ret]. unfold load_training_pair.
    apply keeps_bind; [by apply keeps_modify|]. intros _.
    apply keeps_bind; [by apply keeps_modify|]. intros _.
    apply keeps_bind.
    - apply keeps_for_each. intros v _ s Hs. TextFacts.run_m; done.
    - intros _ s Hs. unfold _generate_scent_field. TextFacts.run_m; done. }
  intros _. apply keeps_bind; [apply keeps_gets|]. intros na.
  apply keeps_bind.
  { apply keeps_for_each. intros i _ s Hs. TextFacts.run_m; done. }
  intros _. apply keeps_bind; [by apply keeps_modify|]. intros _.
  apply keeps_pure, TextFacts.text_pure_get_observations.
Qed.

(** [reset] returns on a well-formed environment with a non-empty grid,
    with or without a target. *)
Lemma reset_returns text voxels rng e half :
  text_wf e -> 0 < grid_size e ->
  local_size e = 2 * half + 1 -> 0 <= half < 1000 ->
  exists o e1,
    reset text voxels rng e = (inr o, e1) /\
    length o = num_agents e.
Proof.
  intros He Hn Hl Hh.
  assert (Hret : exists o e1, reset text voxels rng e = (inr o, e1)).
  { destruct (truthy_text text && truthy_list voxels) eqn:E.
    - destruct text as [text|]; [|done]. destruct voxels as [voxels|];
        [|by rewrite andb_false_r in E].
      destruct (text_reset_with_target_run e text voxels rng half)
        as (o & ps & sc & _ & Hr); [done..|].
      by eexists _, _.
    - destruct (TextReset.reset_without_target_returns e text voxels rng half)
        as (o & ps & _ & Hr); [done..|].
      by eexists _, _. }
  destruct Hret as (o & e1 & Hr). exists o, e1. split; [done|].
  pose proof (reset_keeps_sizes text voxels rng (local_size e) (num_agents e) e
                (conj eq_refl eq_refl)) as Hk.
  rewrite Hr in Hk. simpl in Hk. destruct Hk as [_ Hna].
  unfold reset in Hr.
  apply bind_returns in Hr as ([] & s1 & _ & Hr).
  apply bind_returns in Hr as ([] & s2 & _ & Hr).
  apply bind_returns in Hr as ([] & s3 & _ & Hr).
  apply bind_returns in Hr as (na & s4 & _ & Hr).
  apply bind_returns in Hr as ([] & s5 & _ & Hr).
  apply bind_returns in Hr as ([] & s6 & _ & Hr).
  pose proof (TextFacts.text_pure_get_observations s6) as Hp.
  rewrite Hr in Hp. simpl in Hp. subst s6.
  unfold _get_observations in Hr. unfold bind at 1, gets at 1 in Hr.
  apply for_collect_length in Hr. rewrite length_seq in Hr. lia.
Qed.

Section Loop.
Variable policy : nat -> nat -> list R -> Z.
Variable half : Z.
Hypothesis Hhalf : 0 <= half < 1000.

Lemma choose_actions_returns t obs_dict e :
  length obs_dict = num_agents e ->
  exists actions,
    choose_actions policy t obs_dict e = (inr actions, e) /\
    length actions = num_agents e.
Proof using Type.
  intros Hlen. unfold choose_actions. unfold bind at 1, gets at 1.
  destruct (for_collect_returns (seq 0 (num_agents e))
              (fun i => o <~ lift KeyError (obs_dict !! i) ;; ret (policy t i o)) e)
    as [actions Ha].
  - intros i Hi. apply elem_of_seq in Hi.
    destruct (lookup_lt_is_Some_2 obs_dict i) as [o Ho]; [lia|].
    eexists. unfold bind, lift, ret. by rewrite Ho.
  - exists actions. split; [done|].
    apply for_collect_length in Ha. by rewrite length_seq in Ha.
Qed.

(** From a state of a running episode with [c] steps taken, the loop
    finishes within the [150 - c] steps that are left. *)
Lemma episode_loop_finishes fuel :
  forall t obs_dict log e c,
    text_wf e -> text_in_bounds e ->
    local_size e = 2 * half + 1 ->
    step_count e = c -> 0 <= c < 150 ->
    (Z.to_nat (150 - c) <= fuel)%nat ->
    length obs_dict = num_agents e ->
    exists more out e',
      episode_loop policy fuel t obs_dict log e
      = (inr (Some (log ++ more ++ [out])), e') /\
      done out = true /\
      Forall (fun o => done o = false) more /\
      step_count e' = c + Z.of_nat (length more) + 1 /\
      step_count e' <= 150.
Proof using Hhalf.
  induction fuel as [|fuel IH]; intros t obs_dict log e c He Hin Hl Hc Hc150 Hf Hlen.
  { lia. }
  simpl. destruct (choose_actions_returns t obs_dict e Hlen) as (actions & Ha & Hla).
  unfold bind at 1. rewrite Ha.
  destruct (TextTotal.step_returns_when_complete actions e half)
    as (out & e1 & Hs & Hlo & _); [done|done|done|done|lia|].
  unfold bind at 1. rewrite Hs.
  pose proof (TextFacts.step_keeps_in_bounds actions e (conj He Hin)) as Hk.
  rewrite Hs in Hk. simpl in Hk. destruct Hk as [He1 Hin1].
  pose proof (step_keeps_sizes actions (local_size e) (num_agents e) e
                (conj eq_refl eq_refl)) as Hsz.
  rewrite Hs in Hsz. simpl in Hsz. destruct Hsz as [Hl1 Hn1].
  pose proof He as [_ Hmax _ _ _ _ _ _ _].
  pose proof (TextEpisode.text_step_increments actions e Hmax) as [Hinc Hmax1].
  rewrite Hs in Hinc, Hmax1. simpl in Hinc, Hmax1.
  destruct (TextEpisode.text_step_returns actions e out e1 Hs) as (_ & _ & Hd).
  destruct (done out) eqn:Hdone.
  - exists [], out, e1. unfold ret. split; [done|]. split; [done|].
    split; [constructor|]. simpl. lia.
  - rewrite Hmax1, Hinc in Hd. symmetry in Hd.
    apply orb_false_iff in Hd as [Hd _]. apply Z.leb_gt in Hd.
    destruct (IH (S t) (obs out) (log ++ [out]) e1 (c + 1))
      as (more & last & e2 & Hrun & Hlast & Hmore & Hcnt & Hle);
      [done|done|by rewrite Hl1|lia|lia|lia|by rewrite Hlo, Hn1|].
    exists (out :: more), last, e2. rewrite Hrun.
    split; [by rewrite <- app_assoc|]. split; [done|].
    split; [by constructor|]. simpl length. lia.
Qed.
End Loop.

End RolloutFacts.

(** X22.  The training rollout terminates.  For any policy, on a
    well-formed environment with a non-empty grid and an odd observation
    window, the rollout of [train_episode] raises nothing and leaves the
    [while not done] loop after at most 150 calls of [step]: 150
    iterations of fuel are always enough.  Every call but the last reported
    [done] false, the last one reported it true, and the step counter
    equals the number of calls. *)
Theorem text_rollout_terminates policy text voxels rng e half fuel :
  text_wf e -> 0 < TextConditioned3DEnv.grid_size e ->
  TextConditioned3DEnv.local_size e = 2 * half + 1 -> 0 <= half < 1000 ->
  (150 <= fuel)%nat ->
  exists log e',
    TrainTextConditioned.train_episode_rollout policy fuel text voxels rng e
    = (inr (Some log), e') /\
    (1 <= length log <= 150)%nat /\
    TextConditioned3DEnv.step_count e' = Z.of_nat (length log) /\
    exists more out,
      log = more ++ [out] /\
      TextConditioned3DEnv.done out = true /\
      Forall (fun o => TextConditioned3DEnv.done o = false) more.
Proof.
  intros He Hn Hl Hh Hfuel.
  unfold TrainTextConditioned.train_episode_rollout.
  destruct (RolloutFacts.reset_returns text voxels rng e half)
    as (o & e1 & Hr & Hlo); [done..|].
  unfold bind. rewrite Hr.
  pose proof (TextFacts.reset_keeps_wf text voxels rng e He) as He1.
  pose proof (TextFacts.reset_in_bounds text voxels rng e o e1 He Hr) as Hin1.
  pose proof (TextEpisode.text_reset_zeroes_count text voxels rng e) as Hc.
  pose proof (RolloutFacts.reset_keeps_sizes text voxels rng
                (TextConditioned3DEnv.local_size e)
                (TextConditioned3DEnv.num_agents e) e (conj eq_refl eq_refl)) as Hsz.
  rewrite Hr in He1, Hc, Hsz. simpl in He1, Hc, Hsz. destruct Hsz as [Hl1 Hn1].
  destruct (RolloutFacts.episode_loop_finishes policy half Hh fuel 0%nat o [] e1 0)
    as (more & out & e2 & Hrun & Hlast & Hmore & Hcnt & Hle);
    [done|done|by rewrite Hl1|done|lia|simpl; lia|by rewrite Hlo, Hn1|].
  rewrite Hrun. simpl.
  exists (more ++ [out]), e2. split; [done|].
  rewrite length_app. simpl. split; [lia|]. split; [lia|].
  by exists more, out.
Qed.

Lemma text_rollout_terminates_witness :
  exists log e',
    TrainTextConditioned.train_episode_rollout (fun t i o => Z.of_nat (t + i)) 150
      (Some "tower"%string) (Some [Voxel 2 0 2; Voxel 2 1 2])
      (fun _ => (1, 3)) text_fresh
    = (inr (Some log), e') /\
    (1 <= length log <= 150)%nat.
Proof.
  assert (Hn : 0 < TextConditioned3DEnv.grid_size text_fresh)
    by (rewrite text_fresh_grid_size; lia).
  assert (Hl : TextConditioned3DEnv.local_size text_fresh = 2 * 1 + 1)
    by reflexivity.
  assert (Hh : 0 <= 1 < 1000) by lia.
  assert (Hf : (150 <= 150)%nat) by lia.
  destruct (text_rollout_terminates (fun t i o => Z.of_nat (t + i))
              (Some "tower"%string) (Some [Voxel 2 0 2; Voxel 2 1 2])
              (fun _ => (1, 3)) text_fresh 1 150 text_fresh_wf Hn Hl Hh Hf)
    as (log & e' & Hrun & Hlen & _).
  exists log, e'. split; [exact Hrun|exact Hlen].
Defined.

(** * The scent field *)

Section ScentRange.
Local Open Scope R_scope.

Let unit_range (v : R) : Prop := 0 <= v <= 1.

Lemma all_cells_tab3 {A} (P : A -> Prop) n (f : nat -> nat -> nat -> A) :
  (forall x y z, (x < n)%nat -> (y < n)%nat -> (z < n)%nat -> P (f x y z)) ->
  all_cells P (tab3 n f).
Proof using Type.
  intros H x y z v Hc.
  destruct (cell_lt _ n _ _ _ _ (tab3_shape n f) Hc) as (Hx & Hy & Hz).
  rewrite cell_tab3 in Hc by done. injection Hc as <-. by apply H.
Qed.

Lemma all_cells_map3 {A B} (P : B -> Prop) (Q : A -> Prop) (f : A -> B) a :
  all_cells Q a -> (forall v, Q v -> P (f v)) -> all_cells P (map3 f a).
Proof using Type.
  intros Ha Hf x y z v Hc. rewrite cell_map3 in Hc.
  destruct (cell a x y z) as [w|] eqn:E; [|done]. injection Hc as <-.
  apply Hf. by eapply Ha.
Qed.

Lemma at3_unit (a : rvol) x y z :
  all_cells unit_range a -> unit_range (at3 a x y z).
Proof using Type.
  intros Ha. unfold at3. fold (cell a x y z).
  destruct (cell a x y z) as [v|] eqn:E; simpl.
  - by eapply Ha.
  - unfold unit_range. lra.
Qed.

(** *** The kernel is a set of non-negative weights that sum to 1 *)

Lemma phi_pos k : 0 < phi k.
Proof using Type. unfold phi. apply exp_pos. Qed.

Lemma Rsum_phi_pos : 0 < Rsum (map phi taps).
Proof using Type.
  assert (taps = [-2; -1; 0; 1; 2]%Z) as -> by (vm_compute; reflexivity).
  simpl.
  pose proof (phi_pos (-2)). pose proof (phi_pos (-1)). pose proof (phi_pos 0).
  pose proof (phi_pos 1). pose proof (phi_pos 2). lra.
Qed.

Lemma weight_nonneg k : 0 <= weight k.
Proof using Type.
  unfold weight. apply Rlt_le, Rdiv_lt_0_compat; [apply phi_pos|apply Rsum_phi_pos].
Qed.

Lemma Rsum_div (f : Z -> R) c l :
  Rsum (map (fun k => f k / c) l) = Rsum (map f l) / c.
Proof using Type.
  induction l as [|k l IH]; simpl; [lra|]. rewrite IH. lra.
Qed.

Lemma weights_sum_to_one : Rsum (map weight taps) = 1.
Proof using Type.
  unfold weight. rewrite Rsum_div.
  pose proof Rsum_phi_pos. field. lra.
Qed.

Lemma Rsum_convex (w v : Z -> R) l :
  (forall k, 0 <= w k) -> (forall k, 0 <= v k <= 1) ->
  0 <= Rsum (map (fun k => w k * v k) l) <= Rsum (map w l).
Proof using Type.
  intros Hw Hv. induction l as [|k l IH]; simpl; [lra|].
  specialize (Hw k). specialize (Hv k). nra.
Qed.

(** A weighted mean of values of [[0, 1]] lies in [[0, 1]]. *)
Lemma filtered_unit (v : Z -> R) :
  (forall k, unit_range (v k)) ->
  unit_range (Rsum (map (fun k => weight k * v k) taps)).
Proof using Type.
  intros Hv. unfold unit_range.
  pose proof (Rsum_convex weight v taps weight_nonneg Hv) as H.
  rewrite weights_sum_to_one in H. exact H.
Qed.

Lemma gaussian_filter_unit (a : rvol) :
  all_cells unit_range a -> all_cells unit_range (gaussian_filter a).
Proof using Type.
  intros Ha. unfold gaussian_filter.
  assert (H0 : all_cells unit_range (correlate_axis0 a)).
  { apply all_cells_tab3. intros x y z _ _ _.
    apply (filtered_unit (fun k => at3 a (reflect (length a) (Z.of_nat x + k)) y z)).
    intros k. by apply at3_unit. }
  assert (H1 : all_cells unit_range (correlate_axis1 (correlate_axis0 a))).
  { apply all_cells_tab3. intros x y z _ _ _.
    apply (filtered_unit (fun k => at3 (correlate_axis0 a) x
                                    (reflect (length (correlate_axis0 a))
                                             (Z.of_nat y + k)) z)).
    intros k. by apply at3_unit. }
  apply all_cells_tab3. intros x y z _ _ _.
  apply (filtered_unit
           (fun k => at3 (correlate_axis1 (correlate_axis0 a)) x y
                       (reflect (length (correlate_axis1 (correlate_axis0 a)))
                                (Z.of_nat z + k)))).
  intros k. by apply at3_unit.
Qed.

(** *** Distances and their maximum *)

Lemma fold_left_Rmax_ge l a :
  a <= fold_left Rmax l a /\ Forall (fun x => x <= fold_left Rmax l a) l.
Proof using Type.
  revert a. induction l as [|x l IH]; intros a; simpl.
  { split; [lra|constructor]. }
  destruct (IH (Rmax a x)) as [H1 H2].
  pose proof (Rmax_l a x). pose proof (Rmax_r a x).
  split; [lra|]. constructor; [lra|done].
Qed.

Lemma cell_in_flatten3 {A} (a : arr3 A) x y z v :
  cell a x y z = Some v -> v ∈ flatten3 a.
Proof using Type.
  unfold cell, flatten3. intros H.
  destruct (a !! x) as [p|] eqn:Ep; [|done]. simpl in H.
  destruct (p !! y) as [r|] eqn:Er; [|done]. simpl in H.
  apply list_elem_of_In, in_concat. exists r. split.
  - apply in_concat. exists p.
    split; apply list_elem_of_In; by eapply list_elem_of_lookup_2.
  - apply list_elem_of_In. by eapply list_elem_of_lookup_2.
Qed.

Lemma np_max_bounds (a : rvol) m :
  np_max a = Some m -> all_cells (fun v => v <= m) a.
Proof using Type.
  unfold np_max. intros H x y z v Hc. apply cell_in_flatten3 in Hc.
  destruct (flatten3 a) as [|v0 l]; [done|]. injection H as <-.
  destruct (fold_left_Rmax_ge l v0) as [H1 H2].
  apply elem_of_cons in Hc as [->|Hc]; [done|].
  rewrite Forall_forall in H2. by apply H2.
Qed.

Lemma distance_nonneg (a : vol) :
  all_cells (fun v => 0 <= v) (distance_transform_edt a).
Proof using Type.
  unfold distance_transform_edt. apply all_cells_tab3.
  intros x y z _ _ _. apply sqrt_pos.
Qed.

Lemma generate_scent_field_unit e :
  all_cells (fun v => v = 0%Z \/ v = 1%Z) (TextConditioned3DEnv.target e) ->
  fst (TextConditioned3DEnv._generate_scent_field e) = inr tt ->
  all_cells unit_range
    (TextConditioned3DEnv.scent_field
       (snd (TextConditioned3DEnv._generate_scent_field e))).
Proof using Type.
  intros Hb. unfold TextConditioned3DEnv._generate_scent_field.
  unfold bind at 1, gets at 1. unfold bind at 2, gets at 1.
  set (dm := distance_transform_edt _).
  unfold bind at 1. unfold bind at 1.
  destruct (np_max dm) as [m|] eqn:Em; simpl; [|done]. intros _.
  apply gaussian_filter_unit.
  destruct (Rlt_dec 0 m) as [Hm|Hm].
  - pose proof (np_max_bounds dm m Em) as Hle.
    pose proof (distance_nonneg
                  (map3 (fun v => (1 - v)%Z) (TextConditioned3DEnv.target e))) as Hge.
    fold dm in Hge.
    intros x y z v Hc. rewrite cell_map3 in Hc.
    destruct (cell dm x y z) as [d|] eqn:Ed; [|done]. injection Hc as <-.
    specialize (Hle x y z d Ed). specialize (Hge x y z d Ed). simpl in Hle, Hge.
    unfold unit_range.
    assert (0 <= d / m <= 1); [|lra]. split.
    + apply Rmult_le_pos; [done|]. apply Rlt_le. by apply Rinv_0_lt_compat.
    + apply (Rmult_le_reg_r m); [done|]. field_simplify; lra.
  - eapply all_cells_map3; [exact Hb|].
    intros v [-> | ->]; unfold unit_range; simpl; lra.
Qed.
End ScentRange.

Lemma load_training_pair_as_scent text voxels e :
  text_wf e ->
  TextConditioned3DEnv.load_training_pair text voxels e
  = TextConditioned3DEnv._generate_scent_field
      (TextConditioned3DEnv.with_target
         (fold_left (paint_voxel (TextConditioned3DEnv.grid_size e)) voxels
                    (fill3 0 (TextConditioned3DEnv.target e)))
         (TextConditioned3DEnv.with_text text e)).
Proof.
  intros [Hs _ _ Ht _ _ _ _ _]. unfold TextConditioned3DEnv.load_training_pair.
  unfold bind at 1, modify at 1. unfold bind at 1, modify at 1.
  unfold bind at 1.
  rewrite (TextLoad.voxel_loop_run (TextConditioned3DEnv.grid_size e));
    [done|done|lia|by apply fill3_shape].
Qed.

(** X23.  The scent field lies in [[0, 1]].  After [load_training_pair] on
    a well-formed environment with a non-empty grid, every value of the
    scent field is between 0 and 1, in exact arithmetic: the normalised
    inverted distances are, and the Gaussian filter replaces every value
    by a weighted mean with non-negative weights that sum to 1. *)
Theorem scent_field_is_in_unit_range e text voxels :
  text_wf e -> 0 < TextConditioned3DEnv.grid_size e ->
  fst (TextConditioned3DEnv.load_training_pair text voxels e) = inr tt /\
  all_cells (fun v => (0 <= v <= 1)%R)
    (TextConditioned3DEnv.scent_field
       (snd (TextConditioned3DEnv.load_training_pair text voxels e))).
Proof.
  intros He Hn.
  destruct (TextLoad.load_training_pair_run text voxels e He Hn) as [sc Hr].
  assert (Hfst : fst (TextConditioned3DEnv.load_training_pair text voxels e) = inr tt)
    by (by rewrite Hr).
  split; [exact Hfst|].
  rewrite load_training_pair_as_scent in Hfst |- * by done.
  apply generate_scent_field_unit; [|exact Hfst]. simpl.
  apply fold_paint_binary. apply all_cells_fill3. by left.
Qed.

Lemma scent_field_is_in_unit_range_witness :
  fst (TextConditioned3DEnv.load_training_pair "tower"
         [Voxel 2 0 2; Voxel 2 1 2] text_fresh) = inr tt /\
  all_cells (fun v => (0 <= v <= 1)%R)
    (TextConditioned3DEnv.scent_field
       (snd (TextConditioned3DEnv.load_training_pair "tower"
               [Voxel 2 0 2; Voxel 2 1 2] text_fresh))).
Proof.
  assert (Hn : 0 < TextConditioned3DEnv.grid_size text_fresh)
    by (rewrite text_fresh_grid_size; lia).
  exact (scent_field_is_in_unit_range text_fresh "tower"
           [Voxel 2 0 2; Voxel 2 1 2] text_fresh_wf Hn).
Defined.

(** * Placing, picking up and moving in the text-conditioned environment *)

(** X24.  Block actions of the text-conditioned environment, in any state
    of an episode.  Place (6) by an agent that holds a block sets the cell
    under the agent to 1, leaves every other cell alone and clears the
    flag; by an empty-handed agent it does nothing.  Pickup (7) by an
    empty-handed agent on an empty cell sets the flag and leaves the grid
    alone (no block is removed from the grid); on an occupied cell, or by
    an agent that holds a block, it does nothing. *)
Theorem text_block_actions e i p :
  text_reachable e ->
  TextConditioned3DEnv.agent_positions e !! i = Some p ->
  let x := Z.to_nat (c0 p) in
  let y := Z.to_nat (c1 p) in
  let z := Z.to_nat (c2 p) in
  let hs := TextConditioned3DEnv.agent_has_block e in
  (hs !! i = Some true ->
   (exists g',
      TextConditioned3DEnv.act i 6 e
      = (inr tt, TextConditioned3DEnv.with_has_block (<[i := false]> hs)
                   (TextConditioned3DEnv.with_grid g' e)) /\
      cell g' x y z = Some 1 /\
      forall x' y' z', (x', y', z') <> (x, y, z) ->
        cell g' x' y' z' = cell (TextConditioned3DEnv.grid e) x' y' z') /\
   TextConditioned3DEnv.act i 7 e = (inr tt, e)) /\
  (hs !! i = Some false ->
   TextConditioned3DEnv.act i 6 e = (inr tt, e) /\
   (cell (TextConditioned3DEnv.grid e) x y z = Some 0 ->
    TextConditioned3DEnv.act i 7 e
    = (inr tt, TextConditioned3DEnv.with_has_block (<[i := true]> hs) e)) /\
   (forall v, cell (TextConditioned3DEnv.grid e) x y z = Some v -> 0 < v ->
    TextConditioned3DEnv.act i 7 e = (inr tt, e))).
Proof.
  intros Hr Hp x y z hs.
  destruct (TextFacts.reachable_wf_in_bounds e Hr) as [He Hin].
  assert (Hc : in_cube (TextConditioned3DEnv.grid_size e) p).
  { unfold text_in_bounds in Hin. rewrite Forall_lookup in Hin. by eapply Hin. }
  split.
  - intros Hh. split.
    + destruct (text_place_holding e i p He Hp Hc Hh) as (g' & Ha & H1 & Ho & _).
      exists g'. done.
    + apply (text_pickup_otherwise e i p He Hp Hc). by left.
  - intros Hh. split; [by apply (text_place_empty_handed e i p)|]. split.
    + intros H0. by destruct (text_pickup_free_cell e i p He Hp Hc Hh H0).
    + intros v Hv Hpos. apply (text_pickup_otherwise e i p He Hp Hc).
      right. split; [done|]. by exists v.
Qed.

Lemma text_block_actions_witness :
  exists g',
    TextConditioned3DEnv.act 0 6 text_started
    = (inr tt, TextConditioned3DEnv.with_has_block
                 (<[0%nat := false]> (TextConditioned3DEnv.agent_has_block text_started))
                 (TextConditioned3DEnv.with_grid g' text_started)) /\
    cell g' 0 0 0 = Some 1.
Proof.
  assert (Hp : TextConditioned3DEnv.agent_positions text_started !! 0%nat
               = Some (XYZ 0 0 0)) by (vm_compute; reflexivity).
  assert (Hh : TextConditioned3DEnv.agent_has_block text_started !! 0%nat
               = Some true) by (vm_compute; reflexivity).
  pose proof (text_block_actions text_started 0 (XYZ 0 0 0)
                text_started_reachable Hp) as H.
  cbv zeta in H. destruct H as [H _].
  destruct (H Hh) as [(g' & Ha & Hc & _) _].
  exists g'. split; [exact Ha|exact Hc].
Defined.

(** ** One cell per step *)

Module TextMoves.
Import TextConditioned3DEnv.

Lemma cells_apart_refl p : cells_apart p p = 0.
Proof. unfold cells_apart. lia. Qed.

(** The action of agent [i] leaves the other agents where they are and
    moves agent [i] by one cell at most. *)
Lemma act_moves_one i a e j p p' :
  text_wf e -> text_in_bounds e ->
  agent_positions e !! j = Some p ->
  agent_positions (snd (act i a e)) !! j = Some p' ->
  (j <> i -> p' = p) /\ cells_apart p p' <= 1.
Proof.
  intros [Hs _ _ _ _ _ _ _ _] Hin Hp.
  assert (Hc : in_cube (grid_size e) p).
  { unfold text_in_bounds in Hin. rewrite Forall_lookup in Hin. by eapply Hin. }
  assert (Hsame : agent_positions e !! j = Some p' ->
                  (j <> i -> p' = p) /\ cells_apart p p' <= 1).
  { intros Hp'. rewrite Hp in Hp'. injection Hp' as <-.
    rewrite cells_apart_refl. split; [done|lia]. }
  unfold act. TextFacts.run_m; try exact Hsame.
  all: intros Hp'.
  all: destruct (decide (j = i)) as [->|Hne];
    [|rewrite list_lookup_alter_ne in Hp' by done; by apply Hsame].
  all: rewrite list_lookup_alter_eq, Hp in Hp'; simpl in Hp'; injection Hp' as <-.
  all: split; [done|].
  all: clear Hsame; simplify_eq; TextFacts.guards.
  all: destruct Hc as (?&?&?); unfold cells_apart; simpl.
  all: rewrite wrap32_small by lia; lia.
Qed.

Lemma act_keeps_length i a e :
  length (agent_positions (snd (act i a e))) = length (agent_positions e).
Proof. unfold act. TextFacts.run_m; try done; by rewrite length_alter. Qed.

(** The agent loop over distinct agents moves each of them by one cell at
    most and leaves the others where they are. *)
Lemma loop_moves_one (body_actions : list Z) l :
  NoDup l ->
  forall e j p p',
    text_wf e -> text_in_bounds e ->
    agent_positions e !! j = Some p ->
    agent_positions
      (snd (for_each l (fun i =>
              action <~ lift KeyError (body_actions !! i) ;; act i action) e))
    !! j = Some p' ->
    (j ∉ l -> p' = p) /\ cells_apart p p' <= 1.
Proof.
  induction 1 as [|i l Hi Hnd IH]; intros e j p p' He Hin Hp Hp'; simpl in Hp'.
  { rewrite Hp in Hp'. injection Hp' as <-. rewrite cells_apart_refl.
    split; [done|lia]. }
  unfold bind at 1 in Hp'. unfold bind at 1 in Hp'.
  destruct (body_actions !! i) as [a|] eqn:Ea; simpl in Hp'.
  2:{ rewrite Hp in Hp'. injection Hp' as <-. rewrite cells_apart_refl.
      split; [done|lia]. }
  pose proof (TextFacts.text_act_keeps_in_bounds i a e (conj He Hin)) as [He1 Hin1].
  pose proof (act_keeps_length i a e) as Hlen.
  destruct (act i a e) as [[ex|[]] e1] eqn:Hact; simpl in *.
  - destruct (act_moves_one i a e j p p' He Hin Hp) as [H1 H2];
      [by rewrite Hact|].
    split; [|done]. intros Hj. apply H1. intros ->. apply Hj. by left.
  - destruct (lookup_lt_is_Some_2 (agent_positions e1) j) as [p1 Hp1].
    { rewrite Hlen. by eapply lookup_lt_Some. }
    destruct (act_moves_one i a e j p p1 He Hin Hp) as [H1 H2];
      [by rewrite Hact|].
    destruct (IH e1 j p1 p' He1 Hin1 Hp1 Hp') as [H3 H4].
    split.
    + intros Hj. apply not_elem_of_cons in Hj as [Hji Hjl].
      rewrite (H3 Hjl). by apply H1.
    + destruct (decide (j = i)) as [->|Hne].
      * rewrite (H3 Hi). exact H2.
      * rewrite <- (H1 Hne). exact H4.
Qed.

End TextMoves.

(** X25.  One cell per step.  In an episode of the text-conditioned
    environment a call of [step], returning or raising, moves every agent
    by at most one cell along one axis: no agent jumps, wraps around or is
    moved by another agent's action. *)
Theorem text_agents_move_one_cell_per_step e actions j p p' :
  text_reachable e ->
  TextConditioned3DEnv.agent_positions e !! j = Some p ->
  TextConditioned3DEnv.agent_positions
    (snd (TextConditioned3DEnv.step actions e)) !! j = Some p' ->
  cells_apart p p' <= 1.
Proof.
  intros Hr Hp Hp'.
  destruct (TextFacts.reachable_wf_in_bounds e Hr) as [He Hin].
  rewrite TextFacts.text_step_state in Hp'.
  unfold TextConditioned3DEnv.agent_loop in Hp'.
  eapply (TextMoves.loop_moves_one actions
            (seq 0 (TextConditioned3DEnv.num_agents e)) (NoDup_seq _ _)
            (TextConditioned3DEnv.with_step_count
               (TextConditioned3DEnv.step_count e + 1) e) j p p');
    [by destruct He; constructor|exact Hin|exact Hp|exact Hp'].
Qed.

Lemma text_agents_move_one_cell_per_step_witness :
  cells_apart (XYZ 0 0 0) (XYZ 1 0 0) <= 1.
Proof.
  assert (Hp : TextConditioned3DEnv.agent_positions text_started !! 0%nat
               = Some (XYZ 0 0 0)) by (vm_compute; reflexivity).
  assert (Hp' : TextConditioned3DEnv.agent_positions
                  (snd (TextConditioned3DEnv.step [2; 4] text_started)) !! 0%nat
                = Some (XYZ 1 0 0)) by (vm_compute; reflexivity).
  exact (text_agents_move_one_cell_per_step text_started [2; 4] 0
           (XYZ 0 0 0) (XYZ 1 0 0) text_started_reachable Hp Hp').
Defined.

(** * The training rollout of the global environment *)

Section RaisesOnly.
Context {S : Type}.
Variable ex : exn.

Lemma raises_only_ret {A} (a : A) : raises_only ex (@ret S A a).
Proof. by intros s ex' s' H. Qed.

Lemma raises_only_gets {A} (f : S -> A) : raises_only ex (gets f).
Proof. by intros s ex' s' H. Qed.

Lemma raises_only_modify (f : S -> S) : raises_only ex (modify f).
Proof. by intros s ex' s' H. Qed.

Lemma raises_only_lift {A} (o : option A) : raises_only ex (@lift S A ex o).
Proof.
  intros s ex' s' H. destruct o; unfold lift, ret, raise in H; by simplify_eq.
Qed.

Lemma raises_only_bind {A B} (m : M S A) (k : A -> M S B) :
  raises_only ex m -> (forall a, raises_only ex (k a)) ->
  raises_only ex (bind m k).
Proof.
  intros Hm Hk s ex' s' H. unfold bind in H.
  destruct (m s) as [[e1|a] s1] eqn:E.
  - simplify_eq. by eapply Hm.
  - by eapply Hk.
Qed.

Lemma raises_only_for_each {X} (l : list X) (body : X -> M S unit) :
  (forall x, x ∈ l -> raises_only ex (body x)) ->
  raises_only ex (for_each l body).
Proof.
  induction l as [|x l IH]; intros Hb; simpl; [apply raises_only_ret|].
  apply raises_only_bind; [apply Hb; by left|]. intros _.
  apply IH. intros y Hy. apply Hb. by right.
Qed.

Lemma raises_only_for_collect {X A} (l : list X) (body : X -> M S A) :
  (forall x, x ∈ l -> raises_only ex (body x)) ->
  raises_only ex (for_collect l body).
Proof.
  induction l as [|x l IH]; intros Hb; simpl; [apply raises_only_ret|].
  apply raises_only_bind; [apply Hb; by left|]. intros a.
  apply raises_only_bind; [|intros r; apply raises_only_ret].
  apply IH. intros y Hy. apply Hb. by right.
Qed.
End RaisesOnly.

Module TrainFacts.
Import SwarmConstructionEnv Train.

Lemma act_raises_index i a : raises_only IndexError (act i a).
Proof.
  unfold act, position_of, has_block_of, grid_at.
  apply raises_only_bind; [intros s; apply raises_only_lift|]. intros pos.
  apply raises_only_bind; [apply raises_only_gets|]. intros n.
  repeat case_match;
    repeat first
      [ apply raises_only_modify | apply raises_only_ret
      | apply raises_only_gets | apply raises_only_lift
      | (intros s; apply raises_only_lift)
      | apply raises_only_bind; [|intros ?]
      | case_match ].
Qed.

Lemma get_observations_raises_index : raises_only IndexError _get_observations.
Proof.
  unfold _get_observations, position_of, has_block_of.
  apply raises_only_bind; [apply raises_only_gets|]. intros na.
  apply raises_only_for_collect. intros i _.
  apply raises_only_bind; [intros s; apply raises_only_lift|]. intros pos.
  apply raises_only_bind; [apply raises_only_gets|]. intros n.
  apply raises_only_bind; [apply raises_only_gets|]. intros g.
  apply raises_only_bind; [intros s; apply raises_only_lift|]. intros hb.
  apply raises_only_bind; [apply raises_only_gets|]. intros t.
  apply raises_only_ret.
Qed.

(** With an action for every agent, [step] raises nothing but
    [IndexError]. *)
Lemma step_raises_index actions e ex e' :
  (num_agents e <= length actions)%nat ->
  step actions e = (inl ex, e') -> ex = IndexError.
Proof.
  intros Hla. unfold step.
  unfold bind at 1, modify at 1. unfold bind at 1, gets at 1.
  cbn [num_agents with_step_count].
  apply raises_only_bind.
  - unfold agent_loop. apply raises_only_for_each. intros i Hi.
    apply elem_of_seq in Hi.
    destruct (lookup_lt_is_Some_2 actions i) as [a Ha]; [lia|].
    rewrite Ha. apply raises_only_bind; [by intros s ex' s' H|].
    intros a'. apply act_raises_index.
  - intros _.
    apply raises_only_bind; [apply raises_only_gets|]. intros rw.
    apply raises_only_bind; [apply raises_only_gets|]. intros d.
    apply raises_only_bind; [apply raises_only_gets|]. intros ms.
    apply raises_only_bind; [apply get_observations_raises_index|]. intros o.
    apply raises_only_ret.
Qed.

Lemma step_obs_length actions e out e1 :
  swarm_reachable e -> step actions e = (inr out, e1) ->
  length (obs out) = num_agents e1.
Proof.
  intros Hr Hs.
  assert (Hr1 : swarm_reachable e1) by (by eapply swarm_reach_step).
  apply SwarmFacts.reachable_good in Hr1.
  unfold step in Hs.
  apply bind_returns in Hs as ([] & s1 & _ & Hs).
  apply bind_returns in Hs as (na & s2 & _ & Hs).
  apply bind_returns in Hs as ([] & s3 & _ & Hs).
  apply bind_returns in Hs as (rw & s4 & Hrw & Hs).
  apply bind_returns in Hs as (d & s5 & Hd & Hs).
  apply bind_returns in Hs as (ms & s6 & Hms & Hs).
  apply bind_returns in Hs as (o & s7 & Ho & Hs).
  unfold gets in Hrw, Hd, Hms. unfold ret in Hs. simplify_eq.
  pose proof (SwarmFacts.swarm_pure_get_observations s6) as Hp.
  rewrite Ho in Hp. simpl in Hp. subst e1.
  by destruct (swarm_observation_lengths s6 o s6 Hr1 Ho) as [H1 _].
Qed.

Lemma done_at_limit actions e out e1 :
  swarm_reachable e -> step actions e = (inr out, e1) ->
  done out = (150 <=? step_count e1).
Proof.
  intros Hr Hs.
  assert (Hr1 : swarm_reachable e1) by (by eapply swarm_reach_step).
  destruct (SwarmEpisode.swarm_step_returns actions e out e1 Hs) as (_ & _ & Hd).
  apply SwarmFacts.reachable_good in Hr1 as [[Hwf _] Hf].
  destruct (swarm_idle_counts e1 Hf) as [Hc _].
  rewrite Hd. unfold match_score_of. rewrite Hc.
  destruct Hwf as [_ -> _ _ _]. unfold true_divide.
  destruct (total_target e1 =? 0); simpl; by rewrite orb_false_r.
Qed.

Section Loop.
Variable policy : nat -> nat -> list R -> Z.

Lemma swarm_choose_actions_returns t obs_dict e :
  length obs_dict = num_agents e ->
  exists actions,
    choose_actions policy t obs_dict e = (inr actions, e) /\
    length actions = num_agents e.
Proof.
  intros Hlen. unfold choose_actions. unfold bind at 1, gets at 1.
  destruct (for_collect_returns (seq 0 (num_agents e))
              (fun i => o <~ lift KeyError (obs_dict !! i) ;; ret (policy t i o)) e)
    as [actions Ha].
  - intros i Hi. apply elem_of_seq in Hi.
    destruct (lookup_lt_is_Some_2 obs_dict i) as [o Ho]; [lia|].
    eexists. unfold bind, lift, ret. by rewrite Ho.
  - exists actions. split; [done|].
    apply for_collect_length in Ha. by rewrite length_seq in Ha.
Qed.

(** From a reachable state with [c] steps taken, the loop either raises
    [IndexError] or runs until the step limit. *)
Lemma episode_loop_outcome fuel :
  forall t obs_dict log e c,
    swarm_reachable e ->
    step_count e = c -> 0 <= c < 150 ->
    (Z.to_nat (150 - c) <= fuel)%nat ->
    length obs_dict = num_agents e ->
    (exists e', episode_loop policy fuel t obs_dict log e = (inl IndexError, e')) \/
    (exists more e',
       episode_loop policy fuel t obs_dict log e = (inr (Some (log ++ more)), e') /\
       Z.of_nat (length more) = 150 - c /\
       step_count e' = 150).
Proof.
  induction fuel as [|fuel IH]; intros t obs_dict log e c Hr Hc Hc150 Hf Hlen.
  { lia. }
  destruct (swarm_choose_actions_returns t obs_dict e Hlen) as (actions & Ha & Hla).
  assert (Hrun : episode_loop policy (S fuel) t obs_dict log e
                 = match step actions e with
                   | (inl ex, e1) => (inl ex, e1)
                   | (inr out, e1) =>
                       if done out then (inr (Some (log ++ [out])), e1)
                       else episode_loop policy fuel (S t) (obs out) (log ++ [out]) e1
                   end).
  { simpl. unfold bind at 1. rewrite Ha. unfold bind at 1.
    destruct (step actions e) as [[ex|out] e1]; [done|].
    by destruct (done out). }
  rewrite Hrun. clear Hrun.
  destruct (step actions e) as [[ex|out] e1] eqn:Hs.
  { left. exists e1. f_equal. f_equal. eapply step_raises_index; [|exact Hs]. lia. }
  pose proof (SwarmFacts.reachable_good e Hr) as [[[_ Hmax _ _ _] _] _].
  pose proof (SwarmEpisode.swarm_step_increments actions e Hmax) as [Hinc _].
  rewrite Hs in Hinc. simpl in Hinc.
  rewrite (done_at_limit actions e out e1 Hr Hs).
  destruct (150 <=? step_count e1) eqn:Hd.
  - apply Z.leb_le in Hd. right. exists [out], e1. simpl.
    split; [done|]. lia.
  - apply Z.leb_gt in Hd.
    assert (Hr1 : swarm_reachable e1) by (by eapply swarm_reach_step).
    destruct (IH (S t) (obs out) (log ++ [out]) e1 (c + 1) Hr1)
      as [H|(more & e2 & H1 & H2 & H3)];
      [lia|lia|lia|exact (step_obs_length actions e out e1 Hr Hs)|by left|].
    right. exists (out :: more), e2. rewrite H1, <- app_assoc. simpl.
    split; [done|]. split; [lia|done].
Qed.
End Loop.

End TrainFacts.

(** X26.  The training rollout of the global environment never ends by
    success.  For any policy whose [act] returns an action, on a grid of
    side 7 or more, the rollout of [train_episode] in train.py either
    raises [IndexError] (an agent placed a block, or climbed from height
    1) or makes exactly 150 calls of [step]: the [while not done] loop is
    left by the step limit only. *)
Theorem swarm_rollout_never_succeeds policy rng trng e fuel :
  swarm_reachable e ->
  7 <= SwarmConstructionEnv.grid_size e <= 1000000 ->
  (150 <= fuel)%nat ->
  let r := Train.train_episode_rollout policy fuel rng trng e in
  fst r = inl IndexError \/
  exists log,
    fst r = inr (Some log) /\ length log = 150%nat /\
    SwarmConstructionEnv.step_count (snd r) = 150.
Proof.
  intros Hr Hn Hfuel r. subst r.
  unfold Train.train_episode_rollout.
  pose proof (SwarmFacts.reachable_good e Hr) as [[[_ _ _ Hlp _] _] _].
  destruct (SwarmTotal.reset_run rng trng e Hlp Hn)
    as (o & ps & t & Hlen & Ht & Hrun).
  assert (Hr1 : swarm_reachable (snd (SwarmConstructionEnv.reset rng trng e))).
  { eapply swarm_reach_reset; [exact Hr|]. apply surjective_pairing. }
  assert (Hlo : length o
                = SwarmConstructionEnv.num_agents
                    (snd (SwarmConstructionEnv.reset rng trng e))).
  { pose proof Hrun as Hrun'. unfold SwarmConstructionEnv.reset in Hrun'.
    apply bind_returns in Hrun' as (n & s1 & _ & H).
    apply bind_returns in H as (zeros & s2 & _ & H).
    apply bind_returns in H as ([] & s3 & _ & H).
    apply bind_returns in H as ([] & s4 & _ & H).
    apply bind_returns in H as (na & s5 & _ & H).
    apply bind_returns in H as ([] & s6 & _ & H).
    apply bind_returns in H as ([] & s7 & _ & H).
    apply bind_returns in H as (t' & s8 & _ & H).
    apply bind_returns in H as ([] & s9 & _ & H).
    pose proof (SwarmFacts.swarm_pure_get_observations s9) as Hp.
    rewrite H in Hp. simpl in Hp. subst s9.
    unfold SwarmConstructionEnv._get_observations in H.
    unfold bind at 1, gets at 1 in H.
    apply for_collect_length in H. rewrite length_seq in H.
    rewrite Hrun. simpl. exact H. }
  unfold bind. rewrite Hrun in Hr1, Hlo |- *. simpl in Hr1, Hlo.
  destruct (TrainFacts.episode_loop_outcome policy fuel 0%nat o [] _ 0 Hr1)
    as [[e' H]|(more & e' & H1 & H2 & H3)];
    [done|lia|simpl; lia|exact Hlo| |].
  - left. by rewrite H.
  - right. exists more. rewrite H1. simpl. split; [done|]. split; [lia|done].
Qed.

Lemma swarm_rollout_never_succeeds_witness :
  fst (Train.train_episode_rollout (fun t i o => 6) 150
         (fun _ => (1, 3)) (fun _ => 1) swarm_started) = inl IndexError \/
  exists log,
    fst (Train.train_episode_rollout (fun t i o => 6) 150
           (fun _ => (1, 3)) (fun _ => 1) swarm_started) = inr (Some log) /\
    length log = 150%nat /\
    SwarmConstructionEnv.step_count
      (snd (Train.train_episode_rollout (fun t i o => 6) 150
              (fun _ => (1, 3)) (fun _ => 1) swarm_started)) = 150.
Proof.
  assert (Hn : 7 <= SwarmConstructionEnv.grid_size swarm_started <= 1000000)
    by (rewrite swarm_started_grid_size; lia).
  assert (Hf : (150 <= 150)%nat) by lia.
  exact (swarm_rollout_never_succeeds (fun t i o => 6) (fun _ => (1, 3))
           (fun _ => 1) swarm_started 150 swarm_started_reachable Hn Hf).
Defined.

(** * C7: the scent field of an empty target *)

Section ScentSmoothing.
Local Open Scope R_scope.

Lemma at3_cell (a : rvol) x y z v : cell a x y z = Some v -> at3 a x y z = v.
Proof using Type. unfold at3. fold (cell a x y z). by intros ->. Qed.

Lemma cell_at3 (a : rvol) n x y z :
  shape3 n a -> (x < n)%nat -> (y < n)%nat -> (z < n)%nat ->
  cell a x y z = Some (at3 a x y z).
Proof using Type.
  intros Ha Hx Hy Hz.
  destruct (cell_is_Some a n x y z Ha Hx Hy Hz) as [v Hv].
  by rewrite (at3_cell a x y z v Hv).
Qed.

Lemma at3_tab3 n (f : nat -> nat -> nat -> R) x y z :
  (x < n)%nat -> (y < n)%nat -> (z < n)%nat -> at3 (tab3 n f) x y z = f x y z.
Proof using Type. intros. apply at3_cell. by apply cell_tab3. Qed.

Lemma weight_pos k : 0 < weight k.
Proof using Type.
  unfold weight. apply Rdiv_lt_0_compat; [apply phi_pos|apply Rsum_phi_pos].
Qed.

(** A filtered value is at least the share of the centre tap. *)
Lemma Rsum_taps_ge (v : Z -> R) :
  (forall k, 0 <= v k) ->
  weight 0 * v 0%Z <= Rsum (map (fun k => weight k * v k) taps).
Proof using Type.
  intros Hv.
  assert (taps = [-2; -1; 0; 1; 2]%Z) as -> by (vm_compute; reflexivity).
  simpl.
  pose proof (Rmult_le_pos _ _ (weight_nonneg (-2)) (Hv (-2)%Z)).
  pose proof (Rmult_le_pos _ _ (weight_nonneg (-1)) (Hv (-1)%Z)).
  pose proof (Rmult_le_pos _ _ (weight_nonneg 1) (Hv 1%Z)).
  pose proof (Rmult_le_pos _ _ (weight_nonneg 2) (Hv 2%Z)).
  lra.
Qed.

Lemma reflect_centre n x : (x < n)%nat -> reflect n (Z.of_nat x + 0) = x.
Proof using Type.
  intros Hx. unfold reflect. rewrite Z.add_0_r, Z.mod_small by lia.
  destruct (Z.of_nat x <? Z.of_nat n)%Z eqn:E; [lia|].
  apply Z.ltb_ge in E. lia.
Qed.

Let unit_range (v : R) : Prop := 0 <= v <= 1.

Lemma correlate_axis0_unit a :
  all_cells unit_range a -> all_cells unit_range (correlate_axis0 a).
Proof using Type.
  intros Ha. apply all_cells_tab3. intros x y z _ _ _.
  apply (filtered_unit (fun k => at3 a (reflect (length a) (Z.of_nat x + k)) y z)).
  intros k. by apply at3_unit.
Qed.

Lemma correlate_axis1_unit a :
  all_cells unit_range a -> all_cells unit_range (correlate_axis1 a).
Proof using Type.
  intros Ha. apply all_cells_tab3. intros x y z _ _ _.
  apply (filtered_unit (fun k => at3 a x (reflect (length a) (Z.of_nat y + k)) z)).
  intros k. by apply at3_unit.
Qed.

Lemma correlate_axis0_ge a n x y z :
  all_cells unit_range a -> length a = n ->
  (x < n)%nat -> (y < n)%nat -> (z < n)%nat ->
  weight 0 * at3 a x y z <= at3 (correlate_axis0 a) x y z.
Proof using Type.
  intros Ha Hl Hx Hy Hz. unfold correlate_axis0. rewrite Hl.
  rewrite at3_tab3 by done.
  pose proof (Rsum_taps_ge (fun k => at3 a (reflect n (Z.of_nat x + k)) y z)) as H.
  simpl in H. rewrite reflect_centre in H by done. apply H.
  intros k. by apply at3_unit.
Qed.

Lemma correlate_axis1_ge a n x y z :
  all_cells unit_range a -> length a = n ->
  (x < n)%nat -> (y < n)%nat -> (z < n)%nat ->
  weight 0 * at3 a x y z <= at3 (correlate_axis1 a) x y z.
Proof using Type.
  intros Ha Hl Hx Hy Hz. unfold correlate_axis1. rewrite Hl.
  rewrite at3_tab3 by done.
  pose proof (Rsum_taps_ge (fun k => at3 a x (reflect n (Z.of_nat y + k)) z)) as H.
  simpl in H. rewrite reflect_centre in H by done. apply H.
  intros k. by apply at3_unit.
Qed.

Lemma correlate_axis2_ge a n x y z :
  all_cells unit_range a -> length a = n ->
  (x < n)%nat -> (y < n)%nat -> (z < n)%nat ->
  weight 0 * at3 a x y z <= at3 (correlate_axis2 a) x y z.
Proof using Type.
  intros Ha Hl Hx Hy Hz. unfold correlate_axis2. rewrite Hl.
  rewrite at3_tab3 by done.
  pose proof (Rsum_taps_ge (fun k => at3 a x y (reflect n (Z.of_nat z + k)))) as H.
  simpl in H. rewrite reflect_centre in H by done. apply H.
  intros k. by apply at3_unit.
Qed.

Lemma length_correlate_axis0 a : length (correlate_axis0 a) = length a.
Proof using Type. unfold correlate_axis0, tab3. by rewrite length_map, length_seq. Qed.

Lemma length_correlate_axis1 a : length (correlate_axis1 a) = length a.
Proof using Type. unfold correlate_axis1, tab3. by rewrite length_map, length_seq. Qed.

(** Smoothing keeps a share [weight 0 ^ 3] of every value of a field with
    values in [[0, 1]]. *)
Lemma gaussian_filter_ge a n x y z :
  all_cells unit_range a -> length a = n ->
  (x < n)%nat -> (y < n)%nat -> (z < n)%nat ->
  weight 0 * (weight 0 * (weight 0 * at3 a x y z))
  <= at3 (gaussian_filter a) x y z.
Proof using Type.
  intros Ha Hl Hx Hy Hz. unfold gaussian_filter.
  pose proof (correlate_axis0_unit a Ha) as H0.
  pose proof (correlate_axis1_unit _ H0) as H1.
  pose proof (correlate_axis0_ge a n x y z Ha Hl Hx Hy Hz) as G0.
  pose proof (correlate_axis1_ge (correlate_axis0 a) n x y z H0) as G1.
  pose proof (correlate_axis2_ge (correlate_axis1 (correlate_axis0 a)) n x y z H1) as G2.
  rewrite length_correlate_axis0 in G1.
  rewrite length_correlate_axis1, length_correlate_axis0 in G2.
  specialize (G1 Hl Hx Hy Hz). specialize (G2 Hl Hx Hy Hz).
  pose proof (weight_pos 0) as Hw.
  assert (weight 0 * (weight 0 * at3 a x y z)
          <= weight 0 * at3 (correlate_axis0 a) x y z)
    by (apply Rmult_le_compat_l; lra).
  assert (weight 0 * (weight 0 * (weight 0 * at3 a x y z))
          <= weight 0 * at3 (correlate_axis1 (correlate_axis0 a)) x y z)
    by (apply Rmult_le_compat_l; lra).
  lra.
Qed.

(** The field before smoothing has its values in [[0, 1]]. *)
Lemma inverted_distance_unit tgt m :
  all_cells (fun v => v = 0%Z \/ v = 1%Z) tgt ->
  np_max (distance_transform_edt (map3 (fun v => (1 - v)%Z) tgt)) = Some m ->
  all_cells unit_range (inverted_distance tgt m).
Proof using Type.
  intros Hb Em. unfold inverted_distance.
  set (dm := distance_transform_edt _) in *.
  destruct (Rlt_dec 0 m) as [Hm|Hm].
  - pose proof (np_max_bounds dm m Em) as Hle.
    pose proof (distance_nonneg (map3 (fun v => (1 - v)%Z) tgt)) as Hge.
    fold dm in Hge.
    intros x y z v Hc. rewrite cell_map3 in Hc.
    destruct (cell dm x y z) as [d|] eqn:Ed; [|done]. injection Hc as <-.
    specialize (Hle x y z d Ed). specialize (Hge x y z d Ed). simpl in Hle, Hge.
    unfold unit_range.
    assert (0 <= d / m <= 1); [|lra]. split.
    + apply Rmult_le_pos; [done|]. apply Rlt_le. by apply Rinv_0_lt_compat.
    + apply (Rmult_le_reg_r m); [done|]. field_simplify; lra.
  - eapply all_cells_map3; [exact Hb|].
    intros v [-> | ->]; unfold unit_range; simpl; lra.
Qed.

Lemma cell_distance_transform_edt (a : vol) x y z :
  (x < length a)%nat -> (y < length a)%nat -> (z < length a)%nat ->
  cell (distance_transform_edt a) x y z
  = Some (sqrt (IZR (nearest_sq (background a)
                       (Z.of_nat x) (Z.of_nat y) (Z.of_nat z)))).
Proof using Type. intros. unfold distance_transform_edt. by rewrite cell_tab3. Qed.
End ScentSmoothing.

Lemma generate_scent_field_run e m :
  np_max (distance_transform_edt
            (map3 (fun v => 1 - v) (TextConditioned3DEnv.target e))) = Some m ->
  TextConditioned3DEnv._generate_scent_field e
  = (inr tt,
     TextConditioned3DEnv.with_scent
       (gaussian_filter (inverted_distance (TextConditioned3DEnv.target e) m)) e).
Proof.
  intros Hm.
  unfold TextConditioned3DEnv._generate_scent_field, bind, gets, lift, modify,
    ret, inverted_distance.
  by rewrite Hm.
Qed.

(** The scent field that [load_training_pair] leaves: the smoothed
    inverted distances to the painted target. *)
Lemma scent_after_load text voxels e :
  text_wf e -> 0 < TextConditioned3DEnv.grid_size e ->
  let t := fold_left (paint_voxel (TextConditioned3DEnv.grid_size e)) voxels
                     (fill3 0 (TextConditioned3DEnv.target e)) in
  exists m,
    np_max (distance_transform_edt (map3 (fun v => 1 - v) t)) = Some m /\
    TextConditioned3DEnv.target
      (snd (TextConditioned3DEnv.load_training_pair text voxels e)) = t /\
    TextConditioned3DEnv.scent_field
      (snd (TextConditioned3DEnv.load_training_pair text voxels e))
    = gaussian_filter (inverted_distance t m).
Proof.
  intros He Hn t. rewrite load_training_pair_as_scent by done. fold t.
  pose proof He as [Hs _ _ Ht _ _ _ _ _].
  assert (Hsh : shape3 (Z.to_nat (TextConditioned3DEnv.grid_size e)) t).
  { apply fold_paint_shape. by apply fill3_shape. }
  destruct (np_max_defined (Z.to_nat (TextConditioned3DEnv.grid_size e))
              (distance_transform_edt (map3 (fun v => 1 - v) t))) as [m Hm].
  { unfold distance_transform_edt.
    replace (length (map3 (fun v => 1 - v) t))
      with (Z.to_nat (TextConditioned3DEnv.grid_size e)); [apply tab3_shape|].
    symmetry. apply (map3_shape (fun v => 1 - v)) in Hsh. by destruct Hsh. }
  { lia. }
  exists m. split; [exact Hm|].
  rewrite (generate_scent_field_run _ m) by exact Hm. done.
Qed.

(** A cell that is closer to the target (or, for a target without cells,
    to SciPy's stand-in point) than some other cell has a positive scent
    after [load_training_pair]. *)
Lemma scent_positive text voxels e x y z x' y' z' :
  text_wf e -> 0 < TextConditioned3DEnv.grid_size e ->
  let n := Z.to_nat (TextConditioned3DEnv.grid_size e) in
  let t := fold_left (paint_voxel (TextConditioned3DEnv.grid_size e)) voxels
                     (fill3 0 (TextConditioned3DEnv.target e)) in
  let bg := background (map3 (fun v => 1 - v) t) in
  (x < n)%nat -> (y < n)%nat -> (z < n)%nat ->
  (x' < n)%nat -> (y' < n)%nat -> (z' < n)%nat ->
  0 <= nearest_sq bg (Z.of_nat x) (Z.of_nat y) (Z.of_nat z)
    < nearest_sq bg (Z.of_nat x') (Z.of_nat y') (Z.of_nat z') ->
  exists v,
    cell (TextConditioned3DEnv.scent_field
            (snd (TextConditioned3DEnv.load_training_pair text voxels e))) x y z
    = Some v /\ (0 < v)%R.
Proof.
  intros He Hn n t bg Hx Hy Hz Hx' Hy' Hz' Hlt.
  destruct (scent_after_load text voxels e He Hn) as (m & Hm & _ & Hsc).
  fold t in Hm, Hsc. rewrite Hsc.
  pose proof He as [Hs _ _ Ht Hb _ _ _ _].
  assert (Hsh : shape3 n t) by (apply fold_paint_shape; by apply fill3_shape).
  assert (Hbin : all_cells (fun c => c = 0 \/ c = 1) t).
  { apply fold_paint_binary. apply all_cells_fill3. by left. }
  assert (Hl1 : length (map3 (fun v => 1 - v) t) = n).
  { apply (map3_shape (fun v => 1 - v)) in Hsh. by destruct Hsh. }
  set (dm := distance_transform_edt (map3 (fun v => 1 - v) t)) in *.
  assert (Hd : cell dm x y z
               = Some (sqrt (IZR (nearest_sq bg (Z.of_nat x) (Z.of_nat y) (Z.of_nat z))))).
  { apply cell_distance_transform_edt; by rewrite Hl1. }
  assert (Hd' : cell dm x' y' z'
                = Some (sqrt (IZR (nearest_sq bg (Z.of_nat x') (Z.of_nat y')
                                     (Z.of_nat z'))))).
  { apply cell_distance_transform_edt; by rewrite Hl1. }
  set (d := sqrt (IZR (nearest_sq bg (Z.of_nat x) (Z.of_nat y) (Z.of_nat z)))) in *.
  set (d' := sqrt (IZR (nearest_sq bg (Z.of_nat x') (Z.of_nat y') (Z.of_nat z')))) in *.
  assert (Hdd : (0 <= d < d')%R).
  { split; [apply sqrt_pos|]. apply sqrt_lt_1_alt. split.
    - apply IZR_le. lia.
    - apply IZR_lt. lia. }
  pose proof (np_max_bounds dm m Hm x' y' z' d' Hd') as Hle. simpl in Hle.
  assert (Hmpos : (0 < m)%R) by lra.
  assert (Hlen : length (inverted_distance t m) = n).
  { unfold inverted_distance. fold dm. destruct (Rlt_dec 0 m); [|lra].
    pose proof (map3_shape (fun d0 => (1 - d0 / m)%R) n dm) as [H _]; [|done].
    unfold dm, distance_transform_edt. rewrite Hl1. apply tab3_shape. }
  assert (Hval : at3 (inverted_distance t m) x y z = (1 - d / m)%R).
  { apply at3_cell. unfold inverted_distance. fold dm.
    destruct (Rlt_dec 0 m); [|lra]. by rewrite cell_map3, Hd. }
  pose proof (gaussian_filter_ge (inverted_distance t m) n x y z
                (inverted_distance_unit t m Hbin Hm) Hlen Hx Hy Hz) as Hge.
  rewrite Hval in Hge.
  exists (at3 (gaussian_filter (inverted_distance t m)) x y z). split.
  - apply (cell_at3 _ n); [by apply gaussian_filter_shape|done..].
  - pose proof (weight_pos 0) as Hw.
    assert (0 < 1 - d / m)%R.
    { assert (d / m < 1)%R; [|lra].
      apply (Rmult_lt_reg_r m); [done|]. field_simplify; lra. }
    assert (0 < weight 0 * (1 - d / m))%R by (by apply Rmult_lt_0_compat).
    assert (0 < weight 0 * (weight 0 * (1 - d / m)))%R by (by apply Rmult_lt_0_compat).
    assert (0 < weight 0 * (weight 0 * (weight 0 * (1 - d / m))))%R
      by (by apply Rmult_lt_0_compat).
    lra.
Qed.

(** C7, at the failing input: [env = TextConditioned3DEnv(num_agents=2,
    grid_size=8, local_obs_size=3)] followed by
    [env.load_training_pair("empty", [])].  The call returns and the target
    has no occupied cell, but the scent field is not all-zero: its value
    at cell [(0, 0, 0)] is positive.  The distance transform of the
    all-ones array [1 - target] is positive, so [max_dist > 0] and the
    branch that copies the target is not taken. *)
Theorem empty_target_scent_is_not_zero :
  fst (TextConditioned3DEnv.load_training_pair "empty" [] text_fresh) = inr tt /\
  occupied_cells (TextConditioned3DEnv.target text_empty_target) = 0 /\
  exists v,
    cell (TextConditioned3DEnv.scent_field text_empty_target) 0 0 0 = Some v /\
    (0 < v)%R.
Proof.
  assert (Hn : 0 < TextConditioned3DEnv.grid_size text_fresh)
    by (rewrite text_fresh_grid_size; lia).
  split.
  { destruct (TextLoad.load_training_pair_run "empty" [] text_fresh
                text_fresh_wf Hn) as [sc ->]. done. }
  split.
  { unfold text_empty_target.
    destruct (scent_after_load "empty" [] text_fresh text_fresh_wf Hn)
      as (m & _ & -> & _).
    vm_compute. reflexivity. }
  unfold text_empty_target.
  apply (scent_positive "empty" [] text_fresh 0 0 0 7 7 7 text_fresh_wf Hn);
    try (rewrite text_fresh_grid_size; simpl; lia).
  all: vm_compute; split; [discriminate|reflexivity].
Qed.

(** * C8: local observations under translation *)

Section LocalObsWindows.
Import TextConditioned3DEnv.
Variables (e1 e2 : env) (i1 i2 : nat) (p1 p2 : xyz) (half : Z).
Hypothesis He1 : text_wf e1.
Hypothesis He2 : text_wf e2.
Hypothesis Hp1 : agent_positions e1 !! i1 = Some p1.
Hypothesis Hp2 : agent_positions e2 !! i2 = Some p2.
Hypothesis Hl1 : local_size e1 = 2 * half + 1.
Hypothesis Hl2 : local_size e2 = 2 * half + 1.
Hypothesis Hh : 0 <= half < 1000.

Lemma windows_agree_same_obs :
  windows_agree e1 e2 p1 p2 half ->
  fst (_get_local_obs i1 e1) = fst (_get_local_obs i2 e2).
Proof using He1 He2 Hp1 Hp2 Hl1 Hl2 Hh.
  intros Hsame.
  rewrite (TextLocal.get_local_obs_spec e1 i1 p1 half) by done.
  rewrite (TextLocal.get_local_obs_spec e2 i2 p2 half) by done.
  simpl. rewrite Hl1, Hl2. f_equal. f_equal.
  - apply (arr3_ext (Z.to_nat (2 * half + 1))); [apply window_shape..|].
    intros x y z Hx Hy Hz. rewrite !window_cell by done. f_equal.
    apply Hsame; lia.
  - apply (arr3_ext (Z.to_nat (2 * half + 1))); [apply window_shape..|].
    intros x y z Hx Hy Hz. rewrite !window_cell by done. f_equal.
    apply Hsame; lia.
Qed.

Lemma same_obs_windows_agree :
  fst (_get_local_obs i1 e1) = fst (_get_local_obs i2 e2) ->
  windows_agree e1 e2 p1 p2 half.
Proof using He1 He2 Hp1 Hp2 Hl1 Hl2 Hh.
  rewrite (TextLocal.get_local_obs_spec e1 i1 p1 half) by done.
  rewrite (TextLocal.get_local_obs_spec e2 i2 p2 half) by done.
  simpl. rewrite Hl1, Hl2. intros Heq. injection Heq as Hg Hs.
  intros dx dy dz Hx Hy Hz.
  set (L := Z.to_nat (2 * half + 1)) in *.
  assert (HL : forall d, - half <= d <= half ->
                 (Z.to_nat (d + half) < L)%nat /\
                 Z.of_nat (Z.to_nat (d + half)) - half = d) by (intros; lia).
  destruct (HL dx Hx) as [Ha Ea]. destruct (HL dy Hy) as [Hb Eb].
  destruct (HL dz Hz) as [Hc Ec].
  split.
  - apply (f_equal (fun w => cell w (Z.to_nat (dx + half)) (Z.to_nat (dy + half))
                               (Z.to_nat (dz + half)))) in Hg.
    rewrite !window_cell in Hg by done. rewrite Ea, Eb, Ec in Hg.
    by injection Hg.
  - apply (f_equal (fun w => cell w (Z.to_nat (dx + half)) (Z.to_nat (dy + half))
                               (Z.to_nat (dz + half)))) in Hs.
    rewrite !window_cell in Hs by done. rewrite Ea, Eb, Ec in Hs.
    by injection Hs.
Qed.
End LocalObsWindows.

(** What [load_training_pair] leaves alone. *)
Lemma load_training_pair_rest text voxels e :
  text_wf e -> 0 < TextConditioned3DEnv.grid_size e ->
  let e' := snd (TextConditioned3DEnv.load_training_pair text voxels e) in
  text_wf e' /\
  TextConditioned3DEnv.grid_size e' = TextConditioned3DEnv.grid_size e /\
  TextConditioned3DEnv.local_size e' = TextConditioned3DEnv.local_size e /\
  TextConditioned3DEnv.grid e' = TextConditioned3DEnv.grid e /\
  TextConditioned3DEnv.agent_positions e' = TextConditioned3DEnv.agent_positions e.
Proof.
  intros He Hn e'. split.
  { by apply TextFacts.load_training_pair_keeps_wf. }
  subst e'.
  destruct (TextLoad.load_training_pair_run text voxels e He Hn) as [sc ->].
  done.
Qed.

Lemma text_started_at_1_wf : text_wf text_started_at_1.
Proof. apply TextFacts.reset_keeps_wf, text_fresh_wf. Qed.

Lemma text_dot_origin_state :
  text_wf text_dot_origin /\
  TextConditioned3DEnv.grid_size text_dot_origin = 8 /\
  TextConditioned3DEnv.local_size text_dot_origin = 2 * 1 + 1 /\
  TextConditioned3DEnv.agent_positions text_dot_origin !! 0%nat = Some (XYZ 0 0 0) /\
  TextConditioned3DEnv.grid text_dot_origin = full3 8 0 /\
  TextConditioned3DEnv.target text_dot_origin
  = fold_left (paint_voxel 8) [Voxel 0 0 0] (full3 8 0).
Proof.
  assert (Hn : TextConditioned3DEnv.grid_size text_started = 8)
    by (vm_compute; reflexivity).
  assert (Hpos : 0 < TextConditioned3DEnv.grid_size text_started) by (rewrite Hn; lia).
  destruct (load_training_pair_rest "dot" [Voxel 0 0 0] text_started
              text_started_wf Hpos) as (Hw & Hs & Hl & Hg & Ha).
  fold text_dot_origin in Hw, Hs, Hl, Hg, Ha.
  split; [exact Hw|]. split; [by rewrite Hs|].
  split; [rewrite Hl; exact text_started_local_size|].
  split; [rewrite Ha; vm_compute; reflexivity|].
  split; [rewrite Hg; vm_compute; reflexivity|].
  unfold text_dot_origin.
  destruct (scent_after_load "dot" [Voxel 0 0 0] text_started text_started_wf Hpos)
    as (m & _ & -> & _).
  vm_compute. reflexivity.
Qed.

Lemma text_dot_shifted_state :
  text_wf text_dot_shifted /\
  TextConditioned3DEnv.grid_size text_dot_shifted = 8 /\
  TextConditioned3DEnv.local_size text_dot_shifted = 2 * 1 + 1 /\
  TextConditioned3DEnv.agent_positions text_dot_shifted !! 0%nat = Some (XYZ 1 0 0) /\
  TextConditioned3DEnv.grid text_dot_shifted = full3 8 0 /\
  TextConditioned3DEnv.target text_dot_shifted
  = fold_left (paint_voxel 8) [Voxel 1 0 0] (full3 8 0).
Proof.
  assert (Hn : TextConditioned3DEnv.grid_size text_started_at_1 = 8)
    by (vm_compute; reflexivity).
  assert (Hpos : 0 < TextConditioned3DEnv.grid_size text_started_at_1)
    by (rewrite Hn; lia).
  destruct (load_training_pair_rest "dot" [Voxel 1 0 0] text_started_at_1
              text_started_at_1_wf Hpos) as (Hw & Hs & Hl & Hg & Ha).
  fold text_dot_shifted in Hw, Hs, Hl, Hg, Ha.
  split; [exact Hw|]. split; [by rewrite Hs|].
  split; [rewrite Hl; vm_compute; reflexivity|].
  split; [rewrite Ha; vm_compute; reflexivity|].
  split; [rewrite Hg; vm_compute; reflexivity|].
  unfold text_dot_shifted.
  destruct (scent_after_load "dot" [Voxel 1 0 0] text_started_at_1
              text_started_at_1_wf Hpos) as (m & _ & -> & _).
  vm_compute. reflexivity.
Qed.

(** The scent at cell [(0, 0, 0)] is positive when the target is the one
    voxel [(1, 0, 0)]. *)
Lemma text_dot_shifted_scent :
  exists v,
    cell (TextConditioned3DEnv.scent_field text_dot_shifted) 0 0 0 = Some v /\
    (0 < v)%R.
Proof.
  assert (Hn : TextConditioned3DEnv.grid_size text_started_at_1 = 8)
    by (vm_compute; reflexivity).
  assert (Hpos : 0 < TextConditioned3DEnv.grid_size text_started_at_1)
    by (rewrite Hn; lia).
  pose proof (scent_positive "dot" [Voxel 1 0 0] text_started_at_1 0 0 0 7 7 7
                text_started_at_1_wf Hpos) as Hsp.
  cbv zeta in Hsp. rewrite Hn in Hsp.
  apply Hsp; [lia|lia|lia|lia|lia|lia|].
  vm_compute. split; [discriminate|reflexivity].
Qed.




(** * C6: the scent field and the distance to the target *)

Section Taps.
Local Open Scope R_scope.

Lemma taps_sum (v : Z -> R) :
  Rsum (map (fun k => weight k * v k) taps)
  = weight (-2) * v (-2)%Z + weight (-1) * v (-1)%Z + weight 0 * v 0%Z
    + weight 1 * v 1%Z + weight 2 * v 2%Z.
Proof using Type.
  assert (taps = [-2; -1; 0; 1; 2]%Z) as -> by (vm_compute; reflexivity).
  simpl. lra.
Qed.

Lemma weights_five :
  weight (-2) + weight (-1) + weight 0 + weight 1 + weight 2 = 1.
Proof using Type.
  pose proof weights_sum_to_one as H.
  assert (taps = [-2; -1; 0; 1; 2]%Z) as E by (vm_compute; reflexivity).
  rewrite E in H. simpl in H. lra.
Qed.

(** A filtered value is at most 1 less what the inner taps miss. *)
Lemma pass_upper (v u : Z -> R) :
  (forall k, 0 <= v k <= 1) ->
  u (-1)%Z <= 1 - v (-1)%Z -> u 0%Z <= 1 - v 0%Z -> u 1%Z <= 1 - v 1%Z ->
  Rsum (map (fun k => weight k * v k) taps) <= 1 - inner_taps u.
Proof using Type.
  intros Hv H1 H2 H3. rewrite taps_sum. unfold inner_taps.
  pose proof weights_five as Hw.
  pose proof (weight_nonneg (-2)) as W1. pose proof (weight_nonneg (-1)) as W2.
  pose proof (weight_nonneg 0) as W3. pose proof (weight_nonneg 1) as W4.
  pose proof (weight_nonneg 2) as W5.
  pose proof (Hv (-2)%Z) as V1. pose proof (Hv 2%Z) as V5.
  assert (weight (-2) * v (-2)%Z <= weight (-2)) by nra.
  assert (weight 2 * v 2%Z <= weight 2) by nra.
  assert (weight (-1) * v (-1)%Z <= weight (-1) - weight (-1) * u (-1)%Z) by nra.
  assert (weight 0 * v 0%Z <= weight 0 - weight 0 * u 0%Z) by nra.
  assert (weight 1 * v 1%Z <= weight 1 - weight 1 * u 1%Z) by nra.
  lra.
Qed.

(** With the value 1 on every tap but the centre, filtering only scales
    what the centre misses. *)
Lemma pass_hole (v : Z -> R) :
  v (-2)%Z = 1 -> v (-1)%Z = 1 -> v 1%Z = 1 -> v 2%Z = 1 ->
  Rsum (map (fun k => weight k * v k) taps) = 1 - weight 0 * (1 - v 0%Z).
Proof using Type.
  intros H1 H2 H3 H4. rewrite taps_sum, H1, H2, H3, H4.
  pose proof weights_five. lra.
Qed.

Lemma pass_ones (v : Z -> R) :
  v (-2)%Z = 1 -> v (-1)%Z = 1 -> v 0%Z = 1 -> v 1%Z = 1 -> v 2%Z = 1 ->
  Rsum (map (fun k => weight k * v k) taps) = 1.
Proof using Type.
  intros H1 H2 H3 H4 H5. rewrite (pass_hole v H1 H2 H4 H5), H3. lra.
Qed.

Lemma reflect_inside n i :
  (0 <= i < Z.of_nat n)%Z -> reflect n i = Z.to_nat i.
Proof using Type.
  intros Hi. unfold reflect. rewrite Z.mod_small by lia.
  destruct (i <? Z.of_nat n)%Z eqn:E; [done|]. apply Z.ltb_ge in E. lia.
Qed.

Lemma shifted_0 x : shifted x 0 = x.
Proof using Type. unfold shifted. lia. Qed.

Lemma length_correlate_axis2 a : length (correlate_axis2 a) = length a.
Proof using Type. unfold correlate_axis2, tab3. by rewrite length_map, length_seq. Qed.

Section Field.
Variables (a : rvol) (n : nat).
Hypothesis Hlen : length a = n.

Lemma at3_correlate_axis0 x y z :
  (x < n)%nat -> (y < n)%nat -> (z < n)%nat ->
  at3 (correlate_axis0 a) x y z
  = Rsum (map (fun k => weight k * at3 a (reflect n (Z.of_nat x + k)) y z) taps).
Proof using Hlen.
  intros. unfold correlate_axis0. rewrite Hlen. by rewrite at3_tab3.
Qed.

Lemma at3_correlate_axis1 b x y z :
  length b = n -> (x < n)%nat -> (y < n)%nat -> (z < n)%nat ->
  at3 (correlate_axis1 b) x y z
  = Rsum (map (fun k => weight k * at3 b x (reflect n (Z.of_nat y + k)) z) taps).
Proof using Type.
  intros Hb ? ? ?. unfold correlate_axis1. rewrite Hb. by rewrite at3_tab3.
Qed.

Lemma at3_correlate_axis2 b x y z :
  length b = n -> (x < n)%nat -> (y < n)%nat -> (z < n)%nat ->
  at3 (correlate_axis2 b) x y z
  = Rsum (map (fun k => weight k * at3 b x y (reflect n (Z.of_nat z + k))) taps).
Proof using Type.
  intros Hb ? ? ?. unfold correlate_axis2. rewrite Hb. by rewrite at3_tab3.
Qed.

(** *** A cell whose 5 x 5 x 5 neighbourhood has the value 1 everywhere
    else *)
Section Hole.
Variables x y z : nat.
Hypothesis Hx : (2 <= x /\ x + 2 < n)%nat.
Hypothesis Hy : (2 <= y /\ y + 2 < n)%nat.
Hypothesis Hz : (2 <= z /\ z + 2 < n)%nat.
Hypothesis Hones :
  forall i j k, (-2 <= i <= 2)%Z -> (-2 <= j <= 2)%Z -> (-2 <= k <= 2)%Z ->
    (i, j, k) <> (0, 0, 0)%Z ->
    at3 a (shifted x i) (shifted y j) (shifted z k) = 1.

Lemma hole_axis0 j k :
  (-2 <= j <= 2)%Z -> (-2 <= k <= 2)%Z -> (j, k) <> (0, 0)%Z ->
  at3 (correlate_axis0 a) x (shifted y j) (shifted z k) = 1.
Proof using Hlen Hx Hy Hz Hones.
  intros Hj Hk Hne.
  rewrite at3_correlate_axis0 by (unfold shifted; lia).
  apply pass_ones; rewrite reflect_inside by lia;
    apply (Hones _ j k); (lia || congruence).
Qed.

Lemma hole_axis0_centre :
  at3 (correlate_axis0 a) x y z = 1 - weight 0 * (1 - at3 a x y z).
Proof using Hlen Hx Hy Hz Hones.
  rewrite at3_correlate_axis0 by lia.
  rewrite pass_hole.
  - rewrite reflect_inside by lia. by rewrite Z.add_0_r, Nat2Z.id.
  - rewrite reflect_inside by lia.
    rewrite <- (shifted_0 y) at 1. rewrite <- (shifted_0 z) at 1.
    apply (Hones (-2)%Z 0%Z 0%Z); (lia || congruence).
  - rewrite reflect_inside by lia.
    rewrite <- (shifted_0 y) at 1. rewrite <- (shifted_0 z) at 1.
    apply (Hones (-1)%Z 0%Z 0%Z); (lia || congruence).
  - rewrite reflect_inside by lia.
    rewrite <- (shifted_0 y) at 1. rewrite <- (shifted_0 z) at 1.
    apply (Hones 1%Z 0%Z 0%Z); (lia || congruence).
  - rewrite reflect_inside by lia.
    rewrite <- (shifted_0 y) at 1. rewrite <- (shifted_0 z) at 1.
    apply (Hones 2%Z 0%Z 0%Z); (lia || congruence).
Qed.

Lemma hole_axis1 k :
  (-2 <= k <= 2)%Z -> k <> 0%Z ->
  at3 (correlate_axis1 (correlate_axis0 a)) x y (shifted z k) = 1.
Proof using Hlen Hx Hy Hz Hones.
  intros Hk Hne.
  rewrite at3_correlate_axis1
    by (rewrite ?length_correlate_axis0; unfold shifted; lia).
  apply pass_ones; rewrite reflect_inside by lia;
    apply hole_axis0; (lia || congruence).
Qed.

Lemma hole_axis1_centre :
  at3 (correlate_axis1 (correlate_axis0 a)) x y z
  = 1 - weight 0 * (weight 0 * (1 - at3 a x y z)).
Proof using Hlen Hx Hy Hz Hones.
  rewrite at3_correlate_axis1 by (rewrite ?length_correlate_axis0; lia).
  rewrite pass_hole.
  - rewrite reflect_inside by lia. rewrite Z.add_0_r, Nat2Z.id.
    rewrite hole_axis0_centre. lra.
  - rewrite reflect_inside by lia. rewrite <- (shifted_0 z) at 1.
    apply hole_axis0; (lia || congruence).
  - rewrite reflect_inside by lia. rewrite <- (shifted_0 z) at 1.
    apply hole_axis0; (lia || congruence).
  - rewrite reflect_inside by lia. rewrite <- (shifted_0 z) at 1.
    apply hole_axis0; (lia || congruence).
  - rewrite reflect_inside by lia. rewrite <- (shifted_0 z) at 1.
    apply hole_axis0; (lia || congruence).
Qed.

(** Smoothing scales what such a cell misses by [weight 0 ^ 3]. *)
Lemma gaussian_filter_hole :
  at3 (gaussian_filter a) x y z
  = 1 - weight 0 * (weight 0 * (weight 0 * (1 - at3 a x y z))).
Proof using Hlen Hx Hy Hz Hones.
  unfold gaussian_filter.
  rewrite at3_correlate_axis2
    by (rewrite ?length_correlate_axis1, ?length_correlate_axis0; lia).
  rewrite pass_hole.
  - rewrite reflect_inside by lia. rewrite Z.add_0_r, Nat2Z.id.
    rewrite hole_axis1_centre. lra.
  - rewrite reflect_inside by lia. apply hole_axis1; lia.
  - rewrite reflect_inside by lia. apply hole_axis1; lia.
  - rewrite reflect_inside by lia. apply hole_axis1; lia.
  - rewrite reflect_inside by lia. apply hole_axis1; lia.
Qed.
End Hole.

(** *** A cell whose 3 x 3 x 3 neighbourhood misses at least [g] *)
Section Peak.
Hypothesis Hunit : all_cells (fun v => 0 <= v <= 1) a.
Variables x y z : nat.
Variable g : Z -> Z -> Z -> R.
Hypothesis Hx : (1 <= x /\ x + 1 < n)%nat.
Hypothesis Hy : (1 <= y /\ y + 1 < n)%nat.
Hypothesis Hz : (1 <= z /\ z + 1 < n)%nat.
Hypothesis Hg :
  forall i j k, (-1 <= i <= 1)%Z -> (-1 <= j <= 1)%Z -> (-1 <= k <= 1)%Z ->
    g i j k <= 1 - at3 a (shifted x i) (shifted y j) (shifted z k).

Lemma peak_axis0 j k :
  (-1 <= j <= 1)%Z -> (-1 <= k <= 1)%Z ->
  at3 (correlate_axis0 a) x (shifted y j) (shifted z k)
  <= 1 - inner_taps (fun i => g i j k).
Proof using Hlen Hunit Hx Hy Hz Hg.
  intros Hj Hk.
  rewrite at3_correlate_axis0 by (unfold shifted; lia).
  apply (pass_upper
           (fun i => at3 a (reflect n (Z.of_nat x + i)) (shifted y j) (shifted z k))
           (fun i => g i j k)).
  - intros i. by apply at3_unit.
  - rewrite reflect_inside by lia. apply Hg; lia.
  - rewrite reflect_inside by lia. apply Hg; lia.
  - rewrite reflect_inside by lia. apply Hg; lia.
Qed.

Lemma peak_axis1 k :
  (-1 <= k <= 1)%Z ->
  at3 (correlate_axis1 (correlate_axis0 a)) x y (shifted z k)
  <= 1 - inner_taps (fun j => inner_taps (fun i => g i j k)).
Proof using Hlen Hunit Hx Hy Hz Hg.
  intros Hk.
  rewrite at3_correlate_axis1
    by (rewrite ?length_correlate_axis0; unfold shifted; lia).
  apply (pass_upper
           (fun j => at3 (correlate_axis0 a) x (reflect n (Z.of_nat y + j))
                         (shifted z k))
           (fun j => inner_taps (fun i => g i j k))).
  - intros j. apply at3_unit. by apply correlate_axis0_unit.
  - rewrite reflect_inside by lia.
    pose proof (peak_axis0 (-1) k ltac:(lia) Hk) as H. unfold shifted in *. lra.
  - rewrite reflect_inside by lia.
    pose proof (peak_axis0 0 k ltac:(lia) Hk) as H. unfold shifted in *. lra.
  - rewrite reflect_inside by lia.
    pose proof (peak_axis0 1 k ltac:(lia) Hk) as H. unfold shifted in *. lra.
Qed.

(** Smoothing leaves such a cell at most 1 less the weighted sum of
    [g]. *)
Lemma gaussian_filter_peak :
  at3 (gaussian_filter a) x y z
  <= 1 - inner_taps (fun k => inner_taps (fun j => inner_taps (fun i => g i j k))).
Proof using Hlen Hunit Hx Hy Hz Hg.
  unfold gaussian_filter.
  rewrite at3_correlate_axis2
    by (rewrite ?length_correlate_axis1, ?length_correlate_axis0; lia).
  apply (pass_upper
           (fun k => at3 (correlate_axis1 (correlate_axis0 a)) x y
                         (reflect n (Z.of_nat z + k)))
           (fun k => inner_taps (fun j => inner_taps (fun i => g i j k)))).
  - intros k. apply at3_unit.
    by apply correlate_axis1_unit, correlate_axis0_unit.
  - rewrite reflect_inside by lia.
    pose proof (peak_axis1 (-1) ltac:(lia)) as H. unfold shifted in *. lra.
  - rewrite reflect_inside by lia.
    pose proof (peak_axis1 0 ltac:(lia)) as H. unfold shifted in *. lra.
  - rewrite reflect_inside by lia.
    pose proof (peak_axis1 1 ltac:(lia)) as H. unfold shifted in *. lra.
Qed.
End Peak.
End Field.
End Taps.
